(* ===== verification/_CoqProject ===== *)
-Q . S2P
Prelude.v
JsObject.v
JsEquality.v
Model.v
Problem.v
Backtracking.v
Compile.v
JsFragment.v
Manager.v
Angular.v
Benchmark.v
Scenarios.v
NgCspSpec.v
Build.v
