(* ===== verification/Prelude.v ===== *)
(** * A verification library for csp.js (fingo/csp.js)

    ** The program

    csp.js solves finite constraint-satisfaction problems and uses the
    solver to drive a product configurator.

    - [Csp()] of [src/dist/ngCsp.js] (lines 1-201) defines the core:
      [Variable(name, domain)] and [Constraint(variables, fn)], two plain
      records; [Problem], which owns a JS object [variables]
      (name -> Variable), an array [constraints] and a pluggable [solver],
      with [addVariable], [changeVariable], [addConstraint], [setSolver],
      [getSolution], [getSolutions] and [getSolutionIter]; and
      [RecursiveBacktrackingSolver], a depth-first search.  Its [solve]
      picks the first unassigned variable in the enumeration order of
      [variables] and tries each value of its domain.  [checkAssignment]
      checks every constraint whose scope is fully assigned, and the
      search recurses.  [getSolution] stops at the first complete
      assignment.  [getSolutions] collects a copy of each complete
      assignment in the solver's field [allAssignments].
    - [CspManager] ([src/src/ngCsp.js] lines 19-180; the whole file is
      repeated verbatim in [src/dist/ngCsp.js] lines 202-381) is the
      Angular service [$csp].
      Each query calls [prepare], which builds a fresh [DiscreteProblem]:
      one variable per option (its option list, or the value fixed by the
      current configuration unless it is the focused element), and one
      constraint per relation table.  [getConstrains] compiles each table
      by printing JS source text and calling [new Function].  The queries
      [getSolution], [getSolutions], [getValuesFor], [getSingleValueFor]
      and [checkCorrect] post-process the problem's solutions.

    - [angular.module('ngCsp', []).factory('$csp', ..)] ([src/src/ngCsp.js]
      lines 7-11) registers the manager with Angular: an injector of the
      module serves one [CspManager] object as [$csp], which the test
      suite obtains with [inject].
    - [src/gulpfile.js] is the build script: gulp 3 tasks [build] (bundle
      and minify [./src/*.js] into [dist/]), [minify], [dist] (depends on
      both) and [test] (karma).
    - [src/test/benchmark/benchmark.js] is a page that measures the
      solver: once the document is complete it runs [benchmarkMe], which
      builds two problems ([Setup1], [Setup2]), adds an output table and
      rows to the page and hands each row and each measured function to
      an external [benchmarker].

    ** Files, modules and what they model

    - [Prelude.v] (this file): JS exceptions [exn]; the state-and-exception
      monad [ST S A = S -> outcome S A] (a value with the new state, an
      exception with the state reached, or [NoFuel]) with the notations
      [let!] and [do!] in [csp_scope]; the hint and rewrite database [csp];
      list lemmas shared by the components.
    - [JsObject.v]: JS values [jsval] (undefined, null, booleans, integer
      numbers, strings, and the members of [Object.prototype] as
      [JBuiltin]); plain objects [jsobj] as association lists in insertion
      order, with [[Get]], [[Set]], [delete], [angular.copy] and the
      enumeration order of [for-in]/[Object.keys] ([own_keys]: array
      indices ascending, then insertion order); a method call [o.m(arg)]
      on a member of [Object.prototype] that an own property of [o] may
      shadow ([call_hasOwnProperty]).
    - [JsEquality.v]: the JS conversions the generated predicates rely on:
      [ToString] of values and arrays ([js_to_string], [array_to_string]),
      [ToNumber] of strings (a scanner of StringNumericLiteral), the
      comparisons [==] and [!==] against a literal, and ECMA-262's
      [IsLooselyEqual]/[IsStrictlyEqual] over all pairs of values as the
      reference they are proved equal to.
    - [Model.v]: [Var.t] and [Constraint.t] ([Variable], [Constraint]) with
      their [toString]; the
      argument list a constraint receives ([build_args]); and the abstract
      specification of a problem: [candidates] (complete assignments in
      search order), [solutions] (those on which every constraint holds)
      and [first_solution].  It also defines the well-formedness conditions
      [csp_ok]: variables stored under their own names, names that are not
      [Object.prototype] members, nonempty scopes, and constraint
      functions that return.
    - [Problem.v]: the type class [Solver] (what a [Problem] calls on its
      strategy) with its contract [SolverSpec], which
      [RecursiveBacktrackingSolver] meets ([RBS_solver_spec]); [Module Problem] with
      [Problem.t] and one definition per method of [Problem.prototype];
      a client's use of a problem as the step relation [Problem.step]
      (one method call, its exception caught) and [Problem.reachable].
    - [Backtracking.v]: [Module RBS], the [RecursiveBacktrackingSolver]:
      [check_constraints], [checkAssignment], [find_next_var], [try_values]
      and [solve] in [ST], over the shared [assignments] object and [this];
      the instances [RBS_solver] and [RBS_solver_spec]; [DiscreteProblem].
    - [Compile.v]: [getConstrains].  [clause_of]/[conj_of]/[disj_of] build
      the comparison of each tuple entry, and [clause_src], [conj_src],
      [body_src], [params_src] print the exact source text.  [new_Function]
      gives the text a meaning: [parse_body] reads the emitted fragment
      back and [eval_disj] evaluates it with JS [==] (including [ToNumber]
      of strings) and [!==].  The specification's data-driven [matcher] is
      defined here as well.
    - [JsFragment.v]: the meaning ECMA-262 gives the printed text, for the
      fragment of JavaScript any printed text falls in: [lex] (identifiers,
      decimal integers, string literals with their escapes, the
      punctuators of the comparisons and of [!], [&&], [||]), [parse]
      (precedence and left associativity of [||], [&&] and the equality
      operators), [eval_js] (with [IsLooselyEqual]/[IsStrictlyEqual] of
      [JsEquality.v]) and [new_Function_js] for the built-in
      [new Function]; a text leaving the fragment is classified as
      outside the model rather than given a meaning.
    - [Manager.v]: [Module Manager], one definition per method and helper
      of [CspManager] ([prepare], [isEmpty], [getSolution], ...), with the
      calls [currentConfiguration.hasOwnProperty(key)] and
      [value.hasOwnProperty(key)] made on the caller's objects, and the
      specification of the queries ([allowed_domain], [table_consistent]).
    - [Angular.v]: the module registry of [angular.module] and the
      injector (providers and instance cache as [gmap]s), a heap of
      allocated objects so that the identity of [$csp] is a reference,
      [new_CspManager] and the method table [CspManager_method] that
      dispatches to [Manager].
    - [Benchmark.v]: the benchmark page.  [Setup1], [Setup2] and the
      measured functions on the [Problem] API; the document as a store of
      element nodes ([gmap]) with [createElement], [appendChild],
      [getElementById] and [style.display], and its well-formedness
      [doc_wf]; the page's variables ([outerdiv], [currentdiv]) and the log
      of the calls on [benchmarker] as the state [page]; [pushChunkEl],
      [getOutputEl], [benchmarkMe] and [onreadystatechange].
    - [Scenarios.v]: small problems run through the [Problem] API, an
      example page, and the witnesses of the core theorems.
    - [NgCspSpec.v]: the harness of [src/test/ngCspSpec.js]
      ([spec_inject]), its configuration, the
      expectations of its tests, the witnesses of the theorems of
      [Compile.v] and [Manager.v], and the configurations that exhibit the
      findings about the generated comparisons.
    - [Build.v]: the gulpfile.  The file tree is a list of (path,
      contents); gulp's streams are computations of [ST] over it
      ([gulp_src], [concat], [gulp_dest], [rename], [uglify]); the tasks
      are [build_stream], [minify_stream], [test_stream] and the table
      [gulpfile_tasks]; gulp 3's scheduler is the step relation [gstep]
      with [sequencify], and [eventually] states liveness over all runs.

    ** What is proved (claim ids C1-C37)

    - The solver is correct.  On a problem with [csp_ok],
      [Problem.getSolutions] with the default solver returns exactly
      [solutions], in search order (C1).  [getSolution] returns
      [first_solution] (C2).  A returned assignment is characterised as
      complete, within the domains and consistent (C3).  Without
      constraints, the number of solutions is the product of the domain
      sizes (C10).  The proofs go through an invariant of the search (the
      assigned keys are a prefix of the enumeration order) and show the
      search restores [assignments] on every path.
    - Termination (C4): for any problem whose variables are well stored,
      even with throwing constraints, [solve] never exhausts its fuel.
    - What the solver does outside [csp_ok].  An exception thrown by a
      constraint escapes both queries (C25, by induction along the first
      descent of the search).  A constraint over names that
      [Object.prototype] has is called on the inherited members before
      those names are assigned, and can empty the result (C34).  The
      first variable searched is the first key of [for-in], which puts a
      numeral below 2^32 - 1 first (C9).
    - The problem's methods.  Every problem reachable by a client's calls
      from a well-formed one is well formed (C11, by rule induction on
      [Problem.step]), and keeps the variables and constraints of the
      start in order (C35).  [changeVariable] keeps the enumeration order
      (C12), and fails exactly on unknown names, with its error and the
      problem unchanged (C13).  [getSolutionIter] is eager (C19).
    - The compiler of relation tables.  The function built from text
      computes the [matcher] of the specification (C6); this rests on a
      print/parse round trip, stated for [new Function] itself (C29).
      The specialised reader agrees with ECMA-262's reading of the text
      on every escape-free table (C27), and an entry containing a quote
      is read as code: [a'||'b] makes the constraint accept every
      assignment (C28).  On printable tables, a compiled function returns
      a boolean or [undefined] or throws a [ReferenceError] for a missing
      parameter, nothing else (C33).  An empty tuple gives a
      [SyntaxError] (C16).  An empty table rejects every assignment (C17).
      Every row without negated or null entries is accepted (C18); for
      numeric entries this rests on [ToNumber(ToString n) = n]
      ([to_number_Z_to_string]).
    - The manager.  For a configuration with [config_ok] and a current
      configuration with no own [hasOwnProperty], [getSolutions] returns
      exactly the complete assignments within the allowed domains on which
      every table holds (C5).  [checkCorrect] tells whether one exists
      (C7), except with no option at all (C26).  [getValuesFor] returns
      the distinct values of the element in the solutions (C14), which are
      exactly the values some valid complete assignment gives it (C36),
      and [getSingleValueFor] the first of them (C15).  Every query throws a [TypeError] when the
      current configuration has an own [hasOwnProperty] that is not a
      function (C8), and when a table has an [undefined] entry (C31).
    - The Angular wrapper.  The test harness obtains, on any page where
      the registration has run, a fresh [CspManager] whose methods are the
      [Manager] functions (C30); the injector of [ngCsp] allocates one
      [CspManager] and serves that same object to every [get] of [$csp],
      over any sequence of [get]s (C32, an invariant of the injector).
    - The build script.  [build] writes the bundle of [./src/*.js] and its
      minified copy (C20); [minify] reads a path that does not exist and
      writes nothing (C21); [gulp dist] never finishes, because [build]
      and [minify] never call [done] (C22); [gulp test] finishes on every
      run, even when karma fails (C23).
    - The benchmark page.  On a well-formed complete page with [#output]
      and [#spinner], the handler runs [benchmarkMe] to the end: the
      benchmarker receives its [config] and [measure] calls in source
      order, every measured function returns, [#output] gains two tables
      of two and one rows, the spinner ends hidden and the document stays
      well formed (C24, over an invariant of [appendChild] of new nodes).
      Without [#output], [pushChunkEl] throws before any call and the
      spinner stays shown (C37).
    - Evaluated examples, without a claim id: the test suite's scenarios
      A, B and C ([NgCspSpec.v]); a tuple longer than [properties] (an
      instance of C33); a whole search with numeric names; the comparisons
      [!==] and [==] on numbers and numeric strings; an injected entry and
      a lone quote read by [new Function] (instances of C28); [null]
      entries; [undefined] domain values; a silent [changeVariable] of
      [toString]; the benchmark [Setup1]'s two solutions and [Setup2]'s
      size (26 variables, not the 50 its measurement's name says); and
      [gulp build] run on the repository's tree.  The lemmas
      [loose_eq_str_ecma], [loose_eq_bool_ecma] and [strict_neq_str_ecma]
      check the model of the emitted comparisons against ECMA-262's
      [IsLooselyEqual] and [IsStrictlyEqual].

    ** Bounds and fuel

    [solve] is recursive and is modelled with fuel.  The fuel
    [solve_fuel p] is one more than the number of variables: each level
    assigns a fresh variable, and the last level finds the assignment
    complete.  C4 proves that this fuel is never exhausted, and C1/C2 that
    the result is the specified one.  The parser of [Compile.v] gets fuel
    one more than the length of the text, since each item consumes at
    least one character.  Numbers are JS numbers that are integers, kept
    as [Z]; [==] compares the exact decimal value of a numeric string
    with them, which agrees with JS's double arithmetic for safe integers
    and numerals of at most 15 significant digits.  Strings are Latin-1
    code units.

    ** Fuel of the other components

    [IsLooselyEqual] is written with fuel bounding its conversion steps;
    four suffice for every pair of values ([is_loosely_equal_fuel]), the
    fuel the comparison lemmas use.  [sequencify] gets the number of tasks
    plus one: a chain of dependencies visits each task at most once.
    The lexer of [JsFragment.v] gets the length of the text plus one,
    since each step consumes a character, and its result does not depend
    on any larger fuel ([lex_fuel]).  [new_Function_js] gives the parser
    five steps per token plus five: a parse step either consumes a token
    or descends one of the four precedence levels, and [disj_fuel] shows
    this suffices for every printed body (C27 is proved at that fuel).

    ** Not modelled

    The Jasmine runner of the tests ([describe], [it], [expect] only
    report).  Of the benchmark, what [benchmarker] (a library outside the
    repository) does with the calls it receives: its timing loop and
    what it writes into the rows; the DOM operations are modelled from
    their documented behaviour, for element nodes only (no attributes but
    the class, no text, no events), and [console.log] is output only.  Of
    Angular, only what the code uses is modelled: modules with their
    invoke queue of factories, and an injector of the loaded modules
    (no services of [ng], no dependencies injected into factories).  The copy of
    [CspManager] in [src/dist/ngCsp.js] (lines 220-381) is the same text
    as [src/src/ngCsp.js] (lines 19-180) and is modelled once, from the
    latter.  In the build script, the minifier's output and karma's run
    are parameters ([uglify_js], [karma_result]): their code is not part
    of the repository; gulp's plugins are modelled from their documented
    behaviour, and [gulp.src] lists files in the order of the tree.  A
    stream's writes happen when its task starts.  [Compile.new_Function]
    reads relation values whose text contains a quote, a backslash or a
    line break as a [SyntaxError]; [JsFragment.v] reads them as JS does
    (C28), except texts that leave its fragment (other operators, calls,
    the escapes [\x], [\u] and octal ones), which it classifies as
    outside the model.
    Values that are objects other than [Object.prototype]'s members, [NaN]
    and non-integer numbers are not represented.  A variable named
    [__proto__] is not modelled faithfully: [obj_set] stores it as an
    ordinary key, whereas JS's [[Set]] of [__proto__] replaces the
    prototype of [variables] ([addVariable]) or, in [changeVariable],
    writes [Object.prototype.domain], a property every [for-in] of the
    program then lists; this global effect has no place in the model's
    state (it is reported as a finding).  Numbers are unbounded integers:
    JS prints numbers from [1e21] on in exponent form and rounds beyond
    [2^53], which [Z_to_string] and [==] on long numerals do not do.
*)

From stdpp Require Export base list strings sets.
From Stdlib Require Export ZArith.

Declare Scope csp_scope.
Delimit Scope csp_scope with csp.

(** ** JS exceptions

    The values the modelled code throws: the engine's [TypeError],
    [ReferenceError] and [SyntaxError], an [Error] object built by
    [new Error(msg)], and the plain object literal
    [{error: .., message: ..}] thrown by [getSolutionIter]. *)
Inductive exn : Type :=
| TypeError (msg : string)
| ReferenceError (msg : string)
| SyntaxError (msg : string)
| RangeError (msg : string)
| ErrorObj (msg : string)
| ErrorRecord (error message : string).

#[export] Instance exn_eq_dec : EqDecision exn.
Proof. solve_decision. Defined.

(** ** The state-and-exception monad

    A computation of [ST S A] runs on a state [S] and either returns a
    value with the new state, or throws an exception {e with the state it
    had reached} (a JS exception does not roll back the mutations done
    before the [throw]), or runs out of fuel ([NoFuel]): the last outcome
    only exists in the fuel-bounded models of recursive functions, and the
    termination theorems show it is never reached with the fuel the model
    supplies. *)
Inductive outcome (S A : Type) : Type :=
| Done (a : A) (s : S)
| Raise (e : exn) (s : S)
| NoFuel.
Arguments Done {S A} a s.
Arguments Raise {S A} e s.
Arguments NoFuel {S A}.

Definition ST (S A : Type) : Type := S -> outcome S A.

Definition st_ret {S A} (a : A) : ST S A := fun s => Done a s.

Definition st_bind {S A B} (m : ST S A) (k : A -> ST S B) : ST S B :=
  fun s =>
    match m s with
    | Done a s' => k a s'
    | Raise e s' => Raise e s'
    | NoFuel => NoFuel
    end.

Definition st_get {S} : ST S S := fun s => Done s s.
Definition st_gets {S A} (f : S -> A) : ST S A := fun s => Done (f s) s.
Definition st_modify {S} (f : S -> S) : ST S unit := fun s => Done tt (f s).
Definition st_throw {S A} (e : exn) : ST S A := fun s => Raise e s.
Definition st_nofuel {S A} : ST S A := fun _ => NoFuel.

Notation "'let!' x ':=' m 'in' k" := (st_bind m (fun x => k))
  (at level 10, x name, m at level 100, k at level 200) : csp_scope.
Notation "'do!' m ';' k" := (st_bind m (fun _ => k))
  (at level 10, m at level 100, k at level 200) : csp_scope.

Open Scope csp_scope.

(** The value an outcome returns, if it returns one. *)
Definition outcome_value {S A} (o : outcome S A) : option A :=
  match o with Done a _ => Some a | _ => None end.

Definition outcome_state {S A} (o : outcome S A) : option S :=
  match o with Done _ s | Raise _ s => Some s | NoFuel => None end.

(** ** Monad laws and the rewriting database [csp] *)

Create HintDb csp discriminated.
Create Rewrite HintDb csp.

Section monad_laws.
Context {S A B C : Type}.

Lemma st_bind_ret_l (a : A) (k : A -> ST S B) s :
    st_bind (st_ret a) k s = k a s.
  Proof. reflexivity. Qed.

Lemma st_bind_ret_r (m : ST S A) s : st_bind m st_ret s = m s.
  Proof. unfold st_bind. by destruct (m s). Qed.

Lemma st_bind_assoc (m : ST S A) (f : A -> ST S B) (g : B -> ST S C) s :
    st_bind (st_bind m f) g s = st_bind m (fun a => st_bind (f a) g) s.
  Proof. unfold st_bind. by destruct (m s). Qed.

Lemma st_bind_Done (m : ST S A) (k : A -> ST S B) s a s' :
    m s = Done a s' -> st_bind m k s = k a s'.
  Proof. unfold st_bind. by intros ->. Qed.

Lemma st_bind_Raise (m : ST S A) (k : A -> ST S B) s e s' :
    m s = Raise e s' -> st_bind m k s = Raise e s'.
  Proof. unfold st_bind. by intros ->. Qed.

Lemma st_bind_NoFuel (m : ST S A) (k : A -> ST S B) s :
    m s = NoFuel -> st_bind m k s = NoFuel.
  Proof. unfold st_bind. by intros ->. Qed.

  (** A bound computation runs out of fuel only if one of its parts does. *)
Lemma st_bind_not_NoFuel (m : ST S A) (k : A -> ST S B) s :
    m s <> NoFuel ->
    (forall a s', m s = Done a s' -> k a s' <> NoFuel) ->
    st_bind m k s <> NoFuel.
  Proof. unfold st_bind. destruct (m s); naive_solver. Qed.
End monad_laws.

#[export] Hint Rewrite @st_bind_ret_l @st_bind_assoc : csp.

(** [st_simpl] unfolds the monad's primitive operations so that [simpl]
    can run a computation on a concrete or partly concrete state. *)
Ltac st_simpl :=
  unfold st_bind, st_ret, st_get, st_gets, st_modify, st_throw, st_nofuel in *;
  simpl in *.

(** ** Generic list lemmas *)

Section lists.
Context {A B : Type}.

Lemma filter_flat_map (p : B -> bool) (f : A -> list B) (l : list A) :
    List.filter p (flat_map f l) = flat_map (fun x => List.filter p (f x)) l.
  Proof.
    induction l as [|x l IH]; simpl; [done|].
    by rewrite List.filter_app, IH.
  Qed.

Lemma map_flat_map {C} (g : B -> C) (f : A -> list B) (l : list A) :
    map g (flat_map f l) = flat_map (fun x => map g (f x)) l.
  Proof.
    induction l as [|x l IH]; simpl; [done|].
    by rewrite map_app, IH.
  Qed.

  (** [List.filter] with a predicate that no element satisfies. *)
Lemma filter_all_false (p : B -> bool) (l : list B) :
    (forall y, In y l -> p y = false) -> List.filter p l = [].
  Proof.
    induction l as [|y l IH]; intros Hp; simpl; [done|].
    rewrite Hp by (left; done). apply IH. intros; apply Hp; by right.
  Qed.

  (** A [flat_map] whose branches are all empty is empty. *)
Lemma flat_map_nil (f : A -> list B) (l : list A) :
    (forall x, x ∈ l -> f x = []) -> flat_map f l = [].
  Proof.
    induction l as [|x l IH]; intros Hf; simpl; [done|].
    rewrite Hf, IH; [done| |]; set_solver.
  Qed.

Lemma flat_map_ext_in (f g : A -> list B) (l : list A) :
    (forall x, x ∈ l -> f x = g x) -> flat_map f l = flat_map g l.
  Proof.
    induction l as [|x l IH]; intros Hfg; simpl; [done|].
    rewrite Hfg, IH; [done| |]; set_solver.
  Qed.

Lemma length_flat_map_const (f : A -> list B) (l : list A) n :
    (forall x, length (f x) = n) -> length (flat_map f l) = length l * n.
  Proof.
    intros Hf. induction l as [|x l IH]; simpl; [done|].
    rewrite length_app, Hf, IH. lia.
  Qed.
  (** [List.find] returns the first element that passes. *)
Lemma find_app_first (p : A -> bool) (l1 : list A) x l2 :
    (forall y, In y l1 -> p y = false) -> p x = true ->
    List.find p (l1 ++ x :: l2) = Some x.
  Proof.
    induction l1 as [|y l1 IH]; intros Hl1 Hx; simpl; [by rewrite Hx|].
    rewrite Hl1 by (left; done). apply IH; [|done]. intros; apply Hl1; by right.
  Qed.
End lists.

(** ** Generic string lemmas and the rewriting database [str] *)

Local Open Scope string_scope.

Lemma append_String c s r : String c s ++ r = String c (s ++ r).
Proof. reflexivity. Qed.

Lemma append_Empty r : EmptyString ++ r = r.
Proof. reflexivity. Qed.

Lemma append_assoc (s1 s2 s3 : string) : s1 ++ s2 ++ s3 = (s1 ++ s2) ++ s3.
Proof. induction s1 as [|c s1 IH]; [done|]. rewrite !append_String, IH. done. Qed.

Lemma length_append (s1 s2 : string) :
  String.length (s1 ++ s2) = String.length s1 + String.length s2.
Proof. induction s1 as [|c s1 IH]; [done|]. rewrite append_String. simpl. by rewrite IH. Qed.

Create Rewrite HintDb str.
#[export] Hint Rewrite append_String append_Empty : str.
#[export] Hint Rewrite <- append_assoc : str.

Ltac str_simpl := autorewrite with str in *; simpl in *.
