(* ===== verification/JsObject.v ===== *)
(** * JS values and ordinary JS objects

    The solver keeps all its data in plain JS objects used as dictionaries
    ([this.variables = {}], the [assignments] object threaded through
    [solve]) and walks them with [for..in] and [Object.keys].  This file
    models the part of ECMAScript those operations rely on:
    - [jsval], the JS values that occur as domain values and predicate
      arguments, with [truthy] (the [ToBoolean] conversion used by
      [if (!fn.apply(..))]);
    - property keys and the {e array index} test of ECMAScript (a canonical
      decimal string of a number below 2^32 - 1), with its bounds;
    - [jsobj V], an ordinary object with data properties, as the list of
      its own properties in insertion order, with [own_keys] (the order of
      [Object.keys] and of [for..in], array indices first in ascending
      numeric order and the other keys in insertion order), [obj_lookup],
      [obj_set] (the [[Set]] of a data property: in place when the key is
      present, appended otherwise), [obj_delete] and [obj_copy] (the
      snapshot [angular.copy] makes of a flat object);
    - [js_get], a property read that falls back on the members of
      [Object.prototype] ([toString], [constructor], ...), which every
      object literal inherits. *)

From S2P Require Import Prelude.
From Stdlib Require Import DecimalString DecimalN NArith Sorted.

(** ** Values *)

(** [JBuiltin name] is the built-in object reached through the property
    [name] of [Object.prototype] (a method such as [toString], or the
    prototype itself for [__proto__]); the only other non-primitive
    values the modelled code handles are the objects it builds, which are
    modelled by their own types. *)
Inductive jsval : Type :=
| JUndefined
| JNull
| JBool (b : bool)
| JNum (n : Z)
| JStr (s : string)
| JBuiltin (name : string).

#[export] Instance jsval_eq_dec : EqDecision jsval.
Proof. solve_decision. Defined.

(** [ToBoolean]; numbers are modelled by their integer values, so the
    falsy [NaN] does not occur. *)
Definition truthy (v : jsval) : bool :=
  match v with
  | JUndefined | JNull => false
  | JBool b => b
  | JNum n => negb (Z.eqb n 0)
  | JStr s => negb (String.eqb s "")
  | JBuiltin _ => true
  end.

(** [typeof v != "undefined"] *)
Definition is_defined (v : jsval) : bool :=
  match v with JUndefined => false | _ => true end.

(** ** Property keys and array indices *)

(** [ToString] of a non-negative integer. *)
Definition N_to_string (n : N) : string :=
  NilZero.string_of_uint (N.to_uint n).

(** The number a key denotes when it is a canonical decimal numeral, that
    is when printing the number back gives the key ("7" but not "07",
    "+7", "7.0" or ""). *)
Definition canonical_index (k : string) : option N :=
  match NilZero.uint_of_string k with
  | Some d =>
      let n := N.of_uint d in
      if bool_decide (N_to_string n = k) then Some n else None
  | None => None
  end.

(** Array indices stop at 2^32 - 2: the key "4294967295" is an ordinary
    string key. *)
Definition array_index_limit : N := 4294967295.

Definition is_array_index (k : string) : bool :=
  match canonical_index k with
  | Some n => bool_decide (n < array_index_limit)%N
  | None => false
  end.

Definition index_value (k : string) : N := default 0%N (canonical_index k).

(** ** Ordinary objects *)

Record jsobj (V : Type) : Type := mkobj { props : list (string * V) }.
Arguments mkobj {V} props.
Arguments props {V} j.

#[export] Instance jsobj_eq_dec `{EqDecision V} : EqDecision (jsobj V).
Proof. solve_decision. Defined.

Fixpoint assoc_lookup {V} (k : string) (l : list (string * V)) : option V :=
  match l with
  | [] => None
  | (k', v) :: l' => if bool_decide (k = k') then Some v else assoc_lookup k l'
  end.

(** Insertion sort of array-index keys by numeric value. *)
Fixpoint insert_index_key (k : string) (ks : list string) : list string :=
  match ks with
  | [] => [k]
  | k' :: ks' =>
      if bool_decide (index_value k <= index_value k')%N then k :: ks
      else k' :: insert_index_key k ks'
  end.

Definition sort_index_keys (ks : list string) : list string :=
  fold_right insert_index_key [] ks.

(** The order of OrdinaryOwnPropertyKeys, used by [Object.keys] and
    [for..in] on objects whose prototype has no enumerable property. *)
Definition order_keys (ks : list string) : list string :=
  sort_index_keys (List.filter is_array_index ks)
  ++ List.filter (fun k => negb (is_array_index k)) ks.

Section jsobj_ops.
Context {V : Type}.
Implicit Types (o : jsobj V) (k : string) (v : V).

Definition obj_empty : jsobj V := mkobj [].

  (** The keys in insertion order. *)
Definition obj_keys o : list string := map fst (props o).

Definition own_keys o : list string := order_keys (obj_keys o).

Definition obj_lookup o k : option V := assoc_lookup k (props o).

Definition obj_has o k : bool := bool_decide (k ∈ obj_keys o).

  (** [o[k] = v] *)
Definition obj_set o k v : jsobj V :=
    if obj_has o k
    then mkobj (map (fun p => if bool_decide (p.1 = k) then (k, v) else p) (props o))
    else mkobj (props o ++ [(k, v)]).

  (** [delete o[k]] *)
Definition obj_delete o k : jsobj V :=
    mkobj (List.filter (fun p => negb (bool_decide (p.1 = k))) (props o)).

  (** A fresh object with the same own properties, created in the
      enumeration order of [o] ([angular.copy] of a flat object). *)
Definition obj_copy o : jsobj V :=
    mkobj (omap (fun k => pair k <$> obj_lookup o k) (own_keys o)).

  (** Keys are unique. *)
Definition obj_wf o : Prop := NoDup (obj_keys o).
End jsobj_ops.

(** The members of [Object.prototype] a property read can reach. *)
Definition object_prototype_members : list string :=
  ["constructor"; "toString"; "toLocaleString"; "valueOf"; "hasOwnProperty";
   "isPrototypeOf"; "propertyIsEnumerable"; "__defineGetter__";
   "__defineSetter__"; "__lookupGetter__"; "__lookupSetter__"; "__proto__"].

Definition proto_member (k : string) : bool :=
  bool_decide (k ∈ object_prototype_members).

(** [o[k]] on an object literal: an own property, else an inherited member
    of [Object.prototype], else [undefined]. *)
Definition js_get (o : jsobj jsval) (k : string) : jsval :=
  match obj_lookup o k with
  | Some v => v
  | None => if proto_member k then JBuiltin k else JUndefined
  end.

(** ** Calling a method of [Object.prototype]

    [o.m(arg)] reads [m] on [o] before calling it, so an own property
    named [m] shadows [Object.prototype.m].  [method_ref] is what the
    read finds: the inherited member, a member of [Object.prototype]
    stored in [o] (the only functions a modelled value can hold), or a
    value that is not callable. *)
Inductive method_ref : Type :=
| MInherited
| MBuiltin (f : string)
| MNotCallable.

Definition method_of (own : option jsval) : method_ref :=
  match own with
  | None => MInherited
  | Some (JBuiltin f) =>
      if proto_member f && negb (String.eqb f "__proto__") then MBuiltin f else MNotCallable
  | Some _ => MNotCallable
  end.

(** The truthiness of [Object.prototype[f].call(o, arg)] for a property
    key [arg], where [has_own] tells the own properties of [o], for every
    member but [toLocaleString]: [hasOwnProperty] and
    [propertyIsEnumerable] test an own (enumerable) property;
    [isPrototypeOf] of a primitive is [false]; [__lookupGetter__] and
    [__lookupSetter__] find the accessor [Object.prototype.__proto__] only;
    [__defineGetter__] and [__defineSetter__] throw on the missing
    function argument; [constructor], [toString] and [valueOf] return an
    object or a nonempty string.  ([__proto__] reads [Object.prototype]
    itself, which [method_of] classifies as not callable.) *)
Definition proto_call_simple (has_own : string -> bool) (f arg : string) : exn + bool :=
  match f with
  | "hasOwnProperty" | "propertyIsEnumerable" => inr (has_own arg)
  | "isPrototypeOf" => inr false
  | "__lookupGetter__" | "__lookupSetter__" => inr (String.eqb arg "__proto__" && negb (has_own arg))
  | "__defineGetter__" => inl (TypeError "Object.prototype.__defineGetter__: Expecting function")
  | "__defineSetter__" => inl (TypeError "Object.prototype.__defineSetter__: Expecting function")
  | "constructor" | "toString" | "valueOf" => inr true
  | _ => inl (TypeError "is not a function")
  end.

(** [toLocaleString] calls [this.toString()] ([toString_ref] is what
    that read finds); when that is [toLocaleString] again the calls never
    end and the engine throws a [RangeError]. *)
Definition proto_call (has_own : string -> bool) (toString_ref : method_ref)
    (f arg : string) : exn + bool :=
  match f with
  | "toLocaleString" =>
      match toString_ref with
      | MInherited => inr true
      | MBuiltin "toLocaleString" => inl (RangeError "Maximum call stack size exceeded")
      | MBuiltin g => proto_call_simple has_own g "undefined"
      | MNotCallable => inl (TypeError "this.toString is not a function")
      end
  | _ => proto_call_simple has_own f arg
  end.

(** [name.hasOwnProperty(key)], for the object [name] whose own
    properties [has_own] tells and whose [hasOwnProperty] and [toString]
    reads find [hop_ref] and [toString_ref]. *)
Definition call_hasOwnProperty (name : string) (has_own : string -> bool)
    (hop_ref toString_ref : method_ref) (key : string) : exn + bool :=
  match hop_ref with
  | MInherited => inr (has_own key)
  | MBuiltin f => proto_call has_own toString_ref f key
  | MNotCallable => inl (TypeError (name ++ ".hasOwnProperty is not a function"))
  end.

(** ** Array indices: printing and parsing *)

Lemma N_to_uint_not_Nil (n : N) : N.to_uint n <> Decimal.Nil.
Proof.
  intros Hnil. pose proof (Unsigned.of_to n) as Hn.
  rewrite Hnil in Hn. simpl in Hn. subst n. discriminate.
Qed.

(** Printing a number and reading it back as a key gives the number. *)
Lemma canonical_index_N_to_string (n : N) :
  canonical_index (N_to_string n) = Some n.
Proof.
  unfold canonical_index, N_to_string.
  rewrite NilZero.usu by apply N_to_uint_not_Nil.
  rewrite Unsigned.of_to, bool_decide_eq_true_2; done.
Qed.

Lemma canonical_index_Some (k : string) (n : N) :
  canonical_index k = Some n -> k = N_to_string n.
Proof.
  unfold canonical_index.
  destruct (NilZero.uint_of_string k) as [d|]; [|done].
  case_bool_decide; naive_solver.
Qed.

(** ** Key order *)

Definition idx_le (k1 k2 : string) : Prop := (index_value k1 <= index_value k2)%N.

Lemma insert_index_key_perm (k : string) (ks : list string) :
  insert_index_key k ks ≡ₚ k :: ks.
Proof.
  induction ks as [|k' ks IH]; simpl; [done|].
  case_bool_decide; [done|].
  rewrite IH. apply perm_swap.
Qed.

Lemma sort_index_keys_perm (ks : list string) : sort_index_keys ks ≡ₚ ks.
Proof.
  induction ks as [|k ks IH]; simpl; [done|].
  by rewrite insert_index_key_perm, IH.
Qed.

Lemma filter_split_perm (f : string -> bool) (ks : list string) :
  List.filter f ks ++ List.filter (fun k => negb (f k)) ks ≡ₚ ks.
Proof.
  induction ks as [|k ks IH]; simpl; [done|].
  destruct (f k); simpl; [by rewrite IH|].
  by rewrite <- Permutation_middle, IH.
Qed.

Lemma order_keys_perm (ks : list string) : order_keys ks ≡ₚ ks.
Proof.
  unfold order_keys. by rewrite sort_index_keys_perm, filter_split_perm.
Qed.

Lemma insert_index_key_sorted (k : string) (ks : list string) :
  Sorted idx_le ks -> Sorted idx_le (insert_index_key k ks).
Proof.
  induction 1 as [|k' ks Hs IH Hhd]; simpl; [repeat constructor|].
  case_bool_decide as Hle.
  - constructor; [by constructor|]. by constructor.
  - constructor; [done|].
    destruct ks as [|k'' ks]; simpl.
    + constructor. unfold idx_le in *. lia.
    + inversion Hhd; subst. case_bool_decide; constructor; unfold idx_le in *; lia.
Qed.

Lemma sort_index_keys_sorted (ks : list string) :
  Sorted idx_le (sort_index_keys ks).
Proof.
  induction ks; simpl; [constructor|]. by apply insert_index_key_sorted.
Qed.

Lemma sort_index_keys_id (ks : list string) :
  Sorted idx_le ks -> sort_index_keys ks = ks.
Proof.
  induction 1 as [|k ks Hs IH Hhd]; simpl; [done|].
  rewrite IH. destruct ks as [|k' ks]; simpl; [done|].
  inversion Hhd; subst. by rewrite bool_decide_eq_true_2.
Qed.

Lemma filter_id_all (f : string -> bool) (ks : list string) :
  (forall k, In k ks -> f k = true) -> List.filter f ks = ks.
Proof.
  induction ks as [|k ks IH]; intros Hall; simpl; [done|].
  rewrite Hall by (left; done). f_equal. apply IH. intros; apply Hall; by right.
Qed.

Lemma filter_none (f : string -> bool) (ks : list string) :
  (forall k, In k ks -> f k = false) -> List.filter f ks = [].
Proof.
  induction ks as [|k ks IH]; intros Hnone; simpl; [done|].
  rewrite Hnone by (left; done). apply IH. intros; apply Hnone; by right.
Qed.

Lemma In_sort_index_keys_filter (ks : list string) k :
  In k (sort_index_keys (List.filter is_array_index ks)) ->
  is_array_index k = true.
Proof.
  intros Hin. apply (Permutation_in _ (sort_index_keys_perm _)) in Hin.
  by apply filter_In in Hin as [_ ?].
Qed.

(** Enumerating the keys of an object whose keys are already in
    enumeration order gives them back unchanged. *)
Lemma order_keys_idem (ks : list string) :
  order_keys (order_keys ks) = order_keys ks.
Proof.
  unfold order_keys. rewrite !List.filter_app.
  rewrite (filter_id_all is_array_index (sort_index_keys _))
    by apply In_sort_index_keys_filter.
  rewrite (filter_none is_array_index (List.filter (fun k => negb _) _)).
  2:{ intros k Hk. apply filter_In in Hk as [_ Hk]. by destruct (is_array_index k). }
  rewrite (filter_none (fun k => negb _) (sort_index_keys _)).
  2:{ intros k Hk. by rewrite (In_sort_index_keys_filter ks k Hk). }
  rewrite (filter_id_all (fun k => negb _) (List.filter (fun k => negb _) _)).
  2:{ intros k Hk. by apply filter_In in Hk as [_ Hk]. }
  rewrite !app_nil_r, sort_index_keys_id by apply sort_index_keys_sorted.
  done.
Qed.

#[export] Hint Resolve order_keys_perm sort_index_keys_sorted : csp.

(** ** Lookup, update and deletion *)

Section jsobj_lemmas.
Context {V : Type}.
Implicit Types (o : jsobj V) (k : string) (v : V) (l : list (string * V)).

Lemma assoc_lookup_app k l1 l2 :
    assoc_lookup k (l1 ++ l2) =
    match assoc_lookup k l1 with Some v => Some v | None => assoc_lookup k l2 end.
  Proof.
    induction l1 as [|[k' v'] l1 IH]; simpl; [done|]. by case_bool_decide.
  Qed.

Lemma assoc_lookup_None k l : k ∉ map fst l -> assoc_lookup k l = None.
  Proof.
    induction l as [|[k' v'] l IH]; simpl; [done|].
    rewrite not_elem_of_cons. intros [Hne Hk]. case_bool_decide; [done|]. auto.
  Qed.

Lemma assoc_lookup_Some_elem k v l :
    assoc_lookup k l = Some v -> k ∈ map fst l.
  Proof.
    induction l as [|[k' v'] l IH]; simpl; [done|].
    case_bool_decide; subst; intros; [left|right]; auto.
  Qed.

Lemma assoc_lookup_Some_In k v l : assoc_lookup k l = Some v -> (k, v) ∈ l.
  Proof.
    induction l as [|[k' v'] l IH]; simpl; [done|].
    case_bool_decide; [intros [= ->]; subst; left|intros; right; auto].
  Qed.

Lemma assoc_lookup_In k v l : NoDup (map fst l) -> (k, v) ∈ l -> assoc_lookup k l = Some v.
  Proof.
    induction l as [|[k' v'] l IH]; simpl; [by intros ? ?%not_elem_of_nil|].
    intros [Hk' Hnd]%NoDup_cons [[= -> ->]|Hin]%elem_of_cons.
    - by rewrite bool_decide_eq_true_2.
    - rewrite bool_decide_eq_false_2; [auto|]. intros ->. apply Hk'.
      apply list_elem_of_fmap. by exists (k', v).
  Qed.

Lemma obj_lookup_is_Some o k : k ∈ obj_keys o -> is_Some (obj_lookup o k).
  Proof.
    unfold obj_keys, obj_lookup. destruct o as [l]; simpl.
    induction l as [|[k' v'] l IH]; simpl; [by intros ?%not_elem_of_nil|].
    rewrite elem_of_cons. case_bool_decide; [by eexists|]. intros [->|]; [done|auto].
  Qed.

Lemma obj_keys_set o k v :
    obj_keys (obj_set o k v) =
    if obj_has o k then obj_keys o else obj_keys o ++ [k].
  Proof.
    unfold obj_set, obj_keys. destruct (obj_has o k); simpl.
    - rewrite map_map. apply map_ext. intros [k' v']. simpl.
      case_bool_decide; subst; done.
    - by rewrite map_app.
  Qed.

Lemma obj_lookup_set_eq o k v : obj_lookup (obj_set o k v) k = Some v.
  Proof.
    unfold obj_set, obj_lookup, obj_has, obj_keys.
    case_bool_decide as Hin; simpl.
    - destruct o as [l]; simpl in *. induction l as [|[k' v'] l IH]; simpl in *.
      + by apply not_elem_of_nil in Hin.
      + case_bool_decide; simpl; [by rewrite bool_decide_eq_true_2|].
        rewrite bool_decide_eq_false_2 by congruence.
        apply IH. apply elem_of_cons in Hin as [->|]; [congruence|done].
    - rewrite assoc_lookup_app, assoc_lookup_None by done. simpl.
      by rewrite bool_decide_eq_true_2.
  Qed.

Lemma obj_lookup_set_ne o k k' v :
    k' <> k -> obj_lookup (obj_set o k v) k' = obj_lookup o k'.
  Proof.
    intros Hne. unfold obj_set, obj_lookup.
    destruct (obj_has o k); simpl.
    - destruct o as [l]; simpl. induction l as [|[k1 v1] l IH]; simpl; [done|].
      case_bool_decide; subst; simpl.
      + rewrite !bool_decide_eq_false_2 by congruence. done.
      + case_bool_decide; [done|]. apply IH.
    - rewrite assoc_lookup_app. destruct (assoc_lookup k' (props o)); [done|].
      simpl. by rewrite bool_decide_eq_false_2.
  Qed.

Lemma obj_wf_set o k v : obj_wf o -> obj_wf (obj_set o k v).
  Proof.
    unfold obj_wf. rewrite obj_keys_set. unfold obj_has.
    case_bool_decide as Hin; [done|]. intros Hnd.
    apply NoDup_app. split_and!; [done| |by apply NoDup_singleton].
    intros x Hx ->%list_elem_of_singleton. done.
  Qed.

Lemma obj_keys_delete o k :
    obj_keys (obj_delete o k) = List.filter (fun k' => negb (bool_decide (k' = k))) (obj_keys o).
  Proof.
    unfold obj_keys, obj_delete. simpl. destruct o as [l]; simpl.
    induction l as [|[k' v'] l IH]; simpl; [done|].
    case_bool_decide; simpl; by rewrite IH.
  Qed.

Lemma obj_lookup_delete_eq o k : obj_lookup (obj_delete o k) k = None.
  Proof.
    unfold obj_lookup, obj_delete. destruct o as [l]; simpl.
    induction l as [|[k' v'] l IH]; simpl; [done|].
    case_bool_decide; simpl; [done|]. by rewrite bool_decide_eq_false_2.
  Qed.

Lemma obj_lookup_delete_ne o k k' :
    k' <> k -> obj_lookup (obj_delete o k) k' = obj_lookup o k'.
  Proof.
    intros Hne. unfold obj_lookup, obj_delete. destruct o as [l]; simpl.
    induction l as [|[k1 v1] l IH]; simpl; [done|].
    case_bool_decide; subst; simpl.
    - by rewrite bool_decide_eq_false_2.
    - case_bool_decide; [done|]. apply IH.
  Qed.

  (** Adding a fresh key and deleting it again restores the object: the
      backtracking step of the solver. *)
Lemma obj_delete_set_fresh o k v :
    obj_has o k = false -> obj_delete (obj_set o k v) k = o.
  Proof.
    unfold obj_set, obj_delete. intros Hk. rewrite Hk.
    unfold obj_has, obj_keys in Hk. apply bool_decide_eq_false in Hk. destruct o as [l]; simpl in *. f_equal.
    rewrite List.filter_app. simpl. rewrite bool_decide_eq_true_2 by done.
    rewrite app_nil_r. induction l as [|[k' v'] l IH]; simpl in *; [done|].
    rewrite not_elem_of_cons in Hk. destruct Hk as [Hne Hk].
    rewrite bool_decide_eq_false_2 by congruence. simpl. by rewrite IH.
  Qed.

Lemma own_keys_perm o : own_keys o ≡ₚ obj_keys o.
  Proof. apply order_keys_perm. Qed.

Lemma length_own_keys o : length (own_keys o) = length (obj_keys o).
  Proof. by rewrite own_keys_perm. Qed.

Lemma elem_of_own_keys o k : k ∈ own_keys o <-> k ∈ obj_keys o.
  Proof. by rewrite own_keys_perm. Qed.

Lemma NoDup_own_keys o : obj_wf o -> NoDup (own_keys o).
  Proof. unfold obj_wf. by rewrite own_keys_perm. Qed.

Lemma omap_lookup_keys l0 l :
    NoDup (map fst l) -> (forall k, k ∈ map fst l -> k ∉ map fst l0) ->
    omap (fun k => pair k <$> assoc_lookup k (l0 ++ l)) (map fst l) = l.
  Proof.
    revert l0. induction l as [|[k v] l IH]; intros l0 Hnd Hdisj; simpl; [done|].
    rewrite assoc_lookup_app, assoc_lookup_None by (apply Hdisj; left).
    simpl. rewrite bool_decide_eq_true_2 by done. simpl. f_equal.
    apply NoDup_cons in Hnd as [Hk Hnd].
    specialize (IH (l0 ++ [(k, v)]) Hnd). rewrite <- app_assoc in IH. apply IH.
    intros k' Hk'. rewrite map_app, elem_of_app. simpl.
    rewrite list_elem_of_singleton.
    intros [Hin| ->]; [|done]. by apply (Hdisj k'); [right|].
  Qed.

  (** The snapshot of an object whose keys are unique and stored in
      enumeration order is the object itself. *)
Lemma obj_copy_id o :
    obj_wf o -> own_keys o = obj_keys o -> obj_copy o = o.
  Proof.
    intros Hwf Hord. unfold obj_copy. rewrite Hord. destruct o as [l].
    f_equal. apply (omap_lookup_keys [] l); [done|]. set_solver.
  Qed.
End jsobj_lemmas.

Lemma js_get_set_eq (o : jsobj jsval) k v : js_get (obj_set o k v) k = v.
Proof. unfold js_get. by rewrite obj_lookup_set_eq. Qed.

Lemma js_get_set_ne (o : jsobj jsval) k k' v :
  k' <> k -> js_get (obj_set o k v) k' = js_get o k'.
Proof. intros. unfold js_get. by rewrite obj_lookup_set_ne. Qed.

#[export] Hint Rewrite @obj_lookup_set_eq @obj_lookup_delete_eq js_get_set_eq : csp.

(** ** Properties of keys and enumeration order *)

(** A key is an array index exactly when it is the decimal numeral of a
    number below 2^32 - 1: parsing a key and printing the number back
    agree. *)
Theorem is_array_index_spec (k : string) :
  is_array_index k = true <-> exists n, (n < array_index_limit)%N /\ k = N_to_string n.
Proof.
  unfold is_array_index. split.
  - destruct (canonical_index k) as [n|] eqn:E; [|done].
    intros Hlt%bool_decide_eq_true. exists n. split; [done|]. by apply canonical_index_Some.
  - intros (n & Hn & ->). rewrite canonical_index_N_to_string.
    by apply bool_decide_eq_true_2.
Qed.

(** The numeral of [n] is an array index exactly when [n <= 2^32 - 2];
    "4294967295" is an ordinary key. *)
Theorem is_array_index_N_to_string (n : N) :
  is_array_index (N_to_string n) = bool_decide (n <= 4294967294)%N.
Proof.
  unfold is_array_index. rewrite canonical_index_N_to_string.
  apply bool_decide_ext. unfold array_index_limit. lia.
Qed.

(** When no key is an array index, [Object.keys] and [for..in] list the
    keys in insertion order. *)
Theorem own_keys_insertion_order {V} (o : jsobj V) :
  (forall k, In k (obj_keys o) -> is_array_index k = false) -> own_keys o = obj_keys o.
Proof.
  intros Hno. unfold own_keys, order_keys.
  rewrite filter_none by done. simpl.
  apply filter_id_all. intros k Hk. by rewrite Hno.
Qed.

(** The 32-bit bound of array indices decides where a numeric key
    goes: added to an object without index keys, the numeral of [n] is
    enumerated first when [n <= 2^32 - 2], and last, in insertion order,
    from [2^32 - 1] on. *)
Lemma own_keys_set_numeral {V} (o : jsobj V) (n : N) (v : V) :
  (forall k, In k (obj_keys o) -> is_array_index k = false) -> N_to_string n ∉ obj_keys o ->
  own_keys (obj_set o (N_to_string n) v) =
    if bool_decide (n <= 4294967294)%N then N_to_string n :: obj_keys o
    else obj_keys o ++ [N_to_string n].
Proof.
  intros Hno Hnin. unfold own_keys, order_keys. rewrite obj_keys_set.
  unfold obj_has. rewrite bool_decide_eq_false_2 by done.
  rewrite !List.filter_app, filter_none by done. simpl.
  rewrite is_array_index_N_to_string.
  rewrite (filter_id_all (fun k => negb (is_array_index k)) (obj_keys o))
    by (intros k Hk; by rewrite Hno).
  destruct (bool_decide (n <= 4294967294)%N); simpl; [by rewrite app_nil_r|done].
Qed.

