(* ===== verification/JsEquality.v ===== *)
(** * JS values compared: [ToString], [ToNumber], [==] and [!==]

    The functions [getConstrains] builds compare the argument values with
    the literals of a relation table using [xi==true], [xi=='v'] and
    [xi!=='v'] ([src/src/ngCsp.js], lines 158-165).  This file gives those
    comparisons their JavaScript meaning on the modelled values:
    [ToString] of an integer ([Z_to_string]), [ToNumber] of a string
    ([to_number_str], the grammar StringNumericLiteral), and the
    specialised comparisons [loose_eq_str], [loose_eq_bool],
    [strict_neq_str] that the generated code performs.

    [IsLooselyEqual] and [IsStrictlyEqual] of ECMA-262 are written out as
    reference definitions over all pairs of values ([is_loosely_equal],
    [is_strictly_equal]), and the specialised comparisons are proved equal
    to them.  [ToNumber] reads back [ToString] of every integer. *)

From S2P Require Import Prelude JsObject.
From Stdlib Require Import Ascii DecimalString DecimalN NArith.

Local Open Scope string_scope.

(** [ToString] of an integer, as [+] on a string does. *)
Definition Z_to_string (z : Z) : string :=
  if Z.ltb z 0 then "-" ++ N_to_string (Z.to_N (- z)) else N_to_string (Z.to_N z).

(** ** [ToNumber] of a string

    The numeric value of a string ([StringToNumber]): surrounding white
    space is ignored, the empty string is [0], and otherwise the text must be
    a decimal literal (sign, digits, fraction, exponent), [Infinity], or a
    [0x]/[0o]/[0b] integer.  A decimal literal's value is kept exact as
    [m * 10^e]; strings are read as Latin-1 code units, so the white space
    characters are tab, LF, VT, FF, CR, space and no-break space. *)

Inductive numval : Type :=
| NumDec (m : Z) (e : Z)   (** the finite value [m * 10^e] *)
| NumInf                   (** [Infinity] or [-Infinity] *)
| NumNaN.

Definition is_ws (c : ascii) : bool :=
  let n := nat_of_ascii c in
  Nat.leb 9 n && Nat.leb n 13 || Nat.eqb n 32 || Nat.eqb n 160.

Definition digit_value (c : ascii) : option Z :=
  let n := nat_of_ascii c in
  if Nat.leb 48 n && Nat.leb n 57 then Some (Z.of_nat n - 48)%Z
  else if Nat.leb 97 n && Nat.leb n 102 then Some (Z.of_nat n - 87)%Z
  else if Nat.leb 65 n && Nat.leb n 70 then Some (Z.of_nat n - 55)%Z
  else None.

(** The longest run of digits of [radix]: its value appended to [acc],
    its length and the rest. *)
Fixpoint scan_digits (radix : Z) (l : list ascii) (acc : Z) (cnt : nat)
    : Z * nat * list ascii :=
  match l with
  | c :: l' =>
      match digit_value c with
      | Some d => if Z.ltb d radix then scan_digits radix l' (acc * radix + d)%Z (S cnt)
                  else (acc, cnt, l)
      | None => (acc, cnt, l)
      end
  | [] => (acc, cnt, [])
  end.

Definition is_exp_mark (c : ascii) : bool := Ascii.eqb c "e" || Ascii.eqb c "E".

(** [ExponentPart] after the mark: a signed decimal integer. *)
Definition scan_exponent (l : list ascii) : option (Z * list ascii) :=
  let '(sgn, l1) :=
    match l with
    | "+"%char :: l' => (1%Z, l') | "-"%char :: l' => ((-1)%Z, l') | _ => (1%Z, l)
    end in
  let '(v, n, l2) := scan_digits 10 l1 0 0 in
  if Nat.eqb n 0 then None else Some ((sgn * v)%Z, l2).

(** [p] as a prefix of [l]: the rest. *)
Fixpoint strip_chars (p l : list ascii) : option (list ascii) :=
  match p, l with
  | [], _ => Some l
  | c :: p', d :: l' => if Ascii.eqb c d then strip_chars p' l' else None
  | _ :: _, [] => None
  end.

(** [DecimalDigits [. DecimalDigits] [ExponentPart]] or
    [. DecimalDigits [ExponentPart]]: the value [m * 10^e]. *)
Definition scan_decimal (l : list ascii) : option (numval * list ascii) :=
  let '(ip, ni, l1) := scan_digits 10 l 0 0 in
  let '(m, nf, l2) :=
    match l1 with
    | c :: l1' => if Ascii.eqb c "." then scan_digits 10 l1' ip 0 else (ip, 0, l1)
    | [] => (ip, 0, l1)
    end in
  if Nat.eqb (ni + nf) 0 then None
  else
    match l2 with
    | c :: l3 =>
        if is_exp_mark c then
          match scan_exponent l3 with
          | Some (e, l4) => Some (NumDec m (e - Z.of_nat nf), l4)
          | None => None
          end
        else Some (NumDec m (- Z.of_nat nf), l2)
    | [] => Some (NumDec m (- Z.of_nat nf), [])
    end.

(** [StrUnsignedDecimalLiteral]: [Infinity] or a decimal literal. *)
Definition scan_unsigned (l : list ascii) : option (numval * list ascii) :=
  match strip_chars (String.list_ascii_of_string "Infinity") l with
  | Some l' => Some (NumInf, l')
  | None => scan_decimal l
  end.

Definition neg_num (v : numval) : numval :=
  match v with NumDec m e => NumDec (- m) e | v => v end.

(** [StrDecimalLiteral]: an optional sign. *)
Definition scan_signed (l : list ascii) : option (numval * list ascii) :=
  match l with
  | c :: l' =>
      if Ascii.eqb c "+" then scan_unsigned l'
      else if Ascii.eqb c "-" then option_map (fun '(v, r) => (neg_num v, r)) (scan_unsigned l')
      else scan_unsigned l
  | [] => scan_unsigned []
  end.

(** The radix of a [NonDecimalIntegerLiteral] from the letter after [0]. *)
Definition radix_of (x : ascii) : option Z :=
  if Ascii.eqb x "x" || Ascii.eqb x "X" then Some 16%Z
  else if Ascii.eqb x "o" || Ascii.eqb x "O" then Some 8%Z
  else if Ascii.eqb x "b" || Ascii.eqb x "B" then Some 2%Z
  else None.

Definition radix_lit (radix : Z) (l : list ascii) : option (numval * list ascii) :=
  let '(v, n, r) := scan_digits radix l 0 0 in
  if Nat.eqb n 0 then None else Some (NumDec v 0, r).

(** [StrNumericLiteral] *)
Definition scan_numeric (l : list ascii) : option (numval * list ascii) :=
  match l with
  | c :: x :: l' =>
      if Ascii.eqb c "0" then
        match radix_of x with Some radix => radix_lit radix l' | None => scan_signed l end
      else scan_signed l
  | _ => scan_signed l
  end.

Fixpoint drop_ws (l : list ascii) : list ascii :=
  match l with c :: l' => if is_ws c then drop_ws l' else l | [] => [] end.

Definition to_number_str (s : string) : numval :=
  let l := drop_ws (String.list_ascii_of_string s) in
  match l with
  | [] => NumDec 0 0
  | _ => match scan_numeric l with
         | Some (v, r) => if forallb is_ws r then v else NumNaN
         | None => NumNaN
         end
  end.

(** Whether a numeric value is the integer [z]. *)
Definition num_is_int (v : numval) (z : Z) : bool :=
  match v with
  | NumDec m e =>
      if Z.leb 0 e then Z.eqb (m * 10 ^ e) z
      else Z.eqb (Z.rem m (10 ^ (- e))) 0 && Z.eqb (Z.quot m (10 ^ (- e))) z
  | NumInf | NumNaN => false
  end.

(** [ToString] of a built-in object: [Object.prototype] itself, or one of
    its methods as V8 prints it ([constructor] is the function [Object]). *)
Definition builtin_to_string (name : string) : string :=
  if String.eqb name "__proto__" then "[object Object]"
  else if String.eqb name "constructor" then "function Object() { [native code] }"
  else "function " ++ name ++ "() { [native code] }".

(** [ToString] of a value. *)
Definition js_to_string (v : jsval) : string :=
  match v with
  | JUndefined => "undefined"
  | JNull => "null"
  | JBool b => if b then "true" else "false"
  | JNum n => Z_to_string n
  | JStr s => s
  | JBuiltin name => builtin_to_string name
  end.

(** [Array.prototype.toString], that is [join(",")]: [undefined] and
    [null] elements print as the empty string. *)
Definition array_to_string (l : list jsval) : string :=
  String.concat ","
    (map (fun v => match v with JUndefined | JNull => EmptyString | _ => js_to_string v end) l).

(** ** The meaning of the emitted comparisons *)

(** [x == 's'] (Abstract Equality with a string on the right). *)
Definition loose_eq_str (x : jsval) (s : string) : bool :=
  match x with
  | JStr a => String.eqb a s
  | JNum n => num_is_int (to_number_str s) n
  | JBool a => num_is_int (to_number_str s) (Z.b2z a)
  | JBuiltin name => String.eqb (builtin_to_string name) s
  | JNull | JUndefined => false
  end.

(** [x == true], [x == false] *)
Definition loose_eq_bool (x : jsval) (b : bool) : bool :=
  match x with
  | JBool a => Bool.eqb a b
  | JNum n => Z.eqb n (Z.b2z b)
  | JStr a => num_is_int (to_number_str a) (Z.b2z b)
  | JBuiltin _ | JNull | JUndefined => false
  end.

(** [x !== 's'] *)
Definition strict_neq_str (x : jsval) (s : string) : bool :=
  negb (bool_decide (x = JStr s)).

(** ** The reference: [IsLooselyEqual] and [IsStrictlyEqual] (ECMA-262 7.2.14-15)

    The algorithm works on values whose numbers may be any result of
    [ToNumber]; the modelled [jsval] embeds into them.  Infinities carry
    no sign here, so two infinities are not compared equal: this never
    arises when one side is a modelled value, whose numbers are
    integers. *)

Inductive ecma_val : Type :=
| EUndef
| ENull
| EBool (b : bool)
| ENum (v : numval)
| EStr (s : string)
| EObj (name : string).   (** a built-in object, identified by its name *)

Definition embed (x : jsval) : ecma_val :=
  match x with
  | JUndefined => EUndef
  | JNull => ENull
  | JBool b => EBool b
  | JNum n => ENum (NumDec n 0)
  | JStr s => EStr s
  | JBuiltin name => EObj name
  end.

(** [Number::equal]: equality of the exact values [m * 10^e]. *)
Definition num_equal (a b : numval) : bool :=
  match a, b with
  | NumDec m1 e1, NumDec m2 e2 =>
      let e := Z.min e1 e2 in Z.eqb (m1 * 10 ^ (e1 - e)) (m2 * 10 ^ (e2 - e))
  | _, _ => false
  end.

(** [IsStrictlyEqual(x, y)] *)
Definition is_strictly_equal (x y : ecma_val) : bool :=
  match x, y with
  | EUndef, EUndef | ENull, ENull => true
  | EBool a, EBool b => Bool.eqb a b
  | ENum a, ENum b => num_equal a b
  | EStr a, EStr b => String.eqb a b
  | EObj a, EObj b => String.eqb a b
  | _, _ => false
  end.

Definition is_number_or_string (x : ecma_val) : bool :=
  match x with ENum _ | EStr _ => true | _ => false end.

(** [IsLooselyEqual(x, y)], one recursive call per conversion step of the
    specification; [fuel] bounds the number of conversions (three suffice:
    object to string, boolean or string to number). *)
Fixpoint is_loosely_equal (fuel : nat) (x y : ecma_val) : bool :=
  match fuel with
  | O => false
  | S fuel' =>
      match x, y with
      (* 1. same type *)
      | EUndef, EUndef | ENull, ENull | EBool _, EBool _ | ENum _, ENum _
      | EStr _, EStr _ | EObj _, EObj _ => is_strictly_equal x y
      (* 2-3. null and undefined *)
      | ENull, EUndef | EUndef, ENull => true
      (* 5-6. number and string *)
      | ENum _, EStr b => is_loosely_equal fuel' x (ENum (to_number_str b))
      | EStr a, ENum _ => is_loosely_equal fuel' (ENum (to_number_str a)) y
      (* 9. boolean on the left *)
      | EBool a, _ => is_loosely_equal fuel' (ENum (NumDec (Z.b2z a) 0)) y
      (* 10. boolean on the right *)
      | _, EBool b => is_loosely_equal fuel' x (ENum (NumDec (Z.b2z b) 0))
      (* 11-12. object and primitive: [ToPrimitive] gives its text *)
      | _, EObj o => if is_number_or_string x
                     then is_loosely_equal fuel' x (EStr (builtin_to_string o)) else false
      | EObj o, _ => if is_number_or_string y
                     then is_loosely_equal fuel' (EStr (builtin_to_string o)) y else false
      (* 15. *)
      | _, _ => false
      end
  end.

(** The value of a decimal numeral read left to right onto [acc]. *)
Fixpoint uint_value (d : Decimal.uint) (acc : Z) : Z :=
  match d with
  | Decimal.Nil => acc
  | Decimal.D0 d => uint_value d (acc * 10 + 0)
  | Decimal.D1 d => uint_value d (acc * 10 + 1)
  | Decimal.D2 d => uint_value d (acc * 10 + 2)
  | Decimal.D3 d => uint_value d (acc * 10 + 3)
  | Decimal.D4 d => uint_value d (acc * 10 + 4)
  | Decimal.D5 d => uint_value d (acc * 10 + 5)
  | Decimal.D6 d => uint_value d (acc * 10 + 6)
  | Decimal.D7 d => uint_value d (acc * 10 + 7)
  | Decimal.D8 d => uint_value d (acc * 10 + 8)
  | Decimal.D9 d => uint_value d (acc * 10 + 9)
  end%Z.

(** * Properties *)

(** ** [ToNumber] reads back [ToString] of an integer *)

Lemma of_uint_acc_value d acc : Z.pos (Pos.of_uint_acc d acc) = uint_value d (Z.pos acc).
Proof. revert acc. induction d; intros acc; simpl; rewrite ?IHd; f_equal; lia. Qed.

Lemma N_of_uint_value d : Z.of_N (N.of_uint d) = uint_value d 0.
Proof.
  induction d; simpl; try done;
    rewrite of_uint_acc_value; reflexivity.
Qed.

Lemma scan_digits_uint d acc cnt :
  scan_digits 10 (String.list_ascii_of_string (NilEmpty.string_of_uint d)) acc cnt =
  (uint_value d acc, cnt + Decimal.nb_digits d, []).
Proof.
  revert acc cnt. induction d; intros acc cnt; simpl; rewrite ?IHd; f_equal; f_equal; lia.
Qed.

Lemma scan_unsigned_uint d :
  d <> Decimal.Nil ->
  scan_unsigned (String.list_ascii_of_string (NilEmpty.string_of_uint d)) =
  Some (NumDec (uint_value d 0) 0, []).
Proof.
  intros Hd. unfold scan_unsigned.
  assert (Hinf : strip_chars (String.list_ascii_of_string "Infinity")
                   (String.list_ascii_of_string (NilEmpty.string_of_uint d)) = None)
    by (destruct d; done).
  rewrite Hinf. unfold scan_decimal. rewrite scan_digits_uint.
  destruct d; done.
Qed.

Lemma scan_numeric_uint d :
  d <> Decimal.Nil ->
  scan_numeric (String.list_ascii_of_string (NilEmpty.string_of_uint d)) =
  Some (NumDec (uint_value d 0) 0, []).
Proof.
  intros Hd. rewrite <- scan_unsigned_uint by done.
  destruct d; try done; destruct d; done.
Qed.

Lemma N_to_string_uint n :
  N_to_string n = NilEmpty.string_of_uint (N.to_uint n) /\ N.to_uint n <> Decimal.Nil.
Proof.
  pose proof (N_to_uint_not_Nil n) as Hn. unfold N_to_string, NilZero.string_of_uint.
  by destruct (N.to_uint n).
Qed.

Lemma drop_ws_uint d :
  drop_ws (String.list_ascii_of_string (NilEmpty.string_of_uint d)) =
  String.list_ascii_of_string (NilEmpty.string_of_uint d).
Proof. by destruct d. Qed.

Lemma drop_ws_minus l : drop_ws ("-"%char :: l) = "-"%char :: l.
Proof. reflexivity. Qed.

Lemma scan_numeric_neg l :
  scan_numeric ("-"%char :: l) = option_map (fun '(v, r) => (neg_num v, r)) (scan_unsigned l).
Proof. by destruct l. Qed.

(** [ToNumber] of the text [ToString] gives an integer is that integer:
    an entry that is the number [n] is printed as a literal that [==]
    compares equal to [n]. *)
Lemma to_number_Z_to_string n : to_number_str (Z_to_string n) = NumDec n 0.
Proof.
  unfold Z_to_string, to_number_str.
  destruct (Z.ltb_spec n 0) as [Hn|Hn].
  - destruct (N_to_string_uint (Z.to_N (- n))) as [-> Hd].
    rewrite append_String, append_Empty. cbn [String.list_ascii_of_string].
    rewrite drop_ws_minus, scan_numeric_neg, scan_unsigned_uint by done. cbn.
    rewrite <- N_of_uint_value, Unsigned.of_to, Z2N.id by lia. by rewrite Z.opp_involutive.
  - destruct (N_to_string_uint (Z.to_N n)) as [-> Hd].
    rewrite drop_ws_uint, scan_numeric_uint by done.
    rewrite <- N_of_uint_value, Unsigned.of_to, Z2N.id by lia.
    by destruct (N.to_uint (Z.to_N n)).
Qed.

(** ** The emitted comparisons are [IsLooselyEqual] and [IsStrictlyEqual] *)

Lemma num_equal_comm a b : num_equal a b = num_equal b a.
Proof. destruct a, b; simpl; try done. by rewrite Z.min_comm, Z.eqb_sym. Qed.

(** [Number::equal] against an integer is [num_is_int]. *)
Lemma num_equal_int n v : num_equal (NumDec n 0) v = num_is_int v n.
Proof.
  destruct v as [m e| |]; simpl; try done.
  destruct (Z.leb_spec 0 e) as [He|He].
  - rewrite Z.min_l by done. rewrite !Z.sub_0_r, Z.pow_0_r, Z.mul_1_r. apply Z.eqb_sym.
  - rewrite Z.min_r, Z.sub_diag, Z.sub_0_l, Z.pow_0_r, Z.mul_1_r by lia.
    assert (Hp : (0 < 10 ^ (- e))%Z) by (apply Z.pow_pos_nonneg; lia).
    apply eq_iff_eq_true. rewrite andb_true_iff, !Z.eqb_eq. split.
    + intros <-. rewrite Z.rem_mul, Z.quot_mul by lia. done.
    + intros [Hr Hq]. pose proof (Z.quot_rem m (10 ^ (- e))) as Hm. lia.
Qed.

(** The text of a built-in object is not a numeral. *)
Lemma to_number_builtin name : to_number_str (builtin_to_string name) = NumNaN.
Proof.
  unfold builtin_to_string.
  destruct (String.eqb name "__proto__"); [vm_compute; reflexivity|].
  destruct (String.eqb name "constructor"); vm_compute; reflexivity.
Qed.

(** Four conversions are enough for every pair of values: more fuel does
    not change the answer. *)
Lemma is_loosely_equal_fuel n x y :
  4 <= n -> is_loosely_equal n x y = is_loosely_equal 4 x y.
Proof.
  intros Hn. destruct n as [|[|[|[|n]]]]; try lia.
  destruct x, y; simpl; repeat case_match; done.
Qed.

Lemma loose_eq_str_ecma x s : loose_eq_str x s = is_loosely_equal 4 (embed x) (EStr s).
Proof.
  destruct x as [| |a|n|a|o]; cbn -[num_equal to_number_str]; try done;
    rewrite ?num_equal_int, ?to_number_builtin; try done.
Qed.

Lemma loose_eq_bool_ecma x b : loose_eq_bool x b = is_loosely_equal 4 (embed x) (EBool b).
Proof.
  destruct x as [| |a|n|a|o]; cbn -[num_equal to_number_str]; try done;
    rewrite ?num_equal_int, ?to_number_builtin; try done.
  - simpl. rewrite Z.mul_1_r. apply Z.eqb_sym.
  - by rewrite num_equal_comm, num_equal_int.
Qed.

Lemma strict_neq_str_ecma x s : strict_neq_str x s = negb (is_strictly_equal (embed x) (EStr s)).
Proof.
  destruct x as [| |a|n|a|o]; cbn -[num_equal to_number_str]; try done.
  unfold strict_neq_str. f_equal.
  destruct (String.eqb_spec a s); subst; [by rewrite bool_decide_true|].
  rewrite bool_decide_false; congruence.
Qed.

