(* ===== verification/Model.v ===== *)
(** * The data model of csp.js and the abstract specification of a solution

    [Var.t] and [Constraint.t] are the records built by the constructors
    [Variable(name, domain)] and [Constraint(variables, fn)] of
    [src/dist/ngCsp.js]; a constraint's [fn] is a JS function, modelled as
    a function from its argument list to the completion of its call (it
    returns a value or throws).  [csp] is what a solver reads of a
    [Problem]: its [variables] object and its [constraints] array.

    The second half states what a solution {e is}, independently of the
    search: [candidates] lists the complete assignments of the variables in
    enumeration order, lexicographically in domain order, and [solutions]
    keeps those on which every constraint that can be evaluated
    ([build_args]) returns a truthy value.  The refinement theorems of
    [Backtracking.v] show that the solver returns exactly this list. *)

From S2P Require Import Prelude JsObject JsEquality.

Module Var.
  (** [var Variable = function (name, domain) {..}] *)
Record t : Type := mk { name : string; domain : list jsval }.

  (** [Variable.prototype.toString] *)
Definition toString (v : t) : string :=
  "" ++ name v ++ " => [" ++ array_to_string (domain v) ++ "]".
End Var.

(** The completion of a call to a constraint's function. *)
Inductive jsresult : Type :=
| JsReturn (v : jsval)
| JsThrow (e : exn).

Module Constraint.
  (** [var Constraint = function (variables, fn) {..}] *)
Record t : Type := mk { variables : list string; fn : list jsval -> jsresult }.

  (** [Constraint.prototype.toString], given the source text [fn_src] that
      [this.fn.toString()] returns (a function's text is not part of the
      model of [fn]). *)
Definition toString (fn_src : string) (c : t) : string :=
  "(" ++ String.concat "," (variables c) ++ ") => " ++ fn_src.
End Constraint.

(** A JS function that always returns, given by the value it computes. *)
Definition returning (f : list jsval -> jsval) : list jsval -> jsresult :=
  fun args => JsReturn (f args).

(** An assignment is a plain object from variable names to values. *)
Abbreviation assignment := (jsobj jsval).

(** What a solver reads of the [Problem] it is given. *)
Record csp : Type := mkcsp {
  variables : jsobj Var.t;
  constraints : list Constraint.t
}.

(** The argument list of a constraint: the values of its scope, read with
    [assignments[fp]], or [None] as soon as one of them is [undefined]
    (the [break] that sets [valid = false]). *)
Fixpoint build_args (a : assignment) (scope : list string) : option (list jsval) :=
  match scope with
  | [] => Some []
  | fp :: scope' =>
      let v := js_get a fp in
      if is_defined v then cons v <$> build_args a scope' else None
  end.

(** ** Abstract specification *)

(** A constraint holds on an assignment when its scope is not fully
    assigned, or when its function returns a truthy value. *)
Definition holds (a : assignment) (c : Constraint.t) : bool :=
  match build_args a (Constraint.variables c) with
  | None => true
  | Some args =>
      match Constraint.fn c args with
      | JsReturn v => truthy v
      | JsThrow _ => false
      end
  end.

Definition consistent (a : assignment) (cs : list Constraint.t) : bool :=
  forallb (holds a) cs.

Definition domain_of (vars : jsobj Var.t) (k : string) : list jsval :=
  match obj_lookup vars k with Some v => Var.domain v | None => [] end.

(** Complete assignments of the keys [ks], the first key varying slowest,
    each key ranging over its domain in order. *)
Fixpoint candidates (vars : jsobj Var.t) (ks : list string)
    : list (list (string * jsval)) :=
  match ks with
  | [] => [[]]
  | k :: ks' =>
      flat_map (fun x => map (cons (k, x)) (candidates vars ks')) (domain_of vars k)
  end.

(** The solutions of a problem, in the order a depth-first search over the
    variables' enumeration order finds them. *)
Definition solutions (p : csp) : list assignment :=
  List.filter (fun a => consistent a (constraints p))
    (map mkobj (candidates (variables p) (own_keys (variables p)))).

(** The first solution, or the empty object [{}] when there is none
    (what [RecursiveBacktrackingSolver.getSolution] returns). *)
Definition first_solution (p : csp) : assignment :=
  match solutions p with [] => obj_empty | a :: _ => a end.

(** The candidates are exactly the lists that assign each key of [ks], in
    order, a value of its domain; there are as many as the product of the
    domain sizes. *)
Lemma in_candidates vars ks e :
  In e (candidates vars ks) <->
  map fst e = ks /\ Forall (fun kx => In kx.2 (domain_of vars kx.1)) e.
Proof.
  revert e. induction ks as [|k ks IH]; intros e; simpl.
  - split; [by intros [<-|[]]|]. intros [He _]. destruct e; [by left|done].
  - rewrite in_flat_map. split.
    + intros (x & Hx & (e' & <- & He')%in_map_iff). apply IH in He' as [Hk Hall].
      simpl. rewrite Hk. split; [done|]. by constructor.
    + destruct e as [|[k' x] e]; [by intros [? _]|]. simpl. intros [[= -> Hk] Hall].
      apply Forall_cons in Hall as [Hx Hall]. exists x. split; [done|].
      apply in_map_iff. exists e. split; [done|]. by apply IH.
Qed.

Definition domains_product (vars : jsobj Var.t) (ks : list string) : nat :=
  fold_right (fun k n => length (domain_of vars k) * n) 1 ks.

Lemma length_candidates vars ks :
  length (candidates vars ks) = domains_product vars ks.
Proof.
  induction ks as [|k ks IH]; simpl; [done|].
  rewrite (length_flat_map_const _ _ (length (candidates vars ks))); [by rewrite IH|].
  intros x. apply length_map.
Qed.

(** ** Well-formedness *)

(** Keys that are not members of [Object.prototype]. *)
Definition non_proto (ks : list string) : Prop :=
  forall k, k ∈ ks -> proto_member k = false.

(** Every variable is stored under its own name, once. *)
Definition vars_wf (vars : jsobj Var.t) : Prop :=
  obj_wf vars /\ forall k v, obj_lookup vars k = Some v -> Var.name v = k.

(** No variable is named after a member of [Object.prototype]: for such a
    name, [assignments[name]] is not [undefined] before it is assigned. *)
Definition names_ok (vars : jsobj Var.t) : Prop := non_proto (obj_keys vars).

(** Every constraint function returns (rather than throws). *)
Definition fns_total (cs : list Constraint.t) : Prop :=
  Forall (fun c => forall args, exists v, Constraint.fn c args = JsReturn v) cs.

(** ** Checking constraints on a growing assignment

    A constraint that can be evaluated on a partial assignment reads the
    same arguments on any extension of it by keys that are not members of
    [Object.prototype]; so a violated constraint stays violated.  This is
    what makes the solver's early pruning sound. *)

Lemma js_get_app (pre ext : list (string * jsval)) fp :
  non_proto (map fst ext) -> is_defined (js_get (mkobj pre) fp) = true ->
  js_get (mkobj (pre ++ ext)) fp = js_get (mkobj pre) fp.
Proof.
  intros Hext. unfold js_get, obj_lookup; simpl.
  rewrite assoc_lookup_app. destruct (assoc_lookup fp pre); [done|].
  destruct (proto_member fp) eqn:Hp; [|done]. intros _.
  rewrite assoc_lookup_None; [done|]. intros Hin. by rewrite (Hext fp Hin) in Hp.
Qed.

Lemma build_args_app (pre ext : list (string * jsval)) scope args :
  non_proto (map fst ext) -> build_args (mkobj pre) scope = Some args ->
  build_args (mkobj (pre ++ ext)) scope = Some args.
Proof.
  intros Hext. revert args. induction scope as [|fp scope IH]; intros args; simpl; [done|].
  destruct (is_defined (js_get (mkobj pre) fp)) eqn:Hdef; [|done].
  rewrite js_get_app, Hdef by done.
  destruct (build_args (mkobj pre) scope) eqn:E; [|done]. simpl.
  by rewrite (IH _ eq_refl).
Qed.

Lemma consistent_app (pre ext : list (string * jsval)) cs :
  non_proto (map fst ext) ->
  consistent (mkobj (pre ++ ext)) cs = true -> consistent (mkobj pre) cs = true.
Proof.
  intros Hext. unfold consistent. rewrite !forallb_forall.
  intros Hall c Hc. specialize (Hall c Hc). unfold holds in *.
  destruct (build_args (mkobj pre) _) eqn:E; [|done].
  by rewrite (build_args_app pre ext _ _ Hext E) in Hall.
Qed.

(** Every candidate assigns exactly the keys it was built from, in order. *)
Lemma candidates_keys vars ks e : In e (candidates vars ks) -> map fst e = ks.
Proof.
  revert e. induction ks as [|k ks IH]; intros e; simpl.
  - by intros [<-|[]].
  - intros (x & _ & Hin)%in_flat_map. apply in_map_iff in Hin as (e' & <- & He').
    simpl. by rewrite (IH e').
Qed.

(** Every scope is non-empty (the empty ones are dropped by
    [addConstraint]) and names no member of [Object.prototype] (the
    spec asks scopes to name variables of the problem). *)
Definition scopes_ok (cs : list Constraint.t) : Prop :=
  Forall (fun c => Constraint.variables c <> [] /\ non_proto (Constraint.variables c)) cs.

(** The hypotheses under which the solver meets the abstract
    specification. *)
Definition csp_ok (p : csp) : Prop :=
  vars_wf (variables p) /\ names_ok (variables p) /\
  scopes_ok (constraints p) /\ fns_total (constraints p).

(** Nothing can be checked before a value is assigned. *)
Lemma consistent_empty cs : scopes_ok cs -> consistent obj_empty cs = true.
Proof.
  intros Hcs. apply forallb_forall. intros c Hc.
  unfold scopes_ok in Hcs. rewrite Forall_forall in Hcs.
  destruct (Hcs c) as [Hne Hnp]; [by apply list_elem_of_In|].
  unfold holds. destruct (Constraint.variables c) as [|fp scope] eqn:E; [done|].
  simpl. unfold js_get. simpl. rewrite (Hnp fp); [done|]. by left.
Qed.

(** ** Decision procedures

    The decidable parts of [csp_ok] are [Decision] instances, so that
    [decide] settles them on a concrete problem. *)

Lemma vars_wf_alt vars :
  vars_wf vars <-> NoDup (obj_keys vars) /\ Forall (fun p => Var.name p.2 = p.1) (props vars).
Proof.
  unfold vars_wf, obj_wf, obj_lookup. rewrite Forall_forall. split.
  - intros [Hnd Hname]. split; [done|]. intros [k v] Hin. apply Hname.
    by apply assoc_lookup_In.
  - intros [Hnd Hname]. split; [done|]. intros k v Hk.
    apply (Hname (k, v)), assoc_lookup_Some_In, Hk.
Qed.

#[export] Instance non_proto_dec ks : Decision (non_proto ks).
Proof.
  refine (cast_if (decide (Forall (fun k => proto_member k = false) ks)));
    unfold non_proto; by rewrite <- Forall_forall.
Defined.

#[export] Instance vars_wf_dec vars : Decision (vars_wf vars).
Proof.
  refine (cast_if (decide (NoDup (obj_keys vars) /\
                           Forall (fun p => Var.name p.2 = p.1) (props vars))));
    by rewrite vars_wf_alt.
Defined.

#[export] Instance names_ok_dec vars : Decision (names_ok vars).
Proof. unfold names_ok. apply _. Defined.

#[export] Instance scopes_ok_dec cs : Decision (scopes_ok cs).
Proof. unfold scopes_ok. apply _. Defined.
