(* ===== verification/Problem.v ===== *)
(** * Problem and the pluggable-solver interface

    [Problem] of [src/dist/ngCsp.js] (lines 38-76) owns the [variables]
    object, the [constraints] array and a [solver]; its query methods
    delegate to [this.solver].  The solver is a strategy, so the interface
    between the two is a type class: [Solver S] lists the three methods a
    [Problem] calls on a solver whose state has type [S], and [SolverSpec]
    is the contract a solver promises (it returns [Model.solutions] and
    [Model.first_solution]).  The theorems of this file, on the problem's
    own methods, hold for every solver; [Backtracking.v] shows that
    [RecursiveBacktrackingSolver] meets the contract, and states the
    results of [Problem]'s queries on it directly.

    Each method of [Problem] is a computation of [ST (Problem.t S)]: it
    can read and update the problem, and throw. *)

From S2P Require Import Prelude JsObject Model.
From stdpp Require Import relations.

(** What a [Problem] calls on its solver; a solver receives the problem
    and reads its [variables] and [constraints]. *)
Class Solver (S : Type) : Type := {
  solver_getSolution : csp -> ST S assignment;
  solver_getSolutions : csp -> ST S (list assignment);
  solver_getSolutionIter : csp -> ST S (list assignment)
}.

(** The contract of a solver, on problems that satisfy [csp_ok]. *)
Class SolverSpec (S : Type) `{!Solver S} : Prop := {
  solver_getSolutions_spec : forall p s, csp_ok p ->
    exists s', solver_getSolutions p s = Done (solutions p) s';
  solver_getSolution_spec : forall p s, csp_ok p ->
    exists s', solver_getSolution p s = Done (first_solution p) s'
}.

Module Problem.

Section problem.
Context {S : Type} `{!Solver S}.

Record t : Type := mk {
    solver : S;
    variables : jsobj Var.t;
    constraints : list Constraint.t
  }.

  (** What the solver reads of [this]. *)
Definition view (p : t) : csp := mkcsp (variables p) (constraints p).

  (** [Problem.prototype.addVariable]: [this.variables[name] = new
Variable(name, domain)]. *)
Definition addVariable (name : string) (domain : list jsval) : ST t unit :=
    st_modify (fun p =>
      mk (solver p) (obj_set (variables p) name (Var.mk name domain)) (constraints p)).

  (** [Problem.prototype.changeVariable]: the test [if (this.variables[name])]
      is true for a registered variable, and also for the members of
      [Object.prototype], whose [domain] property is then set outside the
      problem; otherwise it throws. *)
Definition changeVariable (name : string) (newdomain : list jsval) : ST t unit :=
    fun p =>
      match obj_lookup (variables p) name with
      | Some v =>
          Done tt (mk (solver p)
                      (obj_set (variables p) name (Var.mk (Var.name v) newdomain))
                      (constraints p))
      | None =>
          if proto_member name then Done tt p
          else Raise (ErrorObj "Attempted to change a nonexistant variable.") p
      end.

  (** [Problem.prototype.addConstraint]: an empty scope is ignored. *)
Definition addConstraint (vs : list string) (fn : list jsval -> jsresult) : ST t unit :=
    st_modify (fun p =>
      if Nat.eqb (length vs) 0 then p
      else mk (solver p) (variables p) (constraints p ++ [Constraint.mk vs fn])).

  (** Run a method of the solver on [this.solver]. *)
Definition on_solver {A} (m : csp -> ST S A) : ST t A :=
    fun p =>
      match m (view p) (solver p) with
      | Done a s => Done a (mk s (variables p) (constraints p))
      | Raise e s => Raise e (mk s (variables p) (constraints p))
      | NoFuel => NoFuel
      end.

Definition getSolution : ST t assignment := on_solver solver_getSolution.
Definition getSolutions : ST t (list assignment) := on_solver solver_getSolutions.

  (** [Problem.prototype.getSolutionIter] calls [this.solver.getSolutions],
      not [getSolutionIter]. *)
Definition getSolutionIter : ST t (list assignment) := on_solver solver_getSolutions.
End problem.

Arguments t S : clear implicits.

(** ** Invariant *)

(** A problem is well formed when its variables are stored under their
    own names, once, and no constraint has an empty scope. *)
Definition problem_wf {S} (p : t S) : Prop :=
  vars_wf (variables p) /\ Forall (fun c => Constraint.variables c <> []) (constraints p).

(** [m] keeps [P] on every outcome that has a state. *)
Definition preserves {S A} (m : ST (t S) A) (P : t S -> Prop) : Prop :=
  forall p, P p ->
    match m p with Done _ p' | Raise _ p' => P p' | NoFuel => True end.

(** [p'] keeps the contents of [p]: its variable names in insertion order
    and its constraints, each a prefix of those of [p']. *)
Definition extends {S} (p p' : t S) : Prop :=
  obj_keys (variables p) `prefix_of` obj_keys (variables p') /\
  constraints p `prefix_of` constraints p'.

Lemma vars_wf_set (vars : jsobj Var.t) name v :
  vars_wf vars -> Var.name v = name -> vars_wf (obj_set vars name v).
Proof.
  intros [Hwf Hname] Hv. split; [by apply obj_wf_set|].
  intros k v'. destruct (decide (k = name)) as [->|Hne].
  - rewrite obj_lookup_set_eq. by intros [= <-].
  - rewrite obj_lookup_set_ne by done. apply Hname.
Qed.

Lemma obj_keys_set_present {V} (o : jsobj V) k v :
  is_Some (obj_lookup o k) -> obj_keys (obj_set o k v) = obj_keys o.
Proof.
  intros [v0 Hv0]. rewrite obj_keys_set. unfold obj_has.
  rewrite bool_decide_eq_true_2; [done|].
  apply list_elem_of_fmap. exists (k, v0). split; [done|]. by apply assoc_lookup_Some_In.
Qed.

Section client.
Context {S : Type} `{!Solver S}.

Lemma on_solver_keeps_view {A} (m : csp -> ST S A) (p : t S) :
    match on_solver m p with
    | Done _ p' | Raise _ p' => view p' = view p
    | NoFuel => True
    end.
  Proof. unfold on_solver. by destruct (m (view p) (solver p)). Qed.
End client.

(** [Problem.prototype.setSolver] may install a solver of another type. *)
Definition setSolver {S S'} (solver' : S') (p : t S) : t S' :=
  mk solver' (variables p) (constraints p).

(** ** A client of the API

    A program that uses a [Problem] is a sequence of method calls on it.
    A call that throws may be caught by the client, which then goes on
    with the problem as the exception left it. *)
Inductive call (S : Type) : Type :=
| CAddVariable (name : string) (domain : list jsval)
| CChangeVariable (name : string) (newdomain : list jsval)
| CAddConstraint (vs : list string) (fn : list jsval -> jsresult)
| CSetSolver (solver' : S)
| CGetSolution
| CGetSolutions
| CGetSolutionIter.
Arguments CAddVariable {S}.
Arguments CChangeVariable {S}.
Arguments CAddConstraint {S}.
Arguments CSetSolver {S}.
Arguments CGetSolution {S}.
Arguments CGetSolutions {S}.
Arguments CGetSolutionIter {S}.

Section client_calls.
Context {S : Type} `{!Solver S}.

(** One call, its result dropped; [setSolver] with a solver of the same
    type. *)
Definition run_call (c : call S) : ST (t S) unit :=
  match c with
  | CAddVariable name domain => addVariable name domain
  | CChangeVariable name newdomain => changeVariable name newdomain
  | CAddConstraint vs fn => addConstraint vs fn
  | CSetSolver solver' => st_modify (setSolver solver')
  | CGetSolution => do! getSolution; st_ret tt
  | CGetSolutions => do! getSolutions; st_ret tt
  | CGetSolutionIter => do! getSolutionIter; st_ret tt
  end.

(** The transitions of a problem: a call that returns, or one that throws
    and is caught. *)
Inductive step : t S -> t S -> Prop :=
| step_return c p p' : run_call c p = Done tt p' -> step p p'
| step_throw c p e p' : run_call c p = Raise e p' -> step p p'.

Definition reachable (p0 p : t S) : Prop := rtc step p0 p.

(** A client program run from [p], every exception caught; [None] when a
    solver runs out of fuel. *)
Fixpoint run_program (cs : list (call S)) (p : t S) : option (t S) :=
  match cs with
  | [] => Some p
  | c :: cs' =>
      match run_call c p with
      | Done _ p' | Raise _ p' => run_program cs' p'
      | NoFuel => None
      end
  end.
End client_calls.

End Problem.

(** ** Properties of the problem's operations *)

Section theorems.
Context {S : Type} `{!Solver S}.
Implicit Types (p : Problem.t S).

  (** Every operation of [Problem] keeps it well formed. *)
Lemma problem_wf_preserved name domain vs fn :
    Problem.preserves (S:=S) (Problem.addVariable name domain) Problem.problem_wf /\
    Problem.preserves (S:=S) (Problem.changeVariable name domain) Problem.problem_wf /\
    Problem.preserves (S:=S) (Problem.addConstraint vs fn) Problem.problem_wf /\
    Problem.preserves (S:=S) Problem.getSolution Problem.problem_wf /\
    Problem.preserves (S:=S) Problem.getSolutions Problem.problem_wf.
  Proof.
    unfold Problem.preserves, Problem.problem_wf.
    split_and!; intros p [Hv Hc].
    - split; [by apply Problem.vars_wf_set|done].
    - unfold Problem.changeVariable.
      destruct (obj_lookup _ name) as [v|] eqn:Hl; [|by destruct (proto_member name)].
      split; [|done]. apply Problem.vars_wf_set; [done|]. simpl. by apply (proj2 Hv).
    - simpl. destruct (Nat.eqb_spec (length vs) 0); [done|].
      split; [done|]. apply Forall_app; split; [done|].
      apply Forall_singleton. simpl. by intros ->.
    - pose proof (Problem.on_solver_keeps_view solver_getSolution p) as Hview.
      unfold Problem.getSolution.
      destruct (Problem.on_solver _ p); [| |done]; injection Hview as -> ->; done.
    - pose proof (Problem.on_solver_keeps_view solver_getSolutions p) as Hview.
      unfold Problem.getSolutions.
      destruct (Problem.on_solver _ p); [| |done]; injection Hview as -> ->; done.
  Qed.

Lemma preserves_drop {A} (m : ST (Problem.t S) A) P :
    Problem.preserves m P -> Problem.preserves (do! m; st_ret tt) P.
  Proof. intros Hm p Hp. specialize (Hm p Hp). unfold st_bind. by destruct (m p). Qed.

Lemma run_call_preserves c : Problem.preserves (Problem.run_call c) Problem.problem_wf.
  Proof.
    destruct (problem_wf_preserved "" [] [] (fun _ => JsReturn JUndefined))
      as (_ & _ & _ & Hsol & Hsols).
    destruct c as [name domain|name domain|vs fn|s'| | |]; simpl;
      try apply preserves_drop; try done;
      try apply (problem_wf_preserved name domain [] (fun _ => JsReturn JUndefined)).
    - apply (problem_wf_preserved "" [] vs fn).
    - by intros p Hp.
  Qed.

Lemma step_wf p p' : Problem.step p p' -> Problem.problem_wf p -> Problem.problem_wf p'.
  Proof.
    intros [c ?? Hc|c ? e ? Hc] Hp; pose proof (run_call_preserves c _ Hp) as H;
      by rewrite Hc in H.
  Qed.

Lemma extends_refl p : Problem.extends p p.
  Proof. by split. Qed.

Lemma on_solver_extends {A} (m : csp -> ST S A) p :
    match Problem.on_solver m p with Done _ p' | Raise _ p' => Problem.extends p p' | NoFuel => True end.
  Proof.
    pose proof (Problem.on_solver_keeps_view m p) as Hv.
    destruct (Problem.on_solver m p) as [a p'|e p'|]; try done;
      injection Hv as Hv Hc; unfold Problem.extends; by rewrite Hv, Hc.
  Qed.

Lemma on_solver_drop_extends {A} (m : csp -> ST S A) p :
    match (do! Problem.on_solver m; st_ret tt) p with
    | Done _ p' | Raise _ p' => Problem.extends p p' | NoFuel => True end.
  Proof. pose proof (on_solver_extends m p). unfold st_bind. by destruct (Problem.on_solver m p). Qed.

Lemma run_call_extends c p :
    match Problem.run_call c p with
    | Done _ p' | Raise _ p' => Problem.extends p p' | NoFuel => True end.
  Proof.
    destruct c as [name domain|name domain|vs fn|s'| | |]; simpl;
      try apply on_solver_drop_extends.
    - split; [|done]. simpl. rewrite obj_keys_set. case_match; [done|]. by eexists.
    - unfold Problem.changeVariable. destruct (obj_lookup (Problem.variables p) name) eqn:Hl;
        [|destruct (proto_member name); [apply extends_refl|done]].
      split; [|done]. simpl. rewrite Problem.obj_keys_set_present by (rewrite Hl; eauto). done.
    - case_match; [apply extends_refl|]. split; [done|]. by eexists.
    - by split.
  Qed.

Lemma step_extends p p' : Problem.step p p' -> Problem.extends p p'.
  Proof.
    intros [c q q' H|c q e q' H]; pose proof (run_call_extends c q) as Hc; by rewrite H in Hc.
  Qed.

Lemma run_program_reachable cs p p' :
    Problem.run_program cs p = Some p' -> Problem.reachable p p'.
  Proof.
    revert p. induction cs as [|c cs IH]; intros p; simpl; [intros [= <-]; apply rtc_refl|].
    destruct (Problem.run_call c p) as [[] q|e q|] eqn:E; intros H; [| |done];
      eapply rtc_l; [by eapply Problem.step_return|by apply IH|by eapply Problem.step_throw|by apply IH].
  Qed.

  (** C11: the invariant of a [Problem]: every problem a client reaches
      from a well-formed one, by any sequence of method calls whose
      exceptions it catches, is well formed (variables stored once under
      their own names, no constraint with an empty scope). *)
Theorem reachable_wf p0 p :
    Problem.problem_wf p0 -> Problem.reachable p0 p -> Problem.problem_wf p.
  Proof. intros H0 Hr. revert H0. induction Hr as [|p1 p2 p3 Hs _ IH]; eauto using step_wf. Qed.

  (** C35: no sequence of calls removes or reorders a variable or a
      constraint: the variable names in insertion order and the
      constraints of a reachable problem extend those of the start. *)
Theorem reachable_extends p0 p : Problem.reachable p0 p -> Problem.extends p0 p.
  Proof.
    induction 1 as [p|p1 p2 p3 Hs _ [IH1 IH2]]; [apply extends_refl|].
    destruct (step_extends _ _ Hs) as [H1 H2]. split; by etrans.
  Qed.

  (** C12: [changeVariable] replaces the domain in place: the enumeration
      order of the variables, which fixes the search order, is unchanged. *)
Theorem changeVariable_keeps_order name domain p p' :
    Problem.changeVariable name domain p = Done tt p' ->
    own_keys (Problem.variables p') = own_keys (Problem.variables p).
  Proof.
    unfold Problem.changeVariable.
    destruct (obj_lookup _ name) as [v|] eqn:Hl.
    - intros [= <-]. unfold own_keys. simpl.
      rewrite Problem.obj_keys_set_present by (rewrite Hl; eauto). done.
    - destruct (proto_member name); [by intros [= <-]|done].
  Qed.

  (** C13: [changeVariable] throws exactly for a name that is neither a
      registered variable nor a member of [Object.prototype]; what it
      throws is the error "Attempted to change a nonexistant variable.",
      and it leaves the problem unchanged when it does. *)
Theorem changeVariable_error name domain p :
    (forall e p', Problem.changeVariable name domain p = Raise e p' ->
       e = ErrorObj "Attempted to change a nonexistant variable." /\ p' = p) /\
    ((exists e p', Problem.changeVariable name domain p = Raise e p') <->
     obj_lookup (Problem.variables p) name = None /\ proto_member name = false).
  Proof.
    unfold Problem.changeVariable.
    destruct (obj_lookup _ name); [naive_solver|].
    destruct (proto_member name); naive_solver.
  Qed.

End theorems.
