(* ===== verification/Backtracking.v ===== *)
(** * RecursiveBacktrackingSolver

    The solver of [src/dist/ngCsp.js], lines 81-186.  Its only field is
    [allAssignments]; [solve(assignments, variables, constraints, single)]
    mutates the [assignments] object it is given and, in "all" mode, pushes
    copies of the complete assignments onto [this.allAssignments].  The
    model threads both through the state monad [ST state]:
    - [checkAssignment] sets the candidate value, evaluates every
      constraint whose scope is assigned, and deletes the value again;
    - [find_next_var] is the [for (v in variables)] loop that picks the
      first variable absent from the assignment;
    - [try_values] is the [for (var j in nextVar.domain)] loop;
    - [solve] is the recursive function, with a fuel argument that bounds
      the recursion depth; [solve_fuel] (one more than the number of
      variables) is always enough (theorem [solve_terminates]).
    The theorems show that [getSolutions] returns exactly [Model.solutions]
    and [getSolution] exactly [Model.first_solution] on problems with
    [csp_ok], and what the search does outside it: an exception thrown by
    a constraint escapes it, a constraint over names of
    [Object.prototype] is called before they are assigned, and the first
    variable searched is the first key of [for-in]. *)

From S2P Require Import Prelude JsObject Model Problem.

Module RBS.

(** The solver object; [allAssignments] is absent until the first call of
    [getSolutions]. *)
Record t : Type := mk { allAssignments : option (list assignment) }.

(** [new RecursiveBacktrackingSolver()] *)
Definition new : t := mk None.

(** The state a call of [solve] works on: the shared [assignments] object
    and the solver [this]. *)
Record state : Type := mkstate { assignments : assignment; this : t }.

Definition set_assignment (k : string) (v : jsval) : ST state unit :=
  st_modify (fun s => mkstate (obj_set (assignments s) k v) (this s)).

Definition delete_assignment (k : string) : ST state unit :=
  st_modify (fun s => mkstate (obj_delete (assignments s) k) (this s)).

(** [this.allAssignments.push(hashcopy(assignments))]; [hashcopy] is
    [angular.copy]. *)
Definition push_assignment : ST state unit :=
  fun s =>
    match allAssignments (this s) with
    | Some l => Done tt (mkstate (assignments s) (mk (Some (l ++ [obj_copy (assignments s)]))))
    | None => Raise (TypeError "Cannot read properties of undefined (reading 'push')") s
    end.

(** The loop [for (var c in constraints)] of [checkAssignment]: a
    constraint whose arguments can all be read is called, and the first
    falsy result rejects the value. *)
Fixpoint check_constraints (cs : list Constraint.t) : ST state bool :=
  match cs with
  | [] => st_ret true
  | c :: cs' =>
      let! a := st_gets assignments in
      match build_args a (Constraint.variables c) with
      | None => check_constraints cs'
      | Some args =>
          match Constraint.fn c args with
          | JsThrow e => st_throw e
          | JsReturn r => if truthy r then check_constraints cs' else st_ret false
          end
      end
  end.

(** [checkAssignment(nextVar, val)]: both the [return false] inside the
    loop and the [return true] after it delete the value first; an
    exception thrown by a constraint leaves it in place. *)
Definition checkAssignment (cs : list Constraint.t) (nextVar : Var.t) (val : jsval)
    : ST state bool :=
  do! set_assignment (Var.name nextVar) val;
  let! ok := check_constraints cs in
  do! delete_assignment (Var.name nextVar);
  st_ret ok.

(** The first variable, in enumeration order, that the assignment does not
    contain ([nextVar = variables[v]; break]), or [null]. *)
Definition find_next_var (vars : jsobj Var.t) (a : assignment) : option Var.t :=
  match List.find (fun v => negb (bool_decide (v ∈ own_keys a))) (own_keys vars) with
  | Some v => obj_lookup vars v
  | None => None
  end.

Section solve.
Context (vars : jsobj Var.t) (cs : list Constraint.t) (single : bool).

  (** The loop over the domain of [nextVar]; [solve_rec] is the recursive
      call [this.solve(assignments, variables, constraints, single)]. *)
Fixpoint try_values (solve_rec : ST state bool) (nextVar : Var.t) (dom : list jsval)
      : ST state bool :=
    match dom with
    | [] => st_ret false
    | val :: dom' =>
        let! ok := checkAssignment cs nextVar val in
        if ok then
          do! set_assignment (Var.name nextVar) val;
          let! r := solve_rec in
          if r && single then st_ret true
          else
            do! delete_assignment (Var.name nextVar);
            try_values solve_rec nextVar dom'
        else try_values solve_rec nextVar dom'
    end.

Fixpoint solve (fuel : nat) : ST state bool :=
    match fuel with
    | O => st_nofuel
    | S fuel' =>
        let! a := st_gets assignments in
        if Nat.eqb (length (own_keys a)) (length (own_keys vars)) then
          if single then st_ret true else do! push_assignment; st_ret true
        else
          match find_next_var vars a with
          | None => st_throw (TypeError "Cannot read properties of null (reading 'domain')")
          | Some nextVar => try_values (solve fuel') nextVar (Var.domain nextVar)
          end
    end.
End solve.

(** One recursion level per variable, plus the level that finds the
    assignment complete. *)
Definition solve_fuel (p : csp) : nat := S (length (own_keys (variables p))).

(** Run [m] on a fresh [assignments] object [a0]; return its result and
    the final assignment. *)
Definition with_assignments {A} (a0 : assignment) (m : ST state A) : ST t (A * assignment) :=
  fun self =>
    match m (mkstate a0 self) with
    | Done r s => Done (r, assignments s) (this s)
    | Raise e s => Raise e (this s)
    | NoFuel => NoFuel
    end.

(** [RecursiveBacktrackingSolver.prototype.getSolution] *)
Definition getSolution (p : csp) : ST t assignment :=
  let! r := with_assignments obj_empty
              (solve (variables p) (constraints p) true (solve_fuel p)) in
  st_ret (if r.1 then r.2 else obj_empty).

(** [RecursiveBacktrackingSolver.prototype.getSolutions]: it resets
    [this.allAssignments] and returns it. *)
Definition getSolutions (p : csp) : ST t (list assignment) :=
  do! st_modify (fun _ => mk (Some []));
  let! _ := with_assignments obj_empty
              (solve (variables p) (constraints p) false (solve_fuel p)) in
  st_gets (fun self => default [] (allAssignments self)).

(** [RecursiveBacktrackingSolver.prototype.getSolutionIter] *)
Definition getSolutionIter (p : csp) : ST t (list assignment) :=
  st_throw (ErrorRecord "Unsupported"
              "RecursiveBacktrackingSolver does not support a solution iterator").

(** ** Building blocks *)

Lemma check_constraints_total cs s :
  fns_total cs -> check_constraints cs s = Done (consistent (assignments s) cs) s.
Proof.
  induction cs as [|c cs IH]; intros Htot; [done|].
  apply Forall_cons in Htot as [Hc Htot]. simpl. unfold st_bind, st_gets.
  unfold consistent. simpl. unfold holds at 1.
  destruct (build_args (assignments s) _) as [args|]; [|by apply IH].
  destruct (Hc args) as [v ->]. destruct (truthy v); [by apply IH|done].
Qed.

(** [checkAssignment] of a fresh variable leaves the assignment as it was
    and answers whether the extended assignment is consistent. *)
Lemma checkAssignment_fresh cs nv val a t :
  fns_total cs -> obj_has a (Var.name nv) = false ->
  checkAssignment cs nv val (mkstate a t) =
  Done (consistent (obj_set a (Var.name nv) val) cs) (mkstate a t).
Proof.
  intros Htot Hfresh.
  unfold checkAssignment, set_assignment, delete_assignment, st_bind, st_modify, st_ret.
  rewrite check_constraints_total by done. simpl.
  by rewrite obj_delete_set_fresh.
Qed.

Lemma obj_set_snoc {V} (pre : list (string * V)) k (x : V) :
  k ∉ map fst pre -> obj_set (mkobj pre) k x = mkobj (pre ++ [(k, x)]).
Proof.
  intros Hk. unfold obj_set, obj_has, obj_keys. simpl.
  by rewrite bool_decide_eq_false_2.
Qed.

Lemma obj_has_snoc_false (pre : list (string * jsval)) k :
  k ∉ map fst pre -> obj_has (mkobj pre) k = false.
Proof. intros. unfold obj_has, obj_keys. by apply bool_decide_eq_false_2. Qed.

Section refinement.
Context (vars : jsobj Var.t) (cs : list Constraint.t).
Hypothesis Hwf : vars_wf vars.

  (** The keys assigned so far are a prefix of the enumeration order. *)
Definition prefix_of_order (pre : list (string * jsval)) (rest : list string) : Prop :=
    map fst pre ++ rest = own_keys vars.

Lemma prefix_NoDup pre rest : prefix_of_order pre rest -> NoDup (map fst pre ++ rest).
  Proof. intros ->. apply NoDup_own_keys, Hwf. Qed.

Lemma prefix_fresh pre k rest :
    prefix_of_order pre (k :: rest) -> k ∉ map fst pre.
  Proof.
    intros Hp. apply prefix_NoDup, NoDup_app in Hp as (_ & Hdisj & _).
    intros Hk. apply (Hdisj k Hk). by left.
  Qed.

Lemma prefix_snoc pre k x rest :
    prefix_of_order pre (k :: rest) -> prefix_of_order (pre ++ [(k, x)]) rest.
  Proof. unfold prefix_of_order. rewrite map_app, <- app_assoc. done. Qed.

Lemma prefix_complete pre rest :
    prefix_of_order pre rest ->
    Nat.eqb (length (own_keys (mkobj pre))) (length (own_keys vars)) = bool_decide (rest = []).
  Proof.
    unfold prefix_of_order. intros Hp. rewrite length_own_keys, <- Hp, length_app.
    unfold obj_keys. simpl. destruct rest; simpl.
    - rewrite Nat.add_0_r. apply Nat.eqb_refl.
    - apply Nat.eqb_neq. lia.
  Qed.

  (** The variable [solve] picks next is the first one not yet assigned. *)
Lemma find_next_var_prefix pre k rest :
    prefix_of_order pre (k :: rest) ->
    exists nv, find_next_var vars (mkobj pre) = Some nv /\
      Var.name nv = k /\ Var.domain nv = domain_of vars k.
  Proof.
    intros Hp. unfold find_next_var. pose proof (prefix_fresh _ _ _ Hp) as Hk.
    unfold prefix_of_order in Hp. rewrite <- Hp, find_app_first.
    - assert (Hin : k ∈ obj_keys vars).
      { rewrite <- elem_of_own_keys, <- Hp. set_solver. }
      destruct (obj_lookup_is_Some _ _ Hin) as [nv Hnv].
      exists nv. split_and!; [done| |].
      + by apply (proj2 Hwf).
      + unfold domain_of. by rewrite Hnv.
    - intros y Hy. apply negb_false_iff, bool_decide_eq_true_2.
      apply elem_of_own_keys. by apply list_elem_of_In.
    - apply negb_true_iff, bool_decide_eq_false_2. by rewrite elem_of_own_keys.
  Qed.

Hypothesis Hnames : names_ok vars.
Hypothesis Htot : fns_total cs.

  (** The solutions that extend the partial assignment [pre] by values of
      the keys [rest], in search order. *)
Definition exts (pre : list (string * jsval)) (rest : list string) : list assignment :=
    List.filter (fun a => consistent a cs)
      (map (fun e => mkobj (pre ++ e)) (candidates vars rest)).

  (** The solutions extending [pre] by one more value [x] of [k]; empty
      when [pre] extended by [x] is already inconsistent (pruning). *)
Definition branch (pre : list (string * jsval)) (k : string) (rest : list string)
      (x : jsval) : list assignment :=
    if consistent (mkobj (pre ++ [(k, x)])) cs then exts (pre ++ [(k, x)]) rest else [].

Lemma prefix_non_proto pre rest : prefix_of_order pre rest -> non_proto rest.
  Proof.
    intros Hp k Hk. apply Hnames. rewrite <- elem_of_own_keys, <- Hp. set_solver.
  Qed.

Lemma exts_nil pre : consistent (mkobj pre) cs = true -> exts pre [] = [mkobj pre].
  Proof. intros Hc. unfold exts. simpl. by rewrite app_nil_r, Hc. Qed.

Lemma exts_cons pre k rest :
    prefix_of_order pre (k :: rest) ->
    exts pre (k :: rest) = flat_map (branch pre k rest) (domain_of vars k).
  Proof.
    intros Hp. unfold branch, exts. simpl.
    rewrite map_flat_map, filter_flat_map. apply flat_map_ext. intros x.
    rewrite map_map.
    destruct (consistent (mkobj (pre ++ [(k, x)])) cs) eqn:Hc.
    - f_equal. apply map_ext. intros e. by rewrite <- app_assoc.
    - apply filter_all_false. intros a (e & <- & He)%in_map_iff.
      destruct (consistent (mkobj (pre ++ (k, x) :: e)) cs) eqn:Hce; [|done].
      rewrite <- Hc. symmetry. apply (consistent_app _ e).
      + rewrite (candidates_keys _ _ _ He).
        apply (prefix_non_proto (pre ++ [(k, x)])), prefix_snoc, Hp.
      + by rewrite <- app_assoc.
  Qed.

  (** *** "all" mode *)

Lemma try_values_all pre k rest fuel nv dom acc :
    (forall pre' acc', prefix_of_order pre' rest -> consistent (mkobj pre') cs = true ->
       solve vars cs false fuel (mkstate (mkobj pre') (mk (Some acc'))) =
       Done (bool_decide (rest = []))
            (mkstate (mkobj pre') (mk (Some (acc' ++ exts pre' rest))))) ->
    prefix_of_order pre (k :: rest) -> Var.name nv = k ->
    try_values cs false (solve vars cs false fuel) nv dom (mkstate (mkobj pre) (mk (Some acc))) =
    Done false (mkstate (mkobj pre) (mk (Some (acc ++ flat_map (branch pre k rest) dom)))).
  Proof.
    intros IH Hp <-. pose proof (prefix_fresh _ _ _ Hp) as Hk.
    revert acc. induction dom as [|x dom IHdom]; intros acc; simpl.
    { by rewrite app_nil_r. }
    unfold st_bind at 1.
    rewrite checkAssignment_fresh, obj_set_snoc by auto using obj_has_snoc_false.
    unfold branch at 1. destruct (consistent (mkobj (pre ++ [(_, x)])) cs) eqn:Hc.
    - unfold st_bind, set_assignment, st_modify. simpl. rewrite obj_set_snoc by done.
      rewrite IH by auto using prefix_snoc. rewrite andb_false_r.
      unfold delete_assignment, st_modify. simpl.
      rewrite <- obj_set_snoc, obj_delete_set_fresh by auto using obj_has_snoc_false.
      by rewrite IHdom, app_assoc.
    - apply IHdom.
  Qed.

Lemma solve_all rest : forall pre acc fuel,
    prefix_of_order pre rest -> consistent (mkobj pre) cs = true -> length rest < fuel ->
    solve vars cs false fuel (mkstate (mkobj pre) (mk (Some acc))) =
    Done (bool_decide (rest = [])) (mkstate (mkobj pre) (mk (Some (acc ++ exts pre rest)))).
  Proof.
    induction rest as [|k rest IH]; intros pre acc [|fuel] Hp Hc Hfuel; simpl in Hfuel;
      try lia; simpl; unfold st_bind, st_gets; simpl; rewrite (prefix_complete _ _ Hp).
    - simpl. unfold push_assignment. simpl. rewrite exts_nil by done.
      rewrite obj_copy_id; [done| |].
      + unfold obj_wf, obj_keys. simpl. apply (prefix_NoDup pre []) in Hp.
        by rewrite app_nil_r in Hp.
      + unfold own_keys, obj_keys. simpl. unfold prefix_of_order in Hp.
        rewrite app_nil_r in Hp. rewrite Hp. apply order_keys_idem.
    - simpl. destruct (find_next_var_prefix _ _ _ Hp) as (nv & -> & Hname & Hdom).
      rewrite Hdom, (try_values_all pre k rest) by (auto; intros; apply IH; auto; lia).
      by rewrite exts_cons.
  Qed.

  (** *** "single" mode *)

  (** What a single-mode search from [pre] ends with, given the solutions
      [l] it can reach: the first one, left in [assignments], or failure
      with [assignments] restored. *)
Definition single_result (pre : list (string * jsval)) (l : list assignment) (t : t)
      : outcome state bool :=
    match l with
    | [] => Done false (mkstate (mkobj pre) t)
    | a :: _ => Done true (mkstate a t)
    end.

Lemma try_values_single pre k rest fuel nv dom t :
    (forall pre', prefix_of_order pre' rest -> consistent (mkobj pre') cs = true ->
       solve vars cs true fuel (mkstate (mkobj pre') t) = single_result pre' (exts pre' rest) t) ->
    prefix_of_order pre (k :: rest) -> Var.name nv = k ->
    try_values cs true (solve vars cs true fuel) nv dom (mkstate (mkobj pre) t) =
    single_result pre (flat_map (branch pre k rest) dom) t.
  Proof.
    intros IH Hp <-. pose proof (prefix_fresh _ _ _ Hp) as Hk.
    induction dom as [|x dom IHdom]; simpl; [done|].
    unfold st_bind at 1.
    rewrite checkAssignment_fresh, obj_set_snoc by auto using obj_has_snoc_false.
    unfold branch at 1. destruct (consistent (mkobj (pre ++ [(_, x)])) cs) eqn:Hc; [|done].
    unfold st_bind, set_assignment, st_modify. simpl. rewrite obj_set_snoc by done.
    rewrite IH by auto using prefix_snoc.
    destruct (exts (pre ++ [(_, x)]) rest) as [|a l]; simpl; [|done].
    unfold delete_assignment, st_modify. simpl.
    by rewrite <- obj_set_snoc, obj_delete_set_fresh by auto using obj_has_snoc_false.
  Qed.

Lemma solve_single rest : forall pre t fuel,
    prefix_of_order pre rest -> consistent (mkobj pre) cs = true -> length rest < fuel ->
    solve vars cs true fuel (mkstate (mkobj pre) t) = single_result pre (exts pre rest) t.
  Proof.
    induction rest as [|k rest IH]; intros pre t [|fuel] Hp Hc Hfuel; simpl in Hfuel;
      try lia; simpl; unfold st_bind, st_gets; simpl; rewrite (prefix_complete _ _ Hp).
    - by rewrite exts_nil.
    - simpl. destruct (find_next_var_prefix _ _ _ Hp) as (nv & -> & Hname & Hdom).
      rewrite Hdom, (try_values_single pre k rest) by (auto; intros; apply IH; auto; lia).
      by rewrite exts_cons.
  Qed.
End refinement.

(** ** Termination

    With the fuel [solve_fuel], [solve] never runs out: every recursive
    call assigns one more variable, and backtracking restores the
    assignment.  This holds for any constraints, including functions that
    throw, and any variable names. *)

Section termination.
Context (vars : jsobj Var.t) (cs : list Constraint.t) (single : bool).
Hypothesis Hwf : vars_wf vars.

  (** The search from [pre] terminates, and restores [pre] unless it
      stops at a first solution. *)
Definition restores (pre : list (string * jsval)) (o : outcome state bool) : Prop :=
    o <> NoFuel /\
    forall b s', o = Done b s' -> b = false \/ single = false -> assignments s' = mkobj pre.

Lemma check_constraints_pure cs' s :
    check_constraints cs' s <> NoFuel /\
    forall b s', check_constraints cs' s = Done b s' -> s' = s.
  Proof.
    induction cs' as [|c cs' IH]; simpl.
    { unfold st_ret. split; [done|]. intros ?? [=]. done. }
    unfold st_bind, st_gets. destruct (build_args _ _); [|done].
    destruct (Constraint.fn c _) as [r|e]; [|unfold st_throw; split; [done|by intros]].
    destruct (truthy r); [done|]. unfold st_ret. split; [done|]. intros ?? [=]. done.
  Qed.

Lemma checkAssignment_pure nv val a t :
    obj_has a (Var.name nv) = false ->
    checkAssignment cs nv val (mkstate a t) <> NoFuel /\
    forall b s', checkAssignment cs nv val (mkstate a t) = Done b s' -> s' = mkstate a t.
  Proof.
    intros Hfresh. unfold checkAssignment, set_assignment, st_bind at 1, st_modify. simpl.
    destruct (check_constraints_pure cs (mkstate (obj_set a (Var.name nv) val) t)) as [Hnf Hpure].
    unfold st_bind. destruct (check_constraints cs _) as [b s1|e s1|] eqn:E; [|done|done].
    rewrite (Hpure _ _ eq_refl). unfold delete_assignment, st_modify, st_ret. simpl.
    rewrite obj_delete_set_fresh by done. naive_solver.
  Qed.

Lemma try_values_restores pre k rest fuel nv dom t :
    (forall pre' t', prefix_of_order vars pre' rest ->
       restores pre' (solve vars cs single fuel (mkstate (mkobj pre') t'))) ->
    prefix_of_order vars pre (k :: rest) -> Var.name nv = k ->
    restores pre (try_values cs single (solve vars cs single fuel) nv dom (mkstate (mkobj pre) t)).
  Proof.
    intros IH Hp <-. pose proof (prefix_fresh _ Hwf _ _ _ Hp) as Hk.
    revert t. induction dom as [|x dom IHdom]; intros t; simpl; [unfold st_ret, restores; naive_solver|].
    destruct (checkAssignment_pure nv x (mkobj pre) t) as [Hnf Hpure];
      [by apply obj_has_snoc_false|].
    unfold st_bind at 1. destruct (checkAssignment cs nv x _) as [ok s1|e s1|] eqn:E;
      [|unfold restores; naive_solver|done].
    rewrite (Hpure _ _ eq_refl). destruct ok; [|apply IHdom].
    unfold st_bind, set_assignment, st_modify. simpl. rewrite obj_set_snoc by done.
    destruct (IH (pre ++ [(Var.name nv, x)]) t) as [Hnf' Hres]; [by apply prefix_snoc|].
    destruct (solve vars cs single fuel _) as [r s2|e s2|] eqn:E2;
      [|unfold restores; naive_solver|done].
    destruct (r && single) eqn:Hrs.
    { unfold st_ret, restores. split; [done|].
      intros b s' [= <- <-] [?|Hs]; [done|]. by rewrite Hs, andb_false_r in Hrs. }
    assert (Ha : assignments s2 = mkobj (pre ++ [(Var.name nv, x)])).
    { apply (Hres r s2 eq_refl). destruct r, single; simpl in Hrs; auto. }
    unfold delete_assignment, st_modify. simpl. rewrite Ha.
    rewrite <- obj_set_snoc, obj_delete_set_fresh by auto using obj_has_snoc_false.
    destruct s2. apply IHdom.
  Qed.

Lemma solve_restores rest : forall pre t fuel,
    prefix_of_order vars pre rest -> length rest < fuel ->
    restores pre (solve vars cs single fuel (mkstate (mkobj pre) t)).
  Proof.
    induction rest as [|k rest IH]; intros pre t [|fuel] Hp Hfuel; simpl in Hfuel;
      try lia; simpl; unfold st_bind, st_gets; simpl; rewrite (prefix_complete _ _ _ Hp).
    - unfold restores, st_ret, push_assignment.
      destruct single; [naive_solver|]. simpl. destruct (allAssignments t); naive_solver.
    - simpl. destruct (find_next_var_prefix _ Hwf _ _ _ Hp) as (nv & -> & Hname & Hdom).
      apply (try_values_restores pre k rest); auto.
      intros; apply IH; auto; lia.
  Qed.
End termination.

(** ** A throwing constraint escapes the search

    [solve] does not catch what a constraint throws.  When every
    constraint either accepts every argument list or throws [e] on every
    one, some throwing constraint's scope lies within the variables and
    the first value of every domain is defined, the first descent of the
    search (the first value of each variable in turn) assigns a throwing
    constraint's whole scope, and [e] escapes [solve] in either mode. *)

Section propagation.
Context (vars : jsobj Var.t) (cs : list Constraint.t) (e : exn).

Definition accepts (c : Constraint.t) : Prop :=
  forall args, exists v, Constraint.fn c args = JsReturn v /\ truthy v = true.

Definition throws (c : Constraint.t) : Prop := forall args, Constraint.fn c args = JsThrow e.

(** No throwing constraint can be called on [a] yet. *)
Definition quiet (a : assignment) : Prop :=
  Forall (fun c => throws c -> build_args a (Constraint.variables c) = None) cs.

Lemma check_constraints_throwing cs' a t :
  Forall (fun c => accepts c \/ throws c) cs' ->
  check_constraints cs' (mkstate a t) = Raise e (mkstate a t) \/
  (check_constraints cs' (mkstate a t) = Done true (mkstate a t) /\
   Forall (fun c => throws c -> build_args a (Constraint.variables c) = None) cs').
Proof.
  induction cs' as [|c cs' IH]; intros Hcs; [right; by split|].
  apply Forall_cons in Hcs as [Hc Hcs]. simpl. unfold st_bind, st_gets. simpl.
  destruct (build_args a (Constraint.variables c)) as [args|] eqn:Hb.
  - destruct Hc as [Hacc|Hthr]; [|rewrite Hthr; by left].
    destruct (Hacc args) as (v & Hv & Ht). rewrite Hv, Ht.
    destruct (IH Hcs) as [H|[H HF]]; [by left|right; split; [done|]].
    constructor; [|done]. intros Hthr. by rewrite Hthr in Hv.
  - destruct (IH Hcs) as [H|[H HF]]; [by left|right; split; [done|by constructor]].
Qed.

Lemma build_args_complete pre scope :
  Forall (fun kx => is_defined kx.2 = true) pre -> (forall fp, fp ∈ scope -> fp ∈ map fst pre) ->
  is_Some (build_args (mkobj pre) scope).
Proof.
  intros Hdef. induction scope as [|fp scope IH]; intros Hsc; [by eexists|].
  destruct (obj_lookup_is_Some (mkobj pre) fp) as [v Hv]; [apply Hsc; by left|].
  simpl. unfold js_get. rewrite Hv.
  apply assoc_lookup_Some_In in Hv. rewrite Forall_forall in Hdef.
  specialize (Hdef _ Hv). simpl in Hdef. rewrite Hdef. destruct IH as [args ->]; [|by eexists].
  intros fp' ?. apply Hsc. by right.
Qed.

Hypothesis Hwf : vars_wf vars.
Hypothesis Hcs : Forall (fun c => accepts c \/ throws c) cs.
Hypothesis Hdom : forall k, k ∈ own_keys vars ->
  exists x dom, domain_of vars k = x :: dom /\ is_defined x = true.
Hypothesis Hthrower : exists c, c ∈ cs /\ throws c /\
  forall fp, fp ∈ Constraint.variables c -> fp ∈ own_keys vars.

Lemma solve_throwing single rest : forall pre t fuel,
  prefix_of_order vars pre rest -> length rest < fuel ->
  Forall (fun kx => is_defined kx.2 = true) pre -> quiet (mkobj pre) ->
  exists s', solve vars cs single fuel (mkstate (mkobj pre) t) = Raise e s'.
Proof.
  induction rest as [|k rest IH]; intros pre t [|fuel] Hp Hfuel Hdef Hq; simpl in Hfuel; try lia.
  - destruct Hthrower as (c & Hc & Hthr & Hsc). exfalso.
    unfold quiet in Hq. rewrite Forall_forall in Hq.
    destruct (build_args_complete pre (Constraint.variables c) Hdef) as [args Hargs].
    + intros fp Hfp. unfold prefix_of_order in Hp. rewrite app_nil_r in Hp. rewrite Hp. by apply Hsc.
    + by rewrite (Hq c Hc Hthr) in Hargs.
  - simpl. unfold st_bind at 1, st_gets. simpl. rewrite (prefix_complete _ _ _ Hp). simpl.
    destruct (find_next_var_prefix _ Hwf _ _ _ Hp) as (nv & -> & Hname & Hdomk).
    destruct (Hdom k) as (x & dom & Hx & Hxdef).
    { unfold prefix_of_order in Hp. rewrite <- Hp. set_solver. }
    rewrite Hdomk, Hx. pose proof (prefix_fresh _ Hwf _ _ _ Hp) as Hk.
    simpl. unfold st_bind at 1, checkAssignment, set_assignment, st_bind at 1, st_modify.
    simpl. rewrite Hname, obj_set_snoc by done.
    destruct (check_constraints_throwing cs (mkobj (pre ++ [(k, x)])) t Hcs) as [Hr|[Hr Hq']].
    { rewrite (st_bind_Raise _ _ _ _ _ Hr). by eexists. }
    rewrite (st_bind_Done _ _ _ _ _ Hr).
    unfold st_bind, delete_assignment, set_assignment, st_modify, st_ret. simpl.
    rewrite <- obj_set_snoc, obj_delete_set_fresh by auto using obj_has_snoc_false.
    rewrite obj_set_snoc by done.
    destruct (IH (pre ++ [(k, x)]) t fuel) as [s' Hs'].
    + by apply prefix_snoc.
    + lia.
    + apply Forall_app. split; [done|]. by constructor.
    + done.
    + rewrite Hs'. by eexists.
Qed.
End propagation.

(** ** Names inherited from [Object.prototype]

    [typeof assignments[fp] != "undefined"] also holds for an unassigned
    name that [Object.prototype] has ([constructor], [toString], ...): the
    read finds the inherited member, so a constraint over such names is
    called before they are assigned, on those members. *)

Lemma build_args_proto a scope :
  (forall fp, fp ∈ scope -> obj_lookup a fp = None /\ proto_member fp = true) ->
  build_args a scope = Some (map JBuiltin scope).
Proof.
  induction scope as [|fp scope IH]; intros Hsc; [done|].
  destruct (Hsc fp) as [Hl Hp]; [by left|]. simpl. unfold js_get. rewrite Hl, Hp. simpl.
  rewrite IH; [done|]. intros fp' ?. apply Hsc. by right.
Qed.

(** A domain all of whose values are rejected leaves [try_values] with
    [false] and the assignment as it was. *)
Lemma try_values_rejected cs single rec nv dom a t :
  fns_total cs -> obj_has a (Var.name nv) = false ->
  (forall x, x ∈ dom -> consistent (obj_set a (Var.name nv) x) cs = false) ->
  try_values cs single rec nv dom (mkstate a t) = Done false (mkstate a t).
Proof.
  intros Htot Hfresh. induction dom as [|x dom IH]; intros Hrej; [done|]. simpl.
  unfold st_bind at 1. rewrite checkAssignment_fresh by done.
  rewrite Hrej by (by left). apply IH. intros y ?. apply Hrej. by right.
Qed.

(** ** The solver meets its specification *)

(** [getSolutions] returns exactly the solutions of the problem, in
    search order, and leaves them in [this.allAssignments]. *)
Lemma getSolutions_run (p : csp) (self : t) :
  csp_ok p -> getSolutions p self = Done (solutions p) (mk (Some (solutions p))).
Proof.
  intros (Hwf & Hn & Hsc & Ht).
  unfold getSolutions, with_assignments, st_bind, st_modify, st_gets, obj_empty.
  cbv beta iota.
  rewrite (solve_all _ _ Hwf Hn Ht (own_keys (variables p)) []);
    [done|done|by apply consistent_empty|unfold solve_fuel; lia].
Qed.

(** [getSolution] returns the first solution, or [{}] when there is
    none, and leaves the solver unchanged. *)
Lemma getSolution_run (p : csp) (self : t) :
  csp_ok p -> getSolution p self = Done (first_solution p) self.
Proof.
  intros (Hwf & Hn & Hsc & Ht).
  unfold getSolution, with_assignments, st_bind, st_ret, obj_empty at 1.
  rewrite (solve_single _ _ Hwf Hn Ht (own_keys (variables p)) []);
    [|done|by apply consistent_empty|unfold solve_fuel; lia].
  unfold first_solution. change (exts _ _ [] _) with (solutions p).
  by destruct (solutions p).
Qed.

(** C4: whatever the constraints do (they may throw) and whatever the
    variables are named, both queries return or throw: the fuel
    [solve_fuel] is never exhausted. *)
Theorem queries_terminate (p : csp) (self : t) :
  vars_wf (variables p) -> getSolution p self <> NoFuel /\ getSolutions p self <> NoFuel.
Proof.
  intros Hwf.
  assert (Hr : forall single t0,
    solve (variables p) (constraints p) single (solve_fuel p) (mkstate obj_empty t0) <> NoFuel).
  { intros single t0.
    apply (solve_restores (variables p) (constraints p) single Hwf (own_keys (variables p)) [] t0);
      [done|unfold solve_fuel; lia]. }
  unfold getSolution, getSolutions, with_assignments, st_bind, st_modify, st_gets, st_ret.
  split.
  - specialize (Hr true self). revert Hr. destruct (solve _ _ _ _ _); simpl; intros ??; congruence.
  - specialize (Hr false (mk (Some []))).
    revert Hr. destruct (solve _ _ _ _ _); simpl; intros ??; congruence.
Qed.

End RBS.

(** ** [RecursiveBacktrackingSolver] as a [Problem]'s solver *)

#[export] Instance RBS_solver : Solver RBS.t := {
  solver_getSolution := RBS.getSolution;
  solver_getSolutions := RBS.getSolutions;
  solver_getSolutionIter := RBS.getSolutionIter
}.

#[export] Instance RBS_solver_spec : SolverSpec RBS.t.
Proof.
  split; intros p s Hok; eexists; simpl.
  - by apply RBS.getSolutions_run.
  - by apply RBS.getSolution_run.
Qed.

(** [Csp().DiscreteProblem()]: a problem with no variable, no constraint
    and a fresh [RecursiveBacktrackingSolver]. *)
Definition DiscreteProblem : Problem.t RBS.t := Problem.mk RBS.new obj_empty [].

(** ** End to end: a [Problem] with the default solver *)

Section end_to_end.
Implicit Types (p : Problem.t RBS.t).

  (** C1: on a problem whose solver is a [RecursiveBacktrackingSolver],
      [getSolutions] returns exactly the solutions of the problem, in the
      order of the depth-first search, and stores them in the solver's
      [allAssignments]. *)
Theorem problem_getSolutions_exact p :
    csp_ok (Problem.view p) ->
    Problem.getSolutions p =
    Done (solutions (Problem.view p))
         (Problem.mk (RBS.mk (Some (solutions (Problem.view p))))
                     (Problem.variables p) (Problem.constraints p)).
  Proof.
    intros Hok. unfold Problem.getSolutions, Problem.on_solver. simpl.
    by rewrite RBS.getSolutions_run.
  Qed.

  (** C2: [getSolution] returns the first solution in search order, or the
      empty object [{}] when there is none; the problem is unchanged. *)
Theorem problem_getSolution_exact p :
    csp_ok (Problem.view p) ->
    Problem.getSolution p = Done (first_solution (Problem.view p)) p.
  Proof.
    intros Hok. unfold Problem.getSolution, Problem.on_solver. simpl.
    rewrite RBS.getSolution_run by done. by destruct p.
  Qed.

  (** C3: an assignment is returned by [getSolutions] if and only if it
      assigns every variable, in enumeration order, a value of its domain,
      and every constraint holds on it (soundness and completeness). *)
Theorem problem_getSolutions_sound_complete p l p' :
    csp_ok (Problem.view p) -> Problem.getSolutions p = Done l p' ->
    forall a, In a l <->
      exists e, a = mkobj e /\ map fst e = own_keys (Problem.variables p) /\
        Forall (fun kx => In kx.2 (domain_of (Problem.variables p) kx.1)) e /\
        consistent a (Problem.constraints p) = true.
  Proof.
    intros Hok. unfold Problem.getSolutions, Problem.on_solver. simpl.
    rewrite RBS.getSolutions_run by done. intros [= <- _] a.
    unfold solutions. rewrite filter_In, in_map_iff. simpl. split.
    - intros [(e & <- & He) Hc]. exists e. apply in_candidates in He. naive_solver.
    - intros (e & -> & Hk & Hdom & Hc). split; [|done]. exists e.
      split; [done|]. by apply in_candidates.
  Qed.

  (** C10: without constraints, [getSolutions] returns as many assignments
      as the product of the domain sizes. *)
Theorem problem_getSolutions_count p l p' :
    csp_ok (Problem.view p) -> Problem.constraints p = [] ->
    Problem.getSolutions p = Done l p' ->
    length l = domains_product (Problem.variables p) (own_keys (Problem.variables p)).
  Proof.
    intros Hok Hnil. unfold Problem.getSolutions, Problem.on_solver. simpl.
    rewrite RBS.getSolutions_run by done. intros [= <- _].
    unfold solutions. simpl. rewrite Hnil. unfold consistent. simpl.
    rewrite filter_true, length_map. apply length_candidates.
  Qed.
(** The search starts from [{}], where no scope is assigned yet. *)
Lemma quiet_empty cs e : scopes_ok cs -> RBS.quiet cs e obj_empty.
Proof.
  intros Hcs. unfold RBS.quiet. eapply Forall_impl; [exact Hcs|]. intros c [Hne Hnp] _.
  destruct (Constraint.variables c) as [|fp scope]; [done|]. simpl. unfold js_get. simpl.
  rewrite (Hnp fp); [done|]. by left.
Qed.

  (** C25: the solver does not catch what a constraint throws: when every
      constraint of a problem with the default solver either accepts every
      argument list or throws [e] on every one, some throwing constraint
      names only variables of the problem and the first value of every
      domain is defined, both [getSolutions] and [getSolution] throw [e]. *)
Theorem problem_constraint_exception_escapes p e :
    vars_wf (Problem.variables p) -> scopes_ok (Problem.constraints p) ->
    Forall (fun c => RBS.accepts c \/ RBS.throws e c) (Problem.constraints p) ->
    (forall k, k ∈ own_keys (Problem.variables p) ->
       exists x dom, domain_of (Problem.variables p) k = x :: dom /\ is_defined x = true) ->
    (exists c, c ∈ Problem.constraints p /\ RBS.throws e c /\
       forall fp, fp ∈ Constraint.variables c -> fp ∈ own_keys (Problem.variables p)) ->
    (exists p', Problem.getSolutions p = Raise e p') /\
    (exists p', Problem.getSolution p = Raise e p').
  Proof.
    intros Hwf Hsc Hcs Hdom Hthr.
    assert (Hs : forall single t, exists s',
      RBS.solve (variables (Problem.view p)) (constraints (Problem.view p)) single
        (RBS.solve_fuel (Problem.view p)) (RBS.mkstate obj_empty t) = Raise e s').
    { intros single t. apply (RBS.solve_throwing _ _ e Hwf Hcs Hdom Hthr single (own_keys (Problem.variables p)) [] t);
        [done|unfold RBS.solve_fuel; simpl; lia|done|by apply quiet_empty]. }
    unfold Problem.getSolutions, Problem.getSolution, Problem.on_solver. cbn [solver_getSolutions solver_getSolution RBS_solver].
    unfold RBS.getSolutions, RBS.getSolution, RBS.with_assignments, st_bind, st_modify.
    destruct (Hs false (RBS.mk (Some []))) as [s1 ->]. destruct (Hs true (Problem.solver p)) as [s2 ->].
    split; by eexists.
  Qed.
  (** C34: a constraint whose scope names members of [Object.prototype]
      ([constructor], [toString], ...) other than the first variable is
      called as soon as the first variable gets a value, on the inherited
      functions instead of the variables' values; when it rejects those,
      [getSolutions] returns no solution, whatever the domains and
      whatever the constraint answers on the variables' values. *)
Theorem problem_proto_scope_no_solutions p k0 ks c v :
    vars_wf (Problem.variables p) -> fns_total (Problem.constraints p) ->
    own_keys (Problem.variables p) = k0 :: ks ->
    c ∈ Problem.constraints p ->
    (forall k, k ∈ Constraint.variables c -> proto_member k = true /\ k <> k0) ->
    Constraint.fn c (map JBuiltin (Constraint.variables c)) = JsReturn v -> truthy v = false ->
    exists p', Problem.getSolutions p = Done [] p'.
  Proof.
    intros Hwf Htot Hk Hc Hsc Hfn Hv.
    destruct (obj_lookup_is_Some (Problem.variables p) k0) as [nv Hnv].
    { rewrite <- elem_of_own_keys, Hk. by left. }
    assert (Hname : Var.name nv = k0) by (by apply (proj2 Hwf)).
    assert (Hs : forall fuel t, RBS.solve (Problem.variables p) (Problem.constraints p) false (S fuel)
                   (RBS.mkstate obj_empty t) = Done false (RBS.mkstate obj_empty t)).
    { intros fuel t. simpl. unfold st_bind, st_gets. simpl. rewrite Hk. simpl.
      unfold RBS.find_next_var. rewrite Hk. simpl. rewrite Hnv.
      apply RBS.try_values_rejected; [done|by rewrite Hname|].
      intros x _. unfold consistent. apply not_true_iff_false. rewrite forallb_forall.
      intros Hall. specialize (Hall c (proj1 (list_elem_of_In _ _) Hc)). unfold holds in Hall.
      rewrite RBS.build_args_proto, Hfn, Hv in Hall; [done|].
      intros fp Hfp. destruct (Hsc fp Hfp) as [Hp Hne]. split; [|done].
      rewrite Hname. unfold obj_lookup. simpl. by rewrite bool_decide_eq_false_2. }
    unfold Problem.getSolutions, Problem.on_solver.
    cbn [solver_getSolutions solver_getSolution RBS_solver].
    unfold RBS.getSolutions, RBS.with_assignments, st_bind, st_modify, RBS.solve_fuel.
    cbn [Problem.view Model.variables Model.constraints]. rewrite Hs. by eexists.
  Qed.
(** The first variable [solve] branches on. *)
Lemma find_next_var_empty vars :
  RBS.find_next_var vars obj_empty =
    match own_keys vars with [] => None | k :: _ => obj_lookup vars k end.
Proof. unfold RBS.find_next_var. by destruct (own_keys vars). Qed.

  (** C9: the variable [solve] branches on first is the first key of
      [for (v in variables)], not the first one added: a variable whose
      name is the numeral of [n], added last to a problem without numeric
      names, is searched first exactly when [n <= 2^32 - 2] (an array
      index); from [2^32 - 1] on, the first variable added keeps its
      place. *)
Theorem numeral_variable_searched_first (p : Problem.t RBS.t) n dom p' :
    Problem.addVariable (N_to_string n) dom p = Done tt p' ->
    (forall k, In k (obj_keys (Problem.variables p)) -> is_array_index k = false) ->
    N_to_string n ∉ obj_keys (Problem.variables p) ->
    RBS.find_next_var (Problem.variables p') obj_empty =
      if bool_decide (n <= 4294967294)%N then Some (Var.mk (N_to_string n) dom)
      else match obj_keys (Problem.variables p) with
           | [] => Some (Var.mk (N_to_string n) dom)
           | k :: _ => obj_lookup (Problem.variables p) k
           end.
  Proof.
    unfold Problem.addVariable, st_modify. intros [= <-] Hno Hnin. cbn [Problem.variables].
    rewrite find_next_var_empty, own_keys_set_numeral by done.
    destruct (bool_decide _); [apply obj_lookup_set_eq|].
    destruct (obj_keys _) as [|k ks] eqn:Hk; simpl; [apply obj_lookup_set_eq|].
    apply obj_lookup_set_ne. intros ->. set_solver.
  Qed.
End end_to_end.

(** C19: [Problem.getSolutionIter] does not reach the solver's
    [getSolutionIter], which throws [Unsupported]: it calls
    [getSolutions] and returns every solution at once. *)
Theorem problem_getSolutionIter_eager (p : Problem.t RBS.t) :
  csp_ok (Problem.view p) ->
  Problem.getSolutionIter p =
  Done (solutions (Problem.view p))
       (Problem.mk (RBS.mk (Some (solutions (Problem.view p))))
                   (Problem.variables p) (Problem.constraints p)) /\
  RBS.getSolutionIter (Problem.view p) (Problem.solver p) =
  Raise (ErrorRecord "Unsupported"
           "RecursiveBacktrackingSolver does not support a solution iterator")
        (Problem.solver p).
Proof.
  intros Hok. split; [|done].
  unfold Problem.getSolutionIter, Problem.on_solver. simpl.
  by rewrite RBS.getSolutions_run.
Qed.
