(* ===== verification/Compile.v ===== *)
(** * getConstrains: relations compiled to JS functions

    [CspManager]'s [getConstrains] ([src/src/ngCsp.js], lines 143-178)
    turns each [{properties, relations}] of a configuration into a
    constraint whose function is built from source text with
    [new Function("x0,x1,..", "return (..)  || (..)")].  Each tuple of
    [relations] becomes a parenthesised conjunction of one comparison per
    position: [xi==true] for a boolean, [xi!=='v'] for a string ['!v'],
    [xi=='v'] otherwise.

    The model follows the code in two steps:
    - [clause_of]/[conj_of] make the comparison of each tuple value (or the
      [TypeError] that [val.charAt] throws on [undefined]), and the printers
      [clause_src], [conj_src], [body_src] produce the exact source text the
      code concatenates;
    - [new_Function] gives that text its meaning: [parse_body] reads the
      fragment of JavaScript the generator emits, and [eval_disj] evaluates
      it with JS's loose equality [==] (through [ToNumber] of strings) and
      strict inequality [!==].
    [parse_body] reads back every text the generator prints whose string
    literals contain no quote, backslash or line break
    ([parse_print_body]); a text it cannot read is a [SyntaxError].  This
    is what JS does for an empty tuple (the text [()]); a value that
    contains a quote can instead inject code, which the model does not
    interpret. *)

From S2P Require Import Prelude JsObject Model JsEquality.
From Stdlib Require Import Ascii DecimalString DecimalN NArith.

Local Open Scope string_scope.

(** ** The comparisons the generator emits *)

Inductive clause : Type :=
| CEqBool (idx : nat) (b : bool)    (** [xi==true], [xi==false] *)
| CEqStr (idx : nat) (s : string)   (** [xi=='s'] *)
| CNeqStr (idx : nat) (s : string). (** [xi!=='s'] *)

#[export] Instance clause_eq_dec : EqDecision clause.
Proof. solve_decision. Defined.

Definition clause_idx (c : clause) : nat :=
  match c with CEqBool i _ | CEqStr i _ | CNeqStr i _ => i end.

(** The clause for the value [val] at position [idx] of a tuple:
    [typeof val == 'boolean'], then [isNaN(val) && val.charAt(0) == '!']
    (a string starting with ['!'] is never numeric; [isNaN] of [undefined]
    or of a function is true and [charAt] is then missing). *)
Definition clause_of (idx : nat) (val : jsval) : sum exn clause :=
  match val with
  | JBool b => inr (CEqBool idx b)
  | JStr (String "!" rest) => inr (CNeqStr idx rest)
  | JStr s => inr (CEqStr idx s)
  | JNum n => inr (CEqStr idx (Z_to_string n))
  | JNull => inr (CEqStr idx "null")
  | JUndefined => inl (TypeError "Cannot read properties of undefined (reading 'charAt')")
  | JBuiltin _ => inl (TypeError "val.charAt is not a function")
  end.

Fixpoint mapi_sum {A B} (f : nat -> A -> sum exn B) (i : nat) (l : list A)
    : sum exn (list B) :=
  match l with
  | [] => inr []
  | x :: l' =>
      match f i x with
      | inl e => inl e
      | inr y => match mapi_sum f (S i) l' with inl e => inl e | inr ys => inr (y :: ys) end
      end
  end.

(** [relation.map(function (val, idx) {..})] *)
Definition conj_of (relation : list jsval) : sum exn (list clause) :=
  mapi_sum clause_of 0 relation.

(** [constraint.relations.map(..)] *)
Definition disj_of (relations : list (list jsval)) : sum exn (list (list clause)) :=
  mapi_sum (fun _ r => conj_of r) 0 relations.

(** ** The source text *)

Definition var_src (idx : nat) : string := "x" ++ N_to_string (N.of_nat idx).

Definition clause_src (c : clause) : string :=
  match c with
  | CEqBool i b => var_src i ++ "==" ++ (if b then "true" else "false")
  | CEqStr i s => var_src i ++ "=='" ++ s ++ "'"
  | CNeqStr i s => var_src i ++ "!=='" ++ s ++ "'"
  end.

(** [expression = ...join(' && '); return "(" + expression + ")"] *)
Definition conj_src (cs : list clause) : string :=
  "(" ++ String.concat " && " (map clause_src cs) ++ ")".

(** [functionStr = "return " + ...join("  || ")] *)
Definition body_src (d : list (list clause)) : string :=
  "return " ++ String.concat "  || " (map conj_src d).

(** [constraint.properties.map(function (property, index) {return 'x' + index}).join(',')] *)
Definition params_src (properties : list string) : string :=
  String.concat "," (map var_src (seq 0 (length properties))).

(** ** Reading the text back *)

Fixpoint strip (p s : string) : option string :=
  match p, s with
  | EmptyString, _ => Some s
  | String c p', String d s' => if Ascii.eqb c d then strip p' s' else None
  | String _ _, EmptyString => None
  end.

Definition is_digit (c : ascii) : bool :=
  Nat.leb 48 (nat_of_ascii c) && Nat.leb (nat_of_ascii c) 57.

Fixpoint take_digits (s : string) : string * string :=
  match s with
  | String c s' =>
      if is_digit c then let (d, r) := take_digits s' in (String c d, r) else (EmptyString, s)
  | EmptyString => (EmptyString, EmptyString)
  end.

(** A parameter index: a canonical decimal numeral. *)
Definition parse_index (s : string) : option (nat * string) :=
  let (d, r) := take_digits s in
  match canonical_index d with Some n => Some (N.to_nat n, r) | None => None end.

Definition lit_char_ok (c : ascii) : bool :=
  negb (Ascii.eqb c "'" || Ascii.eqb c "\" || Ascii.eqb c (ascii_of_nat 10)
        || Ascii.eqb c (ascii_of_nat 13)).

(** The content of a string literal, up to its closing quote. *)
Fixpoint take_lit (s : string) : option (string * string) :=
  match s with
  | EmptyString => None
  | String c s' =>
      if Ascii.eqb c "'" then Some (EmptyString, s')
      else if lit_char_ok c then
        match take_lit s' with Some (l, r) => Some (String c l, r) | None => None end
      else None
  end.

Definition parse_clause (s : string) : option (clause * string) :=
  match strip "x" s with
  | None => None
  | Some s1 =>
      match parse_index s1 with
      | None => None
      | Some (i, s2) =>
          match strip "=='" s2 with
          | Some s3 => match take_lit s3 with Some (l, s4) => Some (CEqStr i l, s4) | None => None end
          | None =>
          match strip "==true" s2 with
          | Some s3 => Some (CEqBool i true, s3)
          | None =>
          match strip "==false" s2 with
          | Some s3 => Some (CEqBool i false, s3)
          | None =>
              match strip "!=='" s2 with
              | Some s3 =>
                  match take_lit s3 with Some (l, s4) => Some (CNeqStr i l, s4) | None => None end
              | None => None
              end
          end
          end
          end
      end
  end.

(** [item (sep item)*]: the items are read by [p], which may itself
    need fuel. *)
Fixpoint parse_sep {A} (p : nat -> string -> option (A * string)) (sep : string)
    (fuel : nat) (s : string) : option (list A * string) :=
  match fuel with
  | O => None
  | S fuel' =>
      match p fuel' s with
      | None => None
      | Some (x, s1) =>
          match strip sep s1 with
          | Some s2 =>
              match parse_sep p sep fuel' s2 with
              | Some (xs, s3) => Some (x :: xs, s3)
              | None => None
              end
          | None => Some ([x], s1)
          end
      end
  end.

Definition parse_clauses : nat -> string -> option (list clause * string) :=
  parse_sep (fun _ => parse_clause) " && ".

Definition parse_conj (fuel : nat) (s : string) : option (list clause * string) :=
  match strip "(" s with
  | None => None
  | Some s1 =>
      match parse_clauses fuel s1 with
      | Some (cs, s2) => match strip ")" s2 with Some s3 => Some (cs, s3) | None => None end
      | None => None
      end
  end.

Definition parse_conjs : nat -> string -> option (list (list clause) * string) :=
  parse_sep parse_conj "  || ".

(** The body [return] followed by nothing (the function returns
    [undefined]) or by a disjunction that uses up the text. *)
Definition parse_body (s : string) : option (list (list clause)) :=
  match strip "return " s with
  | None => None
  | Some s1 =>
      if String.eqb s1 EmptyString then Some []
      else
        match parse_conjs (S (String.length s1)) s1 with
        | Some (d, EmptyString) => Some d
        | _ => None
        end
  end.

(** The parameter list [x0,x1,..] of [new Function]: the names between
    the commas, each of the form the generator emits. *)
Fixpoint split_commas (s : string) : list string :=
  match s with
  | EmptyString => [EmptyString]
  | String c s' =>
      if Ascii.eqb c "," then EmptyString :: split_commas s'
      else match split_commas s' with
           | w :: ws => String c w :: ws
           | [] => [String c EmptyString]
           end
  end.

Definition is_param (w : string) : bool :=
  match strip "x" w with
  | Some r => match canonical_index r with Some _ => true | None => false end
  | None => false
  end.

Definition parse_params (s : string) : option (list string) :=
  if String.eqb s EmptyString then Some []
  else let ws := split_commas s in if forallb is_param ws then Some ws else None.

(** The scope of the function body: parameter [names] bound to [args]
    ([undefined] for a missing argument); other names are unbound. *)
Definition bind_params (names : list string) (args : list jsval) (x : string) : option jsval :=
  match list_find (fun n => n = x) names with
  | Some (j, _) => Some (nth j args JUndefined)
  | None => None
  end.

(** The comparison of a clause applied to the value of its parameter. *)
Definition clause_test (c : clause) (x : jsval) : bool :=
  match c with
  | CEqBool _ b => loose_eq_bool x b
  | CEqStr _ s => loose_eq_str x s
  | CNeqStr _ s => strict_neq_str x s
  end.

Definition eval_clause (env : string -> option jsval) (c : clause) : sum exn bool :=
  match env (var_src (clause_idx c)) with
  | None => inl (ReferenceError (var_src (clause_idx c) ++ " is not defined"))
  | Some x => inr (clause_test c x)
  end.

(** [c1 && c2 && ..]: evaluation stops at the first false operand. *)
Fixpoint eval_conj (env : string -> option jsval) (cs : list clause) : sum exn bool :=
  match cs with
  | [] => inr true
  | c :: cs' =>
      match eval_clause env c with
      | inr true => eval_conj env cs'
      | r => r
      end
  end.

(** [(..)  || (..)]: evaluation stops at the first true operand. *)
Fixpoint eval_disj (env : string -> option jsval) (d : list (list clause)) : sum exn bool :=
  match d with
  | [] => inr false
  | cs :: d' =>
      match eval_conj env cs with
      | inr false => eval_disj env d'
      | r => r
      end
  end.

(** A call of the compiled function: a bare [return] gives [undefined]. *)
Definition run_body (names : list string) (d : list (list clause)) (args : list jsval)
    : jsresult :=
  match d with
  | [] => JsReturn JUndefined
  | _ :: _ =>
      match eval_disj (bind_params names args) d with
      | inl e => JsThrow e
      | inr b => JsReturn (JBool b)
      end
  end.

(** [new Function(params, body)]: a text outside the fragment the
    generator emits is a [SyntaxError]. *)
Definition new_Function (params body : string) : sum exn (list jsval -> jsresult) :=
  match parse_params params, parse_body body with
  | Some names, Some d => inr (run_body names d)
  | _, _ => inl (SyntaxError "Unexpected token ')'")
  end.

(** ** [getConstrains] *)

(** An element of [configuration.constraints]. *)
Record cfg_constraint : Type := mk_cfg_constraint {
  properties : list string;
  relations : list (list jsval)
}.

(** The body of [configuration.constraints.forEach]: the text, then
    [new Function], then [{variables: constraint.properties, funct}]. *)
Definition compile_constraint (c : cfg_constraint) : sum exn Constraint.t :=
  match disj_of (relations c) with
  | inl e => inl e
  | inr d =>
      match new_Function (params_src (properties c)) (body_src d) with
      | inl e => inl e
      | inr f => inr (Constraint.mk (properties c) f)
      end
  end.

Definition getConstrains (constraints : list cfg_constraint) : sum exn (list Constraint.t) :=
  mapi_sum (fun _ c => compile_constraint c) 0 constraints.

(** ** The specified meaning: a data-driven matcher

    The relation table read directly, without source text: a constraint
    holds when some tuple matches the arguments position by position; a
    boolean entry is compared with [==], an entry ['!v'] with [!==] against
    ['v'], any other entry with [==] against its text. *)

Definition entry_holds (v x : jsval) : bool :=
  match v with
  | JBool b => loose_eq_bool x b
  | JStr (String "!" rest) => strict_neq_str x rest
  | JStr s => loose_eq_str x s
  | JNum n => loose_eq_str x (Z_to_string n)
  | JNull => loose_eq_str x "null"
  | JUndefined | JBuiltin _ => false
  end.

(** The tuple [r], whose first entry is at position [i], against the
    values [f i], [f (i+1)], ... *)
Fixpoint tuple_matches (i : nat) (r : list jsval) (f : nat -> jsval) : bool :=
  match r with
  | [] => true
  | v :: r' => entry_holds v (f i) && tuple_matches (S i) r' f
  end.

Definition matcher (rels : list (list jsval)) (args : list jsval) : bool :=
  existsb (fun r => tuple_matches 0 r (fun k => nth k args JUndefined)) rels.

Fixpoint lit_ok (s : string) : bool :=
  match s with EmptyString => true | String c s' => lit_char_ok c && lit_ok s' end.

(** A clause whose string literal needs no escape. *)
Definition clause_ok (c : clause) : bool :=
  match c with CEqBool _ _ => true | CEqStr _ s | CNeqStr _ s => lit_ok s end.

(** Entries the generator prints as a comparison whose literal needs no
    escape ([undefined] and built-in objects make it throw). *)
Definition entry_ok (v : jsval) : bool :=
  match v with
  | JStr (String "!" rest) => lit_ok rest
  | JStr s => lit_ok s
  | JUndefined | JBuiltin _ => false
  | JBool _ | JNum _ | JNull => true
  end.

(** Every tuple nonempty and printable. *)
Definition relations_ok (rels : list (list jsval)) : bool :=
  forallb (fun r => negb (bool_decide (r = [])) && forallb entry_ok r) rels.

(** ** Auxiliary predicates of the proofs *)

Fixpoint all_digits (s : string) : bool :=
  match s with EmptyString => true | String c s' => is_digit c && all_digits s' end.

Definition no_digit_head (s : string) : bool :=
  match s with String c _ => negb (is_digit c) | EmptyString => true end.

Definition conj_ok (cs : list clause) : bool := negb (bool_decide (cs = [])) && forallb clause_ok cs.

Definition body_ok (d : list (list clause)) : bool := forallb conj_ok d.

Fixpoint no_comma (s : string) : bool :=
  match s with
  | EmptyString => true
  | String c s' => negb (Ascii.eqb c ",") && no_comma s'
  end.

Definition param_names (m : nat) : list string := map var_src (seq 0 m).

(** Entries a tuple matches when it is itself the argument list: a
    boolean, a number, or a string without the negation marker. *)
Definition positive_entry (v : jsval) : bool :=
  match v with
  | JStr (String "!" _) => false
  | JBool _ | JNum _ | JStr _ => true
  | JUndefined | JNull | JBuiltin _ => false
  end.

(** * Properties *)

Lemma strip_app p s : strip p (p ++ s) = Some s.
Proof. induction p as [|c p IH]; [done|]. simpl. by rewrite Ascii.eqb_refl. Qed.

Lemma strip_Some p s r : strip p s = Some r -> s = p ++ r.
Proof.
  revert s. induction p as [|c p IH]; intros s; [by intros [= <-]|].
  destruct s as [|d s]; simpl; [done|].
  destruct (Ascii.eqb_spec c d) as [->|]; [|done]. intros ?%IH. by subst.
Qed.

Lemma take_digits_app s r :
  all_digits s = true -> no_digit_head r = true -> take_digits (s ++ r) = (s, r).
Proof.
  intros Hs Hr. induction s as [|c s IH].
  - destruct r as [|c r]; [done|]. simpl in *. by destruct (is_digit c).
  - simpl in Hs. apply andb_prop in Hs as [Hc Hs].
    rewrite append_String. simpl. by rewrite Hc, IH.
Qed.

Lemma all_digits_N_to_string n : all_digits (N_to_string n) = true.
Proof.
  assert (H : forall d, all_digits (NilEmpty.string_of_uint d) = true)
    by (induction d; simpl; auto).
  unfold N_to_string, NilZero.string_of_uint. destruct (N.to_uint n); [done|..]; apply H.
Qed.

Lemma parse_index_var i r :
  no_digit_head r = true -> parse_index (N_to_string (N.of_nat i) ++ r) = Some (i, r).
Proof.
  intros Hr. unfold parse_index.
  rewrite take_digits_app by auto using all_digits_N_to_string.
  by rewrite canonical_index_N_to_string, Nat2N.id.
Qed.

Lemma var_src_inj i j : var_src i = var_src j -> i = j.
Proof.
  unfold var_src. rewrite !append_String, !append_Empty. intros [= H].
  apply (f_equal canonical_index) in H. rewrite !canonical_index_N_to_string in H.
  injection H. lia.
Qed.

(** ** Printing and parsing *)

Lemma take_lit_app s r : lit_ok s = true -> take_lit (s ++ String "'" r) = Some (s, r).
Proof.
  induction s as [|c s IH]; [done|]. simpl. intros [Hc Hs]%andb_prop.
  rewrite IH by done.
  assert (Ascii.eqb c "'" = false) as ->; [|by rewrite Hc].
  unfold lit_char_ok in Hc. by destruct (Ascii.eqb c "'").
Qed.

Lemma parse_clause_src c r :
  clause_ok c = true -> parse_clause (clause_src c ++ r) = Some (c, r).
Proof.
  intros Hok. unfold parse_clause, clause_src, var_src.
  destruct c as [i []|i s|i s]; str_simpl;
    rewrite parse_index_var by done; simpl; try rewrite take_lit_app; done.
Qed.

Lemma append_nil_r (s : string) : s ++ EmptyString = s.
Proof. induction s as [|c s IH]; [done|]. by rewrite append_String, IH. Qed.

Lemma concat_cons2 (sep x y : string) l :
  String.concat sep (x :: y :: l) = x ++ sep ++ String.concat sep (y :: l).
Proof. reflexivity. Qed.

(** Reading back a list printed with a separator. *)
Lemma parse_sep_print {A} (p : nat -> string -> option (A * string)) (pr : A -> string)
    sep xs r fuel :
  sep <> EmptyString ->
  (forall x f r', x ∈ xs -> String.length (pr x) <= f -> p f (pr x ++ r') = Some (x, r')) ->
  strip sep r = None -> xs <> [] ->
  String.length (String.concat sep (map pr xs)) < fuel ->
  parse_sep p sep fuel (String.concat sep (map pr xs) ++ r) = Some (xs, r).
Proof.
  intros Hsep Hp Hr. revert fuel.
  induction xs as [|x [|y ys] IH]; intros fuel Hne Hlen; [done| |];
    destruct fuel as [|f]; try lia.
  - change (String.concat sep (map pr [x])) with (pr x) in *. cbn [parse_sep].
    rewrite Hp by (lia || set_solver). by rewrite Hr.
  - change (map pr (x :: y :: ys)) with (pr x :: pr y :: map pr ys) in *.
    rewrite concat_cons2 in *. rewrite !length_append in Hlen. cbn [parse_sep].
    destruct sep as [|c sep]; [done|]. cbn [String.length] in Hlen.
    rewrite <- !append_assoc, Hp by (lia || set_solver). rewrite strip_app.
    change (pr y :: map pr ys) with (map pr (y :: ys)) in *.
    rewrite IH; [done| |done|lia]. intros z f' r' Hz. apply Hp. rewrite elem_of_cons. by right.
Qed.

Lemma parse_conj_src cs f r :
  conj_ok cs = true -> String.length (conj_src cs) <= f ->
  parse_conj f (conj_src cs ++ r) = Some (cs, r).
Proof.
  unfold conj_ok, conj_src. intros [Hne Hok]%andb_prop Hlen.
  rewrite !length_append in Hlen. cbn [String.length] in Hlen.
  unfold parse_conj. str_simpl. unfold parse_clauses.
  rewrite parse_sep_print; [done|done| |done| |lia].
  - intros c f' r' Hc _. apply parse_clause_src. rewrite forallb_forall in Hok.
    apply Hok. by apply list_elem_of_In.
  - by case_bool_decide.
Qed.

(** Reading back the body text that [getConstrains] prints gives the
    disjunction it printed, when every tuple is nonempty and no string
    literal needs an escape. *)
Theorem parse_print_body d : body_ok d = true -> parse_body (body_src d) = Some d.
Proof.
  intros Hok. unfold parse_body, body_src. rewrite strip_app.
  destruct d as [|cs d']; [done|].
  set (s1 := String.concat "  || " (map conj_src (cs :: d'))).
  assert (Hs1 : String.eqb s1 EmptyString = false).
  { subst s1. destruct d'; [|done]. simpl. by destruct cs. }
  rewrite Hs1.
  pose proof (parse_sep_print parse_conj conj_src "  || " (cs :: d') EmptyString
                (S (String.length s1))) as H.
  rewrite append_nil_r in H. fold s1 in H. unfold parse_conjs. rewrite H; [done|done| |done|done|lia].
  intros x f r' Hx Hf. apply parse_conj_src; [|done].
  unfold body_ok in Hok. rewrite forallb_forall in Hok. apply Hok. by apply list_elem_of_In.
Qed.

(** ** The parameter list *)

Lemma split_commas_single w : no_comma w = true -> split_commas w = [w].
Proof.
  induction w as [|c w IH]; [done|]. simpl. intros [Hc Hw]%andb_prop.
  apply negb_true_iff in Hc. by rewrite Hc, IH.
Qed.

Lemma split_commas_app w rest :
  no_comma w = true -> split_commas (w ++ String "," rest) = w :: split_commas rest.
Proof.
  induction w as [|c w IH]; [done|]. simpl. intros [Hc Hw]%andb_prop.
  apply negb_true_iff in Hc. by rewrite Hc, IH.
Qed.

Lemma split_commas_concat ws :
  ws <> [] -> Forall (fun w => no_comma w = true) ws -> split_commas (String.concat "," ws) = ws.
Proof.
  induction ws as [|w [|w' ws] IH]; intros Hne Hws; [done| |].
  - apply split_commas_single. by inversion Hws.
  - inversion Hws; subst.
    rewrite concat_cons2, append_String, append_Empty, split_commas_app by done.
    by rewrite IH.
Qed.

Lemma no_comma_digits s : all_digits s = true -> no_comma s = true.
Proof.
  induction s as [|c s IH]; [done|]. simpl. intros [Hc Hs]%andb_prop.
  rewrite IH by done. by destruct (Ascii.eqb_spec c ","); [subst|].
Qed.

Lemma no_comma_var_src i : no_comma (var_src i) = true.
Proof.
  unfold var_src. rewrite append_String, append_Empty. simpl.
  apply no_comma_digits, all_digits_N_to_string.
Qed.

Lemma is_param_var_src i : is_param (var_src i) = true.
Proof.
  unfold is_param, var_src. rewrite strip_app, canonical_index_N_to_string. done.
Qed.

(** [new Function] reads the parameter list it is given back as the
    names [x0 .. x(m-1)]. *)
Lemma parse_params_src properties :
  parse_params (params_src properties) = Some (param_names (length properties)).
Proof.
  unfold parse_params, params_src, param_names.
  destruct (length properties) as [|m]; [done|].
  cbn [seq map].
  assert (Hne : String.eqb (String.concat "," (var_src 0 :: map var_src (seq 1 m))) EmptyString
                = false) by (destruct m; reflexivity).
  assert (Hall : forallb is_param (var_src 0 :: map var_src (seq 1 m)) = true).
  { apply forallb_forall. intros w [<-|(i & <- & _)%in_map_iff]; apply is_param_var_src. }
  rewrite Hne, split_commas_concat, Hall; [done|done|].
  apply List.Forall_forall. intros w [<-|(i & <- & _)%in_map_iff]; apply no_comma_var_src.
Qed.

Lemma bind_params_in m args k :
  k < m -> bind_params (param_names m) args (var_src k) = Some (nth k args JUndefined).
Proof.
  intros Hk. unfold bind_params.
  rewrite (proj2 (list_find_Some _ (param_names m) k (var_src k))); [done|].
  unfold param_names. split_and!.
  - rewrite list_lookup_fmap, lookup_seq_lt by done. done.
  - done.
  - intros j y (j' & -> & Hj')%list_lookup_fmap_Some Hjk ?%var_src_inj.
    apply lookup_seq in Hj'. lia.
Qed.

Lemma bind_params_out m args k :
  m <= k -> bind_params (param_names m) args (var_src k) = None.
Proof.
  intros Hk. unfold bind_params. rewrite (proj2 (list_find_None _ _)); [done|].
  apply Forall_forall. unfold param_names.
  intros y (j & -> & Hj%elem_of_seq)%list_elem_of_fmap ?%var_src_inj. lia.
Qed.

(** ** Compiled constraints implement the matcher *)

Lemma lit_ok_digits s : all_digits s = true -> lit_ok s = true.
Proof.
  induction s as [|c s IH]; [done|]. simpl. intros [Hc Hs]%andb_prop.
  rewrite IH by done. unfold is_digit in Hc. unfold lit_char_ok.
  destruct c as [[] [] [] [] [] [] [] []]; done.
Qed.

Lemma lit_ok_Z_to_string n : lit_ok (Z_to_string n) = true.
Proof.
  unfold Z_to_string. destruct (Z.ltb n 0); [rewrite append_String, append_Empty; simpl|];
    apply lit_ok_digits, all_digits_N_to_string.
Qed.

(** The three readings of a string entry, by its first character. *)
Lemma clause_of_JStr i a s :
  clause_of i (JStr (String a s)) =
  if Ascii.eqb a "!" then inr (CNeqStr i s) else inr (CEqStr i (String a s)).
Proof. destruct a as [[] [] [] [] [] [] [] []]; reflexivity. Qed.

Lemma entry_holds_JStr a s x :
  entry_holds (JStr (String a s)) x =
  if Ascii.eqb a "!" then strict_neq_str x s else loose_eq_str x (String a s).
Proof. destruct a as [[] [] [] [] [] [] [] []]; reflexivity. Qed.

Lemma entry_ok_JStr a s :
  entry_ok (JStr (String a s)) = if Ascii.eqb a "!" then lit_ok s else lit_ok (String a s).
Proof. destruct a as [[] [] [] [] [] [] [] []]; reflexivity. Qed.

(** An entry becomes a clause on its own position that tests what the
    matcher tests. *)
Lemma clause_of_entry i v :
  entry_ok v = true ->
  exists c, clause_of i v = inr c /\ clause_ok c = true /\ clause_idx c = i /\
            forall x, clause_test c x = entry_holds v x.
Proof.
  intros Hok. destruct v as [| |b|n|[|a s]|name]; try done.
  - by eexists (CEqStr i "null").
  - by eexists (CEqBool i b).
  - eexists (CEqStr i (Z_to_string n)). split_and!; [done|apply lit_ok_Z_to_string|done|done].
  - by eexists (CEqStr i "").
  - rewrite clause_of_JStr. rewrite entry_ok_JStr in Hok.
    setoid_rewrite entry_holds_JStr. destruct (Ascii.eqb a "!"); by eexists.
Qed.

Lemma conj_of_tuple i r :
  forallb entry_ok r = true ->
  exists cs, mapi_sum clause_of i r = inr cs /\ forallb clause_ok cs = true /\
    length cs = length r /\
    forall f env, (forall k, i <= k < i + length r -> env (var_src k) = Some (f k)) ->
      eval_conj env cs = inr (tuple_matches i r f).
Proof.
  revert i. induction r as [|v r IH]; intros i Hok; [by exists []|].
  simpl in Hok. apply andb_prop in Hok as [Hv Hr].
  destruct (clause_of_entry i v Hv) as (c & Hc & Hcok & Hidx & Htest).
  destruct (IH (S i) Hr) as (cs & Hcs & Hcsok & Hlen & Heval).
  exists (c :: cs). simpl. rewrite Hc, Hcs, Hcok, Hcsok, Hlen. split_and!; [done..|].
  intros f env Henv. unfold eval_clause. rewrite Hidx, Henv by lia. rewrite Htest.
  destruct (entry_holds v (f i)); [|done]. apply Heval. intros k ?. apply Henv. lia.
Qed.

Lemma disj_of_relations j rels :
  relations_ok rels = true ->
  exists d, mapi_sum (fun _ r => conj_of r) j rels = inr d /\ body_ok d = true /\
    length d = length rels /\
    forall f env, (forall r k, r ∈ rels -> k < length r -> env (var_src k) = Some (f k)) ->
      eval_disj env d = inr (existsb (fun r => tuple_matches 0 r f) rels).
Proof.
  revert j. induction rels as [|r rels IH]; intros j Hok; [by exists []|].
  simpl in Hok. apply andb_prop in Hok as [[Hne Hr]%andb_prop Hrels].
  destruct (conj_of_tuple 0 r Hr) as (cs & Hcs & Hcsok & Hlen & Heval).
  destruct (IH (S j) Hrels) as (d & Hd & Hdok & Hdlen & Hdeval).
  assert (Hcs' : conj_of r = inr cs) by exact Hcs.
  exists (cs :: d). cbn [mapi_sum]. rewrite Hcs', Hd. split_and!; [done| |by cbn; rewrite Hdlen|].
  - unfold body_ok in *. cbn [forallb]. rewrite Hdok, andb_true_r.
    unfold conj_ok. rewrite Hcsok, andb_true_r, bool_decide_eq_false_2; [done|].
    intros ->. by destruct r.
  - intros f env Henv. cbn [eval_disj existsb].
    rewrite (Heval f) by (intros k ?; apply (Henv r); [apply elem_of_cons; by left|lia]).
    destruct (tuple_matches 0 r f); [done|]. apply Hdeval.
    intros r' k ??. apply (Henv r'); [apply elem_of_cons; by right|done].
Qed.

(** The function built for a constraint: [undefined] for an empty
    [relations], the matcher otherwise. *)
Lemma compile_constraint_run c :
  relations_ok (relations c) = true ->
  forallb (fun r => Nat.leb (length r) (length (properties c))) (relations c) = true ->
  exists f, compile_constraint c = inr (Constraint.mk (properties c) f) /\
    forall args, f args = match relations c with
                          | [] => JsReturn JUndefined
                          | _ => JsReturn (JBool (matcher (relations c) args))
                          end.
Proof.
  intros Hok Hlen.
  destruct (disj_of_relations 0 _ Hok) as (d & Hd & Hdok & Hdlen & Heval).
  unfold compile_constraint, disj_of. rewrite Hd. unfold new_Function.
  rewrite parse_params_src, parse_print_body by done.
  eexists; split; [reflexivity|]. intros args. unfold run_body.
  destruct (relations c) as [|r0 rels] eqn:E; destruct d as [|cs d'];
    simpl in Hdlen; try congruence.
  unfold matcher. rewrite (Heval (fun k => nth k args JUndefined)); [done|].
  intros r k Hr Hk. apply bind_params_in. rewrite forallb_forall in Hlen.
  apply list_elem_of_In, Hlen, Nat.leb_le in Hr. lia.
Qed.

(** C6: the function [getConstrains] builds for a constraint, by printing
    source text and handing it to [new Function], computes the data-driven
    matcher of the specification: it returns [true] exactly when some
    tuple matches the arguments position by position.  This holds when
    every tuple is nonempty, no longer than [properties], and printable. *)
Theorem compile_constraint_matches c :
  relations_ok (relations c) = true -> relations c <> [] ->
  forallb (fun r => Nat.leb (length r) (length (properties c))) (relations c) = true ->
  exists f, compile_constraint c = inr (Constraint.mk (properties c) f) /\
    forall args, f args = JsReturn (JBool (matcher (relations c) args)).
Proof.
  intros Hok Hne Hlen. destruct (compile_constraint_run c Hok Hlen) as (f & Hc & Hf).
  exists f. split; [done|]. intros args. rewrite Hf. by destruct (relations c).
Qed.

(** C17: a constraint with no tuples compiles to a function that returns
    [undefined]: it rejects every assignment that assigns its whole scope,
    and so every solution of a problem it belongs to. *)
Theorem compile_constraint_no_tuples props :
  exists f, compile_constraint (mk_cfg_constraint props []) = inr (Constraint.mk props f) /\
    forall a, holds a (Constraint.mk props f) = bool_decide (build_args a props = None).
Proof.
  destruct (compile_constraint_run (mk_cfg_constraint props [])) as (f & Hc & Hf);
    [done..|].
  exists f. split; [done|]. intros a. unfold holds. cbn [Constraint.variables Constraint.fn].
  destruct (build_args a props); [|done]. by rewrite Hf.
Qed.

(** ** Errors of [getConstrains] *)

Lemma mapi_sum_app {A B} (f : nat -> A -> sum exn B) i l1 l2 ys1 :
  mapi_sum f i l1 = inr ys1 ->
  mapi_sum f i (l1 ++ l2)%list =
    match mapi_sum f (i + length l1) l2 with inl e => inl e | inr ys2 => inr (ys1 ++ ys2)%list end.
Proof.
  revert i ys1. induction l1 as [|x l1 IH]; intros i ys1 H; simpl in *.
  - injection H as <-. rewrite Nat.add_0_r. by destruct (mapi_sum f i l2).
  - destruct (f i x) as [|y]; [done|]. destruct (mapi_sum f (S i) l1) as [|ys] eqn:E; [done|].
    injection H as <-. rewrite (IH (S i) ys E), Nat.add_succ_r. by destruct (mapi_sum _ _ l2).
Qed.

Lemma concat_cons_prefix sep x l : exists t, String.concat sep (x :: l) = x ++ t.
Proof. destruct l; [exists EmptyString; by rewrite append_nil_r|by eexists]. Qed.

(** A separated list whose item [bad] cannot be read is rejected. *)
Lemma parse_sep_fail {A} (p : nat -> string -> option (A * string)) (pr : A -> string)
    sep xs bad ys r fuel :
  sep <> EmptyString ->
  (forall x f r', x ∈ xs -> String.length (pr x) <= f -> p f (pr x ++ r') = Some (x, r')) ->
  (forall f r', p f (pr bad ++ r') = None) ->
  String.length (String.concat sep (map pr (xs ++ bad :: ys)%list)) < fuel ->
  parse_sep p sep fuel (String.concat sep (map pr (xs ++ bad :: ys)%list) ++ r) = None.
Proof.
  intros Hsep Hp Hbad. revert fuel.
  induction xs as [|x xs IH]; intros [|f] Hlen; try lia; cbn [app map parse_sep] in *.
  - destruct (concat_cons_prefix sep (pr bad) (map pr ys)) as [t ->].
    by rewrite <- append_assoc, Hbad.
  - assert (Hc : String.concat sep (pr x :: map pr (xs ++ bad :: ys)) =
                 pr x ++ sep ++ String.concat sep (map pr (xs ++ bad :: ys)%list))
      by (by destruct xs).
    rewrite Hc in *. rewrite !length_append in Hlen.
    destruct sep as [|c sep]; [done|]. cbn [String.length] in Hlen.
    rewrite <- !append_assoc, Hp by (lia || set_solver). rewrite strip_app.
    rewrite IH; [done| |lia]. intros z f' r' Hz. apply Hp. rewrite elem_of_cons. by right.
Qed.

Lemma disj_of_printable j post :
  Forall (fun r => forallb entry_ok r = true) post ->
  exists d, mapi_sum (fun _ r => conj_of r) j post = inr d.
Proof.
  intros Hpost. revert j. induction Hpost as [|r post Hr _ IH]; intros j; [by exists []|].
  destruct (conj_of_tuple 0 r Hr) as (cs & Hcs & _).
  destruct (IH (S j)) as [d Hd]. exists (cs :: d).
  assert (Hcs' : conj_of r = inr cs) by exact Hcs. cbn [mapi_sum]. by rewrite Hcs', Hd.
Qed.

Lemma conj_src_nonempty d :
  d <> [] -> String.eqb (String.concat "  || " (map conj_src d)) EmptyString = false.
Proof.
  destruct d as [|cs d]; [done|]. intros _. cbn [map].
  destruct (concat_cons_prefix "  || " (conj_src cs) (map conj_src d)) as [t ->]. done.
Qed.

Lemma parse_conj_empty f r : parse_conj f (conj_src [] ++ r) = None.
Proof. unfold conj_src. str_simpl. destruct f; done. Qed.

(** C16: a relation with an empty tuple prints the text [()], which
    [new Function] rejects: [getConstrains] throws a [SyntaxError] for the
    constraint (after building the text of every tuple). *)
Theorem compile_constraint_empty_tuple props pre post :
  relations_ok pre = true -> Forall (fun r => forallb entry_ok r = true) post ->
  compile_constraint (mk_cfg_constraint props (pre ++ [] :: post))
  = inl (SyntaxError "Unexpected token ')'").
Proof.
  intros Hpre Hpost.
  destruct (disj_of_relations 0 pre Hpre) as (dpre & Hd & Hdok & _).
  destruct (disj_of_printable (0 + length pre) ([] :: post)) as [d' Hd']; [by constructor|].
  assert (Hd'' : d' = [] :: tail d').
  { revert Hd'. cbn [mapi_sum]. unfold conj_of at 1. simpl.
    destruct (mapi_sum _ _ post); by intros [= <-]. }
  unfold compile_constraint, disj_of. cbn [relations].
  rewrite (mapi_sum_app _ _ _ _ _ Hd), Hd', Hd''. unfold new_Function, parse_body, body_src.
  rewrite strip_app, conj_src_nonempty by (by destruct dpre).
  unfold parse_conjs.
  pose proof (parse_sep_fail parse_conj conj_src "  || " dpre [] (tail d') EmptyString
    (S (String.length (String.concat "  || " (map conj_src (dpre ++ [] :: tail d')))))) as H.
  rewrite append_nil_r in H. rewrite H; [by destruct (parse_params _)|done| |apply parse_conj_empty|lia].
  intros x f r' Hx ?. apply parse_conj_src; [|done].
  unfold body_ok in Hdok. rewrite forallb_forall in Hdok. by apply Hdok, list_elem_of_In.
Qed.

(** A table whose first unprintable entry is [v], at position
    [length r1] of its tuple: [relation.map] stops there with the error of
    [clause_of], before any text is compiled. *)
Lemma compile_constraint_bad_entry c pre r1 v r2 post e :
  relations c = (pre ++ (r1 ++ v :: r2) :: post)%list ->
  relations_ok pre = true -> forallb entry_ok r1 = true -> clause_of (length r1) v = inl e ->
  compile_constraint c = inl e.
Proof.
  intros Hrel Hpre Hr1 Hv.
  destruct (disj_of_relations 0 pre Hpre) as (dpre & Hd & _).
  destruct (conj_of_tuple 0 r1 Hr1) as (cs & Hcs & _).
  unfold compile_constraint, disj_of. rewrite Hrel, (mapi_sum_app _ _ _ _ _ Hd).
  cbn [mapi_sum]. unfold conj_of. rewrite (mapi_sum_app _ _ _ _ _ Hcs).
  cbn [mapi_sum Nat.add]. by rewrite Hv.
Qed.

(** The first constraint that fails to compile decides the error of
    [getConstrains]. *)
Lemma getConstrains_first_error cs1 c cs2 e :
  (exists ccs1, mapi_sum (fun _ c => compile_constraint c) 0 cs1 = inr ccs1) ->
  compile_constraint c = inl e -> getConstrains (cs1 ++ c :: cs2)%list = inl e.
Proof.
  intros [ccs1 H1] Hc. unfold getConstrains. rewrite (mapi_sum_app _ _ _ _ _ H1).
  cbn [mapi_sum]. by rewrite Hc.
Qed.

(** ** A row of a table is accepted *)

Lemma positive_entry_JStr a s :
  positive_entry (JStr (String a s)) = negb (Ascii.eqb a "!").
Proof. destruct a as [[] [] [] [] [] [] [] []]; reflexivity. Qed.

Lemma entry_holds_self v : positive_entry v = true -> entry_holds v v = true.
Proof.
  destruct v as [| |b|n|[|a s]|name]; try done; intros Hv.
  - by destruct b.
  - cbn [entry_holds loose_eq_str]. rewrite to_number_Z_to_string. simpl.
    by rewrite Z.mul_1_r, Z.eqb_refl.
  - rewrite positive_entry_JStr in Hv. rewrite entry_holds_JStr.
    apply negb_true_iff in Hv. rewrite Hv. apply String.eqb_refl.
Qed.

Lemma tuple_matches_self r i f :
  forallb positive_entry r = true ->
  (forall k, k < length r -> f (i + k) = nth k r JUndefined) ->
  tuple_matches i r f = true.
Proof.
  revert i. induction r as [|v r IH]; intros i Hr Hf; [done|].
  simpl in Hr. apply andb_prop in Hr as [Hv Hr]. simpl.
  specialize (Hf 0) as Hf0. rewrite Nat.add_0_r in Hf0. rewrite Hf0 by (simpl; lia).
  rewrite entry_holds_self by done. apply IH; [done|].
  intros k Hk. replace (S i + k) with (i + S k) by lia. apply (Hf (S k)). simpl. lia.
Qed.

(** C18: every row of a table that contains no negated entry (and no
    [null]) is accepted by the function [getConstrains] builds for it, when
    the row itself is the argument list: the generated text reproduces the
    rows it was generated from. *)
Theorem compile_constraint_accepts_rows c :
  relations_ok (relations c) = true ->
  forallb (fun r => Nat.leb (length r) (length (properties c))) (relations c) = true ->
  exists f, compile_constraint c = inr (Constraint.mk (properties c) f) /\
    forall r, r ∈ relations c -> forallb positive_entry r = true -> f r = JsReturn (JBool true).
Proof.
  intros Hok Hlen. destruct (compile_constraint_run c Hok Hlen) as (f & Hc & Hf).
  exists f. split; [done|]. intros r Hr Hpos. rewrite Hf.
  destruct (relations c) as [|r0 rels] eqn:E; [by apply not_elem_of_nil in Hr|].
  rewrite <- E. unfold matcher. do 2 f_equal. apply existsb_exists. exists r.
  split; [rewrite E; by apply list_elem_of_In|]. by apply tuple_matches_self.
Qed.

(** ** What a compiled function can return *)




(** C29: [new Function] reads back what the generator prints: applied to the
    parameter list [x0,..] and the body text of a disjunction whose
    tuples are nonempty and whose literals need no escape, it builds
    the function that evaluates that very disjunction. *)
Theorem new_Function_print props d :
  body_ok d = true ->
  new_Function (params_src props) (body_src d) = inr (run_body (param_names (length props)) d).
Proof.
  intros Hok. unfold new_Function. by rewrite parse_params_src, parse_print_body.
Qed.

