(* ===== verification/JsFragment.v ===== *)
(** * The JavaScript fragment [new Function] reads, as ECMA-262 reads it

    [getConstrains] ([src/src/ngCsp.js], lines 143-178) builds the body
    of each constraint function by pasting the values of the relation
    table between quotes, and hands the text to [new Function].  The
    specialised reader of [Compile.v] ([parse_body]) only accepts the texts
    whose literals need no escape.  This file gives the body text the
    meaning ECMA-262 gives it, for a fragment of the language large
    enough to cover every text the generator can print, including the
    texts where a value closes its literal early and injects code:
    - [lex]: the tokens of the text (identifiers, decimal integers,
      single- and double-quoted string literals with their escapes, the
      punctuators [( ) == != === !== && || !]); an unterminated literal
      or a line break inside a literal is a [SyntaxError];
    - [parse]: the expression after [return], with the precedence and
      left associativity of [||], [&&] and the equality operators, unary
      [!] and parenthesised expressions;
    - [eval_js]: the evaluation, with [IsLooselyEqual] and
      [IsStrictlyEqual] of [JsEquality.v], the short-circuit [&&] and
      [||] that return an operand, and [ToBoolean] for [!].
    A text that leaves the fragment (another operator, a call, a
    reserved word, a non-decimal number, an escape \x, \u or an octal
    one) is classified as outside the model ([COutside],
    [LexOutside], [POutside], [JOutside]) rather than given a meaning.

    The results: on every table the specialised reader accepts, the two
    readings agree; a value that contains a quote is code, and can make a
    constraint accept every assignment. *)

From S2P Require Import Prelude JsObject JsEquality Model Compile.
From Stdlib Require Import Ascii.

Local Open Scope string_scope.

(** ** Tokens *)

Inductive token : Type :=
| TIdent (s : string)
| TNum (n : Z)
| TStr (s : string)
| TPunct (p : string).

#[export] Instance token_eq_dec : EqDecision token.
Proof. solve_decision. Defined.

Inductive lexed : Type :=
| Lexed (ts : list token)
| LexError (e : exn)        (** a [SyntaxError] of every engine *)
| LexOutside.               (** a text the model does not read *)

Definition is_id_start (c : ascii) : bool :=
  let n := nat_of_ascii c in
  (Nat.leb 65 n && Nat.leb n 90) || (Nat.leb 97 n && Nat.leb n 122)
  || Ascii.eqb c "$" || Ascii.eqb c "_".

Definition is_id_part (c : ascii) : bool := is_id_start c || is_digit c.

Definition is_line_terminator (c : ascii) : bool :=
  Nat.eqb (nat_of_ascii c) 10 || Nat.eqb (nat_of_ascii c) 13.

(** The rest of an identifier. *)
Fixpoint take_ident (s : string) : string * string :=
  match s with
  | String c s' =>
      if is_id_part c then let (w, r) := take_ident s' in (String c w, r) else (EmptyString, s)
  | EmptyString => (EmptyString, EmptyString)
  end.

(** The character a [SingleEscapeCharacter] stands for. *)
Definition single_escape (e : ascii) : option ascii :=
  if Ascii.eqb e "b" then Some (ascii_of_nat 8)
  else if Ascii.eqb e "f" then Some (ascii_of_nat 12)
  else if Ascii.eqb e "n" then Some (ascii_of_nat 10)
  else if Ascii.eqb e "r" then Some (ascii_of_nat 13)
  else if Ascii.eqb e "t" then Some (ascii_of_nat 9)
  else if Ascii.eqb e "v" then Some (ascii_of_nat 11)
  else None.

Inductive strlex : Type :=
| StrDone (v rest : string)
| StrError
| StrOutside.

Definition str_cons (c : ascii) (r : strlex) : strlex :=
  match r with StrDone v rest => StrDone (String c v) rest | r => r end.

(** The body of a string literal opened by the quote [q]: its value and
    the text after the closing quote.  A line terminator, or the end of
    the text, before the closing quote is a [SyntaxError]; a backslash
    and a line terminator continue the line; [\0] not followed by a digit
    is NUL; the hexadecimal, unicode and octal escapes are outside the
    model; any other escaped character stands for itself. *)
Fixpoint lex_string (q : ascii) (s : string) : strlex :=
  match s with
  | EmptyString => StrError
  | String c s' =>
      if Ascii.eqb c q then StrDone EmptyString s'
      else if is_line_terminator c then StrError
      else if Ascii.eqb c "\" then
        match s' with
        | EmptyString => StrError
        | String e s'' =>
            if Nat.eqb (nat_of_ascii e) 13 then
              match s'' with
              | String f s''' => if Nat.eqb (nat_of_ascii f) 10 then lex_string q s''' else lex_string q s''
              | EmptyString => lex_string q s''
              end
            else if Nat.eqb (nat_of_ascii e) 10 then lex_string q s''
            else match single_escape e with
                 | Some d => str_cons d (lex_string q s'')
                 | None =>
                     if Ascii.eqb e "0" then
                       match s'' with
                       | String f _ => if is_digit f then StrOutside else str_cons (ascii_of_nat 0) (lex_string q s'')
                       | EmptyString => str_cons (ascii_of_nat 0) (lex_string q s'')
                       end
                     else if is_digit e || Ascii.eqb e "x" || Ascii.eqb e "u" then StrOutside
                     else str_cons e (lex_string q s'')
                 end
        end
      else str_cons c (lex_string q s')
  end.

Definition tok_cons (t : token) (r : lexed) : lexed :=
  match r with Lexed ts => Lexed (t :: ts) | r => r end.

(** The value of a decimal numeral. *)
Fixpoint digits_value (s : string) (acc : Z) : Z :=
  match s with
  | String c s' => digits_value s' (acc * 10 + (Z.of_nat (nat_of_ascii c) - 48))
  | EmptyString => acc
  end.

(** A [DecimalIntegerLiteral] [ds] followed by [r]: a fraction, an
    exponent, a letter right after the digits or a leading zero
    (a legacy octal literal) leaves the fragment. *)
Definition number_token (ds r : string) : option token :=
  let canonical := match ds with String "0" (String _ _) => false | _ => true end in
  let ends := match r with
              | String c _ => negb (is_id_part c || Ascii.eqb c ".")
              | EmptyString => true
              end in
  if canonical && ends then Some (TNum (digits_value ds 0)) else None.

(** The tokens of a text.  White space and line terminators between
    tokens are skipped; [fuel] is one more than the length of the text,
    since every step consumes a character. *)
Fixpoint lex (fuel : nat) (s : string) : lexed :=
  match fuel with
  | O => LexOutside
  | S f =>
      match s with
      | EmptyString => Lexed []
      | String c s' =>
          if is_ws c then lex f s'
          else if is_id_start c then
            let (w, r) := take_ident s' in tok_cons (TIdent (String c w)) (lex f r)
          else if is_digit c then
            let (ds, r) := take_digits s in
            match number_token ds r with
            | Some t => tok_cons t (lex f r)
            | None => LexOutside
            end
          else if Ascii.eqb c "'" || Ascii.eqb c (ascii_of_nat 34) then
            match lex_string c s' with
            | StrDone v r => tok_cons (TStr v) (lex f r)
            | StrError => LexError (SyntaxError "Invalid or unexpected token")
            | StrOutside => LexOutside
            end
          else if Ascii.eqb c "(" then tok_cons (TPunct "(") (lex f s')
          else if Ascii.eqb c ")" then tok_cons (TPunct ")") (lex f s')
          else if Ascii.eqb c "=" then
            match s' with
            | String "=" (String "=" r) => tok_cons (TPunct "===") (lex f r)
            | String "=" r => tok_cons (TPunct "==") (lex f r)
            | _ => LexOutside
            end
          else if Ascii.eqb c "!" then
            match s' with
            | String "=" (String "=" r) => tok_cons (TPunct "!==") (lex f r)
            | String "=" r => tok_cons (TPunct "!=") (lex f r)
            | _ => tok_cons (TPunct "!") (lex f s')
            end
          else if Ascii.eqb c "&" then
            match s' with String "&" r => tok_cons (TPunct "&&") (lex f r) | _ => LexOutside end
          else if Ascii.eqb c "|" then
            match s' with String "|" r => tok_cons (TPunct "||") (lex f r) | _ => LexOutside end
          else LexOutside
      end
  end.

(** The tokens of a whole text. *)
Definition lex_full (s : string) : lexed := lex (S (String.length s)) s.

(** ** Expressions *)

Inductive binop : Type := OpLooseEq | OpLooseNe | OpStrictEq | OpStrictNe | OpAnd | OpOr.

Inductive jexpr : Type :=
| JId (x : string)
| JLit (v : jsval)
| JNot (e : jexpr)
| JBin (op : binop) (e1 e2 : jexpr).

Inductive parsed : Type :=
| POk (e : jexpr) (rest : list token)
| PSyntax (e : exn)
| POutside
| PNoFuel.

(** The binary operators of a precedence level: 0 is [||], 1 is [&&],
    2 the equality operators. *)
Definition level_op (lvl : nat) (p : string) : option binop :=
  match lvl with
  | 0 => if String.eqb p "||" then Some OpOr else None
  | 1 => if String.eqb p "&&" then Some OpAnd else None
  | 2 => if String.eqb p "==" then Some OpLooseEq
         else if String.eqb p "!=" then Some OpLooseNe
         else if String.eqb p "===" then Some OpStrictEq
         else if String.eqb p "!==" then Some OpStrictNe
         else None
  | _ => None
  end.

(** The reserved words of ECMA-262 (an expression that uses one of them
    leaves the fragment). *)
Definition reserved_words : list string :=
  ["await"; "break"; "case"; "catch"; "class"; "const"; "continue"; "debugger";
   "default"; "delete"; "do"; "else"; "enum"; "export"; "extends"; "finally";
   "for"; "function"; "if"; "import"; "in"; "instanceof"; "new"; "return";
   "super"; "switch"; "this"; "throw"; "try"; "typeof"; "var"; "void";
   "while"; "with"; "yield"; "let"; "static"].

(** What is left to parse: a level, or the operators that may follow a
    left operand already parsed at that level. *)
Inductive job : Type :=
| JLevel (lvl : nat)
| JLoop (lvl : nat) (lhs : jexpr).

(** The expression grammar, levels 0 to 2 binary and left associative,
    level 3 unary and primary; [fuel] bounds the depth of the calls. *)
Fixpoint parse (fuel : nat) (j : job) (ts : list token) : parsed :=
  match fuel with
  | O => PNoFuel
  | S f =>
      match j with
      | JLevel (S (S (S _))) =>
          match ts with
          | TPunct "!" :: ts' =>
              match parse f (JLevel 3) ts' with POk e r => POk (JNot e) r | r => r end
          | TPunct "(" :: TPunct ")" :: _ => PSyntax (SyntaxError "Unexpected token ')'")
          | TPunct "(" :: ts' =>
              match parse f (JLevel 0) ts' with
              | POk e (TPunct ")" :: r) => POk e r
              | POk _ [] => PSyntax (SyntaxError "Unexpected end of input")
              | POk _ _ => POutside
              | r => r
              end
          | TIdent x :: ts' =>
              if String.eqb x "true" then POk (JLit (JBool true)) ts'
              else if String.eqb x "false" then POk (JLit (JBool false)) ts'
              else if String.eqb x "null" then POk (JLit JNull) ts'
              else if bool_decide (x ∈ reserved_words) then POutside
              else POk (JId x) ts'
          | TStr s :: ts' => POk (JLit (JStr s)) ts'
          | TNum n :: ts' => POk (JLit (JNum n)) ts'
          | TPunct p :: _ => PSyntax (SyntaxError ("Unexpected token '" ++ p ++ "'"))
          | [] => PSyntax (SyntaxError "Unexpected end of input")
          end
      | JLevel l =>
          match parse f (JLevel (S l)) ts with POk e r => parse f (JLoop l e) r | r => r end
      | JLoop l lhs =>
          match ts with
          | TPunct p :: ts' =>
              match level_op l p with
              | Some op =>
                  match parse f (JLevel (S l)) ts' with
                  | POk rhs r => parse f (JLoop l (JBin op lhs rhs)) r
                  | r => r
                  end
              | None => POk lhs ts
              end
          | _ => POk lhs ts
          end
      end
  end.

(** ** Evaluation *)

Inductive jsout : Type :=
| JOk (v : jsval)
| JThrow (e : exn)
| JOutside.

(** The standard global names an expression could read: their values are
    not modelled.  Any other unbound name is assumed undeclared on the
    page. *)
Definition js_globals : list string :=
  ["NaN"; "Infinity"; "Object"; "Function"; "Array"; "String"; "Number"; "Boolean";
   "Symbol"; "Math"; "JSON"; "Date"; "RegExp"; "Error"; "eval"; "isNaN"; "parseInt";
   "parseFloat"; "window"; "document"; "console"; "alert"; "angular"; "Csp"; "CspManager"].

Definition compare_op (op : binop) (v1 v2 : jsval) : bool :=
  match op with
  | OpLooseEq => is_loosely_equal 4 (embed v1) (embed v2)
  | OpLooseNe => negb (is_loosely_equal 4 (embed v1) (embed v2))
  | OpStrictEq => is_strictly_equal (embed v1) (embed v2)
  | OpStrictNe => negb (is_strictly_equal (embed v1) (embed v2))
  | OpAnd | OpOr => false
  end.

(** Evaluation in the scope [env] of the parameters: [&&] and [||]
    return an operand and skip the right one when the left decides. *)
Fixpoint eval_js (env : string -> option jsval) (e : jexpr) : jsout :=
  match e with
  | JId x =>
      match env x with
      | Some v => JOk v
      | None =>
          if String.eqb x "undefined" then JOk JUndefined
          else if bool_decide (x ∈ js_globals) then JOutside
          else JThrow (ReferenceError (x ++ " is not defined"))
      end
  | JLit v => JOk v
  | JNot e => match eval_js env e with JOk v => JOk (JBool (negb (truthy v))) | r => r end
  | JBin OpAnd e1 e2 =>
      match eval_js env e1 with JOk v => if truthy v then eval_js env e2 else JOk v | r => r end
  | JBin OpOr e1 e2 =>
      match eval_js env e1 with JOk v => if truthy v then JOk v else eval_js env e2 | r => r end
  | JBin op e1 e2 =>
      match eval_js env e1 with
      | JOk v1 => match eval_js env e2 with JOk v2 => JOk (JBool (compare_op op v1 v2)) | r => r end
      | r => r
      end
  end.

(** ** [new Function(params, body)] *)

(** A compiled function (its call is [None] when the evaluation leaves
    the fragment), a [SyntaxError], or a text outside the fragment. *)
Inductive compiled : Type :=
| CFun (f : list jsval -> option jsresult)
| CSyntax (e : exn)
| COutside.

Definition run_js (names : list string) (e : jexpr) (args : list jsval) : option jsresult :=
  match eval_js (bind_params names args) e with
  | JOk v => Some (JsReturn v)
  | JThrow ex => Some (JsThrow ex)
  | JOutside => None
  end.

(** The parameter list the generator prints is always [x0,x1,..]; the
    body is a [return] statement. *)
Definition new_Function_js (params body : string) : compiled :=
  match parse_params params with
  | None => COutside
  | Some names =>
      match lex_full body with
      | LexError e => CSyntax e
      | LexOutside => COutside
      | Lexed (TIdent "return" :: ts) =>
          match ts with
          | [] => CFun (fun _ => Some (JsReturn JUndefined))
          | _ :: _ =>
              match parse (5 * length ts + 5) (JLevel 0) ts with
              | POk e [] => CFun (run_js names e)
              | PSyntax e => CSyntax e
              | _ => COutside
              end
          end
      | Lexed _ => COutside
      end
  end.

(** ** The printed text, as tokens and as an expression

    What [lex] and [parse] should give for the texts [Compile.v] prints:
    used to state that the two readings agree. *)

Definition tok_app (ts : list token) (r : lexed) : lexed :=
  match r with Lexed ts' => Lexed (ts ++ ts') | r => r end.

Fixpoint all_id_part (s : string) : bool :=
  match s with EmptyString => true | String c s' => is_id_part c && all_id_part s' end.

Definition no_id_head (s : string) : bool :=
  match s with String c _ => negb (is_id_part c) | EmptyString => true end.

Definition clause_tokens (c : clause) : list token :=
  match c with
  | CEqBool i b => [TIdent (var_src i); TPunct "=="; TIdent (if b then "true" else "false")]
  | CEqStr i s => [TIdent (var_src i); TPunct "=="; TStr s]
  | CNeqStr i s => [TIdent (var_src i); TPunct "!=="; TStr s]
  end.

Fixpoint sep_tokens (sep : token) (tss : list (list token)) : list token :=
  match tss with
  | [] => []
  | [ts] => ts
  | ts :: tss' => ts ++ sep :: sep_tokens sep tss'
  end.

Definition conj_tokens (cs : list clause) : list token :=
  TPunct "(" :: sep_tokens (TPunct "&&") (map clause_tokens cs) ++ [TPunct ")"].

Definition body_tokens (d : list (list clause)) : list token :=
  TIdent "return" :: sep_tokens (TPunct "||") (map conj_tokens d).

Definition clause_expr (c : clause) : jexpr :=
  match c with
  | CEqBool i b => JBin OpLooseEq (JId (var_src i)) (JLit (JBool b))
  | CEqStr i s => JBin OpLooseEq (JId (var_src i)) (JLit (JStr s))
  | CNeqStr i s => JBin OpStrictNe (JId (var_src i)) (JLit (JStr s))
  end.

(** [e1 op e2 op ..], associated to the left. *)
Definition chain_expr (op : binop) (e : jexpr) (es : list jexpr) : jexpr :=
  fold_left (fun acc e' => JBin op acc e') es e.

Definition conj_expr (cs : list clause) : jexpr :=
  match cs with
  | [] => JLit JUndefined
  | c :: cs' => chain_expr OpAnd (clause_expr c) (map clause_expr cs')
  end.

Definition disj_expr (d : list (list clause)) : jexpr :=
  match d with
  | [] => JLit JUndefined
  | cs :: d' => chain_expr OpOr (conj_expr cs) (map conj_expr d')
  end.

(** The tokens after a left operand of level [l] that end its loop. *)
Definition loop_stops (l : nat) (ts : list token) : bool :=
  match ts with
  | TPunct p :: _ => match level_op l p with Some _ => false | None => true end
  | _ => true
  end.

(** A boolean result of [Compile.v] as the outcome of a JavaScript
    expression. *)
Definition js_of_result (r : sum exn bool) : jsout :=
  match r with inl e => JThrow e | inr b => JOk (JBool b) end.

(** * Properties *)

(** ** The lexer does not depend on its fuel *)

Lemma take_ident_suffix s : String.length (take_ident s).2 <= String.length s.
Proof.
  induction s as [|c s IH]; simpl; [lia|].
  destruct (is_id_part c); [|simpl; lia]. destruct (take_ident s) eqn:E. simpl in *. lia.
Qed.

Lemma take_digits_suffix s : String.length (take_digits s).2 <= String.length s.
Proof.
  induction s as [|c s IH]; simpl; [lia|].
  destruct (is_digit c); [|simpl; lia]. destruct (take_digits s) eqn:E. simpl in *. lia.
Qed.

Lemma lex_string_cons q c s :
  lex_string q (String c s) =
    if Ascii.eqb c q then StrDone EmptyString s
    else if is_line_terminator c then StrError
    else if Ascii.eqb c "\" then
      match s with
      | EmptyString => StrError
      | String e s'' =>
          if Nat.eqb (nat_of_ascii e) 13 then
            match s'' with
            | String f s''' => if Nat.eqb (nat_of_ascii f) 10 then lex_string q s''' else lex_string q s''
            | EmptyString => lex_string q s''
            end
          else if Nat.eqb (nat_of_ascii e) 10 then lex_string q s''
          else match single_escape e with
               | Some d => str_cons d (lex_string q s'')
               | None =>
                   if Ascii.eqb e "0" then
                     match s'' with
                     | String f _ => if is_digit f then StrOutside else str_cons (ascii_of_nat 0) (lex_string q s'')
                     | EmptyString => str_cons (ascii_of_nat 0) (lex_string q s'')
                     end
                   else if is_digit e || Ascii.eqb e "x" || Ascii.eqb e "u" then StrOutside
                   else str_cons e (lex_string q s'')
               end
      end
    else str_cons c (lex_string q s).
Proof. reflexivity. Qed.

Lemma lex_string_rest q s v r : lex_string q s = StrDone v r -> String.length r < String.length s.
Proof.
  remember (String.length s) as n eqn:Hn. revert s v Hn.
  induction n as [n IH0] using lt_wf_ind. intros s v Hn.
  assert (IH : forall s0 v0, String.length s0 < n -> lex_string q s0 = StrDone v0 r ->
                 String.length r < String.length s0)
    by (intros s0 v0 Hlt; by apply (IH0 _ Hlt s0 v0 eq_refl)).
  assert (Hcons : forall d s0 v0, String.length s0 < n ->
            str_cons d (lex_string q s0) = StrDone v0 r -> String.length r < n).
  { intros d s0 v0 Hlt H. destruct (lex_string q s0) eqn:E; simpl in H; try done.
    injection H as _ <-. pose proof (IH s0 _ Hlt E). lia. }
  destruct s as [|c s]; [done|]. cbn [String.length] in Hn. subst n. intros Hl.
  rewrite lex_string_cons in Hl.
  repeat case_match; simplify_eq; try (cbn [String.length]; lia);
    try (eapply Hcons; [|exact Hl]; simpl; lia);
    try (apply IH in Hl; simpl in *; lia).
Qed.

Lemma take_digits_cons_suffix c s :
  is_digit c = true -> String.length (take_digits (String c s)).2 <= String.length s.
Proof. intros Hc. simpl. rewrite Hc. destruct (take_digits s) eqn:E. simpl. pose proof (take_digits_suffix s) as H. rewrite E in H. done. Qed.

Lemma lex_step f s :
  lex (S f) s =
      match s with
      | EmptyString => Lexed []
      | String c s' =>
          if is_ws c then lex f s'
          else if is_id_start c then
            let (w, r) := take_ident s' in tok_cons (TIdent (String c w)) (lex f r)
          else if is_digit c then
            let (ds, r) := take_digits s in
            match number_token ds r with
            | Some t => tok_cons t (lex f r)
            | None => LexOutside
            end
          else if Ascii.eqb c "'" || Ascii.eqb c (ascii_of_nat 34) then
            match lex_string c s' with
            | StrDone v r => tok_cons (TStr v) (lex f r)
            | StrError => LexError (SyntaxError "Invalid or unexpected token")
            | StrOutside => LexOutside
            end
          else if Ascii.eqb c "(" then tok_cons (TPunct "(") (lex f s')
          else if Ascii.eqb c ")" then tok_cons (TPunct ")") (lex f s')
          else if Ascii.eqb c "=" then
            match s' with
            | String "=" (String "=" r) => tok_cons (TPunct "===") (lex f r)
            | String "=" r => tok_cons (TPunct "==") (lex f r)
            | _ => LexOutside
            end
          else if Ascii.eqb c "!" then
            match s' with
            | String "=" (String "=" r) => tok_cons (TPunct "!==") (lex f r)
            | String "=" r => tok_cons (TPunct "!=") (lex f r)
            | _ => tok_cons (TPunct "!") (lex f s')
            end
          else if Ascii.eqb c "&" then
            match s' with String "&" r => tok_cons (TPunct "&&") (lex f r) | _ => LexOutside end
          else if Ascii.eqb c "|" then
            match s' with String "|" r => tok_cons (TPunct "||") (lex f r) | _ => LexOutside end
          else LexOutside
      end.
Proof. reflexivity. Qed.

Lemma lex_fuel f1 f2 s :
  String.length s < f1 -> String.length s < f2 -> lex f1 s = lex f2 s.
Proof.
  revert f2 s. induction f1 as [|f1 IH]; intros f2 s H1 H2; [lia|].
  destruct f2 as [|f2]; [lia|].
  destruct s as [|c s']; [done|]. cbn [String.length] in *. cbn [lex].
  repeat case_match; try done;
    repeat match goal with
           | H : take_ident ?x = (_, _) |- _ =>
               pose proof (take_ident_suffix x) as ?; rewrite H in *; clear H
           | H : take_digits (String ?c ?x) = (_, _), Hd : is_digit ?c = true |- _ =>
               pose proof (take_digits_cons_suffix c x Hd) as ?; rewrite H in *; clear H
           | H : lex_string _ _ = StrDone _ _ |- _ => apply lex_string_rest in H
           end;
    cbn [String.length fst snd] in *; try first [apply IH; lia|apply (f_equal (tok_cons _)); apply IH; lia].
  all: apply (f_equal (tok_cons _)); apply IH; subst; simpl in *; lia.
Qed.

(** Lexing a text from its first character. *)
Lemma lex_full_cons c s : lex_full (String c s) = lex (S (S (String.length s))) (String c s).
Proof. reflexivity. Qed.

Lemma lex_full_fuel f s : String.length s < f -> lex f s = lex_full s.
Proof. intros H. apply lex_fuel; simpl; lia. Qed.

(** ** Lexing the printed text *)

(** Evaluate the character tests of the lexer on known characters. *)
Ltac char_tests :=
  repeat match goal with
         | |- context [?f ?c] =>
             match f with
             | is_ws => idtac | is_id_start => idtac | is_digit => idtac
             | is_id_part => idtac | is_line_terminator => idtac
             end;
             let b := eval vm_compute in (f c) in
             lazymatch b with
             | true => change (f c) with true
             | false => change (f c) with false
             end
         | |- context [Ascii.eqb ?c ?d] =>
             let b := eval vm_compute in (Ascii.eqb c d) in
             lazymatch b with
             | true => change (Ascii.eqb c d) with true
             | false => change (Ascii.eqb c d) with false
             end
         end; cbv beta iota; cbn [orb andb negb].

(** Run the lexer over the known characters at the head of its input. *)
Ltac lex_run :=
  repeat (rewrite (lex_step _ (String _ _)); char_tests; cbn [String.length]).



Lemma tok_app_cons t ts r : tok_cons t (tok_app ts r) = tok_app (t :: ts) r.
Proof. by destruct r. Qed.

Lemma tok_app_app ts ts' r : tok_app ts (tok_app ts' r) = tok_app (ts ++ ts') r.
Proof. destruct r; simpl; by rewrite ?app_assoc. Qed.

Lemma tok_app_nil r : tok_app [] r = r.
Proof. by destruct r. Qed.

Lemma is_id_start_not_ws c : is_id_start c = true -> is_ws c = false /\ is_digit c = false.
Proof. destruct c as [[] [] [] [] [] [] [] []]; vm_compute; done. Qed.

Lemma take_ident_app w r :
  all_id_part w = true -> no_id_head r = true -> take_ident (w ++ r) = (w, r).
Proof.
  intros Hw Hr. induction w as [|c w IH].
  - destruct r as [|c r]; [done|]. simpl in *. by destruct (is_id_part c).
  - simpl in Hw. apply andb_prop in Hw as [Hc Hw].
    rewrite append_String. simpl. by rewrite Hc, IH.
Qed.

Lemma lex_ident_app c w r :
  is_id_start c = true -> all_id_part w = true -> no_id_head r = true ->
  lex_full (String c (w ++ r)) = tok_cons (TIdent (String c w)) (lex_full r).
Proof.
  intros Hc Hw Hr. destruct (is_id_start_not_ws c Hc) as [Hws _].
  rewrite lex_full_cons, lex_step. rewrite Hws, Hc, take_ident_app by done.
  rewrite lex_full_fuel; [done|]. rewrite length_append. lia.
Qed.

Lemma lex_string_lit s r : lit_ok s = true -> lex_string "'" (s ++ String "'" r) = StrDone s r.
Proof.
  induction s as [|c s IH]; [done|]. simpl. intros [Hc Hs]%andb_prop.
  unfold lit_char_ok in Hc. rewrite IH by done.
  destruct (Ascii.eqb c "'"), (Ascii.eqb c "\"), (Ascii.eqb c (ascii_of_nat 10)) eqn:E1,
    (Ascii.eqb c (ascii_of_nat 13)) eqn:E2; simpl in Hc; try done.
  assert (Hlt : is_line_terminator c = false).
  { unfold is_line_terminator. apply Ascii.eqb_neq in E1, E2.
    apply orb_false_iff. split; apply Nat.eqb_neq; intros H; [apply E1|apply E2];
      rewrite <- (ascii_nat_embedding c), H; reflexivity. }
  by rewrite Hlt.
Qed.

Lemma lex_str_app s r :
  lit_ok s = true -> lex_full (String "'" (s ++ String "'" r)) = tok_cons (TStr s) (lex_full r).
Proof.
  intros Hs. rewrite lex_full_cons, lex_step. char_tests.
  rewrite lex_string_lit by done. rewrite lex_full_fuel; [done|].
  rewrite length_append. simpl. lia.
Qed.

Lemma lex_punct1 c r :
  c = "("%char \/ c = ")"%char ->
  lex_full (String c r) = tok_cons (TPunct (String c EmptyString)) (lex_full r).
Proof. intros [-> | ->]; rewrite lex_full_cons, lex_step; char_tests; reflexivity. Qed.

Lemma lex_eqeq c r :
  Ascii.eqb c "=" = false ->
  lex_full (String "=" (String "=" (String c r))) = tok_cons (TPunct "==") (lex_full (String c r)).
Proof.
  intros Hc. rewrite lex_full_cons, lex_step. char_tests.
  destruct c as [[] [] [] [] [] [] [] []]; try discriminate Hc;
    by rewrite lex_full_fuel by (simpl; lia).
Qed.

Lemma lex_neqeq r :
  lex_full (String "!" (String "=" (String "=" r))) = tok_cons (TPunct "!==") (lex_full r).
Proof. rewrite lex_full_cons, lex_step. char_tests. by rewrite lex_full_fuel by (simpl; lia). Qed.

Lemma lex_and r : lex_full (" && " ++ r) = tok_cons (TPunct "&&") (lex_full r).
Proof.
  change (" && " ++ r) with (String " " (String "&" (String "&" (String " " r)))).
  rewrite lex_full_cons. lex_run. by rewrite lex_full_fuel by (simpl; lia).
Qed.

Lemma lex_oror r : lex_full (String "|" (String "|" r)) = tok_cons (TPunct "||") (lex_full r).
Proof. rewrite lex_full_cons. lex_run. by rewrite lex_full_fuel by (simpl; lia). Qed.

Lemma lex_or r : lex_full ("  || " ++ r) = tok_cons (TPunct "||") (lex_full r).
Proof.
  change ("  || " ++ r) with (String " " (String " " (String "|" (String "|" (String " " r))))).
  rewrite lex_full_cons. lex_run. by rewrite lex_full_fuel by (simpl; lia).
Qed.

Lemma all_id_part_digits s : all_digits s = true -> all_id_part s = true.
Proof.
  induction s as [|c s IH]; simpl; [done|]. intros [Hc Hs]%andb_prop.
  unfold is_id_part. by rewrite Hc, orb_true_r, IH.
Qed.

Lemma lex_var i r :
  no_id_head r = true -> lex_full (var_src i ++ r) = tok_cons (TIdent (var_src i)) (lex_full r).
Proof.
  intros Hr. unfold var_src. rewrite <- append_assoc, append_String, append_Empty.
  apply lex_ident_app; [done| |done]. apply all_id_part_digits, all_digits_N_to_string.
Qed.

(** The text of a clause gives its three tokens. *)
Lemma lex_clause c r :
  clause_ok c = true -> no_id_head r = true ->
  lex_full (clause_src c ++ r) = tok_app (clause_tokens c) (lex_full r).
Proof.
  intros Hc Hr. destruct c as [i b|i s|i s]; simpl in *; rewrite <- !append_assoc, lex_var by done.
  - rewrite (append_String "=" _), (append_String "=" _), append_Empty.
    destruct b; [change ("true" ++ r) with (String "t" ("rue" ++ r))
                |change ("false" ++ r) with (String "f" ("alse" ++ r))];
      rewrite lex_eqeq, lex_ident_app by done; by destruct (lex_full r).
  - change ("=='" ++ s ++ "'" ++ r) with (String "=" (String "=" (String "'" (s ++ String "'" r)))).
    rewrite lex_eqeq, lex_str_app by done. by destruct (lex_full r).
  - change ("!=='" ++ s ++ "'" ++ r) with (String "!" (String "=" (String "=" (String "'" (s ++ String "'" r))))).
    rewrite lex_neqeq, lex_str_app by done. by destruct (lex_full r).
Qed.

(** Lexing a list printed with a separator: the tokens of the items
    joined by the separator's token. *)
Section LexSep.
Context {A : Type} (ok : A -> bool) (pr : A -> string) (tk : A -> list token).
Context (sep : string) (t : token) (P : string -> Prop).
Hypothesis Hsep : forall r, lex_full (sep ++ r) = tok_cons t (lex_full r).
Hypothesis HPsep : forall r, P (sep ++ r).
Hypothesis Hitem : forall x r, ok x = true -> P r -> lex_full (pr x ++ r) = tok_app (tk x) (lex_full r).

Lemma lex_sep xs r :
  forallb ok xs = true -> P r ->
  lex_full (String.concat sep (map pr xs) ++ r) = tok_app (sep_tokens t (map tk xs)) (lex_full r).
Proof.
  intros Hxs Hr. induction xs as [|x [|y ys] IH]; simpl in Hxs.
  - by rewrite tok_app_nil.
  - apply andb_prop in Hxs as [Hx _]. by apply Hitem.
  - apply andb_prop in Hxs as [Hx Hys]. change (map pr (x :: y :: ys)) with (pr x :: pr y :: map pr ys).
    rewrite concat_cons2, <- !append_assoc, Hitem, Hsep by done.
    change (pr y :: map pr ys) with (map pr (y :: ys)). rewrite IH by done.
    by rewrite tok_app_cons, tok_app_app.
Qed.
End LexSep.

Lemma lex_conj cs r : forallb clause_ok cs = true -> lex_full (conj_src cs ++ r) = tok_app (conj_tokens cs) (lex_full r).
Proof.
  intros Hcs. unfold conj_src, conj_tokens. rewrite <- !append_assoc, append_String, append_Empty.
  rewrite lex_punct1 by by left. rewrite (lex_sep clause_ok clause_src clause_tokens " && " (TPunct "&&") (fun r => no_id_head r = true)); try done.
  - rewrite append_String, append_Empty, lex_punct1 by by right.
    destruct (lex_full r); simpl; [by rewrite <- app_assoc|done..].
  - apply lex_and.
  - intros x r' Hx Hr'. by apply lex_clause.
Qed.

Lemma lex_ws r : lex_full (String " " r) = lex_full r.
Proof. rewrite lex_full_cons. lex_run. reflexivity. Qed.

(** The whole body the generator prints is lexed into [body_tokens]. *)
Lemma lex_body d : forallb (forallb clause_ok) d = true -> lex_full (body_src d) = Lexed (body_tokens d).
Proof.
  intros Hd. unfold body_src, body_tokens.
  change ("return " ++ ?s) with (String "r" ("eturn" ++ String " " s)).
  rewrite lex_ident_app, lex_ws by done. rewrite <- (append_nil_r (String.concat _ _)).
  rewrite (lex_sep (forallb clause_ok) conj_src conj_tokens "  || " (TPunct "||") (fun _ => True)); try done.
  - simpl. by rewrite app_nil_r.
  - apply lex_or.
  - intros x r' Hx _. by apply lex_conj.
Qed.

(** ** Parsing the printed tokens *)

Lemma parse_level_step f l ts :
  l < 3 -> parse (S f) (JLevel l) ts =
    match parse f (JLevel (S l)) ts with POk e r => parse f (JLoop l e) r | r => r end.
Proof. intros Hl. destruct l as [|[|[|l]]]; [done..|lia]. Qed.

Lemma parse_loop_step f l lhs p op ts :
  level_op l p = Some op -> parse (S f) (JLoop l lhs) (TPunct p :: ts) =
    match parse f (JLevel (S l)) ts with
    | POk rhs r => parse f (JLoop l (JBin op lhs rhs)) r
    | r => r
    end.
Proof. intros H. simpl. by rewrite H. Qed.

Lemma parse_loop_stop f l lhs ts : loop_stops l ts = true -> parse (S f) (JLoop l lhs) ts = POk lhs ts.
Proof. destruct ts as [|[] ts]; simpl; try done. by destruct (level_op l p). Qed.

Lemma parse_ident f x ts :
  String.eqb x "true" = false -> String.eqb x "false" = false -> String.eqb x "null" = false ->
  x ∉ reserved_words -> parse (S f) (JLevel 3) (TIdent x :: ts) = POk (JId x) ts.
Proof. intros H1 H2 H3 H4. simpl. by rewrite H1, H2, H3, bool_decide_eq_false_2. Qed.

Lemma var_src_head i : var_src i = String "x" (N_to_string (N.of_nat i)).
Proof. reflexivity. Qed.

(** A parameter name [xi] is none of the listed words that does not
    start with [x]. *)
Lemma var_src_not_elem i ws :
  forallb (fun w => match w with String c _ => negb (Ascii.eqb c "x") | EmptyString => true end) ws = true ->
  var_src i ∉ ws.
Proof.
  intros H Hin%list_elem_of_In. apply (proj1 (forallb_forall _ _) H) in Hin.
  by rewrite var_src_head in Hin.
Qed.

Lemma parse_var f i ts : parse (S f) (JLevel 3) (TIdent (var_src i) :: ts) = POk (JId (var_src i)) ts.
Proof. apply parse_ident; rewrite ?var_src_head; try reflexivity. by apply var_src_not_elem. Qed.

Lemma parse_bool_lit f (b : bool) ts :
  parse (S f) (JLevel 3) (TIdent (if b then "true" else "false") :: ts) = POk (JLit (JBool b)) ts.
Proof. by destruct b. Qed.

Lemma parse_str_lit f s ts : parse (S f) (JLevel 3) (TStr s :: ts) = POk (JLit (JStr s)) ts.
Proof. reflexivity. Qed.

(** A clause is a complete operand of the equality level. *)
Lemma parse_clause f c rest :
  loop_stops 2 rest = true -> 3 <= f ->
  parse f (JLevel 2) (clause_tokens c ++ rest) = POk (clause_expr c) rest.
Proof.
  intros Hr Hf. destruct f as [|[|[|f]]]; try lia.
  rewrite parse_level_step by lia.
  destruct c as [i b|i s|i s]; cbn [app clause_tokens clause_expr];
    rewrite parse_var; erewrite parse_loop_step by reflexivity;
    rewrite ?parse_bool_lit, ?parse_str_lit; cbv beta iota; by apply parse_loop_stop.
Qed.

Lemma sep_tokens_cons t ts tss :
  sep_tokens t (ts :: tss) = (ts ++ concat (map (fun ts' => t :: ts') tss))%list.
Proof.
  revert ts. induction tss as [|ts' tss IH]; intros ts; [by rewrite app_nil_r|].
  change (sep_tokens t (ts :: ts' :: tss)) with (ts ++ t :: sep_tokens t (ts' :: tss))%list. by rewrite IH.
Qed.

(** A left-associative level: the operands printed between its operator
    [p] parse into the chain of [op]. *)
Section ParseChain.
Context {A : Type} (ok : A -> bool) (tk : A -> list token) (ex : A -> jexpr) (need : A -> nat).
Context (l : nat) (p : string) (op : binop) (R : list token -> Prop).
Hypothesis Hl : l < 3.
Hypothesis Hop : level_op l p = Some op.
Hypothesis HR : forall ts, R (TPunct p :: ts).
Hypothesis Hitem : forall x rest f,
  ok x = true -> R rest -> need x <= f -> parse f (JLevel (S l)) (tk x ++ rest)%list = POk (ex x) rest.

Lemma R_sep_rest xs rest : R rest -> R (concat (map (fun x => TPunct p :: tk x) xs) ++ rest)%list.
Proof. destruct xs; simpl; auto. Qed.

Lemma parse_loop_chain xs lhs rest f :
  forallb ok xs = true -> R rest -> loop_stops l rest = true ->
  (forall y, y ∈ xs -> need y + length xs <= f) -> length xs < f ->
  parse f (JLoop l lhs) (concat (map (fun x => TPunct p :: tk x) xs) ++ rest)%list =
    POk (chain_expr op lhs (map ex xs)) rest.
Proof.
  intros Hok Hr Hs. revert lhs f.
  induction xs as [|x xs IH]; intros lhs f Hn Hf; destruct f as [|f]; simpl in Hf; try lia.
  - by apply parse_loop_stop.
  - simpl in Hok. apply andb_prop in Hok as [Hx Hxs].
    cbn [map concat]. rewrite <- app_assoc, <- app_comm_cons, (parse_loop_step _ _ _ _ op) by done.
    assert (Hnx : need x + length (x :: xs) <= S f) by (apply Hn; set_solver). simpl in Hnx.
    rewrite Hitem by (done || apply R_sep_rest, Hr || lia). cbv beta iota.
    apply IH; [done|intros y Hy|lia]. enough (need y + length (x :: xs) <= S f) by (simpl in *; lia).
    apply Hn. set_solver.
Qed.

Lemma parse_level_chain x xs rest f :
  ok x = true -> forallb ok xs = true -> R rest -> loop_stops l rest = true ->
  (forall y, y ∈ x :: xs -> need y + length xs + 1 < f) ->
  parse f (JLevel l) (sep_tokens (TPunct p) (map tk (x :: xs)) ++ rest)%list =
    POk (chain_expr op (ex x) (map ex xs)) rest.
Proof.
  intros Hx Hxs Hr Hs Hn. assert (Hnx : need x + length xs + 1 < f) by (apply Hn; set_solver).
  destruct f as [|f]; [lia|].
  rewrite map_cons, sep_tokens_cons, map_map, <- app_assoc, parse_level_step by done.
  rewrite Hitem by (done || apply R_sep_rest, Hr || lia). cbv beta iota.
  apply parse_loop_chain; [done..|intros y Hy|lia].
  enough (need y + length xs + 1 < S f) by lia. apply Hn. set_solver.
Qed.
End ParseChain.

(** A level with a single operand. *)
Lemma parse_level_single l ts rest e n f :
  l < 3 -> (forall f', n <= f' -> parse f' (JLevel (S l)) ts = POk e rest) ->
  loop_stops l rest = true -> n + 2 <= f -> parse f (JLevel l) ts = POk e rest.
Proof.
  intros Hl Hi Hs Hf. destruct f as [|[|f]]; [lia..|].
  rewrite parse_level_step, Hi by (done || lia). by apply parse_loop_stop.
Qed.

Lemma parse_paren_ident f x ts r e :
  parse f (JLevel 0) (TIdent x :: ts) = POk e (TPunct ")" :: r) ->
  parse (S f) (JLevel 3) (TPunct "(" :: TIdent x :: ts) = POk e r.
Proof. intros H. simpl. by rewrite H. Qed.

Lemma forallb_const_true {A} (xs : list A) : forallb (fun _ => true) xs = true.
Proof. by apply forallb_forall. Qed.

(** The clauses of a conjunction, up to its closing parenthesis. *)
Lemma parse_conj_level1 cs rest f :
  conj_ok cs = true -> loop_stops 2 rest && loop_stops 1 rest = true -> length cs + 4 <= f ->
  parse f (JLevel 1) (sep_tokens (TPunct "&&") (map clause_tokens cs) ++ rest)%list = POk (conj_expr cs) rest.
Proof.
  intros Hcs Hr Hf. destruct cs as [|c cs]; [done|]. apply andb_prop in Hr as [Hr2 Hr1].
  apply (parse_level_chain (fun _ => true) clause_tokens clause_expr (fun _ => 3) 1 "&&" OpAnd
           (fun ts => loop_stops 2 ts = true)); try done.
  - lia.
  - intros x r' f' _ Hr' Hf'. by apply parse_clause.
  - apply forallb_const_true.
  - intros y _. simpl in Hf. lia.
Qed.

Lemma parse_conj_paren cs r f :
  conj_ok cs = true -> length cs + 7 <= f -> parse f (JLevel 3) (conj_tokens cs ++ r)%list = POk (conj_expr cs) r.
Proof.
  intros Hcs Hf. destruct cs as [|c cs]; [done|]. destruct f as [|f]; [lia|].
  assert (H0 : parse f (JLevel 0) (sep_tokens (TPunct "&&") (map clause_tokens (c :: cs)) ++ TPunct ")" :: r)%list
               = POk (conj_expr (c :: cs)) (TPunct ")" :: r)).
  { apply (parse_level_single 0 _ _ _ (length (c :: cs) + 4)); [lia| |done|simpl in *; lia].
    intros f' Hf'. by apply parse_conj_level1. }
  unfold conj_tokens. cbn [app]. rewrite <- app_assoc. revert H0.
  rewrite map_cons, sep_tokens_cons. destruct c; cbn [clause_tokens app]; apply parse_paren_ident.
Qed.

(** A parenthesised conjunction is an operand of [||]. *)
Lemma parse_conj_level1_paren cs rest f :
  conj_ok cs = true -> loop_stops 2 rest && loop_stops 1 rest = true -> length cs + 11 <= f ->
  parse f (JLevel 1) (conj_tokens cs ++ rest)%list = POk (conj_expr cs) rest.
Proof.
  intros Hcs Hr Hf. apply andb_prop in Hr as [Hr2 Hr1].
  apply (parse_level_single 1 _ _ _ (length cs + 9)); [lia| |done|lia].
  intros f' Hf'. apply (parse_level_single 2 _ _ _ (length cs + 7)); [lia| |done|lia].
  intros f'' Hf''. by apply parse_conj_paren.
Qed.

Lemma parse_disj d f :
  body_ok d = true -> d <> [] -> (forall cs, cs ∈ d -> length cs + length d + 12 <= f) ->
  parse f (JLevel 0) (sep_tokens (TPunct "||") (map conj_tokens d)) = POk (disj_expr d) [].
Proof.
  intros Hd Hne Hf. destruct d as [|cs d]; [done|]. unfold body_ok in Hd. simpl in Hd.
  apply andb_prop in Hd as [Hcs Hd]. rewrite <- (app_nil_r (sep_tokens _ _)).
  apply (parse_level_chain conj_ok conj_tokens conj_expr (fun cs => length cs + 11) 0 "||" OpOr
           (fun ts => loop_stops 2 ts && loop_stops 1 ts = true)); try done.
  - lia.
  - intros x r f' Hx Hr Hf'. by apply parse_conj_level1_paren.
  - intros y Hy. specialize (Hf y Hy). simpl in Hf. lia.
Qed.

Lemma sep_tokens_length_in t tss :
  forall ts, ts ∈ tss -> length ts + pred (length tss) <= length (sep_tokens t tss).
Proof.
  induction tss as [|ts0 [|ts1 tss] IH]; intros ts Hin.
  - by apply elem_of_nil in Hin.
  - apply list_elem_of_singleton in Hin as ->. simpl. lia.
  - change (sep_tokens t (ts0 :: ts1 :: tss)) with (ts0 ++ t :: sep_tokens t (ts1 :: tss))%list.
    rewrite length_app. assert (H1 := IH ts1 (list_elem_of_here _ _)). cbn [length pred] in *.
    apply elem_of_cons in Hin as [->|Hin]; [|specialize (IH ts Hin)]; cbn [length pred] in *; lia.
Qed.

Lemma conj_tokens_length cs : length cs + 2 <= length (conj_tokens cs).
Proof.
  unfold conj_tokens. cbn [length]. rewrite length_app. simpl.
  destruct cs as [|c cs]; [simpl; lia|].
  assert (H := sep_tokens_length_in (TPunct "&&") (map clause_tokens (c :: cs)) (clause_tokens c)
                 ltac:(set_solver)).
  rewrite length_map in H. destruct c; simpl in *; lia.
Qed.

(** The fuel [new Function] gives the parser is enough for the body. *)
Lemma disj_fuel d cs :
  cs ∈ d -> length cs + length d + 12 <= 5 * length (sep_tokens (TPunct "||") (map conj_tokens d)) + 5.
Proof.
  intros Hin. assert (H := sep_tokens_length_in (TPunct "||") (map conj_tokens d) (conj_tokens cs)
                        (list_elem_of_fmap_2 conj_tokens d cs Hin)).
  assert (Hc := conj_tokens_length cs). rewrite length_map in H.
  destruct d; [by apply elem_of_nil in Hin|]. simpl in *. lia.
Qed.

(** ** Evaluating the parsed expression *)

Lemma eval_var env i :
  eval_js env (JId (var_src i)) =
    match env (var_src i) with
    | Some v => JOk v
    | None => JThrow (ReferenceError (var_src i ++ " is not defined"))
    end.
Proof. simpl. by destruct (env (var_src i)). Qed.

Lemma eval_cmp env op e1 e2 :
  op = OpLooseEq \/ op = OpStrictNe ->
  eval_js env (JBin op e1 e2) =
    match eval_js env e1 with
    | JOk v1 => match eval_js env e2 with JOk v2 => JOk (JBool (compare_op op v1 v2)) | r => r end
    | r => r
    end.
Proof. by intros [-> | ->]. Qed.

(** A clause evaluates as [Compile.eval_clause] says, by [IsLooselyEqual]
    and [IsStrictlyEqual]. *)
Lemma eval_clause_expr env c : eval_js env (clause_expr c) = js_of_result (eval_clause env c).
Proof.
  unfold eval_clause. destruct c as [i b|i s|i s]; cbn [clause_expr clause_idx];
    rewrite eval_cmp, eval_var by auto; destruct (env (var_src i)) as [v|]; try done;
    cbn [compare_op embed clause_test js_of_result].
  - by rewrite loose_eq_bool_ecma.
  - by rewrite loose_eq_str_ecma.
  - by rewrite strict_neq_str_ecma.
Qed.

Lemma eval_chain_and env e r cs :
  eval_js env e = js_of_result r ->
  eval_js env (chain_expr OpAnd e (map clause_expr cs)) =
    js_of_result (match r with inr true => eval_conj env cs | r => r end).
Proof.
  revert e r. induction cs as [|c cs IH]; intros e r He; [by destruct r as [|[]]|].
  change (chain_expr OpAnd e (map clause_expr (c :: cs)))
    with (chain_expr OpAnd (JBin OpAnd e (clause_expr c)) (map clause_expr cs)).
  destruct r as [x|[|]].
  - rewrite (IH _ (inl x)); [done|]. cbn [eval_js]. by rewrite He.
  - rewrite (IH _ (eval_clause env c)); [cbn [eval_conj]; by destruct (eval_clause env c) as [|[]]|].
    cbn [eval_js]. rewrite He. apply eval_clause_expr.
  - rewrite (IH _ (inr false)); [done|]. cbn [eval_js]. by rewrite He.
Qed.

Lemma eval_conj_expr env cs : cs <> [] -> eval_js env (conj_expr cs) = js_of_result (eval_conj env cs).
Proof.
  destruct cs as [|c cs]; [done|]. intros _. unfold conj_expr.
  rewrite (eval_chain_and _ _ (eval_clause env c)) by apply eval_clause_expr.
  cbn [eval_conj]. by destruct (eval_clause env c) as [|[]].
Qed.

Lemma eval_chain_or env e r d :
  (forall cs, cs ∈ d -> cs <> []) -> eval_js env e = js_of_result r ->
  eval_js env (chain_expr OpOr e (map conj_expr d)) =
    js_of_result (match r with inr false => eval_disj env d | r => r end).
Proof.
  revert e r. induction d as [|cs d IH]; intros e r Hne He; [by destruct r as [|[]]|].
  change (chain_expr OpOr e (map conj_expr (cs :: d)))
    with (chain_expr OpOr (JBin OpOr e (conj_expr cs)) (map conj_expr d)).
  assert (Hd : forall cs', cs' ∈ d -> cs' <> []) by (intros cs' ?; apply Hne; set_solver).
  destruct r as [x|[|]].
  - rewrite (IH _ (inl x)); [done..|]. cbn [eval_js]. by rewrite He.
  - rewrite (IH _ (inr true)); [done..|]. cbn [eval_js]. by rewrite He.
  - rewrite (IH _ (eval_conj env cs)); [cbn [eval_disj]; by destruct (eval_conj env cs) as [|[]]|done|].
    cbn [eval_js]. rewrite He. apply eval_conj_expr, Hne. set_solver.
Qed.

Lemma body_ok_conj d cs : body_ok d = true -> cs ∈ d -> conj_ok cs = true.
Proof. intros H Hin%list_elem_of_In. exact (proj1 (forallb_forall _ _) H _ Hin). Qed.

Lemma body_ok_clauses d : body_ok d = true -> forallb (forallb clause_ok) d = true.
Proof.
  induction d as [|cs d IH]; [done|]. unfold body_ok, conj_ok. simpl.
  intros [[_ Hcs]%andb_prop Hd]%andb_prop. by rewrite Hcs, IH.
Qed.

(** The parsed body computes [Compile.run_body]. *)
Lemma run_js_disj names d args :
  body_ok d = true -> d <> [] -> run_js names (disj_expr d) args = Some (run_body names d args).
Proof.
  destruct d as [|cs d]; [done|]. intros Hd _.
  assert (Hne : forall cs', cs' ∈ cs :: d -> cs' <> [])
    by (intros cs' Hin; apply (body_ok_conj _ _ Hd) in Hin; by destruct cs').
  unfold run_js, run_body, disj_expr.
  rewrite (eval_chain_or _ _ (eval_conj (bind_params names args) cs)).
  - cbn [eval_disj]. by destruct (eval_conj (bind_params names args) cs) as [|[]], (eval_disj (bind_params names args) d).
  - intros cs' Hin. apply Hne. set_solver.
  - apply eval_conj_expr, Hne. set_solver.
Qed.

(** * The two readings of the generated text *)

(** C27: on every table whose tuples are nonempty and whose literals need
    no escape, the text [getConstrains] prints means, as ECMA-262 reads
    it, what [Compile.new_Function] makes of it: both accept the
    parameter list and the body, and the two functions return the same
    result (value or exception) on every argument list. *)
Theorem new_Function_js_agrees props d :
  body_ok d = true ->
  exists f g, new_Function_js (params_src props) (body_src d) = CFun f /\
    new_Function (params_src props) (body_src d) = inr g /\
    forall args, f args = Some (g args).
Proof.
  intros Hd. unfold new_Function_js, new_Function.
  rewrite parse_params_src, parse_print_body, lex_body by (done || by apply body_ok_clauses).
  unfold body_tokens. cbv beta iota. destruct d as [|cs d']; [by eexists _, _|].
  assert (Hfuel := disj_fuel (cs :: d')).
  destruct (sep_tokens (TPunct "||") (map conj_tokens (cs :: d'))) as [|t ts] eqn:E.
  - specialize (Hfuel cs ltac:(set_solver)). simpl in Hfuel. lia.
  - rewrite <- E, parse_disj by (done || intros cs' Hin; rewrite E; by apply Hfuel).
    eexists _, _. split_and!; [done|done|]. intros args. by apply run_js_disj.
Qed.

(** ** A value that closes its literal *)

(** The text printed for the one-entry table [[a'||'b]]. *)
Lemma lex_injected a b :
  lit_ok a = true -> lit_ok b = true ->
  lex_full (body_src [[CEqStr 0 (a ++ "'||'" ++ b)]]) =
    Lexed [TIdent "return"; TPunct "("; TIdent (var_src 0); TPunct "=="; TStr a; TPunct "||"; TStr b; TPunct ")"].
Proof.
  intros Ha Hb. unfold body_src, conj_src, clause_src. cbn [map String.concat]. rewrite <- !append_assoc.
  change (lex_full _) with (lex_full (String "r" ("eturn" ++ String " " (String "(" (var_src 0 ++ String "=" (String "=" (String "'" (a ++ String "'" (String "|" (String "|" (String "'" (b ++ String "'" (String ")" EmptyString))))))))))))).
  rewrite lex_ident_app, lex_ws, lex_punct1, lex_var, lex_eqeq, lex_str_app, lex_oror, lex_str_app,
    lex_punct1 by (done || (by left) || (by right)).
  reflexivity.
Qed.

Lemma parse_injected a b :
  parse 40 (JLevel 0) [TPunct "("; TIdent (var_src 0); TPunct "=="; TStr a; TPunct "||"; TStr b; TPunct ")"] =
    POk (JBin OpOr (JBin OpLooseEq (JId (var_src 0)) (JLit (JStr a))) (JLit (JStr b))) [].
Proof. reflexivity. Qed.

(** C28: a relation entry [a'||'b] (with [a] not starting with [!], [a]
    and [b] free of quotes, backslashes and line breaks, [b] nonempty)
    closes its string literal and injects [||'b'] into the constraint
    function: for a one-variable constraint whose only tuple is that
    entry, the function [getConstrains] builds returns a truthy value on
    every argument list, so the constraint accepts every assignment,
    while the table accepts no argument other than the entry itself
    ([null] for one). *)
Theorem quote_in_value_injects a b props :
  lit_ok a = true -> lit_ok b = true -> b <> EmptyString -> String.get 0 a <> Some "!"%char ->
  length props = 1 ->
  exists d f, disj_of [[JStr (a ++ "'||'" ++ b)]] = inr d /\
    new_Function_js (params_src props) (body_src d) = CFun f /\
    (forall args, exists v, f args = Some (JsReturn v) /\ truthy v = true) /\
    matcher [[JStr (a ++ "'||'" ++ b)]] [JNull] = false.
Proof.
  intros Ha Hb Hb0 Ha0 Hp.
  assert (Hs : exists c s, a ++ "'||'" ++ b = String c s /\ Ascii.eqb c "!" = false).
  { destruct a as [|c a]; [by eexists _, _|]. exists c, (a ++ "'||'" ++ b). split; [done|].
    destruct (Ascii.eqb_spec c "!"); [simpl in Ha0; congruence|done]. }
  destruct Hs as (c & s & Hcs & Hc).
  exists [[CEqStr 0 (a ++ "'||'" ++ b)]]. eexists. split_and!.
  - unfold disj_of, conj_of. cbn [mapi_sum]. by rewrite Hcs, clause_of_JStr, Hc.
  - unfold new_Function_js. rewrite parse_params_src, Hp, lex_injected by done.
    cbv beta iota. cbn [length Nat.mul Nat.add]. rewrite parse_injected. reflexivity.
  - intros args. unfold run_js. cbn [eval_js].
    rewrite (bind_params_in 1 args 0) by lia. cbn [compare_op].
    destruct (is_loosely_equal _ _ _); [by eexists|]. exists (JStr b). split; [done|].
    destruct b; [done|reflexivity].
  - unfold matcher. cbn [existsb tuple_matches nth]. by rewrite Hcs, entry_holds_JStr, Hc.
Qed.

(** The entry [gold'||'white] of a [roof] table: the function returns the
    string ['white'] for the roof ['chrome']. *)
Example injected_entry_returns_string :
  match new_Function_js (params_src ["roof"]) (body_src [[CEqStr 0 "gold'||'white"]]) with
  | CFun f => f [JStr "chrome"] = Some (JsReturn (JStr "white"))
  | _ => False
  end.
Proof. vm_compute. reflexivity. Qed.

(** An entry with a lone quote, [it's]: the text does not lex, and
    [new Function] throws a [SyntaxError]. *)
Example lone_quote_syntax_error :
  match new_Function_js (params_src ["word"]) (body_src [[CEqStr 0 "it's"]]) with
  | CSyntax (SyntaxError _) => True
  | _ => False
  end.
Proof. vm_compute. exact I. Qed.
