(* ===== verification/Manager.v ===== *)
(** * CspManager: the configurator service

    [CspManager] ([src/src/ngCsp.js], lines 19-180) is what the Angular
    factory [$csp] returns.  It keeps no state: each query builds a fresh
    [DiscreteProblem] with [prepare] and asks it for solutions.  [prepare]
    adds one variable per key of [configuration.options] (the option list,
    or the value fixed by [currentConfiguration] unless the key is the
    focused [element]) and one constraint per element of
    [configuration.constraints], compiled by [getConstrains]
    ([Compile.v]).  The other methods post-process the solutions:
    [getSolution] turns an empty first solution into [undefined],
    [getValuesFor] collects the distinct values of [element],
    [getSingleValueFor] reads [element] of the first solution and
    [checkCorrect] asks whether [getSolution] is defined.

    [prepare] and [isEmpty] call [hasOwnProperty] as a method of the
    objects they are given, so an own property of that name is called in
    its place ([JsObject.call_hasOwnProperty]).

    A query returns an [outcome unit]: a value, an exception, or the
    solver's [NoFuel], which [Backtracking.RBS.queries_terminate] rules out. *)

From S2P Require Import Prelude JsObject Model Problem Backtracking Compile.

Local Open Scope string_scope.

Module Manager.

(** A value of [currentConfiguration]: an array of allowed values or a
    single value ([Array.isArray(value)]). *)
Inductive cfgval : Type :=
| CSingle (v : jsval)
| CMany (vs : list jsval).

(** [{options: name -> domain, constraints: [{properties, relations}]}] *)
Record configuration : Type := mkconfig {
  options : jsobj (list jsval);
  constraints : list cfg_constraint
}.

(** [element && key === element]: an empty [element] is falsy. *)
Definition is_focus (element : option string) (key : string) : bool :=
  match element with
  | Some e => negb (String.eqb e "") && String.eqb key e
  | None => false
  end.

Definition option_domain (cfg : configuration) (key : string) : list jsval :=
  match obj_lookup (options cfg) key with Some d => d | None => [] end.

(** What the read [currentConfiguration.m] finds: an own property holds
    a value or an array of values, and an array cannot be called. *)
Definition cfg_method (cur : jsobj cfgval) (m : string) : method_ref :=
  match obj_lookup cur m with
  | None => MInherited
  | Some (CSingle v) => method_of (Some v)
  | Some (CMany _) => MNotCallable
  end.

(** [currentConfiguration.hasOwnProperty(key)], called on the caller's
    object: an own property named [hasOwnProperty] shadows the method. *)
Definition cur_hasOwnProperty (cur : jsobj cfgval) (key : string) : exn + bool :=
  call_hasOwnProperty "currentConfiguration" (obj_has cur)
    (cfg_method cur "hasOwnProperty") (cfg_method cur "toString") key.

(** [currentConfiguration[key]] for a key that is not an own property. *)
Definition cur_inherited (key : string) : jsval :=
  if proto_member key then JBuiltin key else JUndefined.

(** The body of [for (var key in configuration.options)]: the test
    [element && key === element || !currentConfiguration.hasOwnProperty(key)]
    evaluates its right operand only for a key that is not the focus. *)
Definition add_option (cfg : configuration) (cur : jsobj cfgval) (element : option string)
    (key : string) : ST (Problem.t RBS.t) unit :=
  let! open := if is_focus element key then st_ret true
               else match cur_hasOwnProperty cur key with
                    | inl e => st_throw e
                    | inr b => st_ret (negb b)
                    end in
  if open then
    Problem.addVariable key (option_domain cfg key)
  else
    match obj_lookup cur key with
    | Some (CMany vs) => Problem.addVariable key vs
    | Some (CSingle v) => Problem.addVariable key [v]
    | None => Problem.addVariable key [cur_inherited key]
    end.

Fixpoint add_options (cfg : configuration) (cur : jsobj cfgval) (element : option string)
    (keys : list string) : ST (Problem.t RBS.t) unit :=
  match keys with
  | [] => st_ret tt
  | key :: keys' => do! add_option cfg cur element key; add_options cfg cur element keys'
  end.

(** [constraints.forEach(function (element) { p.addConstraint(..) })] *)
Fixpoint add_constraints (cs : list Constraint.t) : ST (Problem.t RBS.t) unit :=
  match cs with
  | [] => st_ret tt
  | c :: cs' =>
      do! Problem.addConstraint (Constraint.variables c) (Constraint.fn c); add_constraints cs'
  end.

(** [prepare(configuration, currentConfiguration, element)], run on the
    fresh [Csp().DiscreteProblem()]. *)
Definition prepare (cfg : configuration) (cur : jsobj cfgval) (element : option string)
    : ST (Problem.t RBS.t) unit :=
  do! add_options cfg cur element (own_keys (options cfg));
  match getConstrains (constraints cfg) with
  | inl e => st_throw e
  | inr cs => add_constraints cs
  end.

(** A query on a fresh problem; the problem is dropped afterwards. *)
Definition on_fresh_problem {A} (m : ST (Problem.t RBS.t) A) : outcome unit A :=
  match m DiscreteProblem with
  | Done a _ => Done a tt
  | Raise e _ => Raise e tt
  | NoFuel => NoFuel
  end.

Definition outcome_map {S A B} (f : A -> B) (o : outcome S A) : outcome S B :=
  match o with
  | Done a s => Done (f a) s
  | Raise e s => Raise e s
  | NoFuel => NoFuel
  end.

(** [isEmpty(value)]:
    [for (var key in value) if (value.hasOwnProperty(key)) return false;
    return true;], with [value.hasOwnProperty] read on the solution. *)
Fixpoint isEmpty_loop (value : assignment) (keys : list string) : exn + bool :=
  match keys with
  | [] => inr true
  | key :: keys' =>
      match call_hasOwnProperty "value" (obj_has value)
              (method_of (obj_lookup value "hasOwnProperty"))
              (method_of (obj_lookup value "toString")) key with
      | inl e => inl e
      | inr true => inr false
      | inr false => isEmpty_loop value keys'
      end
  end.

Definition isEmpty (value : assignment) : exn + bool := isEmpty_loop value (own_keys value).

(** [this.getSolution]: [undefined] ([None]) for an empty solution. *)
Definition getSolution (cfg : configuration) (cur : jsobj cfgval) (element : option string)
    : outcome unit (option assignment) :=
  on_fresh_problem (
    do! prepare cfg cur element;
    let! solution := Problem.getSolution in
    match isEmpty solution with
    | inl e => st_throw e
    | inr b => st_ret (if b then None else Some solution)
    end).

Definition getSolutions (cfg : configuration) (cur : jsobj cfgval) (element : option string)
    : outcome unit (list assignment) :=
  on_fresh_problem (do! prepare cfg cur element; Problem.getSolutions).

(** The property key [element] names: [undefined] reads the key
    ["undefined"]. *)
Definition element_key (element : option string) : string :=
  match element with Some e => e | None => "undefined" end.

(** [if (result.indexOf(v) < 0) result.push(v)] over a list: [indexOf]
    compares with [===], which is equality on the modelled values. *)
Fixpoint push_unique (result vs : list jsval) : list jsval :=
  match vs with
  | [] => result
  | v :: vs' => push_unique (if bool_decide (v ∈ result) then result else result ++ [v])%list vs'
  end.

Definition getValuesFor (cfg : configuration) (cur : jsobj cfgval) (element : option string)
    : outcome unit (list jsval) :=
  outcome_map (fun allSolutions =>
                 push_unique [] (map (fun a => js_get a (element_key element)) allSolutions))
              (getSolutions cfg cur element).

(** [if (solution) return solution[element]; return undefined;] *)
Definition getSingleValueFor (cfg : configuration) (cur : jsobj cfgval) (element : option string)
    : outcome unit jsval :=
  outcome_map (fun solution =>
                 match solution with
                 | Some a => js_get a (element_key element)
                 | None => JUndefined
                 end)
              (getSolution cfg cur element).

(** [this.getSolution(configuration, currentConfiguration) !== undefined] *)
Definition checkCorrect (cfg : configuration) (cur : jsobj cfgval) : outcome unit bool :=
  outcome_map (fun solution => match solution with Some _ => true | None => false end)
              (getSolution cfg cur None).

(** ** The specification of the queries *)

(** The domain [prepare] gives [key]: the option list for the focused
    element or a key the current configuration leaves open, else the
    value(s) it fixes. *)
Definition allowed_domain (cfg : configuration) (cur : jsobj cfgval) (element : option string)
    (key : string) : list jsval :=
  if is_focus element key || negb (obj_has cur key) then option_domain cfg key
  else match obj_lookup cur key with
       | Some (CMany vs) => vs
       | Some (CSingle v) => [v]
       | None => [cur_inherited key]
       end.

(** A constraint of the configuration holds on an assignment when a value
    of its scope is missing, or when some tuple matches. *)
Definition table_holds (a : assignment) (c : cfg_constraint) : bool :=
  match build_args a (properties c) with
  | None => true
  | Some args => matcher (relations c) args
  end.

Definition table_consistent (cfg : configuration) (a : assignment) : bool :=
  forallb (table_holds a) (constraints cfg).

(** The configurations the theorems are about: option names and
    constraint properties are not members of [Object.prototype], every
    constraint has properties, and its tuples are nonempty, printable and
    no longer than its properties. *)
Definition constraint_ok (c : cfg_constraint) : bool :=
  relations_ok (relations c) &&
  forallb (fun r => Nat.leb (length r) (length (properties c))) (relations c) &&
  negb (bool_decide (properties c = [])) &&
  forallb (fun k => negb (proto_member k)) (properties c).

Definition config_ok (cfg : configuration) : bool :=
  bool_decide (obj_wf (options cfg)) &&
  forallb (fun k => negb (proto_member k)) (obj_keys (options cfg)) &&
  forallb constraint_ok (constraints cfg).

(** * Properties *)

(** ** What [prepare] builds *)

(** The variables [prepare] adds for [keys]. *)
Definition prepared_vars (cfg : configuration) (cur : jsobj cfgval) (element : option string)
    (keys : list string) : list (string * Var.t) :=
  map (fun k => (k, Var.mk k (allowed_domain cfg cur element k))) keys.

(** The keys of [keys] that are not the focus see the inherited
    [hasOwnProperty]. *)
Definition hop_plain (cur : jsobj cfgval) (element : option string) (keys : list string) : Prop :=
  forall k, k ∈ keys -> is_focus element k = false -> cur_hasOwnProperty cur k = inr (obj_has cur k).

Lemma hop_plain_lookup cur element keys :
  obj_lookup cur "hasOwnProperty" = None -> hop_plain cur element keys.
Proof. intros Hl k _ _. unfold cur_hasOwnProperty, cfg_method. by rewrite Hl. Qed.

Lemma isEmpty_plain a :
  obj_lookup a "hasOwnProperty" = None -> isEmpty a = inr (bool_decide (own_keys a = [])).
Proof.
  intros Hl. unfold isEmpty. pose proof (elem_of_own_keys a) as Hk.
  destruct (own_keys a) as [|k ks]; [done|]. simpl. rewrite Hl. simpl.
  unfold obj_has. rewrite bool_decide_eq_true_2; [done|]. apply Hk. by left.
Qed.

Lemma add_option_run cfg cur element key solver pre cs :
  key ∉ map fst pre ->
  (is_focus element key = false -> cur_hasOwnProperty cur key = inr (obj_has cur key)) ->
  add_option cfg cur element key (Problem.mk solver (mkobj pre) cs) =
  Done tt (Problem.mk solver (mkobj (pre ++ [(key, Var.mk key (allowed_domain cfg cur element key))])) cs).
Proof.
  intros Hk Hhop. unfold add_option, allowed_domain, st_bind.
  destruct (is_focus element key); [|rewrite Hhop by done]; cbn -[Problem.addVariable];
    [|destruct (obj_has cur key); cbn -[Problem.addVariable];
      [destruct (obj_lookup cur key) as [[]|]|]];
    unfold Problem.addVariable, st_modify; simpl; by rewrite RBS.obj_set_snoc.
Qed.

Lemma add_options_run cfg cur element keys solver pre cs :
  NoDup (map fst pre ++ keys) -> hop_plain cur element keys ->
  add_options cfg cur element keys (Problem.mk solver (mkobj pre) cs) =
  Done tt (Problem.mk solver (mkobj (pre ++ prepared_vars cfg cur element keys)) cs).
Proof.
  revert pre. induction keys as [|k keys IH]; intros pre Hnd Hhop; simpl.
  - by rewrite app_nil_r.
  - unfold st_bind at 1. rewrite add_option_run.
    + rewrite IH, <- app_assoc; [done| |].
      * by rewrite map_app, <- app_assoc.
      * intros k' Hk'. apply Hhop. by right.
    + apply NoDup_app in Hnd as (_ & Hdisj & _). intros Hin. apply (Hdisj k Hin). left.
    + apply Hhop. by left.
Qed.

Lemma add_constraints_run cs solver vars cs0 :
  Forall (fun c => Constraint.variables c <> []) cs ->
  add_constraints cs (Problem.mk solver vars cs0) = Done tt (Problem.mk solver vars (cs0 ++ cs)).
Proof.
  revert cs0. induction cs as [|c cs IH]; intros cs0 Hcs; simpl; [by rewrite app_nil_r|].
  apply Forall_cons in Hcs as [Hc Hcs]. unfold st_bind, Problem.addConstraint, st_modify. simpl.
  destruct (Nat.eqb_spec (length (Constraint.variables c)) 0) as [Hl|];
    [by apply nil_length_inv in Hl|].
  rewrite IH by done. rewrite <- app_assoc. by destruct c.
Qed.

(** A compiled constraint holds where its table does. *)
Lemma compile_constraint_holds c :
  constraint_ok c = true ->
  exists f, compile_constraint c = inr (Constraint.mk (properties c) f) /\
    (forall args, exists v, f args = JsReturn v) /\
    forall a, holds a (Constraint.mk (properties c) f) = table_holds a c.
Proof.
  unfold constraint_ok. intros [[[Hrel Hlen]%andb_prop _]%andb_prop _]%andb_prop.
  destruct (compile_constraint_run c) as (f & Hc & Hf); [done..|].
  exists f. split_and!; [done| |].
  - intros args. rewrite Hf. by destruct (relations c); eexists.
  - intros a. unfold holds, table_holds. cbn [Constraint.variables Constraint.fn].
    destruct (build_args a (properties c)); [|done]. rewrite Hf.
    by destruct (relations c).
Qed.

Lemma getConstrains_run j ccfg :
  forallb constraint_ok ccfg = true ->
  exists ccs, mapi_sum (fun _ c => compile_constraint c) j ccfg = inr ccs /\
    map Constraint.variables ccs = map properties ccfg /\ fns_total ccs /\
    forall a, consistent a ccs = forallb (table_holds a) ccfg.
Proof.
  revert j. induction ccfg as [|c ccfg IH]; intros j Hok;
    [exists []; split_and!; [done|done|constructor|done]|].
  simpl in Hok. apply andb_prop in Hok as [Hc Hok].
  destruct (compile_constraint_holds c Hc) as (f & Hf & Htot & Hholds).
  destruct (IH (S j) Hok) as (ccs & Hccs & Hvars & Htots & Hcons).
  exists (Constraint.mk (properties c) f :: ccs). simpl. rewrite Hf, Hccs, Hvars.
  split_and!; [done|done|by constructor|]. intros a. unfold consistent in *. simpl.
  by rewrite Hholds, Hcons.
Qed.

Lemma prepared_vars_keys cfg cur element keys :
  map fst (prepared_vars cfg cur element keys) = keys.
Proof. unfold prepared_vars. rewrite map_map. apply map_id. Qed.

Lemma prepare_run cfg cur element :
  config_ok cfg = true -> hop_plain cur element (own_keys (options cfg)) ->
  exists ccs,
    prepare cfg cur element DiscreteProblem =
      Done tt (Problem.mk RBS.new
                 (mkobj (prepared_vars cfg cur element (own_keys (options cfg)))) ccs) /\
    map Constraint.variables ccs = map properties (constraints cfg) /\ fns_total ccs /\
    forall a, consistent a ccs = table_consistent cfg a.
Proof.
  unfold config_ok. intros [[Hwf _]%andb_prop Hcs]%andb_prop Hhop.
  destruct (getConstrains_run 0 _ Hcs) as (ccs & Hccs & Hvars & Htot & Hcons).
  exists ccs. split_and!; [|done..].
  unfold prepare, st_bind, DiscreteProblem, obj_empty.
  rewrite add_options_run by (done || apply NoDup_own_keys, (bool_decide_eq_true_1 _ Hwf)).
  unfold getConstrains. rewrite Hccs, add_constraints_run; [done|].
  apply Forall_forall. intros c' Hc'.
  assert (Hin : Constraint.variables c' ∈ map properties (constraints cfg))
    by (rewrite <- Hvars; by apply list_elem_of_fmap_2).
  apply list_elem_of_fmap in Hin as (c & -> & Hc). rewrite forallb_forall in Hcs.
  apply list_elem_of_In, Hcs in Hc. unfold constraint_ok in Hc.
  apply andb_prop in Hc as [[_ Hne]%andb_prop _]. by case_bool_decide.
Qed.

Lemma lookup_prepared_vars cfg cur element keys k :
  k ∈ keys ->
  obj_lookup (mkobj (prepared_vars cfg cur element keys)) k =
  Some (Var.mk k (allowed_domain cfg cur element k)).
Proof.
  unfold obj_lookup, prepared_vars. simpl. induction keys as [|k' keys IH]; simpl;
    [by intros ?%not_elem_of_nil|].
  intros [->|Hk]%elem_of_cons; case_bool_decide; subst; by auto.
Qed.

(** The problem [prepare] builds meets the hypotheses of the solver's
    correctness theorem. *)
Lemma prepared_csp_ok cfg cur element ccs :
  config_ok cfg = true -> map Constraint.variables ccs = map properties (constraints cfg) ->
  fns_total ccs ->
  csp_ok (mkcsp (mkobj (prepared_vars cfg cur element (own_keys (options cfg)))) ccs).
Proof.
  unfold config_ok. intros [[Hwf Hkeys]%andb_prop Hcs]%andb_prop Hvars Htot.
  apply bool_decide_eq_true_1 in Hwf. rewrite forallb_forall in Hkeys, Hcs.
  split_and!; simpl; [split| | |done].
  - unfold obj_wf, obj_keys. simpl. rewrite prepared_vars_keys. by apply NoDup_own_keys.
  - intros k v Hl. pose proof (assoc_lookup_Some_In _ _ _ Hl) as Hin.
    unfold prepared_vars in Hin. apply list_elem_of_fmap in Hin as (k' & [= -> ->] & _).
    done.
  - intros k. unfold obj_keys. simpl. rewrite prepared_vars_keys, elem_of_own_keys.
    intros Hk%list_elem_of_In%Hkeys. by apply negb_true_iff.
  - apply Forall_forall. intros c' Hc'.
    assert (Hin : Constraint.variables c' ∈ map properties (constraints cfg))
      by (rewrite <- Hvars; by apply list_elem_of_fmap_2).
    apply list_elem_of_fmap in Hin as (c & Heq & Hc). rewrite Heq.
    apply list_elem_of_In, Hcs in Hc. unfold constraint_ok in Hc.
    apply andb_prop in Hc as [[_ Hne]%andb_prop Hnp]. split; [by case_bool_decide|].
    rewrite forallb_forall in Hnp. intros k Hk%list_elem_of_In%Hnp. by apply negb_true_iff.
Qed.

Lemma own_keys_prepared cfg cur element :
  own_keys (mkobj (prepared_vars cfg cur element (own_keys (options cfg)))) =
  own_keys (options cfg).
Proof. unfold own_keys at 1, obj_keys. simpl. rewrite prepared_vars_keys. apply order_keys_idem. Qed.

(** Over the keys of the options, the variables' domains are the allowed
    domains. *)
Lemma domains_prepared cfg cur element (e : list (string * jsval)) :
  map fst e = own_keys (options cfg) ->
  Forall (fun kx => In kx.2 (domain_of (mkobj (prepared_vars cfg cur element
                                                 (own_keys (options cfg)))) kx.1)) e <->
  Forall (fun kx => In kx.2 (allowed_domain cfg cur element kx.1)) e.
Proof.
  intros Hk. rewrite !Forall_forall. unfold domain_of.
  split; intros H kx Hkx; specialize (H kx Hkx);
    (rewrite lookup_prepared_vars in * by (rewrite <- Hk; by apply list_elem_of_fmap_2)); done.
Qed.

(** The solutions of the prepared problem are the complete assignments of
    the options, within the allowed domains, on which every table holds. *)
Lemma prepared_solutions cfg cur element ccs a :
  (forall a, consistent a ccs = table_consistent cfg a) ->
  In a (solutions (mkcsp (mkobj (prepared_vars cfg cur element (own_keys (options cfg)))) ccs))
  <-> exists e, a = mkobj e /\ map fst e = own_keys (options cfg) /\
        Forall (fun kx => In kx.2 (allowed_domain cfg cur element kx.1)) e /\
        table_consistent cfg a = true.
Proof.
  intros Hcons. unfold solutions. simpl. rewrite filter_In, in_map_iff, Hcons, own_keys_prepared.
  split.
  - intros [(e & <- & (Hk & Hdom)%in_candidates) Hc].
    exists e. split_and!; [done|done| |done]. by apply (domains_prepared cfg cur element).
  - intros (e & -> & Hk & Hdom & Hc). split; [|done]. exists e. split; [done|].
    apply in_candidates. split; [done|].
    by apply (domains_prepared cfg cur element).
Qed.

(** No solution of a well-formed configuration has an own
    [hasOwnProperty]: its keys are option names. *)
Lemma first_solution_no_hop cfg cur element ccs :
  config_ok cfg = true -> (forall a, consistent a ccs = table_consistent cfg a) ->
  obj_lookup (first_solution
    (mkcsp (mkobj (prepared_vars cfg cur element (own_keys (options cfg)))) ccs)) "hasOwnProperty"
  = None.
Proof.
  intros Hok Hcons. unfold first_solution.
  destruct (solutions _) as [|a sols] eqn:Hs; [done|].
  assert (Ha : In a (a :: sols)) by by left. rewrite <- Hs in Ha.
  apply (prepared_solutions cfg cur element ccs) in Ha as (e & -> & Hk & _); [|done].
  apply assoc_lookup_None. cbn [props]. rewrite Hk, elem_of_own_keys. intros Hin.
  unfold config_ok in Hok. apply andb_prop in Hok as [[_ Hkeys]%andb_prop _].
  rewrite forallb_forall in Hkeys. apply list_elem_of_In, Hkeys in Hin. done.
Qed.

Lemma manager_getSolutions_run cfg cur element :
  config_ok cfg = true -> hop_plain cur element (own_keys (options cfg)) ->
  exists ccs, (forall a, consistent a ccs = table_consistent cfg a) /\
    csp_ok (mkcsp (mkobj (prepared_vars cfg cur element (own_keys (options cfg)))) ccs) /\
    getSolutions cfg cur element =
      Done (solutions (mkcsp (mkobj (prepared_vars cfg cur element (own_keys (options cfg)))) ccs)) tt /\
    getSolution cfg cur element =
      Done (let s := first_solution
                       (mkcsp (mkobj (prepared_vars cfg cur element (own_keys (options cfg)))) ccs)
            in if bool_decide (own_keys s = []) then None else Some s) tt.
Proof.
  intros Hok Hhop.
  destruct (prepare_run cfg cur element Hok Hhop) as (ccs & Hprep & Hvars & Htot & Hcons).
  pose proof (prepared_csp_ok cfg cur element ccs Hok Hvars Htot) as Hcsp.
  exists ccs. split_and!; [done|done| |].
  - unfold getSolutions, on_fresh_problem, st_bind. rewrite Hprep.
    unfold Problem.getSolutions, Problem.on_solver. simpl. by rewrite RBS.getSolutions_run.
  - unfold getSolution, on_fresh_problem, st_bind. rewrite Hprep.
    unfold Problem.getSolution, Problem.on_solver. simpl. rewrite RBS.getSolution_run by done.
    cbn. by rewrite isEmpty_plain by (by apply (first_solution_no_hop cfg cur element)).
Qed.

Lemma own_keys_solution cfg (e : list (string * jsval)) :
  map fst e = own_keys (options cfg) -> own_keys (mkobj e) = own_keys (options cfg).
Proof. intros Hk. unfold own_keys at 1, obj_keys. simpl. rewrite Hk. apply order_keys_idem. Qed.

Lemma push_unique_prefix result vs : exists t, push_unique result vs = (result ++ t)%list.
Proof.
  revert result. induction vs as [|v vs IH]; intros result; simpl; [exists []; by rewrite app_nil_r|].
  case_bool_decide; [apply IH|]. destruct (IH (result ++ [v])%list) as [t ->].
  exists (v :: t). by rewrite <- app_assoc.
Qed.

Lemma push_unique_spec result vs :
  NoDup result -> NoDup (push_unique result vs) /\
  forall v, v ∈ push_unique result vs <-> v ∈ result \/ v ∈ vs.
Proof.
  revert result. induction vs as [|v vs IH]; intros result Hnd; simpl.
  - split; [done|]. set_solver.
  - case_bool_decide as Hv.
    + destruct (IH result Hnd) as [Hnd' Hin]. split; [done|]. intros w. rewrite Hin. set_solver.
    + destruct (IH (result ++ [v])%list) as [Hnd' Hin].
      { apply NoDup_app. split_and!; [done| |by apply NoDup_singleton]. set_solver. }
      split; [done|]. intros w. rewrite Hin. set_solver.
Qed.

Lemma add_options_raise cfg cur element keys e p :
  (forall k, cur_hasOwnProperty cur k = inl e) ->
  (exists k, k ∈ keys /\ is_focus element k = false) ->
  exists p', add_options cfg cur element keys p = Raise e p'.
Proof.
  intros Hhop. revert p. induction keys as [|k keys IH]; intros p (k' & Hk' & Hf);
    [by apply not_elem_of_nil in Hk'|].
  simpl. unfold st_bind at 1, add_option, st_bind at 1.
  destruct (is_focus element k) eqn:Hfk; [|rewrite Hhop; by eexists].
  cbn -[add_options]. apply IH. exists k'. split; [|done].
  apply elem_of_cons in Hk' as [->|]; [congruence|done].
Qed.

Lemma prepare_raise cfg cur element e :
  (forall k, cur_hasOwnProperty cur k = inl e) ->
  (exists k, k ∈ own_keys (options cfg) /\ is_focus element k = false) ->
  exists p', prepare cfg cur element DiscreteProblem = Raise e p'.
Proof.
  intros Hhop Hk. destruct (add_options_raise cfg cur element _ e DiscreteProblem Hhop Hk) as [p' Hp'].
  exists p'. unfold prepare, st_bind at 1. by rewrite Hp'.
Qed.

(** A [prepare] that throws [e] for the focus [element] and for no focus
    makes each query throw [e]. *)
Lemma queries_raise cfg cur element e :
  (exists p', prepare cfg cur element DiscreteProblem = Raise e p') ->
  (exists p', prepare cfg cur None DiscreteProblem = Raise e p') ->
  getSolutions cfg cur element = Raise e tt /\ getSolution cfg cur element = Raise e tt /\
  getValuesFor cfg cur element = Raise e tt /\ getSingleValueFor cfg cur element = Raise e tt /\
  checkCorrect cfg cur = Raise e tt.
Proof.
  intros [p Hp1] [p' Hp2].
  unfold checkCorrect, getValuesFor, getSingleValueFor, getSolutions, getSolution,
    on_fresh_problem, st_bind.
  by rewrite Hp1, Hp2.
Qed.

Lemma add_options_done cfg cur element keys p :
  hop_plain cur element keys -> exists p', add_options cfg cur element keys p = Done tt p'.
Proof.
  revert p. induction keys as [|k keys IH]; intros p Hhop; [by eexists|].
  assert (Hk : exists p1, add_option cfg cur element k p = Done tt p1).
  { unfold add_option, st_bind. destruct (is_focus element k) eqn:Hf;
      [|rewrite (Hhop k) by (done || by left)]; cbn -[Problem.addVariable];
      [|destruct (obj_has cur k); cbn -[Problem.addVariable];
        [destruct (obj_lookup cur k) as [[]|]|]]; by eexists. }
  destruct Hk as [p1 Hp1]. simpl. unfold st_bind at 1. rewrite Hp1.
  apply IH. intros k' Hk'. apply Hhop. by right.
Qed.

Lemma prepare_raise_constraints cfg cur element e :
  hop_plain cur element (own_keys (options cfg)) -> getConstrains (constraints cfg) = inl e ->
  exists p', prepare cfg cur element DiscreteProblem = Raise e p'.
Proof.
  intros Hhop He. destruct (add_options_done cfg cur element _ DiscreteProblem Hhop) as [p Hp].
  exists p. unfold prepare, st_bind at 1. rewrite Hp, He. done.
Qed.

(** C5: for a well-formed configuration, [getSolutions] returns, without
    throwing, exactly the complete assignments of the option names in which
    every name takes a value of its allowed domain (its options if it is the
    focused element or open in [currentConfiguration], else the fixed
    value or values) and every constraint's table holds. *)
Theorem manager_getSolutions_sound_complete cfg cur element :
  config_ok cfg = true -> obj_lookup cur "hasOwnProperty" = None ->
  exists sols, getSolutions cfg cur element = Done sols tt /\
    forall a, In a sols <->
      exists e, a = mkobj e /\ map fst e = own_keys (options cfg) /\
        Forall (fun kx => In kx.2 (allowed_domain cfg cur element kx.1)) e /\
        table_consistent cfg a = true.
Proof.
  intros Hok Hl.
  destruct (manager_getSolutions_run cfg cur element Hok (hop_plain_lookup _ _ _ Hl))
    as (ccs & Hcons & _ & Hsols & _).
  eexists. split; [exact Hsols|]. intros a. by apply prepared_solutions.
Qed.

(** C7: for a well-formed configuration with at least one option,
    [checkCorrect] returns [true] exactly when some complete assignment
    within the domains [currentConfiguration] allows satisfies every
    constraint's table. *)
Theorem manager_checkCorrect_iff cfg cur :
  config_ok cfg = true -> obj_lookup cur "hasOwnProperty" = None -> own_keys (options cfg) <> [] ->
  exists b, checkCorrect cfg cur = Done b tt /\
    (b = true <-> exists e, map fst e = own_keys (options cfg) /\
        Forall (fun kx => In kx.2 (allowed_domain cfg cur None kx.1)) e /\
        table_consistent cfg (mkobj e) = true).
Proof.
  intros Hok Hl Hne.
  destruct (manager_getSolutions_run cfg cur None Hok (hop_plain_lookup _ _ _ Hl))
    as (ccs & Hcons & _ & _ & Hsol).
  unfold checkCorrect. rewrite Hsol. cbn [outcome_map]. eexists. split; [done|].
  unfold first_solution.
  destruct (solutions _) as [|a sols] eqn:Hs; cbn zeta.
  - split; [done|]. intros (e & Hk & Hdom & Hc).
    assert (Hin : In (mkobj e) [])
      by (rewrite <- Hs; apply (prepared_solutions cfg cur None ccs); [done|]; by exists e).
    done.
  - assert (Ha : In a (a :: sols)) by by left. rewrite <- Hs in Ha.
    apply (prepared_solutions cfg cur None ccs) in Ha as (e & -> & Hk & Hdom & Hc); [|done].
    rewrite (own_keys_solution cfg) by done.
    destruct (own_keys (options cfg)); [done|]. split; [|done]. intros _. by exists e.
Qed.

Lemma table_consistent_empty cfg : config_ok cfg = true -> table_consistent cfg (mkobj []) = true.
Proof.
  unfold config_ok, table_consistent. intros [_ Hcs]%andb_prop.
  rewrite forallb_forall in Hcs |- *. intros c Hc%Hcs. unfold constraint_ok in Hc.
  apply andb_prop in Hc as [[_ Hne]%andb_prop Hnp]. unfold table_holds.
  destruct (properties c) as [|k ks]; [done|]. simpl in Hnp. apply andb_prop in Hnp as [Hk _].
  simpl. unfold js_get. simpl. apply negb_true_iff in Hk. by rewrite Hk.
Qed.

(** C26: with no option at all, [getSolutions] returns one solution, the
    empty assignment, but [checkCorrect] answers [false]: [getSolution]
    maps the empty solution to [undefined]. *)
Theorem checkCorrect_no_options cfg cur element :
  config_ok cfg = true -> obj_keys (options cfg) = [] ->
  getSolutions cfg cur element = Done [mkobj []] tt /\ checkCorrect cfg cur = Done false tt.
Proof.
  intros Hok Hnil.
  assert (Hsols : forall el ccs, (forall a, consistent a ccs = table_consistent cfg a) ->
    solutions (mkcsp (mkobj (prepared_vars cfg cur el (own_keys (options cfg)))) ccs) = [mkobj []]).
  { intros el ccs Hcons. unfold solutions. simpl.
    assert (Hk : own_keys (options cfg) = []) by (unfold own_keys; by rewrite Hnil).
    rewrite own_keys_prepared, Hk. cbn [candidates map List.filter].
    by rewrite Hcons, table_consistent_empty. }
  assert (Hhop : forall el, hop_plain cur el (own_keys (options cfg))).
  { intros el k Hk. unfold own_keys in Hk. rewrite Hnil in Hk. by apply not_elem_of_nil in Hk. }
  destruct (manager_getSolutions_run cfg cur element Hok (Hhop _)) as (ccs & Hcons & _ & -> & _).
  destruct (manager_getSolutions_run cfg cur None Hok (Hhop _)) as (ccs' & Hcons' & _ & _ & Hsol).
  rewrite Hsols by done. split; [done|].
  unfold checkCorrect. rewrite Hsol. unfold first_solution. by rewrite Hsols.
Qed.

(** C14: [getValuesFor] returns the values [element] takes in the
    solutions [getSolutions] returns, each once. *)
Theorem getValuesFor_distinct_values cfg cur element sols :
  getSolutions cfg cur element = Done sols tt ->
  exists vs, getValuesFor cfg cur element = Done vs tt /\ NoDup vs /\
    forall v, v ∈ vs <-> exists a, a ∈ sols /\ js_get a (element_key element) = v.
Proof.
  intros Hsols. unfold getValuesFor. rewrite Hsols. eexists. split; [done|].
  destruct (push_unique_spec [] (map (fun a => js_get a (element_key element)) sols))
    as [Hnd Hin]; [constructor|].
  split; [done|]. intros v. rewrite Hin, list_elem_of_fmap. set_solver.
Qed.

(** C15: [getSingleValueFor] returns the first value [getValuesFor]
    returns, or [undefined] when there is none, provided the
    configuration is well formed and has an option. *)
Theorem getSingleValueFor_first_value cfg cur element :
  config_ok cfg = true -> obj_lookup cur "hasOwnProperty" = None -> own_keys (options cfg) <> [] ->
  exists vs, getValuesFor cfg cur element = Done vs tt /\
    getSingleValueFor cfg cur element = Done (match vs with [] => JUndefined | v :: _ => v end) tt.
Proof.
  intros Hok Hl Hne.
  destruct (manager_getSolutions_run cfg cur element Hok (hop_plain_lookup _ _ _ Hl))
    as (ccs & Hcons & _ & Hsols & Hsol).
  unfold getValuesFor, getSingleValueFor. rewrite Hsols, Hsol. eexists. split; [done|].
  cbn [outcome_map]. unfold first_solution.
  destruct (solutions _) as [|a sols] eqn:Hs; [done|]. cbn zeta.
  assert (Ha : In a (a :: sols)) by by left. rewrite <- Hs in Ha.
  apply (prepared_solutions cfg cur element ccs) in Ha as (e & -> & Hk & _); [|done].
  rewrite (own_keys_solution cfg) by done.
  destruct (own_keys (options cfg)); [done|].
  rewrite (bool_decide_eq_false_2 (_ :: _ = [])) by done. cbn [map push_unique].
  rewrite bool_decide_eq_false_2 by apply not_elem_of_nil.
  by destruct (push_unique_prefix ([] ++ [js_get (mkobj e) (element_key element)])%list
                 (map (fun a => js_get a (element_key element)) sols)) as [t ->].
Qed.

(** C8: [prepare] calls [currentConfiguration.hasOwnProperty(key)] as a
    method of the caller's object.  When that object has an own property
    named [hasOwnProperty] that is not a function (a value or an array of
    values, which is what the current configuration holds for an option
    named [hasOwnProperty]), every query throws a TypeError, as soon as
    one option is not the focused element; [checkCorrect], which has no
    focus, throws for any configuration with an option. *)
Theorem shadowed_hasOwnProperty_throws cfg cur element :
  cfg_method cur "hasOwnProperty" = MNotCallable ->
  (exists k, k ∈ own_keys (options cfg) /\ is_focus element k = false) ->
  getSolutions cfg cur element =
    Raise (TypeError "currentConfiguration.hasOwnProperty is not a function") tt /\
  getSolution cfg cur element =
    Raise (TypeError "currentConfiguration.hasOwnProperty is not a function") tt /\
  getValuesFor cfg cur element =
    Raise (TypeError "currentConfiguration.hasOwnProperty is not a function") tt /\
  getSingleValueFor cfg cur element =
    Raise (TypeError "currentConfiguration.hasOwnProperty is not a function") tt /\
  checkCorrect cfg cur =
    Raise (TypeError "currentConfiguration.hasOwnProperty is not a function") tt.
Proof.
  intros Hm (k & Hk & Hf).
  assert (Hhop : forall k, cur_hasOwnProperty cur k =
                 inl (TypeError "currentConfiguration.hasOwnProperty is not a function"))
    by (intros; unfold cur_hasOwnProperty; by rewrite Hm).
  apply queries_raise; apply prepare_raise; by try exists k.
Qed.

(** C31: an [undefined] entry in a relation table makes every query throw
    the [TypeError] of [val.charAt] ([isNaN(undefined)] is true, so the
    entry is handled as a string), whatever the options and the focus,
    provided the constraints before it are well formed, the tuples and
    entries before it printable and [currentConfiguration] has no own
    [hasOwnProperty]. *)
Theorem undefined_entry_every_query_throws cfg cur element cs1 c cs2 pre r1 r2 post :
  obj_lookup cur "hasOwnProperty" = None ->
  constraints cfg = (cs1 ++ c :: cs2)%list -> forallb constraint_ok cs1 = true ->
  relations c = (pre ++ (r1 ++ JUndefined :: r2) :: post)%list ->
  relations_ok pre = true -> forallb entry_ok r1 = true ->
  getSolutions cfg cur element =
    Raise (TypeError "Cannot read properties of undefined (reading 'charAt')") tt /\
  getSolution cfg cur element =
    Raise (TypeError "Cannot read properties of undefined (reading 'charAt')") tt /\
  getValuesFor cfg cur element =
    Raise (TypeError "Cannot read properties of undefined (reading 'charAt')") tt /\
  getSingleValueFor cfg cur element =
    Raise (TypeError "Cannot read properties of undefined (reading 'charAt')") tt /\
  checkCorrect cfg cur =
    Raise (TypeError "Cannot read properties of undefined (reading 'charAt')") tt.
Proof.
  intros Hl Hcs Hcs1 Hrel Hpre Hr1.
  assert (He : getConstrains (constraints cfg) =
               inl (TypeError "Cannot read properties of undefined (reading 'charAt')")).
  { rewrite Hcs. apply getConstrains_first_error.
    - destruct (getConstrains_run 0 cs1 Hcs1) as (ccs & H & _). by exists ccs.
    - by apply (compile_constraint_bad_entry c pre r1 JUndefined r2 post). }
  apply queries_raise; apply prepare_raise_constraints; try done; by apply hop_plain_lookup.
Qed.

(** C36: the configurator's query for one element: for a well-formed
    configuration and a current configuration without an own
    [hasOwnProperty], [getValuesFor] returns, each once, exactly the
    values the element takes in some complete assignment within the
    allowed domains on which every table holds. *)
Theorem getValuesFor_available cfg cur element :
  config_ok cfg = true -> obj_lookup cur "hasOwnProperty" = None ->
  exists vs, getValuesFor cfg cur element = Done vs tt /\ NoDup vs /\
    forall v, v ∈ vs <->
      exists e, map fst e = own_keys (options cfg) /\
        Forall (fun kx => In kx.2 (allowed_domain cfg cur element kx.1)) e /\
        table_consistent cfg (mkobj e) = true /\ js_get (mkobj e) (element_key element) = v.
Proof.
  intros Hok Hl.
  destruct (manager_getSolutions_run cfg cur element Hok (hop_plain_lookup _ _ _ Hl))
    as (ccs & Hcons & _ & Hsols & _).
  unfold getValuesFor. rewrite Hsols. cbn [outcome_map]. eexists. split; [done|].
  destruct (push_unique_spec [] (map (fun a => js_get a (element_key element))
              (solutions (mkcsp (mkobj (prepared_vars cfg cur element (own_keys (options cfg)))) ccs))))
    as [Hnd Hin]; [constructor|].
  split; [done|]. intros v. rewrite Hin, list_elem_of_fmap. split.
  - intros [?%not_elem_of_nil|(a & -> & Ha%list_elem_of_In)]; [done|].
    apply (prepared_solutions cfg cur element ccs _ Hcons) in Ha as (e & -> & Hk & Hdom & Hc).
    by exists e.
  - intros (e & Hk & Hdom & Hc & <-). right. exists (mkobj e). split; [done|].
    apply list_elem_of_In, (prepared_solutions cfg cur element ccs _ Hcons). by exists e.
Qed.

End Manager.
