(* ===== verification/Angular.v ===== *)
(** * The Angular module [ngCsp] and the injector that serves [$csp]

    [src/src/ngCsp.js] opens with (lines 7-11)
    [angular.module('ngCsp', []).factory('$csp', function () {
       'use strict'; return new CspManager(); });]
    It registers a module with no dependency and, in its invoke queue, a
    factory for the service [$csp].  An application or a test loads the
    module into an injector ([createInjector]); the injector turns each
    queued factory into a provider, and [injector.get('$csp')] calls the
    factory once and caches the object it returns, so every client of
    [$csp] shares one [CspManager].

    The model keeps the three pieces of state this involves, as the code
    and Angular have them:
    - the module registry of [angular.module], a map from names to modules
      ([module_registry], a [gmap]); [angular.module(name, requires)]
      creates a module and the chained [.factory] appends to the invoke
      queue of that very module;
    - the heap of objects the factories allocate ([heap]: the class of
      each object, addressed by its index), so that the identity of the
      service is a reference;
    - the injector: its providers and its instance cache ([gmap]s) and the
      heap.
    [injector_get] follows Angular's [getService]: a cached instance is
    returned as it is; otherwise the provider's factory runs and its
    result is cached; an unknown name throws [$injector:unpr], and a
    factory that throws leaves the cache as it was.  The services of
    Angular's own module [ng] are not modelled: only [ngCsp] is loaded. *)

From S2P Require Import Prelude JsObject Model Problem Backtracking Compile Manager.
From stdpp Require Import gmap relations.

Local Open Scope string_scope.
Import Manager.

(** ** Objects and the [CspManager] class *)

(** The class of an allocated object: here only [new CspManager()]
    allocates. *)
Inductive jsclass : Type := CCspManager.

(** Objects are addressed by their index in the heap. *)
Abbreviation heap := (list jsclass).
Abbreviation ref := nat.

(** [new CspManager()]: a fresh object.  Its own properties are the five
    methods below; it has no field, the private functions [prepare],
    [isEmpty] and [getConstrains] being closures of the constructor. *)
Definition new_CspManager : ST heap ref :=
  fun h => Done (length h) (h ++ [CCspManager])%list.

(** A call of a public method of a [CspManager], with its arguments. *)
Inductive manager_call : Type :=
| CallGetSolution (cfg : configuration) (cur : jsobj cfgval) (element : option string)
| CallGetSolutions (cfg : configuration) (cur : jsobj cfgval) (element : option string)
| CallGetValuesFor (cfg : configuration) (cur : jsobj cfgval) (element : option string)
| CallGetSingleValueFor (cfg : configuration) (cur : jsobj cfgval) (element : option string)
| CallCheckCorrect (cfg : configuration) (cur : jsobj cfgval).

(** What the methods return. *)
Inductive manager_result : Type :=
| RSolution (a : option assignment)
| RSolutions (l : list assignment)
| RValues (vs : list jsval)
| RValue (v : jsval)
| RBool (b : bool).

(** [this.getSolution = function (..) {..}], [this.getSolutions = ..],
    [this.getValuesFor = ..], [this.getSingleValueFor = ..],
    [this.checkCorrect = ..]: the method table of a [CspManager]. *)
Definition CspManager_method (c : manager_call) : outcome unit manager_result :=
  match c with
  | CallGetSolution cfg cur element => outcome_map RSolution (getSolution cfg cur element)
  | CallGetSolutions cfg cur element => outcome_map RSolutions (getSolutions cfg cur element)
  | CallGetValuesFor cfg cur element => outcome_map RValues (getValuesFor cfg cur element)
  | CallGetSingleValueFor cfg cur element =>
      outcome_map RValue (getSingleValueFor cfg cur element)
  | CallCheckCorrect cfg cur => outcome_map RBool (checkCorrect cfg cur)
  end.

(** [obj.m(..)] on the object at [r]: the method of its class. *)
Definition invoke (h : heap) (r : ref) (c : manager_call) : outcome unit manager_result :=
  match h !! r with
  | Some CCspManager => CspManager_method c
  | None => Raise (TypeError "Cannot read properties of undefined") tt
  end.

(** ** Modules *)

(** A registered factory function: it may allocate, and returns the
    service. *)
Definition factory_fn : Type := ST heap ref.

Record ng_module : Type := mkmodule {
  mod_requires : list string;
  invoke_queue : list (string * factory_fn)
}.

Abbreviation module_registry := (gmap string ng_module).

(** [angular.module(name, requires)]: with a [requires] array, a new,
    empty module replaces any module of that name; the module is
    returned (here by its name). *)
Definition angular_module (name : string) (requires : list string) : ST module_registry string :=
  fun reg => Done name (<[name := mkmodule requires []]> reg).

(** [module.factory(service, fn)]: queued on the module, which is
    returned for chaining. *)
Definition module_factory (name service : string) (fn : factory_fn) : ST module_registry string :=
  fun reg =>
    match reg !! name with
    | Some m =>
        Done name (<[name := mkmodule (mod_requires m) (invoke_queue m ++ [(service, fn)])%list]> reg)
    | None => Raise (ErrorObj ("Module '" ++ name ++ "' is not available!")) reg
    end.

(** The factory of [$csp]: [function () { 'use strict'; return new
    CspManager(); }]. *)
Definition csp_factory : factory_fn := new_CspManager.

(** Lines 7-11 of [src/src/ngCsp.js]. *)
Definition ngCsp_registration : ST module_registry string :=
  let! m := angular_module "ngCsp" [] in
  module_factory m "$csp" csp_factory.

(** ** The injector *)

Record injector : Type := mkinjector {
  providers : gmap string factory_fn;
  cache : gmap string ref;
  iheap : heap
}.

(** [loadModules]: each module once, its [requires] first, then its
    invoke queue (a later factory of the same name replaces an earlier
    one); a name with no module throws [$injector:nomod].  [fuel] bounds
    the nesting of [requires]. *)
Fixpoint load_modules (fuel : nat) (reg : module_registry) (names : list string)
    (st : list string * gmap string factory_fn) : sum exn (list string * gmap string factory_fn) :=
  match fuel with
  | O => inl (ErrorObj "Too many nested modules")
  | S fuel' =>
      (fix go (names : list string) (st : list string * gmap string factory_fn) :=
         match names with
         | [] => inr st
         | name :: names' =>
             if bool_decide (name ∈ st.1) then go names' st
             else match reg !! name with
                  | None => inl (ErrorObj ("Module '" ++ name ++ "' is not available!"))
                  | Some m =>
                      match load_modules fuel' reg (mod_requires m) (name :: st.1, st.2) with
                      | inl e => inl e
                      | inr (loaded, provs) =>
                          go names' (loaded, foldl (fun ps '(s, f) => <[s := f]> ps) provs (invoke_queue m))
                      end
                  end
         end) names st
  end.

(** [createInjector(modules)] on the current heap. *)
Definition create_injector (reg : module_registry) (modules : list string) (h : heap)
    : sum exn injector :=
  match load_modules (S (size reg)) reg modules ([], ∅) with
  | inl e => inl e
  | inr (_, provs) => inr (mkinjector provs ∅ h)
  end.

(** [injector.get(name)] ([getService] of the instance injector). *)
Definition injector_get (name : string) : ST injector ref :=
  fun inj =>
    match cache inj !! name with
    | Some r => Done r inj
    | None =>
        match providers inj !! name with
        | None =>
            Raise (ErrorObj ("[$injector:unpr] Unknown provider: " ++ name ++ "Provider <- " ++ name)) inj
        | Some f =>
            match f (iheap inj) with
            | Done r h => Done r (mkinjector (providers inj) (<[name := r]> (cache inj)) h)
            | Raise e h => Raise e (mkinjector (providers inj) (cache inj) h)
            | NoFuel => NoFuel
            end
        end
    end.

(** One [injector.get] by any client, its exception caught. *)
Inductive get_step : injector -> injector -> Prop :=
| get_step_done name r inj inj' : injector_get name inj = Done r inj' -> get_step inj inj'
| get_step_raise name e inj inj' : injector_get name inj = Raise e inj' -> get_step inj inj'.

(** The injector of [ngCsp] created on the heap [h], at any point of its
    life: it provides [$csp] only, and either nothing is cached and the
    heap is [h], or [$csp] is cached as the one [CspManager] allocated
    after [h]. *)
Definition ngCsp_injector_inv (h : heap) (inj : injector) : Prop :=
  providers inj = <["$csp" := csp_factory]> ∅ /\
  ((cache inj = ∅ /\ iheap inj = h) \/
   (cache inj = <["$csp" := length h]> ∅ /\ iheap inj = (h ++ [CCspManager])%list)).

(** * Properties *)

(** ** The instance cache *)

Lemma injector_get_cached name r inj :
  cache inj !! name = Some r -> injector_get name inj = Done r inj.
Proof. intros H. unfold injector_get. by rewrite H. Qed.

Lemma injector_get_done_cached name r inj inj' :
  injector_get name inj = Done r inj' -> cache inj' !! name = Some r.
Proof.
  unfold injector_get. intros H. repeat case_match; simplify_eq/=; [done|].
  apply lookup_insert_eq.
Qed.

(** A [get] never drops nor changes a cached instance. *)
Lemma get_step_cache inj inj' name r :
  get_step inj inj' -> cache inj !! name = Some r -> cache inj' !! name = Some r.
Proof.
  intros Hs Hr. destruct Hs as [n r' i i' H|n e i i' H]; unfold injector_get in H;
    repeat case_match; simplify_eq/=; try done.
  rewrite lookup_insert_ne; [done|congruence].
Qed.

(** ** Loading [ngCsp] *)

(** Running lines 7-11: the registry holds [ngCsp] with its one factory. *)
Lemma ngCsp_registration_run reg :
  ngCsp_registration reg =
    Done "ngCsp" (<["ngCsp" := mkmodule [] [("$csp", csp_factory)]]> reg).
Proof.
  unfold ngCsp_registration, st_bind, angular_module, module_factory.
  rewrite lookup_insert_eq. cbn. by rewrite insert_insert_eq.
Qed.

(** An injector of [ngCsp] provides exactly [$csp], with nothing cached. *)
Lemma create_injector_ngCsp reg h :
  create_injector (<["ngCsp" := mkmodule [] [("$csp", csp_factory)]]> reg) ["ngCsp"] h =
    inr (mkinjector (<["$csp" := csp_factory]> ∅) ∅ h).
Proof.
  unfold create_injector.
  assert (Hs : size (<["ngCsp" := mkmodule [] [("$csp", csp_factory)]]> reg) <> 0)
    by (rewrite map_size_empty_iff; apply insert_non_empty).
  destruct (size _) as [|n]; [done|].
  cbn [load_modules]. rewrite bool_decide_eq_false_2 by set_solver. rewrite lookup_insert_eq.
  reflexivity.
Qed.

(** ** [$csp] is one shared [CspManager] *)

Lemma ngCsp_injector_step h inj inj' :
  ngCsp_injector_inv h inj -> get_step inj inj' -> ngCsp_injector_inv h inj'.
Proof.
  intros [Hp Hc] Hs. destruct Hs as [name r i i' H|name e i i' H];
    unfold injector_get in H; rewrite Hp in H;
    destruct Hc as [[Hc Hh]|[Hc Hh]]; rewrite Hc in H;
    (destruct (decide (name = "$csp")) as [->|Hne];
      [rewrite ?lookup_insert_eq in H
      |rewrite ?lookup_insert_ne in H by congruence; rewrite lookup_empty in H]);
    rewrite ?lookup_empty, ?lookup_insert_eq in H; simplify_eq/=;
    try (split; [done|by left]); try (split; [done|by right]).
  all: rewrite Hh in H; unfold csp_factory, new_CspManager in H; simplify_eq/=;
    split; [done|right]; by rewrite Hh.
Qed.

(** C32: on any page where lines 7-11 of [src/src/ngCsp.js] have run, the
    injector of [ngCsp] serves one [CspManager] to all its clients: after
    any sequence of [get]s of any names (failed ones included), the heap
    holds at most the one [CspManager] allocated after the page's objects,
    and [get('$csp')] returns that very object. *)
Theorem csp_service_singleton reg reg' m h inj inj' :
  ngCsp_registration reg = Done m reg' ->
  create_injector reg' ["ngCsp"] h = inr inj -> rtc get_step inj inj' ->
  (iheap inj' = h \/ iheap inj' = (h ++ [CCspManager])%list) /\
  exists inj'', injector_get "$csp" inj' = Done (length h) inj'' /\
    iheap inj'' = (h ++ [CCspManager])%list /\
    forall c, invoke (iheap inj'') (length h) c = CspManager_method c.
Proof.
  rewrite ngCsp_registration_run. intros [= <- <-] Hinj Hsteps.
  rewrite create_injector_ngCsp in Hinj. injection Hinj as <-.
  assert (Hinv : ngCsp_injector_inv h inj').
  { assert (H0 : ngCsp_injector_inv h (mkinjector (<["$csp" := csp_factory]> ∅) ∅ h))
      by (split; [done|by left]).
    revert H0. induction Hsteps as [|i1 i2 i3 Hs _ IH]; [done|].
    intros H1. by apply IH, (ngCsp_injector_step h i1). }
  destruct Hinv as [Hp [[Hc Hh]|[Hc Hh]]]; split; [by left| |by right|].
  - unfold injector_get. rewrite Hc, Hp, lookup_empty, lookup_insert_eq, Hh.
    eexists. split_and!; [reflexivity|reflexivity|]. intros c. unfold invoke. cbn [iheap].
    by rewrite list_lookup_middle.
  - unfold injector_get. rewrite Hc, lookup_insert_eq. eexists. split_and!; [reflexivity|done|].
    intros c. unfold invoke. rewrite Hh. by rewrite list_lookup_middle.
Qed.
