(* ===== verification/Benchmark.v ===== *)
(** * The benchmark page: [src/test/benchmark/benchmark.js]

    [benchmarkMe(benchmarker)] builds the problems [Setup1] and [Setup2]
    with the public API of [Csp()], adds an output table per group of
    measurements to the element [#output] of the page, one row per
    measurement, hands each row to [benchmarker.config] and each measured
    function to [benchmarker.measure], and finally hides [#spinner].  The
    page's [document.onreadystatechange] shows the spinner and runs
    [benchmarkMe] once the document is complete.

    The model keeps:
    - the document: a store of element nodes ([gmap] from node numbers to
      a record of tag, class, [style.display] and children), the ids of
      the page and [readyState]; [createElement] allocates a node fresh
      for the store, [appendChild] detaches the child and appends it, and
      member accesses on [null] or [undefined] throw the [TypeError]s of
      the engine;
    - the page's variables: the global [outerdiv] (assigned without
      [var]) and [benchmarkMe]'s local [currentdiv], which its closures
      [pushChunkEl] and [getOutputEl] share;
    - the calls made on [benchmarker], a library outside the repository,
      as an append-only log; what [measure] does with them (timing, its
      output in the row) is not modelled, the measured functions
      themselves are, as computations on the problem of their [setup].

    The properties: appending a new element keeps the document well
    formed ([with_child_wf]); the whole run of the handler on a complete
    page ([benchmark_page_run]) and its failure without [#output]
    ([benchmark_page_no_output]); the solutions of [Setup1] and the size
    of [Setup2]. *)

From S2P Require Import Prelude JsObject Model Problem Backtracking.
From stdpp Require Import gmap.
From Stdlib Require Import Ascii.

Local Open Scope string_scope.

(** The problem a script of [Problem] calls leaves behind. *)
Definition run {S A} (m : ST (Problem.t S) A) (p0 : Problem.t S) : Problem.t S :=
  match m p0 with Done _ p | Raise _ p => p | NoFuel => p0 end.

(** ** [Setup1] of the benchmark *)

(** [function (a, b) { return a * 2 === b; }] on the numbers of the
    benchmark's domains. *)
Definition times2_eq (args : list jsval) : jsval :=
  match args with
  | [JNum x; JNum y] => JBool (Z.eqb (x * 2) y)
  | _ => JBool false
  end.

Definition setup1_script : ST (Problem.t RBS.t) unit :=
  do! Problem.addVariable "a" [JNum 1; JNum 2; JNum 3];
  do! Problem.addVariable "b" [JNum 4; JNum 5; JNum 6];
  do! Problem.addVariable "c" (map JNum (seqZ 6 15));
  do! Problem.addConstraint ["a"; "b"] (returning times2_eq);
  Problem.addConstraint ["b"; "c"] (returning times2_eq).

Definition setup1 : Problem.t RBS.t := run setup1_script DiscreteProblem.

(** ** [Setup2] of the benchmark *)

(** [String.fromCharCode(a)] for a code below 256. *)
Definition fromCharCode (a : nat) : string := String (ascii_of_nat a) EmptyString.

(** [function (a, b) { return (a === 1); }] *)
Definition a_is_1 (args : list jsval) : jsval :=
  match args with
  | JNum a :: _ => JBool (Z.eqb a 1)
  | _ => JBool false
  end.

(** [for (var a = 65; a < 91; a++) { allVars.push(String.fromCharCode(a));
    this.p.addVariable(String.fromCharCode(a), [1, 2, 3]); }], then the
    constraint on [A] and [B]; [allVars] is a global that nothing reads. *)
Definition setup2_script : ST (Problem.t RBS.t) unit :=
  do! fold_right (fun a k => do! Problem.addVariable (fromCharCode a) [JNum 1; JNum 2; JNum 3]; k)
        (st_ret tt) (seq 65 26);
  Problem.addConstraint ["A"; "B"] (returning a_is_1).

Definition setup2 : Problem.t RBS.t := run setup2_script DiscreteProblem.

(** ** The measured functions *)

(** [function () { var sol = this.p.getSolution(); }] *)
Definition test_getSolution : ST (Problem.t RBS.t) unit := do! Problem.getSolution; st_ret tt.

(** [function () { var allSoln = this.p.getSolutions(); }] *)
Definition test_getSolutions : ST (Problem.t RBS.t) unit := do! Problem.getSolutions; st_ret tt.

(** [function () { var sol = this.p.getSolution(); console.log(sol); }]:
    the console is output only. *)
Definition test_logSolution : ST (Problem.t RBS.t) unit :=
  let! sol := Problem.getSolution in st_ret tt.

(** The three [benchmarker.measure] calls: the name, and the measured
    [test] function run on the problem of a fresh [setup]. *)
Definition benchmark_measurements : list (string * outcome (Problem.t RBS.t) unit) :=
  [("DiscreteProblem.getSolution 3 vars 2 consts", test_getSolution setup1);
   ("DiscreteProblem.getSolutions 3 vars 2 consts", test_getSolutions setup1);
   ("DiscreteProblem.getSolution 50 vars 10 ints 2 constraintS", test_logSolution setup2)].

(** ** The document *)

(** A value that should be an element: [undefined], [null] or a node. *)
Inductive dref : Type :=
| DUndef
| DNull
| DNode (n : nat).

Record element : Type := mkelem {
  tagName : string;
  className : string;
  display : string;            (** [style.display] *)
  children : list nat
}.

Record document : Type := mkdoc {
  nodes : gmap nat element;
  ids : gmap string nat;       (** the [id] attributes of the page *)
  readyState : string
}.

(** The text an engine uses for [undefined] or [null] in its messages. *)
Definition dref_text (r : dref) : string :=
  match r with DNull => "null" | _ => "undefined" end.

(** [document.createElement(tag)]: a new element, in no tree yet. *)
Definition createElement (tag : string) : ST document nat :=
  fun d =>
    let n := fresh (dom (nodes d) : gset nat) in
    Done n (mkdoc (<[n := mkelem tag "" "" []]> (nodes d)) (ids d) (readyState d)).

(** [document.getElementById(id)] *)
Definition getElementById (id : string) : ST document dref :=
  st_gets (fun d => match ids d !! id with Some n => DNode n | None => DNull end).

Definition update_node (n : nat) (f : element -> element) : ST document unit :=
  st_modify (fun d => mkdoc (alter f n (nodes d)) (ids d) (readyState d)).

(** [r.className = c] *)
Definition set_className (r : dref) (c : string) : ST document unit :=
  match r with
  | DNode n => update_node n (fun e => mkelem (tagName e) c (display e) (children e))
  | _ => st_throw (TypeError ("Cannot set properties of " ++ dref_text r ++ " (setting 'className')"))
  end.

(** [r.style.display = v] *)
Definition set_display (r : dref) (v : string) : ST document unit :=
  match r with
  | DNode n => update_node n (fun e => mkelem (tagName e) (className e) v (children e))
  | _ => st_throw (TypeError ("Cannot read properties of " ++ dref_text r ++ " (reading 'style')"))
  end.

(** Whether [a] is [n] or one of its ancestors, looking [fuel] levels
    down from [a]. *)
Fixpoint inclusive_ancestor (fuel : nat) (ns : gmap nat element) (a n : nat) : bool :=
  bool_decide (a = n) ||
  match fuel with
  | O => false
  | S f => match ns !! a with
           | Some e => existsb (fun c => inclusive_ancestor f ns c n) (children e)
           | None => false
           end
  end.

Definition remove_child (c : nat) (e : element) : element :=
  mkelem (tagName e) (className e) (display e) (filter (fun x => x <> c) (children e)).

(** [p.appendChild(c)]: an ancestor of [p] is refused, otherwise [c] is
    removed from its parent and becomes the last child of [p]. *)
Definition appendChild (p c : dref) : ST document unit :=
  match p, c with
  | DNode pn, DNode cn =>
      fun d =>
        if inclusive_ancestor (size (nodes d)) (nodes d) cn pn then
          Raise (ErrorObj "HierarchyRequestError: The new child element contains the parent.") d
        else
          Done tt (mkdoc (alter (fun e => mkelem (tagName e) (className e) (display e) (children e ++ [cn]))
                                pn (remove_child cn <$> nodes d))
                         (ids d) (readyState d))
  | DNode _, _ =>
      st_throw (TypeError "Failed to execute 'appendChild' on 'Node': parameter 1 is not of type 'Node'.")
  | _, _ => st_throw (TypeError ("Cannot read properties of " ++ dref_text p ++ " (reading 'appendChild')"))
  end.

(** The document is well formed: the ids name nodes of the store, the
    children of a node are nodes, each once, and no node has two parents. *)
Definition doc_wf (d : document) : Prop :=
  map_Forall (fun _ n => is_Some (nodes d !! n)) (ids d) /\
  map_Forall (fun _ e => NoDup (children e) /\ Forall (fun c => is_Some (nodes d !! c)) (children e)) (nodes d) /\
  map_Forall (fun p1 e1 => map_Forall (fun p2 e2 => p1 = p2 \/ Forall (fun c => c ∉ children e2) (children e1))
                                      (nodes d)) (nodes d).

#[export] Instance doc_wf_dec d : Decision (doc_wf d).
Proof. unfold doc_wf. apply _. Defined.

(** ** The page *)

(** A call made on [benchmarker]. *)
Inductive bcall : Type :=
| Config (out : dref)
| Measure (name : string) (count : nat) (setup : Problem.t RBS.t) (test : ST (Problem.t RBS.t) unit).

Record page : Type := mkpage {
  pdoc : document;
  outerdiv : dref;       (** the global [outerdiv] (line 10) *)
  currentdiv : dref;     (** [var currentdiv] of [benchmarkMe] (line 7) *)
  calls : list bcall     (** the calls [benchmarker] received, in order *)
}.

(** The page when the document is loaded, before any script ran. *)
Definition load_page (d : document) : page := mkpage d DUndef DUndef [].

(** A document operation run on the page. *)
Definition on_doc {A} (m : ST document A) : ST page A :=
  fun s =>
    match m (pdoc s) with
    | Done a d => Done a (mkpage d (outerdiv s) (currentdiv s) (calls s))
    | Raise e d => Raise e (mkpage d (outerdiv s) (currentdiv s) (calls s))
    | NoFuel => NoFuel
    end.

Definition set_outerdiv (r : dref) : ST page unit :=
  st_modify (fun s => mkpage (pdoc s) r (currentdiv s) (calls s)).

Definition set_currentdiv (r : dref) : ST page unit :=
  st_modify (fun s => mkpage (pdoc s) (outerdiv s) r (calls s)).

(** [benchmarker.config(..)], [benchmarker.measure(..)] *)
Definition benchmarker_call (c : bcall) : ST page unit :=
  st_modify (fun s => mkpage (pdoc s) (outerdiv s) (currentdiv s) (calls s ++ [c])).

(** [function pushChunkEl() {..}] *)
Definition pushChunkEl : ST page unit :=
  let! t := on_doc (createElement "table") in
  do! set_currentdiv (DNode t);
  let! cur := st_gets currentdiv in
  do! on_doc (set_className cur "output_table");
  let! out := st_gets outerdiv in
  let! cur' := st_gets currentdiv in
  on_doc (appendChild out cur').

(** [function getOutputEl(par) {..}] *)
Definition getOutputEl (par : dref) : ST page dref :=
  let! n := on_doc (createElement "tr") in
  do! on_doc (set_className (DNode n) "output_row");
  do! on_doc (appendChild par (DNode n));
  st_ret (DNode n).

(** [benchmarker.config(getOutputEl(currentdiv))] *)
Definition config_row : ST page unit :=
  let! cur := st_gets currentdiv in
  let! row := getOutputEl cur in
  benchmarker_call (Config row).

(** [function benchmarkMe(benchmarker) {..}]; [var csp = Csp()] creates
    the library object the setups use and changes nothing on the page. *)
Definition benchmarkMe : ST page unit :=
  let! out := on_doc (getElementById "output") in
  do! set_outerdiv out;
  do! pushChunkEl;
  do! config_row;
  do! benchmarker_call (Measure "DiscreteProblem.getSolution 3 vars 2 consts" 100 setup1 test_getSolution);
  do! config_row;
  do! benchmarker_call (Measure "DiscreteProblem.getSolutions 3 vars 2 consts" 100 setup1 test_getSolutions);
  do! pushChunkEl;
  do! config_row;
  do! benchmarker_call
        (Measure "DiscreteProblem.getSolution 50 vars 10 ints 2 constraintS" 1 setup2 test_logSolution);
  let! sp := on_doc (getElementById "spinner") in
  on_doc (set_display sp "none").

(** [document.onreadystatechange = function () {..}], called with a new
    [benchmarker()], whose log starts empty. *)
Definition onreadystatechange : ST page unit :=
  let! st := on_doc (st_gets readyState) in
  if String.eqb st "complete" then
    let! sp := on_doc (getElementById "spinner") in
    do! on_doc (set_display sp "block");
    benchmarkMe
  else st_ret tt.

(** The measured functions [benchmarker] was given, run on the problem
    of their [setup]. *)
Definition measurements (cs : list bcall) : list (string * outcome (Problem.t RBS.t) unit) :=
  omap (fun c => match c with Measure name _ setup test => Some (name, test setup) | Config _ => None end) cs.

(** The document after [p.appendChild(n)] of a new element [n]. *)
Definition with_child (d : document) (p n : nat) (tag cls : string) : document :=
  mkdoc (<[n := mkelem tag cls "" []]>
           (alter (fun e => mkelem (tagName e) (className e) (display e) (children e ++ [n])) p (nodes d)))
        (ids d) (readyState d).

(** The calls [benchmarkMe] makes on [benchmarker], with the rows [r1],
    [r2], [r3] it creates. *)
Definition benchmark_calls (r1 r2 r3 : nat) : list bcall :=
  [Config (DNode r1);
   Measure "DiscreteProblem.getSolution 3 vars 2 consts" 100 setup1 test_getSolution;
   Config (DNode r2);
   Measure "DiscreteProblem.getSolutions 3 vars 2 consts" 100 setup1 test_getSolutions;
   Config (DNode r3);
   Measure "DiscreteProblem.getSolution 50 vars 10 ints 2 constraintS" 1 setup2 test_logSolution].

(** * Properties *)

(** The benchmark's [Setup1] (a * 2 = b, b * 2 = c) has exactly the
    solutions a=2, b=4, c=8 and a=3, b=6, c=12, in this order. *)
Example setup1_solutions :
  outcome_value (Problem.getSolutions setup1) =
  Some [mkobj [("a", JNum 2); ("b", JNum 4); ("c", JNum 8)];
        mkobj [("a", JNum 3); ("b", JNum 6); ("c", JNum 12)]].
Proof. vm_compute. reflexivity. Qed.

(** [Setup2]: the solution the benchmark logs gives every one of the 26
    variables [A] .. [Z] the value 1, in the order they were added. *)
Example setup2_solution :
  outcome_value (Problem.getSolution setup2) =
  Some (mkobj (map (fun a => (fromCharCode a, JNum 1)) (seq 65 26))).
Proof. vm_compute. reflexivity. Qed.

(** Every measured call of the benchmark returns. *)
Example benchmark_measurements_return :
  Forall (fun m => exists p, m.2 = Done tt p) benchmark_measurements.
Proof. repeat constructor; eexists; vm_compute; reflexivity. Qed.


(** ** The document operations *)

Lemma fresh_node_None (ns : gmap nat element) : ns !! fresh (dom ns : gset nat) = None.
Proof. apply not_elem_of_dom, is_fresh. Qed.

Lemma remove_child_absent c e : c ∉ children e -> remove_child c e = e.
Proof.
  destruct e as [t k s cs]. unfold remove_child. cbn. intros Hc. f_equal.
  induction cs as [|x cs IH]; [done|]. rewrite filter_cons_True by set_solver. f_equal. apply IH. set_solver.
Qed.

(** Detaching a node that is nobody's child changes nothing. *)
Lemma remove_child_orphan (ns : gmap nat element) c :
  (forall q e, ns !! q = Some e -> c ∉ children e) -> remove_child c <$> ns = ns.
Proof.
  intros H. apply map_eq. intros q. rewrite lookup_fmap.
  destruct (ns !! q) eqn:E; [|done]. simpl. f_equal. by apply remove_child_absent, (H q).
Qed.

Lemma doc_wf_iff d :
  doc_wf d <->
  (forall id x, ids d !! id = Some x -> is_Some (nodes d !! x)) /\
  (forall q e, nodes d !! q = Some e -> NoDup (children e) /\ forall c, c ∈ children e -> is_Some (nodes d !! c)) /\
  (forall q1 q2 e1 e2 c, nodes d !! q1 = Some e1 -> nodes d !! q2 = Some e2 ->
     c ∈ children e1 -> c ∈ children e2 -> q1 = q2).
Proof.
  unfold doc_wf. rewrite !map_Forall_lookup. split.
  - intros (H1 & H2 & H3). split_and!; [done| |].
    + intros q e Hq. destruct (H2 q e Hq) as [? Hall]. split; [done|]. by apply Forall_forall.
    + intros q1 q2 e1 e2 c Hq1 Hq2 Hc1 Hc2.
      destruct (proj1 (map_Forall_lookup _ _) (H3 q1 e1 Hq1) q2 e2 Hq2) as [|H]; [done|].
      by destruct (proj1 (Forall_forall _ _) H c Hc1).
  - intros (H1 & H2 & H3). split_and!; [done| |].
    + intros q e Hq. destruct (H2 q e Hq) as [? Hall]. split; [done|]. by apply Forall_forall.
    + intros q1 e1 Hq1. apply map_Forall_lookup. intros q2 e2 Hq2.
      destruct (decide (q1 = q2)) as [|Hne]; [by left|right].
      apply Forall_forall. intros c Hc1 Hc2. by apply Hne, (H3 q1 q2 e1 e2 c).
Qed.

Lemma lookup_with_child d p n tag cls q :
  p <> n ->
  nodes (with_child d p n tag cls) !! q =
    if decide (q = n) then Some (mkelem tag cls "" [])
    else if decide (q = p)
    then (fun e => mkelem (tagName e) (className e) (display e) (children e ++ [n])) <$> nodes d !! q
    else nodes d !! q.
Proof.
  intros Hpn. unfold with_child. cbn [nodes].
  destruct (decide (q = n)) as [->|Hqn]; [by rewrite lookup_insert_eq|].
  rewrite lookup_insert_ne by congruence.
  destruct (decide (q = p)) as [->|Hqp]; [apply lookup_alter_eq|by rewrite lookup_alter_ne].
Qed.

(** The children of a node after [with_child]. *)
Lemma with_child_children d p n tag cls q e' :
  p <> n -> nodes (with_child d p n tag cls) !! q = Some e' ->
  (q = n /\ children e' = []) \/
  (q <> n /\ exists e, nodes d !! q = Some e /\
     ((q = p /\ children e' = (children e ++ [n])%list) \/ (q <> p /\ children e' = children e))).
Proof.
  intros Hpn. rewrite lookup_with_child by done. intros Hq.
  destruct (decide (q = n)) as [->|Hqn]; [injection Hq as <-; by left|right; split; [done|]].
  destruct (decide (q = p)) as [->|Hqp].
  - destruct (nodes d !! p) as [e|] eqn:E; [injection Hq as <-|done]. exists e. split; [done|by left].
  - exists e'. split; [done|by right].
Qed.

(** Adding a new node as the last child of a node keeps the document
    well formed. *)
Lemma with_child_wf d p n tag cls :
  doc_wf d -> is_Some (nodes d !! p) -> nodes d !! n = None -> doc_wf (with_child d p n tag cls).
Proof.
  rewrite !doc_wf_iff. intros (Hids & Hch & Hpar) Hp Hn.
  assert (Hpn : p <> n) by (intros ->; destruct Hp; congruence).
  assert (Hsub : forall q, is_Some (nodes d !! q) -> is_Some (nodes (with_child d p n tag cls) !! q)).
  { intros q [e Hq]. rewrite lookup_with_child by done.
    destruct (decide (q = n)) as [->|]; [by eexists|]. rewrite Hq. by destruct (decide (q = p)). }
  assert (Hnot : forall q e, nodes d !! q = Some e -> n ∉ children e).
  { intros q e Hq Hin. destruct (proj2 (Hch q e Hq) n Hin). congruence. }
  split_and!.
  - intros id x Hx. apply Hsub, (Hids id x Hx).
  - intros q e' Hq. destruct (with_child_children d p n tag cls q e' Hpn Hq)
      as [[-> ->]|[Hqn (e & He & [[-> ->]|[_ ->]])]].
    + split; [constructor|set_solver].
    + destruct (Hch p e He) as [Hnd Hall]. split.
      * apply NoDup_app. split_and!; [done| |apply NoDup_singleton].
        intros x Hx ->%list_elem_of_singleton. by apply (Hnot p e He).
      * intros c [Hc| ->%list_elem_of_singleton]%elem_of_app; [by apply Hsub, Hall|].
        rewrite lookup_with_child by done. rewrite decide_True by done. by eexists.
    + destruct (Hch q e He) as [Hnd Hall]. split; [done|]. intros c Hc. by apply Hsub, Hall.
  - intros q1 q2 e1 e2 c Hq1 Hq2 Hc1 Hc2.
    destruct (with_child_children d p n tag cls q1 e1 Hpn Hq1) as [[_ E1]|[_ (f1 & Hf1 & Hch1)]];
      [rewrite E1 in Hc1; set_solver|].
    destruct (with_child_children d p n tag cls q2 e2 Hpn Hq2) as [[_ E2]|[_ (f2 & Hf2 & Hch2)]];
      [rewrite E2 in Hc2; set_solver|].
    assert (Hc1' : c = n /\ q1 = p \/ c ∈ children f1)
      by (destruct Hch1 as [[-> E]|[_ E]]; rewrite E in Hc1; set_solver).
    assert (Hc2' : c = n /\ q2 = p \/ c ∈ children f2)
      by (destruct Hch2 as [[-> E]|[_ E]]; rewrite E in Hc2; set_solver).
    destruct Hc1' as [[-> ->]|Hc1'], Hc2' as [[Hcn ->]|Hc2']; try done.
    + by destruct (Hnot q2 f2 Hf2).
    + subst c. by destruct (Hnot q1 f1 Hf1).
    + by apply (Hpar q1 q2 f1 f2 c).
Qed.

(** Changing a property other than the children keeps the document well
    formed. *)
Lemma update_node_wf d n f :
  (forall e, children (f e) = children e) -> doc_wf d ->
  doc_wf (mkdoc (alter f n (nodes d)) (ids d) (readyState d)).
Proof.
  rewrite !doc_wf_iff. intros Hf (H1 & H2 & H3).
  assert (Hl : forall q e', alter f n (nodes d) !! q = Some e' ->
                 exists e, nodes d !! q = Some e /\ children e' = children e).
  { intros q e'. destruct (decide (n = q)) as [->|Hnq].
    - rewrite lookup_alter_eq. destruct (nodes d !! q) as [e|]; [intros [= <-]|done].
      exists e. split; [done|apply Hf].
    - rewrite lookup_alter_ne by done. intros He. by exists e'. }
  assert (Hs : forall q, is_Some (nodes d !! q) -> is_Some (alter f n (nodes d) !! q)).
  { intros q [e He]. destruct (decide (n = q)) as [->|Hnq].
    - rewrite lookup_alter_eq, He. by eexists.
    - rewrite lookup_alter_ne by done. by eexists. }
  cbn [nodes ids]. split_and!.
  - intros id x Hx. apply Hs, (H1 id x Hx).
  - intros q e' Hq. destruct (Hl q e' Hq) as (e & He & ->). destruct (H2 q e He) as [? Hall].
    split; [done|]. intros c Hc. apply Hs, Hall, Hc.
  - intros q1 q2 e1 e2 c Hq1 Hq2. destruct (Hl _ _ Hq1) as (f1 & Hf1 & ->), (Hl _ _ Hq2) as (f2 & Hf2 & ->).
    by apply H3.
Qed.

(** A new element [n] with no children, appended to the node [p]. *)
Lemma new_child_append d p n tag cls :
  doc_wf d -> is_Some (nodes d !! p) -> nodes d !! n = None ->
  let ns := <[n := mkelem tag cls "" []]> (nodes d) in
  inclusive_ancestor (size ns) ns n p = false /\
  alter (fun e => mkelem (tagName e) (className e) (display e) (children e ++ [n])) p (remove_child n <$> ns) =
    nodes (with_child d p n tag cls).
Proof.
  intros Hwf Hp Hn ns. assert (Hpn : p <> n) by (intros ->; destruct Hp; congruence). split.
  - unfold ns. destruct (size _) as [|f]; cbn [inclusive_ancestor];
      rewrite bool_decide_false by congruence; [done|]. by rewrite lookup_insert_eq.
  - unfold ns. rewrite fmap_insert, remove_child_orphan.
    + rewrite alter_insert_ne by done. reflexivity.
    + apply doc_wf_iff in Hwf as (_ & Hch & _). intros q e Hq Hin.
      destruct (proj2 (Hch q e Hq) n Hin). congruence.
Qed.

Lemma getOutputEl_run d o c cs p :
  doc_wf d -> is_Some (nodes d !! p) ->
  getOutputEl (DNode p) (mkpage d o c cs) =
    Done (DNode (fresh (dom (nodes d)))) (mkpage (with_child d p (fresh (dom (nodes d))) "tr" "output_row") o c cs).
Proof.
  intros Hwf Hp. unfold getOutputEl, on_doc, st_bind, createElement, set_className, update_node, appendChild,
    st_modify, st_ret. cbn [pdoc nodes ids readyState outerdiv currentdiv calls].
  rewrite alter_insert_eq. cbn [tagName className display children].
  destruct (new_child_append d p (fresh (dom (nodes d))) "tr" "output_row" Hwf Hp (fresh_node_None _))
    as [-> ->].
  reflexivity.
Qed.

Lemma pushChunkEl_run d o c cs :
  doc_wf d -> is_Some (nodes d !! o) ->
  pushChunkEl (mkpage d (DNode o) c cs) =
    Done tt (mkpage (with_child d o (fresh (dom (nodes d))) "table" "output_table") (DNode o)
                    (DNode (fresh (dom (nodes d)))) cs).
Proof.
  intros Hwf Ho. unfold pushChunkEl, on_doc, st_bind, st_gets, set_currentdiv, createElement, set_className,
    update_node, appendChild, st_modify. cbn [pdoc nodes ids readyState outerdiv currentdiv calls].
  rewrite alter_insert_eq. cbn [tagName className display children].
  destruct (new_child_append d o (fresh (dom (nodes d))) "table" "output_table" Hwf Ho (fresh_node_None _))
    as [-> ->].
  reflexivity.
Qed.

(** Run the first computation of a bind by one of its equations. *)
Tactic Notation "bind_step" uconstr(H) := erewrite (st_bind_Done _ _ _ _ _ H); cbv beta.

Lemma config_row_run d o t cs :
  doc_wf d -> is_Some (nodes d !! t) ->
  config_row (mkpage d o (DNode t) cs) =
    Done tt (mkpage (with_child d t (fresh (dom (nodes d))) "tr" "output_row") o (DNode t)
                    (cs ++ [Config (DNode (fresh (dom (nodes d))))])).
Proof.
  intros Hwf Ht. unfold config_row.
  bind_step (eq_refl : st_gets currentdiv (mkpage d o (DNode t) cs) = Done (DNode t) (mkpage d o (DNode t) cs)).
  bind_step (getOutputEl_run d o (DNode t) cs t Hwf Ht). reflexivity.
Qed.

Lemma with_child_step d p tag cls :
  doc_wf d -> is_Some (nodes d !! p) ->
  let n := fresh (dom (nodes d)) in
  doc_wf (with_child d p n tag cls) /\
  (forall q, is_Some (nodes d !! q) -> is_Some (nodes (with_child d p n tag cls) !! q)) /\
  nodes (with_child d p n tag cls) !! n = Some (mkelem tag cls "" []).
Proof.
  intros Hwf Hp n. assert (Hn := fresh_node_None (nodes d)).
  assert (Hpn : p <> n) by (intros Heq; rewrite Heq in Hp; destruct Hp; unfold n in *; congruence).
  split_and!.
  - by apply with_child_wf.
  - intros q [e Hq]. rewrite lookup_with_child by done.
    destruct (decide (q = n)); [by eexists|]. rewrite Hq. by destruct (decide (q = p)).
  - apply lookup_insert_eq.
Qed.

Lemma ids_with_child d p n tag cls : ids (with_child d p n tag cls) = ids d.
Proof. reflexivity. Qed.


(** Run the first computation of a bind that evaluates to a value. *)
Ltac bind_refl := erewrite st_bind_Done by reflexivity; cbv beta.

Lemma benchmarkMe_run d o sp od cd cs :
  doc_wf d -> ids d !! "output" = Some o -> ids d !! "spinner" = Some sp ->
  let t1 := fresh (dom (nodes d)) in
  let d1 := with_child d o t1 "table" "output_table" in
  let r1 := fresh (dom (nodes d1)) in
  let d2 := with_child d1 t1 r1 "tr" "output_row" in
  let r2 := fresh (dom (nodes d2)) in
  let d3 := with_child d2 t1 r2 "tr" "output_row" in
  let t2 := fresh (dom (nodes d3)) in
  let d4 := with_child d3 o t2 "table" "output_table" in
  let r3 := fresh (dom (nodes d4)) in
  let d5 := with_child d4 t2 r3 "tr" "output_row" in
  benchmarkMe (mkpage d od cd cs) =
    Done tt (mkpage (mkdoc (alter (fun e => mkelem (tagName e) (className e) "none" (children e)) sp (nodes d5))
                           (ids d) (readyState d))
                    (DNode o) (DNode t2) (cs ++ benchmark_calls r1 r2 r3)).
Proof.
  intros Hwf Hout Hsp t1 d1 r1 d2 r2 d3 t2 d4 r3 d5.
  assert (Ho : is_Some (nodes d !! o)) by (apply doc_wf_iff in Hwf as (Hids & _); by apply (Hids "output")).
  destruct (with_child_step d o "table" "output_table" Hwf Ho) as (W1 & S1 & N1).
  destruct (with_child_step d1 t1 "tr" "output_row" W1 (mk_is_Some _ _ N1)) as (W2 & S2 & _).
  destruct (with_child_step d2 t1 "tr" "output_row" W2 (S2 _ (mk_is_Some _ _ N1))) as (W3 & S3 & _).
  destruct (with_child_step d3 o "table" "output_table" W3 (S3 _ (S2 _ (S1 _ Ho)))) as (W4 & S4 & N4).
  unfold benchmarkMe.
  assert (G : on_doc (getElementById "output") (mkpage d od cd cs) = Done (DNode o) (mkpage d od cd cs))
    by (unfold on_doc, getElementById, st_gets; cbn; by rewrite Hout).
  bind_step G. bind_refl.
  bind_step (pushChunkEl_run d o cd cs Hwf Ho).
  bind_step (config_row_run d1 (DNode o) t1 cs W1 (mk_is_Some _ _ N1)). bind_refl.
  bind_step (config_row_run d2 (DNode o) t1 _ W2 (S2 _ (mk_is_Some _ _ N1))). bind_refl.
  bind_step (pushChunkEl_run d3 o (DNode t1) _ W3 (S3 _ (S2 _ (S1 _ Ho)))).
  bind_step (config_row_run d4 (DNode o) t2 _ W4 (mk_is_Some _ _ N4)). bind_refl.
unfold on_doc, getElementById, set_display, update_node, st_bind, st_gets, st_modify.
  cbn [pdoc outerdiv currentdiv calls]. unfold d5, d4, d3, d2, d1. rewrite !ids_with_child, Hsp.
  unfold benchmark_calls. by rewrite <- !app_assoc.
Qed.

Lemma with_child_other d p n tag cls q :
  q <> n -> q <> p -> nodes (with_child d p n tag cls) !! q = nodes d !! q.
Proof. intros Hqn Hqp. unfold with_child. cbn [nodes]. by rewrite lookup_insert_ne, lookup_alter_ne. Qed.

Lemma with_child_parent d p n tag cls :
  p <> n ->
  nodes (with_child d p n tag cls) !! p =
    (fun e => mkelem (tagName e) (className e) (display e) (children e ++ [n])) <$> nodes d !! p.
Proof. intros Hpn. unfold with_child. cbn [nodes]. by rewrite lookup_insert_ne, lookup_alter_eq. Qed.

Lemma with_child_self d p n tag cls : nodes (with_child d p n tag cls) !! n = Some (mkelem tag cls "" []).
Proof. apply lookup_insert_eq. Qed.

(** Changing the display keeps the children and the nodes present. *)
Lemma alter_display_children (ns : gmap nat element) v sp q :
  children <$> alter (fun e => mkelem (tagName e) (className e) v (children e)) sp ns !! q = children <$> ns !! q.
Proof.
  destruct (decide (sp = q)) as [->|]; [rewrite lookup_alter_eq|by rewrite lookup_alter_ne].
  by destruct (ns !! q).
Qed.

Lemma alter_None (ns : gmap nat element) f sp q : ns !! q = None -> alter f sp ns !! q = None.
Proof. intros H. destruct (decide (sp = q)) as [->|]; [by rewrite lookup_alter_eq, H|by rewrite lookup_alter_ne]. Qed.

Lemma fresh_ne (ns : gmap nat element) x : is_Some (ns !! x) -> x <> fresh (dom ns).
Proof. intros Hx Heq. rewrite Heq, fresh_node_None in Hx. by destruct Hx. Qed.

(** The document [benchmarkMe] leaves: two new tables under [#output],
    with two rows and one row, all five nodes new, and the spinner
    hidden. *)
Lemma benchmark_doc_facts d (o sp : nat) :
  doc_wf d -> is_Some (nodes d !! o) -> is_Some (nodes d !! sp) ->
  let t1 := fresh (dom (nodes d)) in
  let d1 := with_child d o t1 "table" "output_table" in
  let r1 := fresh (dom (nodes d1)) in
  let d2 := with_child d1 t1 r1 "tr" "output_row" in
  let r2 := fresh (dom (nodes d2)) in
  let d3 := with_child d2 t1 r2 "tr" "output_row" in
  let t2 := fresh (dom (nodes d3)) in
  let d4 := with_child d3 o t2 "table" "output_table" in
  let r3 := fresh (dom (nodes d4)) in
  let d5 := with_child d4 t2 r3 "tr" "output_row" in
  let F := alter (fun e => mkelem (tagName e) (className e) "none" (children e)) sp (nodes d5) in
  Forall (fun n => nodes d !! n = None) [t1; t2; r1; r2; r3] /\ NoDup [t1; t2; r1; r2; r3] /\
  (forall eo, nodes d !! o = Some eo -> children <$> F !! o = Some (children eo ++ [t1; t2])%list) /\
  F !! t1 = Some (mkelem "table" "output_table" "" [r1; r2]) /\
  F !! t2 = Some (mkelem "table" "output_table" "" [r3]) /\
  Forall (fun r => F !! r = Some (mkelem "tr" "output_row" "" [])) [r1; r2; r3] /\
  display <$> F !! sp = Some "none" /\
  doc_wf (mkdoc F (ids d) (readyState d)).
Proof.
  intros Hwf Ho Hsp t1 d1 r1 d2 r2 d3 t2 d4 r3 d5 F.
  destruct (with_child_step d o "table" "output_table" Hwf Ho) as (W1 & S1 & N1).
  destruct (with_child_step d1 t1 "tr" "output_row" W1 (mk_is_Some _ _ N1)) as (W2 & S2 & N2).
  destruct (with_child_step d2 t1 "tr" "output_row" W2 (S2 _ (mk_is_Some _ _ N1))) as (W3 & S3 & N3).
  destruct (with_child_step d3 o "table" "output_table" W3 (S3 _ (S2 _ (S1 _ Ho)))) as (W4 & S4 & N4).
  destruct (with_child_step d4 t2 "tr" "output_row" W4 (mk_is_Some _ _ N4)) as (W5 & S5 & N5).
  (* the nodes of each document, and the new name not among them *)
  pose proof (S1 _ Ho) as Io1. pose proof (S1 _ Hsp) as Is1. pose proof (mk_is_Some _ _ N1) as It1.
  pose proof (S2 _ Io1) as Io2. pose proof (S2 _ Is1) as Is2. pose proof (S2 _ It1) as It2.
  pose proof (mk_is_Some _ _ N2) as Ir2.
  pose proof (S3 _ Io2) as Io3. pose proof (S3 _ Is2) as Is3. pose proof (S3 _ It2) as It3.
  pose proof (S3 _ Ir2) as Ir3. pose proof (mk_is_Some _ _ N3) as Iq3.
  pose proof (S4 _ Io3) as Io4. pose proof (S4 _ Is3) as Is4. pose proof (S4 _ It3) as It4.
  pose proof (S4 _ Ir3) as Ir4. pose proof (S4 _ Iq3) as Iq4. pose proof (mk_is_Some _ _ N4) as Iu4.
  assert (o <> t1 /\ sp <> t1) as [? ?] by (split; by apply fresh_ne).
  assert (o <> r1 /\ sp <> r1 /\ t1 <> r1) as (? & ? & ?) by (split_and!; by apply fresh_ne).
  assert (o <> r2 /\ sp <> r2 /\ t1 <> r2 /\ r1 <> r2) as (? & ? & ? & ?) by (split_and!; by apply fresh_ne).
  assert (o <> t2 /\ sp <> t2 /\ t1 <> t2 /\ r1 <> t2 /\ r2 <> t2) as (? & ? & ? & ? & ?)
    by (split_and!; by apply fresh_ne).
  assert (o <> r3 /\ sp <> r3 /\ t1 <> r3 /\ r1 <> r3 /\ r2 <> r3 /\ t2 <> r3) as (? & ? & ? & ? & ? & ?)
    by (split_and!; by apply fresh_ne).
  unfold F. split_and!.
  - repeat constructor; apply eq_None_not_Some; intros Hs.
    + by apply (fresh_ne _ _ Hs).
    + by apply (fresh_ne _ _ (S3 _ (S2 _ (S1 _ Hs)))).
    + by apply (fresh_ne _ _ (S1 _ Hs)).
    + by apply (fresh_ne _ _ (S2 _ (S1 _ Hs))).
    + by apply (fresh_ne _ _ (S4 _ (S3 _ (S2 _ (S1 _ Hs))))).
  - repeat constructor; set_solver.
  - intros eo Heo. rewrite alter_display_children. unfold d5, d4, d3, d2, d1.
    rewrite with_child_other, with_child_parent, with_child_other, with_child_other, with_child_parent
      by congruence.
    rewrite Heo. cbn. by rewrite <- app_assoc.
  - rewrite lookup_alter_ne by congruence. unfold d5, d4, d3, d2, d1.
    rewrite with_child_other, with_child_other, with_child_parent, with_child_parent, with_child_self
      by congruence.
    reflexivity.
  - rewrite lookup_alter_ne by congruence. unfold d5, d4.
    rewrite with_child_parent, with_child_self by congruence. reflexivity.
  - repeat constructor; rewrite lookup_alter_ne by congruence; unfold d5, d4, d3, d2.
    + rewrite with_child_other, with_child_other, with_child_other, with_child_self by congruence. done.
    + rewrite with_child_other, with_child_other, with_child_self by congruence. done.
    + by rewrite with_child_self.
  - rewrite lookup_alter_eq. destruct (S5 _ Is4) as [e He]. change (nodes d5 !! sp = Some e) in He. by rewrite He.
  - exact (update_node_wf d5 sp (fun e => mkelem (tagName e) (className e) "none" (children e)) (fun _ => eq_refl) W5).
Qed.

Lemma alter_display_lookup (ns : gmap nat element) v sp q e :
  ns !! q = Some e ->
  exists e', alter (fun e => mkelem (tagName e) (className e) v (children e)) sp ns !! q = Some e' /\
             children e' = children e.
Proof.
  intros H. destruct (decide (sp = q)) as [->|]; [rewrite lookup_alter_eq, H|rewrite lookup_alter_ne by done];
    by eexists.
Qed.

(** When the document is complete, the handler shows the spinner and
    runs [benchmarkMe]. *)
Lemma onreadystatechange_complete d sp :
  readyState d = "complete" -> ids d !! "spinner" = Some sp ->
  onreadystatechange (load_page d) =
    benchmarkMe (mkpage (mkdoc (alter (fun e => mkelem (tagName e) (className e) "block" (children e)) sp (nodes d))
                               (ids d) (readyState d)) DUndef DUndef []).
Proof.
  intros Hr Hsp. unfold onreadystatechange. bind_refl. cbn [pdoc outerdiv currentdiv calls load_page].
  rewrite (proj2 (String.eqb_eq _ _) Hr).
  assert (G : on_doc (getElementById "spinner") (mkpage d DUndef DUndef []) =
              Done (DNode sp) (mkpage d DUndef DUndef []))
    by (unfold on_doc, getElementById, st_gets; cbn; by rewrite Hsp).
  bind_step G. bind_refl. reflexivity.
Qed.

(** C24: on a well-formed page whose document is complete and has the
    elements [#output] and [#spinner], the [readystatechange] handler
    runs [benchmarkMe] to the end: [benchmarker] receives [config] with a
    new row, then [measure] of each of the three measured functions, in
    the order of the source, and each measured function returns on the
    problem of its setup; [#output] gets two new tables, the first with
    the two rows of the [Setup1] measurements and the second with the row
    of the [Setup2] one; the spinner ends hidden; and the document stays
    well formed. *)
Theorem benchmark_page_run d o sp :
  doc_wf d -> readyState d = "complete" -> ids d !! "output" = Some o -> ids d !! "spinner" = Some sp ->
  exists s t1 t2 r1 r2 r3,
    onreadystatechange (load_page d) = Done tt s /\
    calls s = benchmark_calls r1 r2 r3 /\
    Forall (fun m => exists p, m.2 = Done tt p) (measurements (calls s)) /\
    Forall (fun n => nodes d !! n = None) [t1; t2; r1; r2; r3] /\ NoDup [t1; t2; r1; r2; r3] /\
    (forall eo, nodes d !! o = Some eo -> children <$> nodes (pdoc s) !! o = Some (children eo ++ [t1; t2])%list) /\
    nodes (pdoc s) !! t1 = Some (mkelem "table" "output_table" "" [r1; r2]) /\
    nodes (pdoc s) !! t2 = Some (mkelem "table" "output_table" "" [r3]) /\
    Forall (fun r => nodes (pdoc s) !! r = Some (mkelem "tr" "output_row" "" [])) [r1; r2; r3] /\
    display <$> nodes (pdoc s) !! sp = Some "none" /\
    doc_wf (pdoc s).
Proof.
  intros Hwf Hr Hout Hsp.
  set (d0 := mkdoc (alter (fun e => mkelem (tagName e) (className e) "block" (children e)) sp (nodes d))
                   (ids d) (readyState d)).
  assert (W0 : doc_wf d0) by (apply update_node_wf; [done|exact Hwf]).
  apply doc_wf_iff in Hwf as Hwf'. destruct Hwf' as (Hids & _).
  destruct (Hids _ _ Hout) as [eo Ho], (Hids _ _ Hsp) as [esp Hs].
  destruct (alter_display_lookup (nodes d) "block" sp o eo Ho) as (eo0 & Ho0 & Heo0).
  destruct (alter_display_lookup (nodes d) "block" sp sp esp Hs) as (es0 & Hs0 & _).
  rewrite (onreadystatechange_complete d sp Hr Hsp), (benchmarkMe_run d0 o sp) by done.
  destruct (benchmark_doc_facts d0 o sp W0 (mk_is_Some _ _ Ho0) (mk_is_Some _ _ Hs0))
    as (Hfresh & Hnd & Hch & Ht1 & Ht2 & Hrows & Hdisp & Hwf5).
  eexists _, _, _, _, _, _. split_and!; [reflexivity|reflexivity| | |exact Hnd| |exact Ht1|exact Ht2
    |exact Hrows|exact Hdisp|exact Hwf5].
  - exact benchmark_measurements_return.
  - eapply Forall_impl; [exact Hfresh|]. intros n Hn. exact (proj1 (lookup_alter_None _ _ _ _) Hn).
  - intros eo' Heo'. rewrite Ho in Heo'. injection Heo' as <-. rewrite <- Heo0. by apply Hch.
Qed.

Lemma pushChunkEl_null d c cs :
  pushChunkEl (mkpage d DNull c cs) =
    Raise (TypeError "Cannot read properties of null (reading 'appendChild')")
          (mkpage (mkdoc (<[fresh (dom (nodes d)) := mkelem "table" "output_table" "" []]> (nodes d))
                         (ids d) (readyState d))
                  DNull (DNode (fresh (dom (nodes d)))) cs).
Proof.
  unfold pushChunkEl, on_doc, st_bind, st_gets, set_currentdiv, createElement, set_className,
    update_node, appendChild, st_modify, st_throw. cbn [pdoc nodes ids readyState outerdiv currentdiv calls].
  by rewrite alter_insert_eq.
Qed.

(** C37: on a complete page with [#spinner] but without [#output],
    [getElementById('output')] is [null] and [pushChunkEl] throws the
    [TypeError] of [null.appendChild] before [benchmarker] is called at
    all, and the spinner the handler showed stays shown. *)
Theorem benchmark_page_no_output d sp esp :
  readyState d = "complete" -> ids d !! "output" = None -> ids d !! "spinner" = Some sp ->
  nodes d !! sp = Some esp ->
  exists s, onreadystatechange (load_page d) =
              Raise (TypeError "Cannot read properties of null (reading 'appendChild')") s /\
            calls s = [] /\ display <$> nodes (pdoc s) !! sp = Some "block".
Proof.
  intros Hr Hout Hsp Hs. rewrite (onreadystatechange_complete d sp Hr Hsp). unfold benchmarkMe.
  bind_refl. cbn [pdoc ids]. rewrite Hout. bind_refl.
  rewrite (st_bind_Raise _ _ _ _ _ (pushChunkEl_null _ _ _)).
  eexists. split_and!; [reflexivity|reflexivity|]. cbn [pdoc nodes].
  rewrite lookup_insert_ne, lookup_alter_eq, Hs; [done|].
  intros Heq. pose proof (fresh_node_None (alter (fun e => mkelem (tagName e) (className e) "block" (children e)) sp (nodes d))) as Hf.
  rewrite Heq, lookup_alter_eq, Hs in Hf. discriminate.
Qed.

(** The third measurement is named "50 vars 10 ints 2 constraintS", but
    [Setup2] builds 26 variables, each with 3 values, and 1 constraint. *)
Example setup2_shape :
  length (own_keys (Problem.variables setup2)) = 26 /\
  Forall (fun k => length (domain_of (Problem.variables setup2) k) = 3) (own_keys (Problem.variables setup2)) /\
  length (Problem.constraints setup2) = 1.
Proof. split_and!; vm_compute; [reflexivity|repeat constructor|reflexivity]. Qed.
