(* ===== verification/Scenarios.v ===== *)
(** * Scenarios: the repository's own uses of the solver

    The witnesses on the benchmark's [Setup1] ([Benchmark.v]), and
    small problems that exhibit the behaviours the specification does not
    state (enumeration order of numeric names, [undefined] values,
    variables named after [Object.prototype] members), run through the
    [Problem] API with the default solver.  The witnesses of the theorems
    of [Problem.v] and [Backtracking.v] apply them to these problems. *)

From S2P Require Import Prelude JsObject Model Problem Backtracking Benchmark.

(** [csp_ok] on a concrete problem: the decidable parts by evaluation,
    the functions because each one returns. *)
Ltac prove_csp_ok :=
  split_and!;
  [ apply (bool_decide_unpack _); vm_compute; reflexivity ..
  | vm_compute; repeat constructor; intros; eexists; reflexivity ].

(** ** The other problems *)

(** The options of the test suite without its constraint
    ([src/test/ngCspSpec.js], lines 72-75). *)
Definition roof_floor_script : ST (Problem.t RBS.t) unit :=
  do! Problem.addVariable "roof"
        [JStr "chrome"; JStr "white"; JStr "black"; JStr "gold"];
  Problem.addVariable "floor" [JStr "white"; JStr "black"].

Definition roof_floor : Problem.t RBS.t := run roof_floor_script DiscreteProblem.

(** A constraint whose function throws. *)
Definition throwing_script : ST (Problem.t RBS.t) unit :=
  do! Problem.addVariable "x" [JNum 1; JNum 2];
  Problem.addConstraint ["x"] (fun _ => JsThrow (TypeError "x is not a function")).

Definition throwing : Problem.t RBS.t := run throwing_script DiscreteProblem.

(** Two variables, the second with a numeric name. *)
Definition numeric_names_script : ST (Problem.t RBS.t) unit :=
  do! Problem.addVariable "b" [JNum 1; JNum 2];
  Problem.addVariable "1" [JNum 1; JNum 2].

(** A variable whose only value is [undefined], and a constraint that
    rejects everything. *)
Definition undefined_script : ST (Problem.t RBS.t) unit :=
  do! Problem.addVariable "x" [JUndefined];
  do! Problem.addVariable "y" [JNum 1];
  Problem.addConstraint ["x"; "y"] (returning (fun _ => JBool false)).

(** A variable named [constructor] and a constraint over it. *)
Definition proto_name_script : ST (Problem.t RBS.t) unit :=
  do! Problem.addVariable "a" [JNum 1];
  do! Problem.addVariable "constructor" [JNum 1];
  Problem.addConstraint ["constructor"]
    (returning (fun args => JBool (bool_decide (args = [JNum 1])))).

(** A client session on [Setup1]: a call that throws (an unknown
    variable), a new variable, a constraint with an empty scope (ignored)
    and one over the new variable, queries, a domain change and a new
    solver. *)
Definition client_session : list (Problem.call RBS.t) :=
  [Problem.CChangeVariable "d" [JNum 0];
   Problem.CAddVariable "d" [JNum 0; JNum 1];
   Problem.CAddConstraint [] (returning (fun _ => JBool false));
   Problem.CAddConstraint ["c"; "d"] (returning (fun _ => JBool true));
   Problem.CGetSolutions;
   Problem.CChangeVariable "a" [JNum 2];
   Problem.CSetSolver RBS.new;
   Problem.CGetSolution].

(** A page with the two elements [benchmark.js] looks up. *)
Definition benchmark_html : document :=
  mkdoc (<[0 := mkelem "div" "" "" []]> (<[1 := mkelem "div" "" "none" []]> ∅))
        (<["output" := 0]> (<["spinner" := 1]> ∅)) "complete".

(** ** Witnesses on [Setup1] *)

(** A complete page whose only element is the spinner. *)
Definition benchmark_html_no_output : document :=
  mkdoc (<[1 := mkelem "div" "" "none" []]> ∅) (<["spinner" := 1]> ∅) "complete".

Lemma problem_getSolutions_exact_witness :
  csp_ok (Problem.view setup1) /\
  Problem.getSolutions setup1 =
  Done (solutions (Problem.view setup1))
       (Problem.mk (RBS.mk (Some (solutions (Problem.view setup1))))
                   (Problem.variables setup1) (Problem.constraints setup1)).
Proof.
  assert (Hok : csp_ok (Problem.view setup1)) by prove_csp_ok.
  split; [exact Hok|]. apply problem_getSolutions_exact, Hok.
Defined.

Lemma problem_getSolution_exact_witness :
  csp_ok (Problem.view setup1) /\
  Problem.getSolution setup1 = Done (first_solution (Problem.view setup1)) setup1.
Proof.
  assert (Hok : csp_ok (Problem.view setup1)) by prove_csp_ok.
  split; [exact Hok|]. apply problem_getSolution_exact, Hok.
Defined.

Lemma problem_getSolutions_sound_complete_witness :
  csp_ok (Problem.view setup1) /\
  Problem.getSolutions setup1 =
    Done (solutions (Problem.view setup1)) (run Problem.getSolutions setup1) /\
  forall a, In a (solutions (Problem.view setup1)) <->
    exists e, a = mkobj e /\ map fst e = own_keys (Problem.variables setup1) /\
      Forall (fun kx => In kx.2 (domain_of (Problem.variables setup1) kx.1)) e /\
      consistent a (Problem.constraints setup1) = true.
Proof.
  assert (Hok : csp_ok (Problem.view setup1)) by prove_csp_ok.
  assert (Hrun : Problem.getSolutions setup1 =
    Done (solutions (Problem.view setup1)) (run Problem.getSolutions setup1))
    by (vm_compute; reflexivity).
  split_and!; [exact Hok|exact Hrun|].
  apply (problem_getSolutions_sound_complete setup1 _ _ Hok Hrun).
Defined.

Lemma problem_getSolutionIter_eager_witness :
  csp_ok (Problem.view setup1) /\
  Problem.getSolutionIter setup1 =
  Done (solutions (Problem.view setup1))
       (Problem.mk (RBS.mk (Some (solutions (Problem.view setup1))))
                   (Problem.variables setup1) (Problem.constraints setup1)) /\
  RBS.getSolutionIter (Problem.view setup1) (Problem.solver setup1) =
  Raise (ErrorRecord "Unsupported"
           "RecursiveBacktrackingSolver does not support a solution iterator")
        (Problem.solver setup1).
Proof.
  assert (Hok : csp_ok (Problem.view setup1)) by prove_csp_ok.
  split; [exact Hok|]. apply problem_getSolutionIter_eager, Hok.
Defined.

Lemma changeVariable_keeps_order_witness :
  Problem.changeVariable "b" [JNum 5] setup1 =
    Done tt (run (Problem.changeVariable "b" [JNum 5]) setup1) /\
  own_keys (Problem.variables (run (Problem.changeVariable "b" [JNum 5]) setup1)) =
  own_keys (Problem.variables setup1).
Proof.
  assert (H : Problem.changeVariable "b" [JNum 5] setup1 =
    Done tt (run (Problem.changeVariable "b" [JNum 5]) setup1)) by (vm_compute; reflexivity).
  split; [exact H|]. apply (changeVariable_keeps_order _ _ _ _ H).
Defined.

Lemma setup1_wf : Problem.problem_wf setup1.
Proof. split; [apply (bool_decide_unpack _); vm_compute; reflexivity|]. vm_compute. by repeat constructor. Qed.

Lemma reachable_wf_witness :
  exists p, Problem.run_program client_session setup1 = Some p /\ Problem.problem_wf p.
Proof.
  destruct (Problem.run_program client_session setup1) as [p|] eqn:E;
    [|vm_compute in E; discriminate].
  exists p. split; [done|].
  exact (reachable_wf setup1 p setup1_wf (run_program_reachable _ _ _ E)).
Defined.

Lemma reachable_extends_witness :
  exists p, Problem.run_program client_session setup1 = Some p /\ Problem.extends setup1 p.
Proof.
  destruct (Problem.run_program client_session setup1) as [p|] eqn:E;
    [|vm_compute in E; discriminate].
  exists p. split; [done|]. exact (reachable_extends setup1 p (run_program_reachable _ _ _ E)).
Defined.

(** [Variable.prototype.toString] of [Setup1]'s first variable. *)
Example setup1_variable_toString :
  option_map Var.toString (obj_lookup (Problem.variables setup1) "a") = Some "a => [1,2,3]".
Proof. vm_compute. reflexivity. Qed.

(** ** A problem without constraints: the options of the test suite *)

Lemma problem_getSolutions_count_witness :
  csp_ok (Problem.view roof_floor) /\ Problem.constraints roof_floor = [] /\
  Problem.getSolutions roof_floor =
    Done (solutions (Problem.view roof_floor)) (run Problem.getSolutions roof_floor) /\
  length (solutions (Problem.view roof_floor)) =
    domains_product (Problem.variables roof_floor) (own_keys (Problem.variables roof_floor)).
Proof.
  assert (Hok : csp_ok (Problem.view roof_floor)) by prove_csp_ok.
  assert (Hnil : Problem.constraints roof_floor = []) by reflexivity.
  assert (Hrun : Problem.getSolutions roof_floor =
    Done (solutions (Problem.view roof_floor)) (run Problem.getSolutions roof_floor))
    by (vm_compute; reflexivity).
  split_and!; [exact Hok|exact Hnil|exact Hrun|].
  apply (problem_getSolutions_count roof_floor _ _ Hok Hnil Hrun).
Defined.

(** ** A constraint that throws: the queries still terminate *)

Lemma problem_constraint_exception_escapes_witness :
  vars_wf (Problem.variables throwing) /\ scopes_ok (Problem.constraints throwing) /\
  (exists p', Problem.getSolutions throwing = Raise (TypeError "x is not a function") p') /\
  (exists p', Problem.getSolution throwing = Raise (TypeError "x is not a function") p').
Proof.
  assert (Hwf : vars_wf (Problem.variables throwing))
    by (apply (bool_decide_unpack _); vm_compute; reflexivity).
  assert (Hsc : scopes_ok (Problem.constraints throwing))
    by (apply (bool_decide_unpack _); vm_compute; reflexivity).
  split_and!; [exact Hwf|exact Hsc|..];
  refine (proj1 (problem_constraint_exception_escapes throwing _ Hwf Hsc _ _ _)) ||
  refine (proj2 (problem_constraint_exception_escapes throwing _ Hwf Hsc _ _ _));
  vm_compute.
  1,4: repeat constructor; right; intros args; reflexivity.
  1,3: intros k Hk; apply list_elem_of_singleton in Hk as ->; vm_compute;
       do 2 eexists; split; reflexivity.
  all: eexists; split; [left|split; [intros args; reflexivity|]];
       intros fp Hfp; apply list_elem_of_singleton in Hfp as ->; vm_compute; left.
Defined.

Lemma queries_terminate_witness :
  vars_wf (Problem.variables throwing) /\
  RBS.getSolution (Problem.view throwing) RBS.new <> NoFuel /\
  RBS.getSolutions (Problem.view throwing) RBS.new <> NoFuel.
Proof.
  assert (Hwf : vars_wf (Problem.variables throwing))
    by (apply (bool_decide_unpack _); vm_compute; reflexivity).
  split; [exact Hwf|]. apply (RBS.queries_terminate (Problem.view throwing)), Hwf.
Defined.

(** ** Behaviours the specification does not state *)

(** The variable "1", registered after "b", is enumerated first (it
    is an array index), so it varies slowest in the search: the selection
    order is not the insertion order. *)
Example numeric_name_enumerated_first :
  own_keys (Problem.variables (run numeric_names_script DiscreteProblem)) = ["1"; "b"] /\
  outcome_value (Problem.getSolutions (run numeric_names_script DiscreteProblem)) =
  Some [mkobj [("1", JNum 1); ("b", JNum 1)]; mkobj [("1", JNum 1); ("b", JNum 2)];
        mkobj [("1", JNum 2); ("b", JNum 1)]; mkobj [("1", JNum 2); ("b", JNum 2)]].
Proof. split; vm_compute; reflexivity. Qed.

(** A variable whose value is [undefined] counts as unassigned for
    [checkAssignment]: a constraint over it is never evaluated, and an
    assignment it rejects is returned as a solution. *)
Example undefined_value_skips_constraint :
  outcome_value (Problem.getSolutions (run undefined_script DiscreteProblem)) =
  Some [mkobj [("x", JUndefined); ("y", JNum 1)]].
Proof. vm_compute. reflexivity. Qed.

(** [changeVariable] of an unregistered name does not throw when the
    name is inherited from [Object.prototype]: [changeVariable("toString",
    ..)] leaves the problem unchanged and reports no [UnknownVariable]. *)
Example changeVariable_toString_silent :
  Problem.changeVariable "toString" [JNum 1] setup1 = Done tt setup1.
Proof. reflexivity. Qed.

(** ** The benchmark page *)

Lemma benchmark_page_run_witness :
  doc_wf benchmark_html /\
  exists s, onreadystatechange (load_page benchmark_html) = Done tt s /\
    display <$> nodes (pdoc s) !! 1 = Some "none".
Proof.
  assert (H : doc_wf benchmark_html) by (apply (bool_decide_unpack _); vm_compute; reflexivity).
  split; [exact H|].
  destruct (benchmark_page_run benchmark_html 0 1 H eq_refl eq_refl eq_refl)
    as (s & t1 & t2 & r1 & r2 & r3 & Hrun & _ & _ & _ & _ & _ & _ & _ & _ & Hd & _).
  exists s. split; [exact Hrun|exact Hd].
Defined.

(** The variable [constructor] is read before it is assigned, as the
    inherited function: the constraint over it rejects every value of
    [a], and the assignment [{a: 1, constructor: 1}], on which the
    constraint holds, is lost. *)
Lemma problem_proto_scope_no_solutions_witness :
  consistent (mkobj [("a", JNum 1); ("constructor", JNum 1)])
    (Problem.constraints (run proto_name_script DiscreteProblem)) = true /\
  exists p', Problem.getSolutions (run proto_name_script DiscreteProblem) = Done [] p'.
Proof.
  split; [vm_compute; reflexivity|].
  apply (problem_proto_scope_no_solutions _ "a" ["constructor"]
           (Constraint.mk ["constructor"] (returning (fun args => JBool (bool_decide (args = [JNum 1])))))
           (JBool false)).
  - apply (bool_decide_unpack _). vm_compute. reflexivity.
  - vm_compute. repeat constructor; intros; eexists; reflexivity.
  - vm_compute. reflexivity.
  - vm_compute. left.
  - intros k Hk. apply list_elem_of_singleton in Hk as ->. split; [reflexivity|discriminate].
  - reflexivity.
  - reflexivity.
Defined.

(** The numeral "1" added after "b" is searched first; the numeral
    "4294967295", one past the last array index, is not. *)
Lemma numeral_variable_searched_first_witness :
  RBS.find_next_var
    (Problem.variables (run (Problem.addVariable (N_to_string 1) [JNum 1; JNum 2])
                          (run (Problem.addVariable "b" [JNum 1; JNum 2]) DiscreteProblem)))
    obj_empty = Some (Var.mk "1" [JNum 1; JNum 2]) /\
  RBS.find_next_var
    (Problem.variables (run (Problem.addVariable (N_to_string 4294967295) [JNum 1; JNum 2])
                          (run (Problem.addVariable "b" [JNum 1; JNum 2]) DiscreteProblem)))
    obj_empty = Some (Var.mk "b" [JNum 1; JNum 2]).
Proof.
  set (pb := run (Problem.addVariable "b" [JNum 1; JNum 2]) DiscreteProblem).
  assert (H1 : forall k, In k (obj_keys (Problem.variables pb)) -> is_array_index k = false).
  { simpl. intros k [<-|[]]. vm_compute. reflexivity. }
  split.
  - rewrite (numeral_variable_searched_first pb 1 [JNum 1; JNum 2]
               (run (Problem.addVariable (N_to_string 1) [JNum 1; JNum 2]) pb) eq_refl H1)
      by (apply (bool_decide_unpack _); vm_compute; reflexivity).
    vm_compute. reflexivity.
  - rewrite (numeral_variable_searched_first pb 4294967295 [JNum 1; JNum 2]
               (run (Problem.addVariable (N_to_string 4294967295) [JNum 1; JNum 2]) pb) eq_refl H1)
      by (apply (bool_decide_unpack _); vm_compute; reflexivity).
    vm_compute. reflexivity.
Defined.

(** [changeVariable] of a name [Setup1] does not have throws and leaves
    the problem as it was; of [toString], inherited from
    [Object.prototype], it does not throw. *)
Lemma changeVariable_error_witness :
  Problem.changeVariable "zz" [JNum 1] setup1 =
    Raise (ErrorObj "Attempted to change a nonexistant variable.") setup1 /\
  ~ (exists e p', Problem.changeVariable "toString" [JNum 1] setup1 = Raise e p').
Proof.
  destruct (changeVariable_error "zz" [JNum 1] setup1) as [Hval [_ Hif]].
  destruct (changeVariable_error "toString" [JNum 1] setup1) as [_ [Hto _]].
  split.
  - destruct (Hif (conj eq_refl eq_refl)) as (e & p' & Hr).
    destruct (Hval e p' Hr) as [-> ->]. exact Hr.
  - intros Hr. apply Hto in Hr as [_ Hp]. discriminate Hp.
Defined.

Lemma benchmark_page_no_output_witness :
  exists s, onreadystatechange (load_page benchmark_html_no_output) =
              Raise (TypeError "Cannot read properties of null (reading 'appendChild')") s /\
            calls s = [] /\ display <$> nodes (pdoc s) !! 1 = Some "block".
Proof.
  apply (benchmark_page_no_output benchmark_html_no_output 1 (mkelem "div" "" "none" []));
    reflexivity.
Defined.
