(* ===== verification/NgCspSpec.v ===== *)
(** * The repository's test suite of CspManager

    [src/test/ngCspSpec.js] runs the [$csp] service on one configuration
    (roof and floor colours, one table of allowed pairs) under several
    current configurations.  Its expectations are evaluated here on that
    configuration, grouped as the specification's scenarios A, B and C.  The
    witnesses of the theorems of [Compile.v] and [Manager.v] apply them to
    this configuration, and small configurations exhibit what the
    specification does not say about the generated comparisons. *)

From S2P Require Import Prelude JsObject Model Problem Backtracking Compile JsFragment Manager Angular.
From stdpp Require Import gmap.

Local Open Scope string_scope.
Import Manager.

(** ** The configuration of the test suite *)

Definition roof_floor_table : list (list jsval) :=
  [[JStr "chrome"; JStr "black"]; [JStr "chrome"; JStr "white"];
   [JStr "gold"; JStr "black"]; [JStr "white"; JStr "white"];
   [JStr "white"; JStr "black"]; [JStr "black"; JStr "white"];
   [JStr "white"; JStr "white"]].

Definition roof_floor_constraint : cfg_constraint :=
  mk_cfg_constraint ["roof"; "floor"] roof_floor_table.

Definition configuration_spec : configuration :=
  mkconfig
    (mkobj [("roof", [JStr "chrome"; JStr "white"; JStr "black"; JStr "gold"]);
            ("floor", [JStr "white"; JStr "black"])])
    [roof_floor_constraint].

Definition cur_empty : jsobj cfgval := mkobj [].
Definition cur_roof (v : string) : jsobj cfgval := mkobj [("roof", CSingle (JStr v))].
Definition cur_roof_floor (r f : string) : jsobj cfgval :=
  mkobj [("roof", CSingle (JStr r)); ("floor", CSingle (JStr f))].

Definition sol (r f : string) : assignment := mkobj [("roof", JStr r); ("floor", JStr f)].

(** ** The harness *)

(** [beforeEach(module('ngCsp')); beforeEach(inject(['$csp', function ($csp)
    { csp = $csp; }]))] (lines 6-9): before each test, a fresh injector of
    the module [ngCsp] over the page's registry, and its [$csp], kept in
    the variable [csp] that the tests call. *)
Definition spec_inject (reg : module_registry) (h : heap) : sum exn (ref * injector) :=
  match create_injector reg ["ngCsp"] h with
  | inl e => inl e
  | inr inj =>
      match injector_get "$csp" inj with
      | Done r inj' => inr (r, inj')
      | Raise e _ => inl e
      | NoFuel => inl (ErrorObj "no result")
      end
  end.

(** ** The scenarios *)

(** A configuration with no option and one constraint. *)
Definition no_options : configuration :=
  mkconfig (mkobj []) [roof_floor_constraint].

(** One option [n] and one constraint on it with the single tuple [t]. *)
Definition single_table (domain : list jsval) (t : list jsval) : configuration :=
  mkconfig (mkobj [("n", domain)]) [mk_cfg_constraint ["n"] [t]].

(** Scenario A, the first four tests: with nothing fixed and the focus
    on [floor], [getSolutions] lists the six allowed pairs in search order,
    [getSolution] is the first, [getValuesFor] gives white then black and
    [getSingleValueFor] white. *)
Example scenario_A :
  getSolutions configuration_spec cur_empty (Some "floor") =
    Done [sol "chrome" "white"; sol "chrome" "black"; sol "white" "white";
          sol "white" "black"; sol "black" "white"; sol "gold" "black"] tt /\
  getSolution configuration_spec cur_empty (Some "floor") = Done (Some (sol "chrome" "white")) tt /\
  getValuesFor configuration_spec cur_empty (Some "floor") = Done [JStr "white"; JStr "black"] tt /\
  getSingleValueFor configuration_spec cur_empty (Some "floor") = Done (JStr "white") tt.
Proof. split_and!; vm_compute; reflexivity. Qed.

(** Scenario B: fixing the roof narrows the solutions (two for white,
    one for gold); [checkCorrect] accepts gold/black and rejects
    gold/white. *)
Example scenario_B :
  getSolutions configuration_spec (cur_roof "white") (Some "floor") =
    Done [sol "white" "white"; sol "white" "black"] tt /\
  getSolutions configuration_spec (cur_roof "gold") (Some "floor") =
    Done [sol "gold" "black"] tt /\
  checkCorrect configuration_spec (cur_roof_floor "gold" "black") = Done true tt /\
  checkCorrect configuration_spec (cur_roof_floor "gold" "white") = Done false tt.
Proof. split_and!; vm_compute; reflexivity. Qed.

(** Scenario C: a fixed value outside the options ([magenta]) leaves
    no solution; [getSingleValueFor] is [undefined] and [getValuesFor]
    empty. *)
Example scenario_C :
  getSolutions configuration_spec (cur_roof "magenta") (Some "floor") = Done [] tt /\
  getValuesFor configuration_spec (cur_roof "magenta") (Some "floor") = Done [] tt /\
  getSingleValueFor configuration_spec (cur_roof "magenta") (Some "floor") = Done JUndefined tt.
Proof. split_and!; vm_compute; reflexivity. Qed.

(** ** The injected service *)

(** C30: on any page where lines 7-11 of [src/src/ngCsp.js] have run,
    the harness of the test suite obtains as [csp] a newly allocated
    [CspManager], and every method call the tests make on it computes the
    corresponding function of [Manager]: the expectations proved above of
    [Manager] are those of the injected [$csp]. *)
Theorem spec_harness_serves_manager reg h :
  match ngCsp_registration reg with
  | Done _ reg' =>
      exists r inj, spec_inject reg' h = inr (r, inj) /\ r = length h /\
        iheap inj = (h ++ [CCspManager])%list /\
        forall c, invoke (iheap inj) r c = CspManager_method c
  | _ => False
  end.
Proof.
  rewrite ngCsp_registration_run. unfold spec_inject. rewrite create_injector_ngCsp.
  unfold injector_get. cbn [cache providers iheap]. rewrite lookup_empty, lookup_insert_eq.
  do 2 eexists. split_and!; [reflexivity|reflexivity|reflexivity|].
  intros c. unfold invoke. cbn [iheap]. by rewrite list_lookup_middle.
Qed.

(** ** Witnesses *)

Lemma compile_constraint_matches_witness :
  exists f, compile_constraint roof_floor_constraint =
              inr (Constraint.mk (properties roof_floor_constraint) f) /\
    forall args, f args = JsReturn (JBool (matcher (relations roof_floor_constraint) args)).
Proof.
  apply (compile_constraint_matches roof_floor_constraint);
    [vm_compute; reflexivity|discriminate|vm_compute; reflexivity].
Defined.

Lemma compile_constraint_empty_tuple_witness :
  compile_constraint (mk_cfg_constraint ["roof"; "floor"]
                        ([[JStr "gold"; JStr "black"]] ++ [] :: [[JStr "white"]])%list)
  = inl (SyntaxError "Unexpected token ')'").
Proof.
  apply compile_constraint_empty_tuple; [vm_compute; reflexivity|].
  repeat constructor.
Defined.

Lemma manager_getSolutions_sound_complete_witness :
  config_ok configuration_spec = true /\ obj_lookup (cur_roof "white") "hasOwnProperty" = None /\
  exists sols, getSolutions configuration_spec (cur_roof "white") (Some "floor") = Done sols tt /\
    forall a, In a sols <->
      exists e, a = mkobj e /\ map fst e = own_keys (options configuration_spec) /\
        Forall (fun kx => In kx.2 (allowed_domain configuration_spec (cur_roof "white")
                                      (Some "floor") kx.1)) e /\
        table_consistent configuration_spec a = true.
Proof.
  assert (Hok : config_ok configuration_spec = true) by (vm_compute; reflexivity).
  split_and!; [exact Hok|reflexivity|]. apply manager_getSolutions_sound_complete; [exact Hok|reflexivity].
Defined.

Lemma manager_checkCorrect_iff_witness :
  config_ok configuration_spec = true /\ obj_lookup (cur_roof "gold") "hasOwnProperty" = None /\
  own_keys (options configuration_spec) <> [] /\
  exists b, checkCorrect configuration_spec (cur_roof "gold") = Done b tt /\
    (b = true <-> exists e, map fst e = own_keys (options configuration_spec) /\
        Forall (fun kx => In kx.2 (allowed_domain configuration_spec (cur_roof "gold")
                                      None kx.1)) e /\
        table_consistent configuration_spec (mkobj e) = true).
Proof.
  assert (Hok : config_ok configuration_spec = true) by (vm_compute; reflexivity).
  assert (Hne : own_keys (options configuration_spec) <> []) by (vm_compute; discriminate).
  split_and!; [exact Hok|reflexivity|exact Hne|].
  apply manager_checkCorrect_iff; [exact Hok|reflexivity|exact Hne].
Defined.

Lemma compile_constraint_accepts_rows_witness :
  exists f, compile_constraint roof_floor_constraint =
              inr (Constraint.mk (properties roof_floor_constraint) f) /\
    forall r, r ∈ relations roof_floor_constraint -> forallb positive_entry r = true ->
      f r = JsReturn (JBool true).
Proof. apply compile_constraint_accepts_rows; vm_compute; reflexivity. Defined.

Lemma checkCorrect_no_options_witness :
  config_ok no_options = true /\
  getSolutions no_options cur_empty None = Done [mkobj []] tt /\
  checkCorrect no_options cur_empty = Done false tt.
Proof.
  assert (Hok : config_ok no_options = true) by (vm_compute; reflexivity).
  split; [exact Hok|]. apply checkCorrect_no_options; [exact Hok|reflexivity].
Defined.

Lemma getValuesFor_distinct_values_witness :
  exists vs, getValuesFor configuration_spec cur_empty (Some "roof") = Done vs tt /\ NoDup vs /\
    forall v, v ∈ vs <-> exists a, a ∈ [sol "chrome" "white"; sol "chrome" "black";
                                         sol "white" "white"; sol "white" "black";
                                         sol "black" "white"; sol "gold" "black"] /\
                                   js_get a (element_key (Some "roof")) = v.
Proof. apply getValuesFor_distinct_values. vm_compute. reflexivity. Defined.

Lemma getSingleValueFor_first_value_witness :
  config_ok configuration_spec = true /\ obj_lookup (cur_roof "white") "hasOwnProperty" = None /\
  own_keys (options configuration_spec) <> [] /\
  exists vs, getValuesFor configuration_spec (cur_roof "white") (Some "floor") = Done vs tt /\
    getSingleValueFor configuration_spec (cur_roof "white") (Some "floor") =
      Done (match vs with [] => JUndefined | v :: _ => v end) tt.
Proof.
  assert (Hok : config_ok configuration_spec = true) by (vm_compute; reflexivity).
  assert (Hne : own_keys (options configuration_spec) <> []) by (vm_compute; discriminate).
  split_and!; [exact Hok|reflexivity|exact Hne|].
  apply getSingleValueFor_first_value; [exact Hok|reflexivity|exact Hne].
Defined.

Lemma new_Function_print_witness :
  body_ok [[CEqStr 0 "chrome"; CNeqStr 1 "white"]; [CEqBool 0 true]] = true /\
  new_Function (params_src ["roof"; "floor"])
               (body_src [[CEqStr 0 "chrome"; CNeqStr 1 "white"]; [CEqBool 0 true]]) =
    inr (run_body (param_names 2) [[CEqStr 0 "chrome"; CNeqStr 1 "white"]; [CEqBool 0 true]]).
Proof.
  split; [vm_compute; reflexivity|].
  apply (new_Function_print ["roof"; "floor"]). vm_compute. reflexivity.
Defined.


Lemma new_Function_js_agrees_witness :
  disj_of roof_floor_table =
    inr [[CEqStr 0 "chrome"; CEqStr 1 "black"]; [CEqStr 0 "chrome"; CEqStr 1 "white"];
         [CEqStr 0 "gold"; CEqStr 1 "black"]; [CEqStr 0 "white"; CEqStr 1 "white"];
         [CEqStr 0 "white"; CEqStr 1 "black"]; [CEqStr 0 "black"; CEqStr 1 "white"];
         [CEqStr 0 "white"; CEqStr 1 "white"]] /\
  exists f g,
    new_Function_js (params_src ["roof"; "floor"])
      (body_src [[CEqStr 0 "chrome"; CEqStr 1 "black"]; [CEqStr 0 "chrome"; CEqStr 1 "white"];
                 [CEqStr 0 "gold"; CEqStr 1 "black"]; [CEqStr 0 "white"; CEqStr 1 "white"];
                 [CEqStr 0 "white"; CEqStr 1 "black"]; [CEqStr 0 "black"; CEqStr 1 "white"];
                 [CEqStr 0 "white"; CEqStr 1 "white"]]) = CFun f /\
    new_Function (params_src ["roof"; "floor"])
      (body_src [[CEqStr 0 "chrome"; CEqStr 1 "black"]; [CEqStr 0 "chrome"; CEqStr 1 "white"];
                 [CEqStr 0 "gold"; CEqStr 1 "black"]; [CEqStr 0 "white"; CEqStr 1 "white"];
                 [CEqStr 0 "white"; CEqStr 1 "black"]; [CEqStr 0 "black"; CEqStr 1 "white"];
                 [CEqStr 0 "white"; CEqStr 1 "white"]]) = inr g /\
    forall args, f args = Some (g args).
Proof. split; [vm_compute; reflexivity|]. apply new_Function_js_agrees. vm_compute. reflexivity. Defined.

Lemma quote_in_value_injects_witness :
  exists d f, disj_of [[JStr ("gold" ++ "'||'" ++ "white")]] = inr d /\
    new_Function_js (params_src ["roof"]) (body_src d) = CFun f /\
    (forall args, exists v, f args = Some (JsReturn v) /\ truthy v = true) /\
    matcher [[JStr ("gold" ++ "'||'" ++ "white")]] [JNull] = false.
Proof. apply quote_in_value_injects; [reflexivity|reflexivity|discriminate|discriminate|reflexivity]. Defined.

(** ** What the generated comparisons do that the specification does not say *)

(** A negated entry ['!5'] is compared with [!==] against the string
    ['5']: it excludes the string ["5"] but not the number [5], so on a
    numeric domain the negation excludes nothing. *)
Example negation_ignores_numbers :
  getSolutions (single_table [JNum 5; JNum 6] [JStr "!5"]) cur_empty None =
    Done [mkobj [("n", JNum 5)]; mkobj [("n", JNum 6)]] tt /\
  getSolutions (single_table [JStr "5"; JStr "6"] [JStr "!5"]) cur_empty None =
    Done [mkobj [("n", JStr "6")]] tt.
Proof. split; vm_compute; reflexivity. Qed.

(** A positive entry is compared with [==], which converts a string
    to a number: the number [5] matches the entries ['0x5'], [' 5 '] and
    ['5.0'], while the string ["5"] matches none of them. *)
Example equality_is_loose :
  getSolutions (single_table [JNum 5; JStr "5"] [JStr "0x5"]) cur_empty None =
    Done [mkobj [("n", JNum 5)]] tt /\
  getSolutions (single_table [JNum 5; JStr "5"] [JStr " 5 "]) cur_empty None =
    Done [mkobj [("n", JNum 5)]] tt /\
  getSolutions (single_table [JNum 5; JStr "5"] [JStr "5.0"]) cur_empty None =
    Done [mkobj [("n", JNum 5)]] tt.
Proof. split_and!; vm_compute; reflexivity. Qed.

(** A tuple longer than [properties] is not rejected when the
    configuration is compiled; the generated function reads a parameter
    that does not exist, and the [ReferenceError] escapes [getSolutions]
    once a value passes the first comparison. *)
Example long_tuple_reference_error :
  getConstrains [mk_cfg_constraint ["n"] [[JStr "5"; JStr "x"]]] <> inl (SyntaxError "Unexpected token ')'") /\
  getSolutions (single_table [JStr "4"; JStr "5"] [JStr "5"; JStr "x"]) cur_empty None =
    Raise (ReferenceError "x1 is not defined") tt.
Proof. split; [vm_compute; discriminate|vm_compute; reflexivity]. Qed.

(** A [null] entry is printed as the text ['null'] and compared with
    [==]: it matches the string ["null"] but not the value [null] itself. *)
Example null_entry_matches_string :
  getSolutions (single_table [JNull; JStr "null"] [JNull]) cur_empty None =
    Done [mkobj [("n", JStr "null")]] tt.
Proof. vm_compute. reflexivity. Qed.

Lemma csp_service_singleton_witness :
  ngCsp_registration ∅ = Done "ngCsp" (<["ngCsp" := mkmodule [] [("$csp", csp_factory)]]> ∅) /\
  create_injector (<["ngCsp" := mkmodule [] [("$csp", csp_factory)]]> ∅) ["ngCsp"] [] =
    inr (mkinjector (<["$csp" := csp_factory]> ∅) ∅ []) /\
  rtc get_step (mkinjector (<["$csp" := csp_factory]> ∅) ∅ [])
               (mkinjector (<["$csp" := csp_factory]> ∅) (<["$csp" := 0]> ∅) [CCspManager]) /\
  exists inj'', injector_get "$csp"
      (mkinjector (<["$csp" := csp_factory]> ∅) (<["$csp" := 0]> ∅) [CCspManager]) = Done 0 inj''.
Proof.
  assert (H1 : ngCsp_registration ∅ =
    Done "ngCsp" (<["ngCsp" := mkmodule [] [("$csp", csp_factory)]]> ∅)) by reflexivity.
  assert (H2 : create_injector (<["ngCsp" := mkmodule [] [("$csp", csp_factory)]]> ∅) ["ngCsp"] [] =
    inr (mkinjector (<["$csp" := csp_factory]> ∅) ∅ [])) by reflexivity.
  assert (H3 : rtc get_step (mkinjector (<["$csp" := csp_factory]> ∅) ∅ [])
               (mkinjector (<["$csp" := csp_factory]> ∅) (<["$csp" := 0]> ∅) [CCspManager])).
  { eapply rtc_l; [eapply (get_step_done "$csp"); reflexivity|].
    eapply rtc_l; [eapply (get_step_raise "$http"); reflexivity|]. apply rtc_refl. }
  destruct (csp_service_singleton _ _ _ _ _ _ H1 H2 H3) as (_ & inj'' & Hget & _).
  split_and!; [exact H1|exact H2|exact H3|]. by exists inj''.
Defined.

Lemma undefined_entry_every_query_throws_witness :
  obj_lookup cur_empty "hasOwnProperty" = None /\
  getSolutions (single_table [JStr "5"] [JUndefined]) cur_empty None =
    Raise (TypeError "Cannot read properties of undefined (reading 'charAt')") tt /\
  checkCorrect (single_table [JStr "5"] [JUndefined]) cur_empty =
    Raise (TypeError "Cannot read properties of undefined (reading 'charAt')") tt.
Proof.
  destruct (undefined_entry_every_query_throws (single_table [JStr "5"] [JUndefined]) cur_empty None
              [] (mk_cfg_constraint ["n"] [[JUndefined]]) [] [] [] [] [])
    as (H1 & _ & _ & _ & H5); try reflexivity.
  split_and!; [reflexivity|exact H1|exact H5].
Defined.

Lemma shadowed_hasOwnProperty_throws_witness :
  cfg_method (mkobj [("hasOwnProperty", CSingle (JStr "yes"))]) "hasOwnProperty" = MNotCallable /\
  getSolutions configuration_spec (mkobj [("hasOwnProperty", CSingle (JStr "yes"))]) (Some "floor") =
    Raise (TypeError "currentConfiguration.hasOwnProperty is not a function") tt.
Proof.
  assert (Hk : exists k, k ∈ own_keys (options configuration_spec) /\ is_focus (Some "floor") k = false).
  { exists "roof". split; [vm_compute; left|reflexivity]. }
  destruct (shadowed_hasOwnProperty_throws configuration_spec
              (mkobj [("hasOwnProperty", CSingle (JStr "yes"))]) (Some "floor") eq_refl Hk)
    as (H1 & _).
  split; [reflexivity|exact H1].
Defined.

Lemma getValuesFor_available_witness :
  config_ok configuration_spec = true /\ obj_lookup (cur_roof "white") "hasOwnProperty" = None /\
  exists vs, getValuesFor configuration_spec (cur_roof "white") (Some "floor") = Done vs tt /\
    NoDup vs /\
    forall v, v ∈ vs <->
      exists e, map fst e = own_keys (options configuration_spec) /\
        Forall (fun kx => In kx.2 (allowed_domain configuration_spec (cur_roof "white")
                                      (Some "floor") kx.1)) e /\
        table_consistent configuration_spec (mkobj e) = true /\
        js_get (mkobj e) (element_key (Some "floor")) = v.
Proof.
  assert (Hok : config_ok configuration_spec = true) by (vm_compute; reflexivity).
  split_and!; [exact Hok|reflexivity|]. apply getValuesFor_available; [exact Hok|reflexivity].
Defined.
