(* ===== verification/Build.v ===== *)
(** * The build script: [src/gulpfile.js] under gulp 3

    The gulpfile registers four tasks with gulp 3's [gulp.task(name,
    [deps], fn)]:
    - [build] streams [./src/*.js] through [gulp-concat] into
      [dist/ngCsp.js], then through [gulp-uglify] and [gulp-rename] into
      [dist/ngCsp.min.js];
    - [minify] streams [./dist.ngCsp.js] through uglify into
      [dist/ngCsp.min.js];
    - [dist] depends on [build] and [minify] and does nothing itself;
    - [test] streams [./foobar] into [gulp-karma] and turns a stream error
      into the end of the stream.

    The model has three layers:
    - the project tree as a list of (path, contents) pairs ([fsys]), and
      gulp's streams as computations of [ST fsys (list vinyl)] over it:
      [gulp_src], [concat], [gulp_dest], [uglify], [rename], chained with
      the notation [|>] as the code chains [.pipe];
    - the four task functions ([build_stream], [minify_stream],
      [test_stream]) and the task table [gulpfile_tasks], each task with
      the way gulp 3 learns that it has finished ([completion]): a task
      function that declares a [done] parameter finishes when it calls
      [done], one that returns a stream finishes when the stream ends,
      and any other finishes when it returns;
    - gulp 3's scheduler (the orchestrator package) as a step relation
      [gstep] on the status of every task and the tree: a task of the
      requested sequence starts once its dependencies have finished, and
      finishes when its completion signal fires.

    The minifier and the karma run are libraries the gulpfile only calls:
    they are the variables [uglify_js] (the text of the minified code)
    and [karma_result] (whether karma's stream ends or fails) of the
    section [gulpfile], and every theorem holds for all of them. *)

From S2P Require Import Prelude.
From stdpp Require Import relations.
From Stdlib Require Import Ascii.

Local Open Scope string_scope.

(** ** The project tree and gulp's streams *)

(** A file in a gulp stream (a vinyl object): its path relative to the
    base of the glob that read it, and its contents. *)
Record vinyl : Type := mkvinyl { relative : string; contents : string }.

(** The project tree: paths relative to the gulpfile's directory, without
    a leading [./] ([path.resolve] makes ['./dist/'] and ['dist'] the
    same directory). *)
Definition fsys : Type := list (string * string).

Fixpoint fs_lookup (fs : fsys) (p : string) : option string :=
  match fs with
  | [] => None
  | (q, c) :: fs' => if String.eqb p q then Some c else fs_lookup fs' p
  end.

(** Writing a file replaces it in place or adds it at the end. *)
Fixpoint fs_write (fs : fsys) (p c : string) : fsys :=
  match fs with
  | [] => [(p, c)]
  | (q, d) :: fs' => if String.eqb p q then (p, c) :: fs' else (q, d) :: fs_write fs' p c
  end.

(** [p] with the prefix [pre] removed. *)
Fixpoint chop_prefix (pre p : string) : option string :=
  match pre, p with
  | EmptyString, _ => Some p
  | String c pre', String d p' => if Ascii.eqb c d then chop_prefix pre' p' else None
  | String _ _, EmptyString => None
  end.

Fixpoint has_slash (s : string) : bool :=
  match s with
  | EmptyString => false
  | String c s' => Ascii.eqb c "/"%char || has_slash s'
  end.

Definition ends_with (suffix s : string) : bool :=
  bool_decide (String.list_ascii_of_string suffix `suffix_of` String.list_ascii_of_string s).

(** The globs of the gulpfile: a single path ([./foobar]) or
    [dir/*ext] ([./src/*.js]). *)
Inductive glob : Type :=
| GPath (path : string)
| GStar (dir ext : string).

(** The relative path of a matching file: a single path is its own base's
    child; [dir/*ext] matches the files directly in [dir] ending in
    [ext], relative to [dir]. *)
Definition glob_match (g : glob) (p : string) : option string :=
  match g with
  | GPath q => if String.eqb p q then Some p else None
  | GStar dir ext =>
      match chop_prefix (dir ++ "/") p with
      | Some r => if ends_with ext r && negb (has_slash r) then Some r else None
      | None => None
      end
  end.

Definition ST_stream : Type := ST fsys (list vinyl).

(** The files of the tree that match [g], in the order of the tree. *)
Definition src_files (g : glob) (fs : fsys) : list vinyl :=
  omap (fun '(p, c) => (fun r => mkvinyl r c) <$> glob_match g p) fs.

(** [gulp.src(glob)] *)
Definition gulp_src (g : glob) : ST_stream := st_gets (src_files g).

Definition newline : string := String (Ascii.ascii_of_nat 10) EmptyString.

(** [gulp-concat(name)]: one file [name] with the contents joined by
    ["\n"], and nothing for an empty stream. *)
Definition concat (name : string) (files : list vinyl) : ST_stream :=
  st_ret (match files with
          | [] => []
          | _ :: _ => [mkvinyl name (String.concat newline (map contents files))]
          end).

(** [gulp.dest(dir)]: each file written under [dir], and passed on. *)
Definition gulp_dest (dir : string) (files : list vinyl) : ST_stream :=
  fun fs => Done files (foldl (fun fs f => fs_write fs (dir ++ "/" ++ relative f) (contents f)) fs files).

(** [gulp-rename(name)]: a string argument replaces the relative path. *)
Definition rename (name : string) (files : list vinyl) : ST_stream :=
  st_ret (map (fun f => mkvinyl name (contents f)) files).

Notation "m |> f" := (st_bind m f) (at level 40, left associativity) : csp_scope.

(** The end of a stream, or the error it emitted. *)
Inductive stream_result : Type :=
| SEnd
| SError (e : exn).

(** How gulp 3 learns that a task has finished. *)
Inductive completion : Type :=
| ByCallback (calls_done : bool)   (** [function (done) {..}] *)
| ByStream (r : stream_result)      (** [function () { return stream; }] *)
| BySync.                           (** any other function *)

Record task : Type := mktask {
  tname : string;
  tdeps : list string;
  tbody : ST fsys unit;
  tcompletion : completion
}.

(** ** The tasks of the gulpfile *)

Section gulpfile.
(** The code [gulp-uglify] produces for a source text. *)
Variable uglify_js : string -> string.
(** How the stream [gulp-karma] returns ends, once karma has run. *)
Variable karma_result : stream_result.

(** [gulp-uglify()] *)
Definition uglify (files : list vinyl) : ST_stream :=
  st_ret (map (fun f => mkvinyl (relative f) (uglify_js (contents f))) files).

(** The stream of [build] (lines 11-16). *)
Definition build_stream : ST_stream :=
  gulp_src (GStar "src" ".js")
  |> concat "ngCsp.js"
  |> gulp_dest "dist"
  |> uglify
  |> rename "ngCsp.min.js"
  |> gulp_dest "dist".

(** The stream of [minify] (lines 22-25): the glob is the single path
    [./dist.ngCsp.js]. *)
Definition minify_stream : ST_stream :=
  gulp_src (GPath "dist.ngCsp.js")
  |> uglify
  |> rename "ngCsp.min.js"
  |> gulp_dest "dist".

(** The stream of [test] (lines 33-37): karma reads its files from
    [karma.conf.js], not from the stream. *)
Definition test_stream : ST_stream := gulp_src (GPath "foobar").

(** [.on('error', function (err) { console.log(err); this.emit('end'); })]
    (lines 38-41): an error becomes the end of the stream. *)
Definition on_error_end (r : stream_result) : stream_result :=
  match r with SError _ => SEnd | SEnd => SEnd end.

(** The four [gulp.task] calls.  [build] and [minify] declare [done] and
    never call it; [dist]'s function takes no parameter and returns
    nothing; [test] returns its stream. *)
Definition gulpfile_tasks : list task :=
  [mktask "build" [] (do! build_stream; st_ret tt) (ByCallback false);
   mktask "minify" [] (do! minify_stream; st_ret tt) (ByCallback false);
   mktask "dist" ["build"; "minify"] (st_ret tt) BySync;
   mktask "test" [] (do! test_stream; st_ret tt) (ByStream (on_error_end karma_result))].
End gulpfile.

(** ** gulp 3's scheduler *)

Definition find_task (ts : list task) (n : string) : option task :=
  List.find (fun t => String.eqb (tname t) n) ts.

(** The order in which [gulp names] runs the tasks: each dependency
    before its dependents, each task once ([sequencify] of the
    orchestrator); [fuel] bounds the depth of the dependency chains. *)
Fixpoint sequencify (fuel : nat) (ts : list task) (nest names results : list string)
    : sum exn (list string) :=
  match fuel with
  | O => inl (ErrorObj "Recursive dependencies detected")
  | S fuel' =>
      (fix go (names results : list string) : sum exn (list string) :=
         match names with
         | [] => inr results
         | name :: names' =>
             if bool_decide (name ∈ results) then go names' results
             else match find_task ts name with
                  | None => inl (ErrorObj ("task " ++ name ++ " is not defined"))
                  | Some node =>
                      if bool_decide (name ∈ nest) then inl (ErrorObj "Recursive dependencies detected")
                      else match tdeps node with
                           | [] => go names' (results ++ [name])%list
                           | deps =>
                               match sequencify fuel' ts (nest ++ [name])%list deps results with
                               | inl e => inl e
                               | inr results' => go names' (results' ++ [name])%list
                               end
                           end
                  end
         end) names results
  end.

(** [gulp names]: the sequence of the requested tasks; a chain of
    dependencies is at most as long as the task table. *)
Definition gulp_sequence (ts : list task) (names : list string) : sum exn (list string) :=
  sequencify (S (length ts)) ts [] names [].

Inductive tstatus : Type := Waiting | Running | Finished | Failed.

#[export] Instance tstatus_eq_dec : EqDecision tstatus.
Proof. solve_decision. Defined.

(** The tree and the status of every task. *)
Record gstate : Type := mkgstate { gfs : fsys; status : string -> tstatus }.

Definition set_status (s : gstate) (n : string) (v : tstatus) : gstate :=
  mkgstate (gfs s) (fun m => if String.eqb m n then v else status s m).

(** The status a running task moves to when its signal fires, if it
    fires. *)
Definition finishes (c : completion) : option tstatus :=
  match c with
  | ByCallback true | ByStream SEnd | BySync => Some Finished
  | ByStream (SError _) => Some Failed
  | ByCallback false => None
  end.

Definition gulp_init (fs : fsys) : gstate := mkgstate fs (fun _ => Waiting).

(** The repository as the gulpfile sees it: the files beside it, with
    their contents as parameters. *)
Definition repo_tree (dist_js gulpfile_js src_js bench_js spec_js : string) : fsys :=
  [("dist/ngCsp.js", dist_js); ("gulpfile.js", gulpfile_js); ("src/ngCsp.js", src_js);
   ("test/benchmark/benchmark.js", bench_js); ("test/ngCspSpec.js", spec_js)].

Section orchestrator.
Variable ts : list task.
(** The tasks to run, in [sequencify] order. *)
Variable seq : list string.

(** A task of [seq] whose dependencies have finished starts: its function
    runs on the tree; it then finishes when its completion signal fires. *)
Inductive gstep : gstate -> gstate -> Prop :=
| gstep_start n t s fs' :
    n ∈ seq -> find_task ts n = Some t -> status s n = Waiting ->
    Forall (fun d => status s d = Finished) (tdeps t) ->
    tbody t (gfs s) = Done tt fs' ->
    gstep s (set_status (mkgstate fs' (status s)) n Running)
| gstep_throw n t s e fs' :
    n ∈ seq -> find_task ts n = Some t -> status s n = Waiting ->
    Forall (fun d => status s d = Finished) (tdeps t) ->
    tbody t (gfs s) = Raise e fs' ->
    gstep s (set_status (mkgstate fs' (status s)) n Failed)
| gstep_finish n t s v :
    find_task ts n = Some t -> status s n = Running -> finishes (tcompletion t) = Some v ->
    gstep s (set_status s n v).
End orchestrator.

(** [P] holds eventually on every run: now, or the state can step and
    [P] holds eventually after every step. *)
Inductive eventually {A} (R : relation A) (P : A -> Prop) (x : A) : Prop :=
| eventually_now : P x -> eventually R P x
| eventually_step : (exists y, R x y) -> (forall y, R x y -> eventually R P y) -> eventually R P x.

(** * Properties *)

(** ** The tree *)

Lemma fs_lookup_write_eq fs p c : fs_lookup (fs_write fs p c) p = Some c.
Proof.
  induction fs as [|[q d] fs IH]; simpl; [by rewrite String.eqb_refl|].
  destruct (String.eqb_spec p q); simpl; [by rewrite String.eqb_refl|].
  destruct (String.eqb_spec p q); done.
Qed.

Lemma fs_lookup_write_ne fs p c q : q <> p -> fs_lookup (fs_write fs p c) q = fs_lookup fs q.
Proof.
  intros Hne. induction fs as [|[r d] fs IH]; simpl.
  - by destruct (String.eqb_spec q p).
  - destruct (String.eqb_spec p r) as [->|]; simpl.
    + by destruct (String.eqb_spec q r).
    + by destruct (String.eqb_spec q r).
Qed.

#[export] Hint Rewrite fs_lookup_write_eq : csp.

(** A single path matches nothing in a tree that lacks it. *)
Lemma src_files_path_absent q fs : fs_lookup fs q = None -> src_files (GPath q) fs = [].
Proof.
  induction fs as [|[p c] fs IH]; simpl; [done|].
  destruct (String.eqb_spec q p) as [->|]; [done|]. intros H.
  unfold src_files in *. simpl. destruct (String.eqb_spec p q); [congruence|]. by apply IH.
Qed.

(** ** The scheduler *)

(** An invariant of the steps that excludes [P] excludes [eventually P]. *)
Lemma not_eventually {A} (R : relation A) (P I : A -> Prop) x :
  (forall y z, R y z -> I y -> I z) -> (forall y, I y -> ~ P y) ->
  I x -> ~ eventually R P x.
Proof.
  intros Hpres Hex Hx Hev. induction Hev as [x HP|x [y Hy] _ IH]; [by apply (Hex x)|].
  apply (IH y Hy), (Hpres x y Hy Hx).
Qed.

Lemma status_set s n v m : status (set_status s m v) n = if String.eqb n m then v else status s n.
Proof. reflexivity. Qed.

(** ** What the tasks write *)

Section streams.
Variable uglify_js : string -> string.

(** [build] on a tree with sources: the bundle, then its minified copy. *)
Lemma build_stream_run fs :
  let code := String.concat newline (map contents (src_files (GStar "src" ".js") fs)) in
  src_files (GStar "src" ".js") fs <> [] ->
  build_stream uglify_js fs =
    Done [mkvinyl "ngCsp.min.js" (uglify_js code)]
         (fs_write (fs_write fs "dist/ngCsp.js" code) "dist/ngCsp.min.js" (uglify_js code)).
Proof.
  intros code. subst code. unfold build_stream, st_bind, gulp_src, st_gets.
  by destruct (src_files (GStar "src" ".js") fs).
Qed.

(** C20: the [build] stream writes [dist/ngCsp.js], the sources
    [./src/*.js] joined by newlines in the order of the tree, and
    [dist/ngCsp.min.js], the minified bundle, and leaves every other
    file as it was, when there is at least one source. *)
Theorem build_writes fs :
  let code := String.concat newline (map contents (src_files (GStar "src" ".js") fs)) in
  src_files (GStar "src" ".js") fs <> [] ->
  exists out fs', build_stream uglify_js fs = Done out fs' /\
    fs_lookup fs' "dist/ngCsp.js" = Some code /\
    fs_lookup fs' "dist/ngCsp.min.js" = Some (uglify_js code) /\
    forall p, p <> "dist/ngCsp.js" -> p <> "dist/ngCsp.min.js" -> fs_lookup fs' p = fs_lookup fs p.
Proof.
  intros code Hne. rewrite build_stream_run by done. do 2 eexists. split; [done|].
  split_and!.
  - by rewrite fs_lookup_write_ne, fs_lookup_write_eq.
  - apply fs_lookup_write_eq.
  - intros p H1 H2. by rewrite !fs_lookup_write_ne.
Qed.

(** C21: [minify] reads the single path [./dist.ngCsp.js], not the bundle
    [dist/ngCsp.js]: on a tree without that file its stream is empty and
    the tree is left as it was. *)
Theorem minify_reads_nothing fs :
  fs_lookup fs "dist.ngCsp.js" = None -> minify_stream uglify_js fs = Done [] fs.
Proof.
  intros H. unfold minify_stream, st_bind, gulp_src, st_gets.
  by rewrite src_files_path_absent.
Qed.
End streams.

(** ** [gulp test] and [gulp dist] *)

(** The cases of a task name drawn from a literal list. *)
Ltac name_cases H :=
  repeat (apply elem_of_cons in H as [H|H]; [subst|]); try (apply elem_of_nil in H as []).

(** The cases of [find_task] on the task table for an unknown name. *)
Ltac find_task_cases H :=
  cbn [find_task List.find gulpfile_tasks tname] in H;
  repeat match type of H with
         | (if String.eqb ?a ?n then _ else _) = _ =>
             destruct (String.eqb_spec a n) as [<-|?]; cbv beta iota in H
         end;
  first [discriminate H | injection H as <- | idtac].

Section gulp_runs.
Variable uglify_js : string -> string.
Variable karma_result : stream_result.

(** While [gulp dist] runs, [dist] and [test] have not started, and
    [build] and [minify] are waiting or running. *)
Definition pending (v : tstatus) : Prop := v = Waiting \/ v = Running.

Definition dist_run (s : gstate) : Prop :=
  status s "dist" = Waiting /\ status s "test" = Waiting /\
  pending (status s "build") /\ pending (status s "minify").

(** The tasks of the sequence that are still waiting for their start. *)
Definition waiting_count (s : gstate) : nat :=
  (if decide (status s "build" = Waiting) then 1 else 0) +
  (if decide (status s "minify" = Waiting) then 1 else 0).

Lemma build_task_done fs : exists fs', (do! build_stream uglify_js; st_ret tt) fs = Done tt fs'.
Proof.
  unfold build_stream, st_bind, gulp_src, st_gets.
  destruct (src_files (GStar "src" ".js") fs); eexists; reflexivity.
Qed.

Lemma minify_task_done fs : exists fs', (do! minify_stream uglify_js; st_ret tt) fs = Done tt fs'.
Proof.
  unfold minify_stream, st_bind, gulp_src, st_gets. eexists; reflexivity.
Qed.

(** Every step of [gulp dist] starts [build] or [minify]. *)
Lemma dist_step s s' :
  gstep (gulpfile_tasks uglify_js karma_result) ["build"; "minify"; "dist"] s s' ->
  dist_run s ->
  exists n fs', (n = "build" \/ n = "minify") /\ status s n = Waiting /\
    s' = set_status (mkgstate fs' (status s)) n Running.
Proof.
  intros Hs (Hd & Ht' & Hb & Hm).
  destruct Hs as [n t s fs' Hn Ht Hw Hdeps _|n t s e fs' Hn Ht Hw Hdeps Hbody|n t s v Ht Hr Hv].
  - name_cases Hn; cbn in Ht; injection Ht as <-; [by eauto 10..|].
    inversion Hdeps as [|? ? Hbf]; subst. destruct Hb as [Hb|Hb]; congruence.
  - name_cases Hn; cbn in Ht; injection Ht as <-.
    + destruct (build_task_done (gfs s)) as [? Hdone]. cbn [tbody] in Hbody. congruence.
    + destruct (minify_task_done (gfs s)) as [? Hdone]. cbn [tbody] in Hbody. congruence.
    + inversion Hdeps as [|? ? Hbf]; subst. destruct Hb as [Hb|Hb]; congruence.
  - find_task_cases Ht; cbn in Hv; try discriminate Hv; congruence.
Qed.

Lemma dist_run_step s s' :
  gstep (gulpfile_tasks uglify_js karma_result) ["build"; "minify"; "dist"] s s' ->
  dist_run s -> dist_run s' /\ waiting_count s' < waiting_count s.
Proof.
  intros Hs Hr. destruct (dist_step s s' Hs Hr) as (n & fs' & [-> | ->] & Hw & ->);
    destruct Hr as (Hd & Ht & Hb & Hm); unfold dist_run, waiting_count, pending in *; simpl;
    rewrite Hw in *; repeat case_decide; split_and!; try tauto; try congruence; lia.
Qed.

Lemma dist_run_stuck_after k s :
  waiting_count s <= k -> dist_run s ->
  eventually (gstep (gulpfile_tasks uglify_js karma_result) ["build"; "minify"; "dist"])
    (fun s => status s "build" = Running /\ status s "minify" = Running /\
              status s "dist" = Waiting /\
              forall s', ~ gstep (gulpfile_tasks uglify_js karma_result) ["build"; "minify"; "dist"] s s')
    s.
Proof.
  revert s. induction k as [|k IH]; intros s Hk Hr.
  - apply eventually_now. destruct Hr as (Hd & Ht & Hb & Hm).
    unfold waiting_count in Hk. repeat case_decide; try lia.
    assert (Hb' : status s "build" = Running) by (destruct Hb; congruence).
    assert (Hm' : status s "minify" = Running) by (destruct Hm; congruence).
    split_and!; [done|done|done|]. intros s' Hs.
    destruct (dist_step s s' Hs) as (n & ? & [-> | ->] & Hw & _); [by split_and!..|congruence|congruence].
  - destruct (decide (waiting_count s = 0)) as [H0|H0]; [apply (IH s); [lia|done]|].
    apply eventually_step.
    + destruct (decide (status s "build" = Waiting)) as [Hw|Hw].
      * destruct (build_task_done (gfs s)) as [fs' Hdone].
        eexists. eapply (gstep_start _ _ "build"); [by left|reflexivity|done|constructor|exact Hdone].
      * destruct (minify_task_done (gfs s)) as [fs' Hdone].
        assert (Hw' : status s "minify" = Waiting)
          by (unfold waiting_count in H0; repeat case_decide; congruence || lia).
        eexists. eapply (gstep_start _ _ "minify"); [by right; left|reflexivity|done|constructor|exact Hdone].
    + intros s' Hs. destruct (dist_run_step s s' Hs Hr) as [Hr' Hlt]. apply IH; [lia|done].
Qed.

(** C22: [gulp dist] never finishes: the sequence is [build], [minify],
    [dist]; every run starts [build] and [minify] and then gets stuck
    with both running, since they declare [done] and never call it, so
    [dist] waits for them forever, whatever the tree. *)
Theorem gulp_dist_never_finishes fs :
  gulp_sequence (gulpfile_tasks uglify_js karma_result) ["dist"] = inr ["build"; "minify"; "dist"] /\
  eventually (gstep (gulpfile_tasks uglify_js karma_result) ["build"; "minify"; "dist"])
    (fun s => status s "build" = Running /\ status s "minify" = Running /\
              status s "dist" = Waiting /\
              forall s', ~ gstep (gulpfile_tasks uglify_js karma_result) ["build"; "minify"; "dist"] s s')
    (gulp_init fs) /\
  ~ eventually (gstep (gulpfile_tasks uglify_js karma_result) ["build"; "minify"; "dist"])
      (fun s => status s "dist" = Finished) (gulp_init fs).
Proof.
  assert (Hinit : dist_run (gulp_init fs)) by (split_and!; first [reflexivity|by left]).
  split_and!; [reflexivity|by apply (dist_run_stuck_after 2)|].
  apply (not_eventually _ _ dist_run); [intros s s' Hs Hr; by apply (dist_run_step s s')| |done].
  by intros s [-> _].
Qed.

(** C23: [gulp test] always finishes: its stream ends, by karma's end or
    by the [end] that its error handler emits, so every run of the
    scheduler reaches a state where [test] has finished. *)
Theorem gulp_test_finishes fs :
  gulp_sequence (gulpfile_tasks uglify_js karma_result) ["test"] = inr ["test"] /\
  eventually (gstep (gulpfile_tasks uglify_js karma_result) ["test"])
    (fun s => status s "test" = Finished) (gulp_init fs).
Proof.
  split; [reflexivity|].
  apply eventually_step.
  { eexists. eapply (gstep_start _ _ "test"); [by left|reflexivity|reflexivity|constructor|reflexivity]. }
  intros s1 Hs1.
  inversion Hs1 as [n t s fs' Hn Ht _ _ Hb|n t s e fs' Hn Ht _ _ Hb|n t s v Ht Hr Hv]; subst;
    [|name_cases Hn; cbn in Ht; injection Ht as <-; discriminate Hb|discriminate Hr].
  name_cases Hn. cbn in Ht. injection Ht as <-. injection Hb as <-.
  apply eventually_step.
  { eexists. eapply (gstep_finish _ _ "test"); [reflexivity|reflexivity|].
    cbn. by destruct karma_result. }
  intros s2 Hs2.
  inversion Hs2 as [n t s fs' Hn _ Hw _ _|n t s e fs' Hn _ Hw _ _|n t s v Ht Hr Hv]; subst;
    [name_cases Hn; discriminate Hw ..|].
  find_task_cases Ht; try discriminate Hr.
  apply eventually_now. cbn in Hv. destruct karma_result; by injection Hv as <-.
Qed.
End gulp_runs.

(** ** The repository's own tree *)

(** [gulp build] on the repository replaces the bundle [dist/ngCsp.js],
    which defines [Csp] and [CspManager], by [src/ngCsp.js] alone, which
    only defines [CspManager] and calls [Csp()]. *)
Example build_on_repository uglify_js d g m b t :
  exists out fs', build_stream uglify_js (repo_tree d g m b t) = Done out fs' /\
    fs_lookup fs' "dist/ngCsp.js" = Some m /\
    fs_lookup fs' "dist/ngCsp.min.js" = Some (uglify_js m).
Proof.
  rewrite build_stream_run by discriminate. do 2 eexists. split; [reflexivity|].
  split; [by rewrite fs_lookup_write_ne, fs_lookup_write_eq|apply fs_lookup_write_eq].
Qed.

Lemma build_writes_witness :
  src_files (GStar "src" ".js") (repo_tree "function Csp() {}" "" "function CspManager() {}" "" "") <> [] /\
  exists out fs', build_stream (fun c => c) (repo_tree "function Csp() {}" "" "function CspManager() {}" "" "") = Done out fs' /\
    fs_lookup fs' "dist/ngCsp.js" = Some "function CspManager() {}" /\
    fs_lookup fs' "dist/ngCsp.min.js" = Some "function CspManager() {}" /\
    forall p, p <> "dist/ngCsp.js" -> p <> "dist/ngCsp.min.js" ->
      fs_lookup fs' p = fs_lookup (repo_tree "function Csp() {}" "" "function CspManager() {}" "" "") p.
Proof.
  split; [vm_compute; discriminate|].
  apply (build_writes (fun c => c) (repo_tree "function Csp() {}" "" "function CspManager() {}" "" "")).
  vm_compute. discriminate.
Defined.

Lemma minify_reads_nothing_witness :
  fs_lookup (repo_tree "function Csp() {}" "" "function CspManager() {}" "" "") "dist.ngCsp.js" = None /\
  minify_stream (fun c => c) (repo_tree "function Csp() {}" "" "function CspManager() {}" "" "") =
    Done [] (repo_tree "function Csp() {}" "" "function CspManager() {}" "" "").
Proof.
  split; [reflexivity|]. apply minify_reads_nothing. reflexivity.
Defined.
